(* ===== verification/_CoqProject ===== *)
-Q . S2P
Prelude.v
Tables.v
GoBase.v
Domain.v
Schema.v
Effects.v
Logic.v
RelyGuarantee.v
Postgres.v
GoStrings.v
Platform.v
Service.v
Transport.v
Config.v
Process.v
Footprint.v
Integrity.v
Repositories.v
ServiceFacts.v
DeletionWorker.v
Demo.v
Healthy.v
Contracts.v
Supplies.v
Sessions.v
Requests.v
Coherence.v
OtpGate.v
Passwords.v
Deletion.v
Worker.v
Queue.v
Drain.v
Tokens.v
Clients.v
Accounts.v
Journeys.v
RowTypes.v
Typing.v
Isolation.v
Outsiders.v
Lifecycle.v
Lease.v
Races.v
Endpoints.v
Wiring.v
Startup.v
