(* ===== verification/Prelude.v ===== *)
(** * beebase-auth-service: a verification library

    The service under src/ registers accounts, logs users in with a password
    and a time-based one-time code, keeps their sessions (refresh tokens in
    PostgreSQL, the one active session of each user in Redis), resets
    passwords, and deletes accounts together with the data other services
    hold. This library models its transport, application, domain, repository
    and platform packages and its three commands as executable definitions
    and proves what makes them correct.

    ** The parts and how they interact

    The HTTP transport calls a use case of internal/application/auth; the use
    case reads and writes through the repositories of
    internal/repository/postgres, signs tokens, hashes passwords and checks
    codes through internal/platform, keeps the active session in the session
    store (beebase-common's sessionstore, on Redis), and asks the media and
    apiary services to delete data over HTTP. A background worker drains the
    queue of deletion jobs that one of the use cases fills.

    A piece of running code is a value of type [Effects.prog]: a tree of the
    effects it performs. [go A] is a program that returns an error or an [A];
    [let? x := p in q] is Go's "x, err := p" followed by the return of a
    non-nil [err]. The meaning
    of an effect is [Effects.handle] on a [World]: the database, the session
    store, the requests sent and cleanups started so far, and how many clock
    readings, identifiers, random strings and calls have been consumed.
    Everything the code does not decide (readings of the clock, randomness,
    answers of other services, which call fails and whether the database had
    applied it) is taken from an arbitrary instance of [Effects.Env], so a
    theorem over all instances covers every fault at every point. [run]
    executes one program alone; [sched_run] and [pool_step] interleave the
    effects of several, one statement at a time, which is how the goroutines
    of the server share the database.

    ** The files

    - Prelude: integers at machine width, lists and finite maps, the hint
      database [beebase]. Tables: keys, unique columns and foreign keys as
      predicates on maps, and what preserves them.
    - GoBase: [time.Time] and [time.Duration] as nanoseconds, the errors of
      the domain and application packages ([error], with [%w] wrapping and
      [errors.Is]). GoStrings: strings, unicode/utf8, hex and base64 on bytes.
    - Domain: one Module per package of internal/domain ([User], [Token],
      [LoginChallenge], [Totp], [PasswordReset]), each entity a Record with
      the constructor and methods of the Go type.
    - Schema: the tables of migrations/ as maps ([Database]), one constructor
      of [stmt] per SQL statement and its meaning [exec]: UNIQUE violations,
      foreign keys with ON DELETE CASCADE, INT overflow, WHERE clauses,
      TIMESTAMPTZ precision.
    - Effects and Logic: programs, their execution, weakest preconditions,
      the inversion lemmas of successful runs and the footprint principle
      (what all effects of a program preserve, the program preserves, alone or
      interleaved). RelyGuarantee: the logic for interleaved programs: [rg]
      (conditions kept by what the others do) [returns] (properties of
      returned values under an invariant) and [records] (an invariant with
      auxiliary state that only grows), with their rules for pools.
    - Postgres: one Module per repository of internal/repository/postgres,
      among them the two transactions of deletion_store.go, statement by
      statement, with rollback and failing commits. Repositories states what a
      successful call of each method tells. Contracts: the repository
      interfaces of internal/domain as types of calls, what each call is
      documented to do ([contract]), the class [Repository] that joins an
      implementation to its contract, and an instance per port. Queue: the
      same for the two ports of the deletion queue, with calls of several
      stages. Clients: the same for the ports of the other services
      ([ServicePort]), and that the media client's query names exactly the ids
      of the call.
    - Platform: tokenhash, totp, totpsecret, password, jwtauth, mediaclient,
      apiaryclient and deletionclient.
    - Service: [AuthService] (the Go type Service) and every method of
      service.go, service_totp.go and service_password_reset.go.
      DeletionWorker: deletion_worker.go.
    - Transport: the DTOs, handlers, error answers and routes of
      internal/transport/http; a handler returns its calls on the response
      writer. Config: config.go, the key parsing of jwtauth, and [wire], the
      part of cmd/server/main.go that builds the service. Process: the rest
      of cmd/server, cmd/dbclear with clear.go, cmd/keygen and the connection
      pool's constructor, as lists of actions (acquire, release, start,
      print, send a statement).
    - Footprint and Integrity: which tables a program can write; the schema's
      invariant [db_ok]. ServiceFacts, Healthy: lemmas on the building blocks
      ([issueSession], [verifyOTP], [beginTOTPSetup], [end_sessions]) for
      arbitrary runs and for runs in which no call fails. Supplies: what a run
      that is to succeed draws ([working]: no call and no library fails;
      [unused]: the hash of the token drawn next is in no row). [reading i w]
      is the i-th reading of the clock from [w] on, so that a theorem can say
      at which reading of a request a code or a deadline was judged.
    - Demo: concrete instances of every parameter with their laws proved, in
      which the witnesses run the handlers.
    - RowTypes: what the columns of a row may hold together ([user_ty],
      [cred_ty], [flow_ty], ...) and that statements keep it. Isolation: what
      belongs to one account ([kept_db]) and which statements leave it alone,
      relative to a record of the flows created meanwhile.
    - The properties: Contracts, Sessions, Requests, Coherence, OtpGate,
      Passwords, Deletion, Worker, Queue, Drain, Tokens, Clients, Accounts,
      Journeys, Typing, Outsiders, Lifecycle, Lease, Races,
      Endpoints, Wiring, Startup.

    ** What the theorems show

    - Contracts: every method of the five repositories refines the contract
      of its port, on every branch and under every fault. Queue: so do the
      request for a deletion (all or nothing) and the calls of the worker on
      its jobs, which may be cut short between two statements. Clients: each
      call to another service is one request, and a media id is accepted only
      if it is the caller's.
    - Sessions: what a session returned by SetupVerifyOTP, LoginVerifyOTP or
      Refresh required and left behind (challenge or token used up, one live
      refresh token, one active session, nothing else touched), and when a
      token is sure to be refreshed; what the reuse of a revoked refresh token
      revokes; what Logout ends. Coherence: with requests one after the other,
      each of which may stop midway, no account ever has two sessions.
    - OtpGate: [verifyOTP] refines a three-field automaton ([Gate]: failures,
      lock-out, last accepted time step); from it, that guessing locks the
      account out and that no code is accepted twice; and that the demo
      account's fixed code resets the replay guard.
    - Passwords: success of ChangePassword and of the three steps of the
      reset; a reset token is used once; the public endpoints answer
      alike for every address, cap the attempts of a flow and cannot lock an
      account out.
    - Accounts: what Login, Register and UpdateProfile did when they
      succeeded, and the refusal of taken addresses. Journeys: the sequences
      of requests by which a user registers, signs in and replaces a forgotten
      password succeed, with other requests in between that leave the
      account, challenge or flow at hand as it was.
    - Deletion and Worker: deleting an account ends its sessions and puts the
      request on file; one run of the worker deletes an account only after
      its services confirmed, and does when they do; the retry delay is not
      honoured by the queue. Drain: the ticker loop empties the queue.
    - Tokens: the TOTP acceptance window, secret encryption and opaque-token
      round trips.
    - For any pool of concurrent requests and workers, one effect at a time
      and under any faults. Requests: no session starts unless one of them is
      a second-factor or refresh request. Typing: the schema's invariant
      holds, every stored row has its type, and the failure counters stay
      within their caps. Outsiders: requests that hold none of an account's
      secrets change nothing of it, be they resets asked for it and codes
      guessed for them. Lifecycle: an account goes from active to marked to
      gone, the last step only after every service erased its data. Lease:
      while the lease of a claimed job runs, nobody but its holder works on
      the job or deletes its account, unless a worker is still busy with an
      earlier claim of it (which Races shows to happen).
    - Endpoints: the same as a client sees it: a handler does nothing for a
      malformed body; the refresh cookie holds the user's one live token;
      refused logins get one answer (timing is not modelled); what an accepted
      profile update stored; and the password bcrypt does not take.
      Wiring and Startup: a server that starts has its keys, its variables
      and a client for every service, and releases what it acquired on every
      path; dbclear asks before it truncates, and truncates the application's
      tables only; the server accepts the key that keygen prints.
    - Races: executions of two simultaneous requests, or with one failing
      call, in which a single-use value is used twice; that a session
      survives a logout that failed half way; and a worker that goes on under
      another's lease.

    "When a use case succeeds" theorems hold for every environment, faults
    included; [healthy] (no call fails) or [working] (nor does a library) is
    assumed only where a theorem says that a result is produced.

    ** Bounds and fuel

    Programs are well-founded trees and [run] is structural: that a handler
    comes to an end is built into the model, not a theorem of it; loops over
    rows and services recurse on the list the query returned. [trim_left] gets
    the length of the string as fuel and [runes] its number of bytes: every
    round consumes at least a byte. The worker's endless [Run] is modelled for
    any number of ticks. The schedules of Races give each program 40 turns,
    more than the effects it performs; the theorems check that the requests
    have returned and the job is completed. Go's [int] wraps at 64 bits in
    [Totp.RecordFailure] and the counters of flows; INT columns refuse values
    outside 32 bits.

    ** Parameters

    [PgTime] (rounding of timestamps by PostgreSQL), [SessionStore] (the
    session store of beebase-common), [Lib] (bcrypt, AES-GCM, SHA-256, Ed25519
    JWT signing, pquerna/otp, printing and parsing of UUIDs, parsing of URLs),
    [Unicode] (case and digits beyond ASCII), [Wire] (JSON decoding, address
    parsing, the codes httpx exports), [Pinger] (the pool's ping), [Runtime]
    (duration parsing, the order of map iteration), [Boot] (the connections,
    the JWKS handler, the HTTP server and the signal that ends it) and
    [Catalog] (pg_tables, identifier quoting, URL redaction, the failures
    dbclear meets). What the code relies on is stated as laws: [PgTimeLaws],
    [SessionStoreLaws] (an activated session replaces the one before),
    [BcryptLaws], [bcrypt_limit], [AeadLaws] and [rand_full] (the random
    source fills the buffer it is given); [fresh_ids] and [unmarked] say that
    new UUIDs are not the account's; [services_up] and [media_honest] what the
    other services answer.

    ** Not modelled, and the plan

    Left out: logging, the .env file, the internals of the HTTP server, of the
    signal handler and of the ticker, what httpx writes for a call, and the
    middleware of chi (request ids, recovery, the 30-second timeout).
    RequireAuth belongs to beebase-common: its verdict is an argument of
    [ServeHTTP]. Of the interfaces of ports.go, those of the queue and of the
    other services have their contracts in Queue and Clients; PasswordHasher,
    AccessTokenIssuer and GenerationAccessTokenIssuer are used through their
    only implementations, and SessionActivator, whose implementation is
    outside the repository, is the parameter [SessionStore]. The use cases
    call the repositories directly, not through [Repository]. A client's
    timeout is one of the errors [http_do] may answer with.

    Coherence is about requests in sequence: with requests at the same time it
    fails, as Races shows. A holder may outlive its lease (seven calls of up
    to 25 seconds each take longer than two minutes) and the code does not
    fence its later updates: Lease excludes that case, Races shows it. That
    normalising an address twice is normalising it once is not proved: it
    would take laws of [Unicode] (an idempotent case mapping, no letter mapped
    to a space) that nothing else needs. Every function of the packages under
    internal/ and of the commands has its definition; what the map leaves out
    of the Go files is comments, imports, and the declarations of types and
    constants that appear in the definitions as they are used. *)From stdpp Require Export base gmap strings list fin_maps.
From Stdlib Require Export ZArith Lia.

#[export] Set Default Goal Selector "!".

(** ** Hint database and tactics of the development *)

Create HintDb beebase discriminated.

(** [cases]: split on the innermost scrutinee of the goal, keeping the
    equation. *)
Ltac cases :=
  repeat (case_match; simplify_eq/=; try done).

(** ** Integers at machine width *)
Module Int.
(** Two's complement wrap-around of Go's [int] and [int64] (64-bit
    platforms). *)
Definition wrap64 (z : Z) : Z :=
  ((z + 2 ^ 63) `mod` 2 ^ 64 - 2 ^ 63)%Z.

Definition in_int64 (z : Z) : Prop := (- 2 ^ 63 ≤ z < 2 ^ 63)%Z.

(** Conversion [uint64(z)]. *)
Definition uint64 (z : Z) : Z := (z `mod` 2 ^ 64)%Z.

(** The range of PostgreSQL's [INT] columns. *)
Definition int4_ok (z : Z) : bool :=
  bool_decide (- 2 ^ 31 ≤ z < 2 ^ 31)%Z.

Lemma wrap64_id z : in_int64 z → wrap64 z = z.
Proof.
  unfold in_int64, wrap64. intros H.
  rewrite Z.mod_small; lia.
Qed.

Lemma wrap64_range z : in_int64 (wrap64 z).
Proof.
  unfold in_int64, wrap64.
  pose proof (Z.mod_pos_bound (z + 2 ^ 63) (2 ^ 64)). lia.
Qed.

Lemma uint64_id z : (0 ≤ z < 2 ^ 64)%Z → uint64 z = z.
Proof. apply Z.mod_small. Qed.
End Int.

(** ** Tables: lookups by a predicate in a finite map *)
Section tables.
Context {K V : Type} `{Countable K}.
Implicit Types (m : gmap K V) (P : V → bool).

(** The first row satisfying [P], as [QueryRow] returns it. *)
Definition select_one (P : V → bool) (m : gmap K V) : option V :=
  List.find P (map_to_list m).*2.

Lemma select_one_Some P m v :
  select_one P m = Some v → P v = true ∧ ∃ k, m !! k = Some v.
Proof.
  intros [Hin Hp]%List.find_some. split; [done|].
  apply list_elem_of_In, list_elem_of_fmap in Hin as ([k v'] & -> & Hin).
  exists k. by apply elem_of_map_to_list.
Qed.

Lemma select_one_None P m :
  select_one P m = None ↔ ∀ k v, m !! k = Some v → P v = false.
Proof.
  split.
  - intros Hn k v Hkv. eapply List.find_none in Hn; [done|].
    apply list_elem_of_In, list_elem_of_fmap. exists (k, v).
    split; [done|]. by apply elem_of_map_to_list.
  - intros Hall. destruct (select_one P m) as [v|] eqn:E; [|done].
    apply select_one_Some in E as [Hp [k Hk]].
    rewrite (Hall _ _ Hk) in Hp. done.
Qed.

(** A column that is unique makes the lookup deterministic. *)
Lemma select_one_unique P m k v :
  m !! k = Some v → P v = true →
  (∀ k' v', m !! k' = Some v' → P v' = true → v' = v) →
  select_one P m = Some v.
Proof.
  intros Hk Hp Huniq. destruct (select_one P m) as [v'|] eqn:E.
  - apply select_one_Some in E as [Hp' [k' Hk']].
    by rewrite (Huniq _ _ Hk' Hp').
  - rewrite select_one_None in E. rewrite (E _ _ Hk) in Hp. done.
Qed.

(** Does some row satisfy [P]? *)
Definition any_row (P : V → bool) (m : gmap K V) : bool :=
  List.existsb P (map_to_list m).*2.

Lemma any_row_false P m :
  any_row P m = false ↔ ∀ k v, m !! k = Some v → P v = false.
Proof.
  unfold any_row. rewrite <-not_true_iff_false, List.existsb_exists. split.
  - intros Hn k v Hkv. destruct (P v) eqn:Hp; [|done]. exfalso.
    apply Hn. exists v. split; [|done].
    apply list_elem_of_In, list_elem_of_fmap. exists (k, v).
    split; [done|]. by apply elem_of_map_to_list.
  - intros Hall (v & Hin & Hp).
    apply list_elem_of_In, list_elem_of_fmap in Hin as ([k v'] & -> & Hin).
    apply elem_of_map_to_list in Hin. simpl in Hp. by rewrite (Hall _ _ Hin) in Hp.
Qed.

Lemma any_row_true P m :
  any_row P m = true ↔ ∃ k v, m !! k = Some v ∧ P v = true.
Proof.
  split.
  - intros (v & Hin & Hp)%List.existsb_exists.
    apply list_elem_of_In, list_elem_of_fmap in Hin as ([k v'] & -> & Hin).
    apply elem_of_map_to_list in Hin. eauto.
  - intros (k & v & Hk & Hp). apply not_false_is_true. intros Hn.
    rewrite any_row_false in Hn. rewrite (Hn _ _ Hk) in Hp. done.
Qed.
End tables.
