(* ===== verification/Tables.v ===== *)
(** * Table constraints

    Primary keys, UNIQUE columns and foreign keys as predicates on finite
    maps, and their preservation by the three ways a statement changes a
    table: inserting a row, updating rows in place, deleting rows. *)
From S2P Require Import Prelude.

Section constraints.
Context {K V : Type} `{Countable K}.
Implicit Types (m : gmap K V).

(** The row stored under [k] has key [k]. *)
Definition keyed (f : V → K) m : Prop := ∀ k v, m !! k = Some v → f v = k.

(** The column [f] (NULL is [None]) is UNIQUE. *)
Definition unique {C} (f : V → option C) m : Prop :=
  ∀ k1 k2 v1 v2 c, m !! k1 = Some v1 → m !! k2 = Some v2 →
    f v1 = Some c → f v2 = Some c → k1 = k2.

(** Every row satisfies [P]. *)
Definition every (P : V → Prop) m : Prop := ∀ k v, m !! k = Some v → P v.

(** The nullable column [f] references the keys of [refs]. *)
Definition references {K' V'} `{Countable K'} (f : V → option K')
    (target : gmap K' V') m : Prop :=
  ∀ k v r, m !! k = Some v → f v = Some r → is_Some (target !! r).

(** A decidable property of the rows, by evaluation. *)
Lemma every_eval P `{!∀ v, Decision (P v)} m :
  bool_decide (map_Forall (λ _ v, P v) m) = true → every P m.
Proof. intros Hm%bool_decide_eq_true k v Hk. exact (Hm k v Hk). Qed.

(** Looking a row up by the value of a UNIQUE column. *)
Lemma select_one_row {C} (f : V → option C) (P : V → bool) c m k v :
  (∀ v', P v' = true → f v' = Some c) → unique f m →
  m !! k = Some v → P v = true → select_one P m = Some v.
Proof.
  intros HP Hu Hk Hv. apply (select_one_unique _ _ k); [done..|].
  intros k' v' Hk' Hv'. assert (k' = k) as ->; [|congruence].
  eapply Hu; [done|done|by apply HP..].
Qed.

Lemma keyed_empty f : keyed f ∅.
Proof. intros k v. by rewrite lookup_empty. Qed.
Lemma unique_empty {C} (f : V → option C) : unique f ∅.
Proof. intros k1 k2 v1 v2 c. by rewrite lookup_empty. Qed.
Lemma every_empty P : every P ∅.
Proof. intros k v. by rewrite lookup_empty. Qed.
Lemma references_empty {K' V'} `{Countable K'} f (t : gmap K' V') :
  references f t ∅.
Proof. intros k v r. by rewrite lookup_empty. Qed.

Lemma keyed_insert f m k v : keyed f m → f v = k → keyed f (<[k:=v]> m).
Proof.
  intros Hm Hv k' v'. destruct (decide (k = k')) as [<-|Hne].
  - rewrite lookup_insert_eq. by intros [= <-].
  - rewrite lookup_insert_ne by done. apply Hm.
Qed.
Lemma keyed_fmap f m g :
  (∀ v, f (g v) = f v) → keyed f m → keyed f (g <$> m).
Proof.
  intros Hg Hm k v. rewrite lookup_fmap_Some. intros (v0 & <- & Hv0).
  rewrite Hg. by apply Hm.
Qed.
Lemma keyed_filter f m (P : K * V → Prop) `{!∀ x, Decision (P x)} :
  keyed f m → keyed f (filter P m).
Proof. intros Hm k v [Hv _]%map_lookup_filter_Some. by apply Hm. Qed.
Lemma keyed_delete f m k : keyed f m → keyed f (delete k m).
Proof. intros Hm k' v [_ Hv]%lookup_delete_Some. by apply Hm. Qed.

Lemma every_insert P m k v : every P m → P v → every P (<[k:=v]> m).
Proof.
  intros Hm Hv k' v'. destruct (decide (k = k')) as [<-|Hne].
  - rewrite lookup_insert_eq. by intros [= <-].
  - rewrite lookup_insert_ne by done. apply Hm.
Qed.
Lemma every_fmap (P : V → Prop) m g :
  (∀ v, P v → P (g v)) → every P m → every P (g <$> m).
Proof.
  intros Hg Hm k v. rewrite lookup_fmap_Some. intros (v0 & <- & Hv0).
  eauto.
Qed.
Lemma every_filter Q m (P : K * V → Prop) `{!∀ x, Decision (P x)} :
  every Q m → every Q (filter P m).
Proof. intros Hm k v [Hv _]%map_lookup_filter_Some. by eapply Hm. Qed.
Lemma every_delete P m k : every P m → every P (delete k m).
Proof. intros Hm k' v [_ Hv]%lookup_delete_Some. by eapply Hm. Qed.

(** Inserting (or replacing) a row whose value no other row holds. *)
Lemma unique_insert {C} (f : V → option C) m k v :
  unique f m →
  (∀ c k' v', f v = Some c → m !! k' = Some v' → f v' = Some c → k' = k) →
  unique f (<[k:=v]> m).
Proof.
  intros Hm Hv k1 k2 v1 v2 c.
  destruct (decide (k = k1)) as [<-|H1], (decide (k = k2)) as [<-|H2].
  - done.
  - rewrite lookup_insert_eq, lookup_insert_ne by done.
    intros [= <-] ???. symmetry. by eapply Hv.
  - rewrite lookup_insert_ne, lookup_insert_eq by done.
    intros ? [= <-] ??. by eapply Hv.
  - rewrite !lookup_insert_ne by done. apply Hm.
Qed.
Lemma unique_update {C} (f : V → option C) m k old v :
  unique f m → m !! k = Some old → f v = f old → unique f (<[k:=v]> m).
Proof.
  intros Hm Hk Hv. apply unique_insert; [done|].
  intros c k' v' Hc Hk' Hc'. rewrite Hv in Hc. by eapply Hm.
Qed.
Lemma unique_fmap {C} (f : V → option C) m g :
  (∀ v, f (g v) = f v) → unique f m → unique f (g <$> m).
Proof.
  intros Hg Hm k1 k2 v1 v2 c. rewrite !lookup_fmap_Some.
  intros (u1 & <- & Hu1) (u2 & <- & Hu2). rewrite !Hg. by apply Hm.
Qed.
Lemma unique_filter {C} (f : V → option C) m (P : K * V → Prop)
    `{!∀ x, Decision (P x)} :
  unique f m → unique f (filter P m).
Proof.
  intros Hm k1 k2 v1 v2 c [H1 _]%map_lookup_filter_Some
    [H2 _]%map_lookup_filter_Some. by apply Hm.
Qed.
Lemma unique_delete {C} (f : V → option C) m k :
  unique f m → unique f (delete k m).
Proof.
  intros Hm k1 k2 v1 v2 c [_ H1]%lookup_delete_Some
    [_ H2]%lookup_delete_Some. by apply Hm.
Qed.

Section refs.
Context {K' V' : Type} `{Countable K'}.
Implicit Types (t : gmap K' V').

Lemma references_insert f t m k v :
  references f t m → (∀ r, f v = Some r → is_Some (t !! r)) →
  references f t (<[k:=v]> m).
Proof.
  intros Hm Hv k' v' r. destruct (decide (k = k')) as [<-|Hne].
  - rewrite lookup_insert_eq. intros [= <-]. apply Hv.
  - rewrite lookup_insert_ne by done. apply Hm.
Qed.
Lemma references_update f t m k old v :
  references f t m → m !! k = Some old → f v = f old →
  references f t (<[k:=v]> m).
Proof.
  intros Hm Hk Hv. apply references_insert; [done|].
  intros r. rewrite Hv. by apply Hm with k.
Qed.
Lemma references_fmap f t m g :
  (∀ v, f (g v) = f v) → references f t m → references f t (g <$> m).
Proof.
  intros Hg Hm k v r. rewrite lookup_fmap_Some. intros (v0 & <- & Hv0).
  rewrite Hg. by eapply Hm.
Qed.
(** The referenced table keeps its keys. *)
Lemma references_target f t t' m :
  references f t m → (∀ r, is_Some (t !! r) → is_Some (t' !! r)) →
  references f t' m.
Proof. intros Hm Ht k v r Hk Hr. eapply Ht, Hm; eauto. Qed.
(** ON DELETE CASCADE. *)
Lemma references_cascade f t m x (P : K * V → Prop)
    `{!∀ y, Decision (P y)} :
  references f t m → (∀ k v, P (k, v) → f v ≠ Some x) →
  references f (delete x t) (filter P m).
Proof.
  intros Hm HP k v r [Hk Hp]%map_lookup_filter_Some Hr.
  rewrite lookup_delete_ne; [by eapply Hm|].
  intros ->. by eapply HP.
Qed.
End refs.
End constraints.

Lemma is_Some_insert {K V} `{Countable K} (m : gmap K V) k v r :
  is_Some (m !! r) → is_Some (<[k:=v]> m !! r).
Proof. rewrite !lookup_insert_is_Some'. tauto. Qed.

Lemma is_Some_insert_inv {K V} `{Countable K} (m : gmap K V) k v r :
  is_Some (m !! k) → is_Some (<[k:=v]> m !! r) → is_Some (m !! r).
Proof. intros Hk. rewrite lookup_insert_is_Some'. naive_solver. Qed.

#[export] Hint Resolve keyed_empty unique_empty every_empty references_empty
  keyed_insert keyed_fmap keyed_filter keyed_delete
  every_insert every_fmap every_filter every_delete
  unique_fmap unique_filter unique_delete
  references_insert references_fmap is_Some_insert : beebase.
