(* ===== verification/GoBase.v ===== *)
(** * Go values: errors, results, time

    The error values of the program (the [errors.New] sentinels of the
    domain and application packages, the driver's errors the repositories
    translate, wrapping by [fmt.Errorf] with [%w]), the result of a fallible
    call, and the readings of [time.Time] and [time.Duration] as integers of
    nanoseconds. *)
From S2P Require Import Prelude.

(** Identifiers ([uuid.UUID], a 128-bit value): the code only generates,
    compares, stores and prints them. *)
Abbreviation uuid := N.

(** ** Time *)

(** An instant: nanoseconds since the Unix epoch. A [time.Duration] is also
    a number of nanoseconds. *)
Abbreviation time := Z.
Abbreviation duration := Z.

Definition Microsecond : duration := 1000%Z.
Definition Second : duration := 1000000000%Z.
Definition Minute : duration := (60 * Second)%Z.

(** [t.After(u)], [t.Before(u)], [t.Add(d)], [t.Unix()]. *)
Definition After (t u : time) : bool := bool_decide (u < t)%Z.
Definition Before (t u : time) : bool := bool_decide (t < u)%Z.
Definition TimeAdd (t : time) (d : duration) : time := (t + d)%Z.
Definition Unix (t : time) : Z := (t / Second)%Z.

(** ** Errors *)

(** Every [errors.New] of the domain packages and of application/auth is a
    distinct value; [ErrNoRows] and [PgError] are the driver's; [Errorf] is
    an error value made by [fmt.Errorf] without [%w] (or by a library) that
    no sentinel equals; [Wrap msg e] is [fmt.Errorf("msg: %w", e)]. *)
Inductive error :=
  (* internal/domain/*/errors.go *)
  | User_ErrNotFound
  | User_ErrEmailTaken
  | Token_ErrNotFound
  | Totp_ErrNotFound
  | LoginChallenge_ErrNotFound
  | PasswordReset_ErrNotFound
  (* internal/application/auth/errors.go *)
  | ErrInvalidCredentials
  | ErrInvalidRefreshToken
  | ErrAvatarNotFound
  | ErrOTPInvalid
  | ErrOTPLocked
  | ErrSetupTokenInvalid
  | ErrChallengeInvalid
  | ErrCurrentPasswordInvalid
  | ErrPasswordResetFlowInvalid
  | ErrPasswordResetTokenInvalid
  (* pgx *)
  | ErrNoRows
  | PgError (code : string)
  (* fmt.Errorf *)
  | Errorf (msg : string)
  | Wrap (msg : string) (e : error).

#[export] Instance error_eq_dec : EqDecision error.
Proof. solve_decision. Defined.

(** [errors.Is(err, target)]: [target] is on [err]'s chain of wrapped
    errors. *)
Fixpoint errors_Is (err target : error) : bool :=
  bool_decide (err = target) ||
  match err with
  | Wrap _ e => errors_Is e target
  | _ => false
  end.

(** [errors.As(err, &pgErr)] followed by reading [pgErr.Code]. *)
Fixpoint as_PgError (err : error) : option string :=
  match err with
  | PgError code => Some code
  | Wrap _ e => as_PgError e
  | _ => None
  end.

(** [err.Error()]. *)
Fixpoint Error_text (e : error) : string :=
  match e with
  | User_ErrNotFound => "user not found"
  | User_ErrEmailTaken => "email already registered"
  | Token_ErrNotFound => "refresh token not found"
  | Totp_ErrNotFound => "totp credential not found"
  | LoginChallenge_ErrNotFound => "login challenge not found"
  | PasswordReset_ErrNotFound => "password reset flow not found"
  | ErrInvalidCredentials => "invalid email or password"
  | ErrInvalidRefreshToken => "invalid refresh token"
  | ErrAvatarNotFound => "avatar not found"
  | ErrOTPInvalid => "invalid otp code"
  | ErrOTPLocked => "too many failed otp attempts"
  | ErrSetupTokenInvalid => "invalid or expired setup token"
  | ErrChallengeInvalid => "invalid or expired login challenge"
  | ErrCurrentPasswordInvalid => "current password is incorrect"
  | ErrPasswordResetFlowInvalid => "invalid or expired password reset flow"
  | ErrPasswordResetTokenInvalid => "invalid or expired password reset token"
  | ErrNoRows => "no rows in result set"
  | PgError code => "(SQLSTATE " +:+ code +:+ ")"
  | Errorf msg => msg
  | Wrap msg e => msg +:+ ": " +:+ Error_text e
  end.

(** ** Results *)

(** A fallible call's [(T, error)]: the value is only read when the error is
    nil. *)
Inductive result (A : Type) :=
  | Ok (a : A)
  | Err (e : error).
#[global] Arguments Ok {A} a.
#[global] Arguments Err {A} e.

#[export] Instance result_eq_dec {A} `{EqDecision A} : EqDecision (result A).
Proof. solve_decision. Defined.

Definition is_Ok {A} (r : result A) : bool :=
  match r with Ok _ => true | Err _ => false end.

(** ** Lemmas *)

Lemma errors_Is_refl e : errors_Is e e = true.
Proof. destruct e; apply orb_true_iff; left; by apply bool_decide_eq_true. Qed.

Lemma errors_Is_wrap m e t :
  errors_Is e t = true → errors_Is (Wrap m e) t = true.
Proof. intros H. simpl. rewrite H. apply orb_true_r. Qed.

(** A sentinel that is not itself a wrapper is found in a wrapped error
    exactly when it is found in the error it wraps. *)
Lemma errors_Is_wrap_iff m e t :
  (∀ m' e', t ≠ Wrap m' e') →
  errors_Is (Wrap m e) t = errors_Is e t.
Proof.
  intros Ht. unfold errors_Is at 1. fold errors_Is.
  rewrite bool_decide_eq_false_2; [done|]. intros <-. by eapply Ht.
Qed.

Lemma After_true t u : After t u = true ↔ (u < t)%Z.
Proof. apply bool_decide_eq_true. Qed.
Lemma After_false t u : After t u = false ↔ (t ≤ u)%Z.
Proof. unfold After. rewrite bool_decide_eq_false. lia. Qed.
Lemma Before_true t u : Before t u = true ↔ (t < u)%Z.
Proof. apply bool_decide_eq_true. Qed.
Lemma Before_false t u : Before t u = false ↔ (u ≤ t)%Z.
Proof. unfold Before. rewrite bool_decide_eq_false. lia. Qed.

#[export] Hint Resolve errors_Is_refl errors_Is_wrap : beebase.
