(* ===== verification/Domain.v ===== *)
(** * The domain entities (internal/domain)

    One Module per package: the entity as a Record with the source's fields,
    its constructor and its methods. A method that reads [time.Now().UTC()]
    takes the reading as an argument [now] (two readings, two arguments, in
    the order of the code); [New] also takes the fresh [uuid.New()]. A method
    with a pointer receiver returns the mutated entity. *)
From S2P Require Import Prelude GoBase.

(** ** internal/domain/user *)
Module User.
Record User := mkUser {
  ID : uuid;
  Email : string;
  PasswordHash : string;
  FirstName : string;
  LastName : string;
  AvatarMediaID : option uuid;
  CreatedAt : time;
  UpdatedAt : time;
  DeletionStatus : string
}.

Definition DeletionStatusActive : string := "active".
Definition DeletionStatusPending : string := "deletion_pending".

Definition New (email passwordHash : string) (now : time) (id : uuid) : User :=
  {| ID := id; Email := email; PasswordHash := passwordHash;
     FirstName := ""; LastName := ""; AvatarMediaID := None;
     CreatedAt := now; UpdatedAt := now;
     DeletionStatus := DeletionStatusActive |}.

Definition UpdateProfile (u : User) (firstName lastName : string)
    (avatarMediaID : option uuid) (now : time) : User :=
  {| ID := u.(ID); Email := u.(Email); PasswordHash := u.(PasswordHash);
     FirstName := firstName; LastName := lastName;
     AvatarMediaID := avatarMediaID;
     CreatedAt := u.(CreatedAt); UpdatedAt := now;
     DeletionStatus := u.(DeletionStatus) |}.

Definition ChangePassword (u : User) (newHash : string) (now : time) : User :=
  {| ID := u.(ID); Email := u.(Email); PasswordHash := newHash;
     FirstName := u.(FirstName); LastName := u.(LastName);
     AvatarMediaID := u.(AvatarMediaID);
     CreatedAt := u.(CreatedAt); UpdatedAt := now;
     DeletionStatus := u.(DeletionStatus) |}.

Definition is_pending (u : User) : bool :=
  bool_decide (u.(DeletionStatus) = DeletionStatusPending).
End User.

(** ** internal/domain/token *)
Module Token.
Record RefreshToken := mkRefreshToken {
  ID : uuid;
  UserID : uuid;
  TokenHash : string;
  ExpiresAt : time;
  CreatedAt : time;
  RevokedAt : option time
}.

Definition New (userID : uuid) (tokenHash : string) (ttl : duration)
    (now : time) (id : uuid) : RefreshToken :=
  {| ID := id; UserID := userID; TokenHash := tokenHash;
     ExpiresAt := TimeAdd now ttl; CreatedAt := now; RevokedAt := None |}.

Definition IsExpired (t : RefreshToken) (now : time) : bool :=
  After now t.(ExpiresAt).

Definition IsRevoked (t : RefreshToken) : bool :=
  bool_decide (is_Some t.(RevokedAt)).
End Token.

(** ** internal/domain/loginchallenge *)
Module LoginChallenge.
Record LoginChallenge := mkLoginChallenge {
  ID : uuid;
  UserID : uuid;
  TokenHash : string;
  ExpiresAt : time;
  CreatedAt : time;
  ConsumedAt : option time
}.

Definition New (userID : uuid) (tokenHash : string) (ttl : duration)
    (now : time) (id : uuid) : LoginChallenge :=
  {| ID := id; UserID := userID; TokenHash := tokenHash;
     ExpiresAt := TimeAdd now ttl; CreatedAt := now; ConsumedAt := None |}.

Definition IsExpired (c : LoginChallenge) (now : time) : bool :=
  After now c.(ExpiresAt).

Definition IsConsumed (c : LoginChallenge) : bool :=
  bool_decide (is_Some c.(ConsumedAt)).
End LoginChallenge.

(** ** internal/domain/totp *)
Module Totp.
Record Credential := mkCredential {
  UserID : uuid;
  SecretEncrypted : string;
  EnabledAt : option time;
  SetupTokenHash : option string;
  SetupTokenExpiresAt : option time;
  FailedAttempts : Z;
  LockedUntil : option time;
  LastUsedCounter : option Z;
  CreatedAt : time;
  UpdatedAt : time
}.

Definition New (userID : uuid) (secretEncrypted setupTokenHash : string)
    (setupTTL : duration) (now : time) : Credential :=
  {| UserID := userID; SecretEncrypted := secretEncrypted;
     EnabledAt := None;
     SetupTokenHash := Some setupTokenHash;
     SetupTokenExpiresAt := Some (TimeAdd now setupTTL);
     FailedAttempts := 0; LockedUntil := None; LastUsedCounter := None;
     CreatedAt := now; UpdatedAt := now |}.

Definition BeginSetup (c : Credential)
    (secretEncrypted setupTokenHash : string) (setupTTL : duration)
    (now : time) : Credential :=
  {| UserID := c.(UserID); SecretEncrypted := secretEncrypted;
     EnabledAt := None;
     SetupTokenHash := Some setupTokenHash;
     SetupTokenExpiresAt := Some (TimeAdd now setupTTL);
     FailedAttempts := 0; LockedUntil := None;
     LastUsedCounter := c.(LastUsedCounter);
     CreatedAt := c.(CreatedAt); UpdatedAt := now |}.

Definition Enable (c : Credential) (now : time) : Credential :=
  {| UserID := c.(UserID); SecretEncrypted := c.(SecretEncrypted);
     EnabledAt := Some now;
     SetupTokenHash := None; SetupTokenExpiresAt := None;
     FailedAttempts := c.(FailedAttempts); LockedUntil := c.(LockedUntil);
     LastUsedCounter := c.(LastUsedCounter);
     CreatedAt := c.(CreatedAt); UpdatedAt := now |}.

Definition IsEnabled (c : Credential) : bool :=
  bool_decide (is_Some c.(EnabledAt)).

Definition IsSetupTokenExpired (c : Credential) (now : time) : bool :=
  match c.(SetupTokenExpiresAt) with
  | None => true
  | Some e => After now e
  end.

Definition IsLocked (c : Credential) (now : time) : bool :=
  match c.(LockedUntil) with
  | None => false
  | Some u => Before now u
  end.

(** [now1] is read only when the attempt cap is reached; [now2] always. *)
Definition RecordFailure (c : Credential) (maxAttempts : Z)
    (lockoutFor : duration) (now1 now2 : time) : Credential :=
  let attempts := Int.wrap64 (c.(FailedAttempts) + 1) in
  let reached := bool_decide (maxAttempts ≤ attempts)%Z in
  {| UserID := c.(UserID); SecretEncrypted := c.(SecretEncrypted);
     EnabledAt := c.(EnabledAt);
     SetupTokenHash := c.(SetupTokenHash);
     SetupTokenExpiresAt := c.(SetupTokenExpiresAt);
     FailedAttempts := if reached then 0%Z else attempts;
     LockedUntil :=
       if reached then Some (TimeAdd now1 lockoutFor) else c.(LockedUntil);
     LastUsedCounter := c.(LastUsedCounter);
     CreatedAt := c.(CreatedAt); UpdatedAt := now2 |}.

(** [counter <= *c.LastUsedCounter], when there is one. *)
Definition IsCodeConsumed (c : Credential) (counter : Z) : bool :=
  match c.(LastUsedCounter) with
  | None => false
  | Some last => bool_decide (counter ≤ last)%Z
  end.

Definition MarkCodeUsed (c : Credential) (counter : Z) (now : time) :
    Credential :=
  {| UserID := c.(UserID); SecretEncrypted := c.(SecretEncrypted);
     EnabledAt := c.(EnabledAt);
     SetupTokenHash := c.(SetupTokenHash);
     SetupTokenExpiresAt := c.(SetupTokenExpiresAt);
     FailedAttempts := c.(FailedAttempts); LockedUntil := c.(LockedUntil);
     LastUsedCounter := Some counter;
     CreatedAt := c.(CreatedAt); UpdatedAt := now |}.

Definition RecordSuccess (c : Credential) (counter : Z) (now : time) :
    Credential :=
  MarkCodeUsed
    {| UserID := c.(UserID); SecretEncrypted := c.(SecretEncrypted);
       EnabledAt := c.(EnabledAt);
       SetupTokenHash := c.(SetupTokenHash);
       SetupTokenExpiresAt := c.(SetupTokenExpiresAt);
       FailedAttempts := 0; LockedUntil := None;
       LastUsedCounter := c.(LastUsedCounter);
       CreatedAt := c.(CreatedAt); UpdatedAt := c.(UpdatedAt) |}
    counter now.
End Totp.

(** ** internal/domain/passwordreset *)
Module PasswordReset.
Record PasswordResetFlow := mkPasswordResetFlow {
  ID : uuid;
  UserID : option uuid;
  FlowTokenHash : string;
  OTPVerifiedAt : option time;
  OTPAttempts : Z;
  ResetTokenHash : option string;
  ResetTokenExpiresAt : option time;
  ExpiresAt : time;
  ConsumedAt : option time;
  CreatedAt : time
}.

Definition New (userID : option uuid) (flowTokenHash : string)
    (ttl : duration) (now : time) (id : uuid) : PasswordResetFlow :=
  {| ID := id; UserID := userID; FlowTokenHash := flowTokenHash;
     OTPVerifiedAt := None; OTPAttempts := 0;
     ResetTokenHash := None; ResetTokenExpiresAt := None;
     ExpiresAt := TimeAdd now ttl; ConsumedAt := None; CreatedAt := now |}.

Definition IsExpired (f : PasswordResetFlow) (now : time) : bool :=
  After now f.(ExpiresAt).

Definition IsConsumed (f : PasswordResetFlow) : bool :=
  bool_decide (is_Some f.(ConsumedAt)).

Definition IsOTPVerified (f : PasswordResetFlow) : bool :=
  bool_decide (is_Some f.(OTPVerifiedAt)).

Definition IsOTPLocked (f : PasswordResetFlow) (maxAttempts : Z) : bool :=
  bool_decide (maxAttempts ≤ f.(OTPAttempts))%Z.

(** The updated flow and the returned [locked]. *)
Definition RecordOTPFailure (f : PasswordResetFlow) (maxAttempts : Z) :
    PasswordResetFlow * bool :=
  let attempts := Int.wrap64 (f.(OTPAttempts) + 1) in
  ({| ID := f.(ID); UserID := f.(UserID);
      FlowTokenHash := f.(FlowTokenHash);
      OTPVerifiedAt := f.(OTPVerifiedAt); OTPAttempts := attempts;
      ResetTokenHash := f.(ResetTokenHash);
      ResetTokenExpiresAt := f.(ResetTokenExpiresAt);
      ExpiresAt := f.(ExpiresAt); ConsumedAt := f.(ConsumedAt);
      CreatedAt := f.(CreatedAt) |},
   bool_decide (maxAttempts ≤ attempts)%Z).

Definition MarkOTPVerified (f : PasswordResetFlow) (now : time) :
    PasswordResetFlow :=
  {| ID := f.(ID); UserID := f.(UserID);
     FlowTokenHash := f.(FlowTokenHash);
     OTPVerifiedAt := Some now; OTPAttempts := f.(OTPAttempts);
     ResetTokenHash := f.(ResetTokenHash);
     ResetTokenExpiresAt := f.(ResetTokenExpiresAt);
     ExpiresAt := f.(ExpiresAt); ConsumedAt := f.(ConsumedAt);
     CreatedAt := f.(CreatedAt) |}.

Definition IssueResetToken (f : PasswordResetFlow) (hash : string)
    (ttl : duration) (now : time) : PasswordResetFlow :=
  {| ID := f.(ID); UserID := f.(UserID);
     FlowTokenHash := f.(FlowTokenHash);
     OTPVerifiedAt := f.(OTPVerifiedAt); OTPAttempts := f.(OTPAttempts);
     ResetTokenHash := Some hash;
     ResetTokenExpiresAt := Some (TimeAdd now ttl);
     ExpiresAt := f.(ExpiresAt); ConsumedAt := f.(ConsumedAt);
     CreatedAt := f.(CreatedAt) |}.

Definition IsResetTokenValid (f : PasswordResetFlow) (now : time) : bool :=
  bool_decide (is_Some f.(ResetTokenHash)) &&
  match f.(ResetTokenExpiresAt) with
  | None => false
  | Some e => Before now e
  end.

Definition Consume (f : PasswordResetFlow) (now : time) :
    PasswordResetFlow :=
  {| ID := f.(ID); UserID := f.(UserID);
     FlowTokenHash := f.(FlowTokenHash);
     OTPVerifiedAt := f.(OTPVerifiedAt); OTPAttempts := f.(OTPAttempts);
     ResetTokenHash := f.(ResetTokenHash);
     ResetTokenExpiresAt := f.(ResetTokenExpiresAt);
     ExpiresAt := f.(ExpiresAt); ConsumedAt := Some now;
     CreatedAt := f.(CreatedAt) |}.
End PasswordReset.
