(* ===== verification/Schema.v ===== *)
(** * The database: tables and SQL statements

    The tables of migrations/ as finite maps keyed by their primary keys,
    and one constructor of [stmt] per SQL statement of
    internal/repository/postgres, with its meaning [exec] on the tables:
    primary keys, UNIQUE columns, foreign keys with ON DELETE CASCADE, INT
    ranges and WHERE clauses as the schema and the statement give them.
    [now] is the transaction time PostgreSQL's [now()] returns. *)
From stdpp Require Import sorting.
From S2P Require Import Prelude GoBase Domain.

(** What an instant becomes in a TIMESTAMPTZ column (PostgreSQL keeps
    microseconds): a parameter of the model. *)
Class PgTime := { pg_ts : time → time }.

(** The documented behaviour of the column type that the proofs use: storing
    never moves an instant forward, and loses less than a microsecond. *)
Class PgTimeLaws `{PgTime} := {
  pg_ts_le : ∀ t, (pg_ts t ≤ t)%Z;
  pg_ts_gt : ∀ t, (t < pg_ts t + 1000)%Z
}.

(** ** Rows of the deletion queue (migration 000009) *)
Record DeletionJobRow := mkDeletionJobRow {
  job_id : uuid;
  job_user_id : uuid;
  job_status : string;
  job_attempt_count : Z;
  job_next_attempt_at : time;
  job_lease_until : option time;
  job_last_error : option string;
  job_updated_at : time
}.

Record DeletionStepRow := mkDeletionStepRow {
  step_job_id : uuid;
  step_service : string;
  step_status : string;
  step_attempt_count : Z;
  step_next_attempt_at : time;
  step_last_error : option string;
  step_updated_at : time
}.

Record Database := mkDatabase {
  users : gmap uuid User.User;
  refresh_tokens : gmap uuid Token.RefreshToken;
  two_factor_credentials : gmap uuid Totp.Credential;
  login_challenges : gmap uuid LoginChallenge.LoginChallenge;
  password_reset_flows : gmap uuid PasswordReset.PasswordResetFlow;
  account_deletion_jobs : gmap uuid DeletionJobRow;
  account_deletion_steps : gmap (uuid * string) DeletionStepRow
}.

Definition empty_db : Database := mkDatabase ∅ ∅ ∅ ∅ ∅ ∅ ∅.

Definition set_users (f : gmap uuid User.User → gmap uuid User.User) db :=
  mkDatabase (f db.(users)) db.(refresh_tokens) db.(two_factor_credentials)
    db.(login_challenges) db.(password_reset_flows)
    db.(account_deletion_jobs) db.(account_deletion_steps).
Definition set_refresh_tokens
    (f : gmap uuid Token.RefreshToken → gmap uuid Token.RefreshToken) db :=
  mkDatabase db.(users) (f db.(refresh_tokens)) db.(two_factor_credentials)
    db.(login_challenges) db.(password_reset_flows)
    db.(account_deletion_jobs) db.(account_deletion_steps).
Definition set_credentials
    (f : gmap uuid Totp.Credential → gmap uuid Totp.Credential) db :=
  mkDatabase db.(users) db.(refresh_tokens) (f db.(two_factor_credentials))
    db.(login_challenges) db.(password_reset_flows)
    db.(account_deletion_jobs) db.(account_deletion_steps).
Definition set_challenges
    (f : gmap uuid LoginChallenge.LoginChallenge →
         gmap uuid LoginChallenge.LoginChallenge) db :=
  mkDatabase db.(users) db.(refresh_tokens) db.(two_factor_credentials)
    (f db.(login_challenges)) db.(password_reset_flows)
    db.(account_deletion_jobs) db.(account_deletion_steps).
Definition set_flows
    (f : gmap uuid PasswordReset.PasswordResetFlow →
         gmap uuid PasswordReset.PasswordResetFlow) db :=
  mkDatabase db.(users) db.(refresh_tokens) db.(two_factor_credentials)
    db.(login_challenges) (f db.(password_reset_flows))
    db.(account_deletion_jobs) db.(account_deletion_steps).
Definition set_jobs
    (f : gmap uuid DeletionJobRow → gmap uuid DeletionJobRow) db :=
  mkDatabase db.(users) db.(refresh_tokens) db.(two_factor_credentials)
    db.(login_challenges) db.(password_reset_flows)
    (f db.(account_deletion_jobs)) db.(account_deletion_steps).
Definition set_steps
    (f : gmap (uuid * string) DeletionStepRow →
         gmap (uuid * string) DeletionStepRow) db :=
  mkDatabase db.(users) db.(refresh_tokens) db.(two_factor_credentials)
    db.(login_challenges) db.(password_reset_flows)
    db.(account_deletion_jobs) (f db.(account_deletion_steps)).

(** SQLSTATE codes of the constraint violations. *)
Definition uniqueViolationCode : string := "23505".
Definition foreignKeyViolationCode : string := "23503".
Definition numericOutOfRangeCode : string := "22003".

(** ** The statements *)
Inductive stmt : Type → Type :=
  (* user_repository.go *)
  | InsertUser (u : User.User) : stmt unit
  | SelectUserByEmail (email : string) : stmt User.User
  | SelectUserByID (id : uuid) : stmt User.User
  | UpdateUserProfile (u : User.User) : stmt nat
  | UpdateUserPassword (id : uuid) (hash : string) : stmt nat
  | DeleteUser (id : uuid) : stmt nat
  | MarkUserDeletionPending (id : uuid) : stmt nat
  (* refresh_token_repository.go *)
  | InsertRefreshToken (t : Token.RefreshToken) : stmt unit
  | SelectRefreshTokenByHash (hash : string) : stmt Token.RefreshToken
  | RevokeRefreshToken (id : uuid) : stmt nat
  | RevokeRefreshTokensOf (user : uuid) : stmt nat
  (* two_factor_credential_repository.go *)
  | InsertCredential (c : Totp.Credential) : stmt unit
  | SelectCredentialByUser (user : uuid) : stmt Totp.Credential
  | SelectCredentialBySetupHash (hash : string) : stmt Totp.Credential
  | UpdateCredential (c : Totp.Credential) : stmt nat
  (* login_challenge_repository.go *)
  | InsertChallenge (c : LoginChallenge.LoginChallenge) : stmt unit
  | SelectChallengeByHash (hash : string) : stmt LoginChallenge.LoginChallenge
  | ConsumeChallenge (id : uuid) : stmt nat
  (* password_reset_flow_repository.go *)
  | InsertFlow (f : PasswordReset.PasswordResetFlow) : stmt unit
  | SelectFlowByFlowHash (hash : string) :
      stmt PasswordReset.PasswordResetFlow
  | SelectFlowByResetHash (hash : string) :
      stmt PasswordReset.PasswordResetFlow
  | UpdateFlow (f : PasswordReset.PasswordResetFlow) : stmt nat
  (* deletion_store.go *)
  | SelectDeletionStatus (user : uuid) : stmt string
  | UpsertDeletionJob (id user : uuid) : stmt uuid
  | InsertDeletionStep (job : uuid) (service : string) : stmt nat
  | ClaimDeletionJob : stmt (uuid * uuid)
  | SelectDeletionSteps (job : uuid) : stmt (list DeletionStepRow)
  | CompleteStep (job : uuid) (service : string) : stmt nat
  | RetryStep (job : uuid) (service : string) (attempt minutes : Z)
      (msg : string) : stmt nat
  | ReleaseJob (job : uuid) : stmt nat
  | CompleteJob (job : uuid) : stmt nat.

(** [QueryRow(...).Scan(...)]: the row, or [pgx.ErrNoRows]. *)
Definition query_row {A} (r : option A) : result A :=
  match r with Some a => Ok a | None => Err ErrNoRows end.

(** [UPDATE t SET f WHERE k = $1]: the affected row count and the table. *)
Definition update_row {K V} `{Countable K} (k : K) (f : V → V)
    (m : gmap K V) : nat * gmap K V :=
  match m !! k with
  | Some v => (1, <[k := f v]> m)
  | None => (0, m)
  end.

(** [UPDATE t SET f WHERE P]. *)
Definition update_where {K V} `{Countable K} (P : V → bool) (f : V → V)
    (m : gmap K V) : gmap K V :=
  (λ v, if P v then f v else v) <$> m.

Definition count_where {K V} `{Countable K} (P : V → bool)
    (m : gmap K V) : nat :=
  length (List.filter P (map_to_list m).*2).

Section exec.
Context `{PT : PgTime}.

Definition opt_ts (t : option time) : option time := pg_ts <$> t.

(** Row encodings: what a column list stores. *)
Definition user_row (u : User.User) : User.User :=
  {| User.ID := u.(User.ID); User.Email := u.(User.Email);
     User.PasswordHash := u.(User.PasswordHash);
     User.FirstName := ""; User.LastName := "";
     User.AvatarMediaID := None;
     User.CreatedAt := pg_ts u.(User.CreatedAt);
     User.UpdatedAt := pg_ts u.(User.UpdatedAt);
     User.DeletionStatus := User.DeletionStatusActive |}.

Definition token_row (t : Token.RefreshToken) : Token.RefreshToken :=
  {| Token.ID := t.(Token.ID); Token.UserID := t.(Token.UserID);
     Token.TokenHash := t.(Token.TokenHash);
     Token.ExpiresAt := pg_ts t.(Token.ExpiresAt);
     Token.CreatedAt := pg_ts t.(Token.CreatedAt);
     Token.RevokedAt := opt_ts t.(Token.RevokedAt) |}.

Definition credential_row (c : Totp.Credential) : Totp.Credential :=
  {| Totp.UserID := c.(Totp.UserID);
     Totp.SecretEncrypted := c.(Totp.SecretEncrypted);
     Totp.EnabledAt := opt_ts c.(Totp.EnabledAt);
     Totp.SetupTokenHash := c.(Totp.SetupTokenHash);
     Totp.SetupTokenExpiresAt := opt_ts c.(Totp.SetupTokenExpiresAt);
     Totp.FailedAttempts := c.(Totp.FailedAttempts);
     Totp.LockedUntil := opt_ts c.(Totp.LockedUntil);
     Totp.LastUsedCounter := c.(Totp.LastUsedCounter);
     Totp.CreatedAt := pg_ts c.(Totp.CreatedAt);
     Totp.UpdatedAt := pg_ts c.(Totp.UpdatedAt) |}.

(** The UPDATE's SET list keeps [created_at]. *)
Definition credential_update (c old : Totp.Credential) : Totp.Credential :=
  {| Totp.UserID := old.(Totp.UserID);
     Totp.SecretEncrypted := c.(Totp.SecretEncrypted);
     Totp.EnabledAt := opt_ts c.(Totp.EnabledAt);
     Totp.SetupTokenHash := c.(Totp.SetupTokenHash);
     Totp.SetupTokenExpiresAt := opt_ts c.(Totp.SetupTokenExpiresAt);
     Totp.FailedAttempts := c.(Totp.FailedAttempts);
     Totp.LockedUntil := opt_ts c.(Totp.LockedUntil);
     Totp.LastUsedCounter := c.(Totp.LastUsedCounter);
     Totp.CreatedAt := old.(Totp.CreatedAt);
     Totp.UpdatedAt := pg_ts c.(Totp.UpdatedAt) |}.

Definition challenge_row (c : LoginChallenge.LoginChallenge) :
    LoginChallenge.LoginChallenge :=
  {| LoginChallenge.ID := c.(LoginChallenge.ID);
     LoginChallenge.UserID := c.(LoginChallenge.UserID);
     LoginChallenge.TokenHash := c.(LoginChallenge.TokenHash);
     LoginChallenge.ExpiresAt := pg_ts c.(LoginChallenge.ExpiresAt);
     LoginChallenge.CreatedAt := pg_ts c.(LoginChallenge.CreatedAt);
     LoginChallenge.ConsumedAt := opt_ts c.(LoginChallenge.ConsumedAt) |}.

Definition flow_row (f : PasswordReset.PasswordResetFlow) :
    PasswordReset.PasswordResetFlow :=
  {| PasswordReset.ID := f.(PasswordReset.ID);
     PasswordReset.UserID := f.(PasswordReset.UserID);
     PasswordReset.FlowTokenHash := f.(PasswordReset.FlowTokenHash);
     PasswordReset.OTPVerifiedAt := opt_ts f.(PasswordReset.OTPVerifiedAt);
     PasswordReset.OTPAttempts := f.(PasswordReset.OTPAttempts);
     PasswordReset.ResetTokenHash := f.(PasswordReset.ResetTokenHash);
     PasswordReset.ResetTokenExpiresAt :=
       opt_ts f.(PasswordReset.ResetTokenExpiresAt);
     PasswordReset.ExpiresAt := pg_ts f.(PasswordReset.ExpiresAt);
     PasswordReset.ConsumedAt := opt_ts f.(PasswordReset.ConsumedAt);
     PasswordReset.CreatedAt := pg_ts f.(PasswordReset.CreatedAt) |}.

(** The UPDATE keeps [user_id], [flow_token_hash], [expires_at] and
    [created_at]. *)
Definition flow_update (f old : PasswordReset.PasswordResetFlow) :
    PasswordReset.PasswordResetFlow :=
  {| PasswordReset.ID := old.(PasswordReset.ID);
     PasswordReset.UserID := old.(PasswordReset.UserID);
     PasswordReset.FlowTokenHash := old.(PasswordReset.FlowTokenHash);
     PasswordReset.OTPVerifiedAt := opt_ts f.(PasswordReset.OTPVerifiedAt);
     PasswordReset.OTPAttempts := f.(PasswordReset.OTPAttempts);
     PasswordReset.ResetTokenHash := f.(PasswordReset.ResetTokenHash);
     PasswordReset.ResetTokenExpiresAt :=
       opt_ts f.(PasswordReset.ResetTokenExpiresAt);
     PasswordReset.ExpiresAt := old.(PasswordReset.ExpiresAt);
     PasswordReset.ConsumedAt := opt_ts f.(PasswordReset.ConsumedAt);
     PasswordReset.CreatedAt := old.(PasswordReset.CreatedAt) |}.

(** Shapes of the SET lists. *)
Definition profile_update (u old : User.User) : User.User :=
  User.UpdateProfile old u.(User.FirstName) u.(User.LastName)
    u.(User.AvatarMediaID) (pg_ts u.(User.UpdatedAt)).

Definition mark_pending (now : time) (u : User.User) : User.User :=
  {| User.ID := u.(User.ID); User.Email := u.(User.Email);
     User.PasswordHash := u.(User.PasswordHash);
     User.FirstName := u.(User.FirstName);
     User.LastName := u.(User.LastName);
     User.AvatarMediaID := u.(User.AvatarMediaID);
     User.CreatedAt := u.(User.CreatedAt); User.UpdatedAt := now;
     User.DeletionStatus := User.DeletionStatusPending |}.

Definition revoke (now : time) (t : Token.RefreshToken) :
    Token.RefreshToken :=
  {| Token.ID := t.(Token.ID); Token.UserID := t.(Token.UserID);
     Token.TokenHash := t.(Token.TokenHash);
     Token.ExpiresAt := t.(Token.ExpiresAt);
     Token.CreatedAt := t.(Token.CreatedAt);
     Token.RevokedAt := Some now |}.

(** [... AND revoked_at IS NULL]. *)
Definition revoke_live (now : time) (t : Token.RefreshToken) :
    Token.RefreshToken :=
  if Token.IsRevoked t then t else revoke now t.

Definition consume_live (now : time) (c : LoginChallenge.LoginChallenge) :
    LoginChallenge.LoginChallenge :=
  if LoginChallenge.IsConsumed c then c else
    {| LoginChallenge.ID := c.(LoginChallenge.ID);
       LoginChallenge.UserID := c.(LoginChallenge.UserID);
       LoginChallenge.TokenHash := c.(LoginChallenge.TokenHash);
       LoginChallenge.ExpiresAt := c.(LoginChallenge.ExpiresAt);
       LoginChallenge.CreatedAt := c.(LoginChallenge.CreatedAt);
       LoginChallenge.ConsumedAt := Some now |}.

(** ** users *)

Definition users_insert (u : User.User) (db : Database) :
    result unit * Database :=
  if bool_decide (is_Some (db.(users) !! u.(User.ID)))
     || any_row (λ v, bool_decide (v.(User.Email) = u.(User.Email)))
          db.(users)
  then (Err (PgError uniqueViolationCode), db)
  else (Ok tt, set_users <[u.(User.ID) := user_row u]> db).

Definition users_by_email (email : string) (db : Database) :
    result User.User :=
  query_row (select_one (λ v, bool_decide (v.(User.Email) = email))
               db.(users)).

Definition users_update (id : uuid) (f : User.User → User.User)
    (db : Database) : result nat * Database :=
  let '(n, m) := update_row id f db.(users) in
  (Ok n, set_users (λ _, m) db).

(** DELETE FROM users, with the four ON DELETE CASCADE foreign keys. *)
Definition users_delete (id : uuid) (db : Database) :
    result nat * Database :=
  match db.(users) !! id with
  | None => (Ok 0, db)
  | Some _ =>
      (Ok 1,
       mkDatabase
         (delete id db.(users))
         (filter (λ kv, kv.2.(Token.UserID) ≠ id) db.(refresh_tokens))
         (filter (λ kv, kv.2.(Totp.UserID) ≠ id)
            db.(two_factor_credentials))
         (filter (λ kv, kv.2.(LoginChallenge.UserID) ≠ id)
            db.(login_challenges))
         (filter (λ kv, kv.2.(PasswordReset.UserID) ≠ Some id)
            db.(password_reset_flows))
         db.(account_deletion_jobs)
         db.(account_deletion_steps))
  end.

(** UPDATE users SET deletion_status = 'deletion_pending'
    WHERE id = $1 AND deletion_status = 'active'. *)
Definition users_mark_pending (id : uuid) (now : time) (db : Database) :
    result nat * Database :=
  match db.(users) !! id with
  | Some u =>
      if bool_decide (u.(User.DeletionStatus) = User.DeletionStatusActive)
      then (Ok 1, set_users <[id := mark_pending now u]> db)
      else (Ok 0, db)
  | None => (Ok 0, db)
  end.

(** ** refresh_tokens *)

Definition tokens_insert (t : Token.RefreshToken) (db : Database) :
    result unit * Database :=
  if bool_decide (is_Some (db.(refresh_tokens) !! t.(Token.ID)))
     || any_row
          (λ v, bool_decide (v.(Token.TokenHash) = t.(Token.TokenHash)))
          db.(refresh_tokens)
  then (Err (PgError uniqueViolationCode), db)
  else if bool_decide (is_Some (db.(users) !! t.(Token.UserID)))
  then (Ok tt, set_refresh_tokens <[t.(Token.ID) := token_row t]> db)
  else (Err (PgError foreignKeyViolationCode), db).

Definition tokens_by_hash (hash : string) (db : Database) :
    result Token.RefreshToken :=
  query_row (select_one (λ v, bool_decide (v.(Token.TokenHash) = hash))
               db.(refresh_tokens)).

Definition tokens_revoke (id : uuid) (now : time) (db : Database) :
    result nat * Database :=
  match db.(refresh_tokens) !! id with
  | Some t =>
      if Token.IsRevoked t then (Ok 0, db)
      else (Ok 1, set_refresh_tokens <[id := revoke now t]> db)
  | None => (Ok 0, db)
  end.

Definition live_token_of (user : uuid) (t : Token.RefreshToken) : bool :=
  bool_decide (t.(Token.UserID) = user) && negb (Token.IsRevoked t).

Definition tokens_revoke_all (user : uuid) (now : time) (db : Database) :
    result nat * Database :=
  (Ok (count_where (live_token_of user) db.(refresh_tokens)),
   set_refresh_tokens (update_where (live_token_of user) (revoke now)) db).

(** ** two_factor_credentials *)

(** Another user's row already holds this setup token hash (UNIQUE, NULLs
    distinct). *)
Definition setup_hash_taken (c : Totp.Credential) (db : Database) : bool :=
  match c.(Totp.SetupTokenHash) with
  | None => false
  | Some h =>
      any_row (λ v, bool_decide (v.(Totp.SetupTokenHash) = Some h) &&
                    bool_decide (v.(Totp.UserID) ≠ c.(Totp.UserID)))
        db.(two_factor_credentials)
  end.

Definition credentials_insert (c : Totp.Credential) (db : Database) :
    result unit * Database :=
  if negb (Int.int4_ok c.(Totp.FailedAttempts))
  then (Err (PgError numericOutOfRangeCode), db)
  else if bool_decide
            (is_Some (db.(two_factor_credentials) !! c.(Totp.UserID)))
          || setup_hash_taken c db
  then (Err (PgError uniqueViolationCode), db)
  else if bool_decide (is_Some (db.(users) !! c.(Totp.UserID)))
  then (Ok tt,
        set_credentials <[c.(Totp.UserID) := credential_row c]> db)
  else (Err (PgError foreignKeyViolationCode), db).

Definition credentials_by_setup_hash (hash : string) (db : Database) :
    result Totp.Credential :=
  query_row
    (select_one (λ v, bool_decide (v.(Totp.SetupTokenHash) = Some hash))
       db.(two_factor_credentials)).

Definition credentials_update (c : Totp.Credential) (db : Database) :
    result nat * Database :=
  if negb (Int.int4_ok c.(Totp.FailedAttempts))
  then (Err (PgError numericOutOfRangeCode), db)
  else match db.(two_factor_credentials) !! c.(Totp.UserID) with
       | None => (Ok 0, db)
       | Some old =>
           if setup_hash_taken c db
           then (Err (PgError uniqueViolationCode), db)
           else (Ok 1,
                 set_credentials
                   <[c.(Totp.UserID) := credential_update c old]> db)
       end.

(** ** login_challenges *)

Definition challenges_insert (c : LoginChallenge.LoginChallenge)
    (db : Database) : result unit * Database :=
  if bool_decide (is_Some (db.(login_challenges) !! c.(LoginChallenge.ID)))
     || any_row (λ v, bool_decide (v.(LoginChallenge.TokenHash) =
                                   c.(LoginChallenge.TokenHash)))
          db.(login_challenges)
  then (Err (PgError uniqueViolationCode), db)
  else if bool_decide (is_Some (db.(users) !! c.(LoginChallenge.UserID)))
  then (Ok tt,
        set_challenges <[c.(LoginChallenge.ID) := challenge_row c]> db)
  else (Err (PgError foreignKeyViolationCode), db).

Definition challenges_by_hash (hash : string) (db : Database) :
    result LoginChallenge.LoginChallenge :=
  query_row
    (select_one (λ v, bool_decide (v.(LoginChallenge.TokenHash) = hash))
       db.(login_challenges)).

Definition challenges_consume (id : uuid) (now : time) (db : Database) :
    result nat * Database :=
  match db.(login_challenges) !! id with
  | Some c =>
      if LoginChallenge.IsConsumed c then (Ok 0, db)
      else (Ok 1, set_challenges <[id := consume_live now c]> db)
  | None => (Ok 0, db)
  end.

(** ** password_reset_flows *)

Definition reset_hash_taken (f : PasswordReset.PasswordResetFlow)
    (db : Database) : bool :=
  match f.(PasswordReset.ResetTokenHash) with
  | None => false
  | Some h =>
      any_row
        (λ v, bool_decide (v.(PasswordReset.ResetTokenHash) = Some h) &&
              bool_decide (v.(PasswordReset.ID) ≠ f.(PasswordReset.ID)))
        db.(password_reset_flows)
  end.

Definition flow_owner_ok (f : PasswordReset.PasswordResetFlow)
    (db : Database) : bool :=
  match f.(PasswordReset.UserID) with
  | None => true
  | Some u => bool_decide (is_Some (db.(users) !! u))
  end.

Definition flows_insert (f : PasswordReset.PasswordResetFlow)
    (db : Database) : result unit * Database :=
  if negb (Int.int4_ok f.(PasswordReset.OTPAttempts))
  then (Err (PgError numericOutOfRangeCode), db)
  else if bool_decide
            (is_Some (db.(password_reset_flows) !! f.(PasswordReset.ID)))
          || any_row (λ v, bool_decide (v.(PasswordReset.FlowTokenHash) =
                                        f.(PasswordReset.FlowTokenHash)))
               db.(password_reset_flows)
          || reset_hash_taken f db
  then (Err (PgError uniqueViolationCode), db)
  else if flow_owner_ok f db
  then (Ok tt, set_flows <[f.(PasswordReset.ID) := flow_row f]> db)
  else (Err (PgError foreignKeyViolationCode), db).

Definition flows_by_flow_hash (hash : string) (db : Database) :
    result PasswordReset.PasswordResetFlow :=
  query_row
    (select_one (λ v, bool_decide (v.(PasswordReset.FlowTokenHash) = hash))
       db.(password_reset_flows)).

Definition flows_by_reset_hash (hash : string) (db : Database) :
    result PasswordReset.PasswordResetFlow :=
  query_row
    (select_one
       (λ v, bool_decide (v.(PasswordReset.ResetTokenHash) = Some hash))
       db.(password_reset_flows)).

Definition flows_update (f : PasswordReset.PasswordResetFlow)
    (db : Database) : result nat * Database :=
  if negb (Int.int4_ok f.(PasswordReset.OTPAttempts))
  then (Err (PgError numericOutOfRangeCode), db)
  else match db.(password_reset_flows) !! f.(PasswordReset.ID) with
       | None => (Ok 0, db)
       | Some old =>
           if reset_hash_taken f db
           then (Err (PgError uniqueViolationCode), db)
           else (Ok 1,
                 set_flows
                   <[f.(PasswordReset.ID) := flow_update f old]> db)
       end.

(** ** account_deletion_jobs and account_deletion_steps *)

(** INSERT ... ON CONFLICT (user_id) DO UPDATE ... RETURNING id. *)
Definition jobs_upsert (id user : uuid) (now : time) (db : Database) :
    result uuid * Database :=
  match select_one (λ j, bool_decide (j.(job_user_id) = user))
          db.(account_deletion_jobs) with
  | Some j =>
      (Ok j.(job_id),
       set_jobs
         <[j.(job_id) :=
             mkDeletionJobRow j.(job_id) j.(job_user_id) j.(job_status)
               j.(job_attempt_count) j.(job_next_attempt_at)
               j.(job_lease_until) j.(job_last_error) now]> db)
  | None =>
      if bool_decide (is_Some (db.(account_deletion_jobs) !! id))
      then (Err (PgError uniqueViolationCode), db)
      else (Ok id,
            set_jobs
              <[id := mkDeletionJobRow id user "pending" 0 now None None
                        now]> db)
  end.

(** INSERT ... ON CONFLICT DO NOTHING. *)
Definition steps_insert (job : uuid) (service : string) (now : time)
    (db : Database) : result nat * Database :=
  if bool_decide
       (is_Some (db.(account_deletion_steps) !! (job, service)))
  then (Ok 0, db)
  else if bool_decide (is_Some (db.(account_deletion_jobs) !! job))
  then (Ok 1,
        set_steps
          <[(job, service) :=
              mkDeletionStepRow job service "pending" 0 now None now]> db)
  else (Err (PgError foreignKeyViolationCode), db).

(** The WHERE clause of the claiming subquery. *)
Definition claimable (now : time) (j : DeletionJobRow) : bool :=
  bool_decide (j.(job_status) ≠ "completed") &&
  bool_decide (j.(job_next_attempt_at) ≤ now)%Z &&
  match j.(job_lease_until) with
  | None => true
  | Some l => bool_decide (l < now)%Z
  end.

(** ORDER BY next_attempt_at LIMIT 1. *)
Fixpoint earliest (l : list DeletionJobRow) : option DeletionJobRow :=
  match l with
  | [] => None
  | j :: l' =>
      match earliest l' with
      | None => Some j
      | Some j' =>
          if bool_decide
               (j'.(job_next_attempt_at) < j.(job_next_attempt_at))%Z
          then Some j' else Some j
      end
  end.

Definition claim (now : time) (j : DeletionJobRow) : DeletionJobRow :=
  mkDeletionJobRow j.(job_id) j.(job_user_id) "processing"
    (j.(job_attempt_count) + 1) j.(job_next_attempt_at)
    (Some (TimeAdd now (2 * Minute))) j.(job_last_error) now.

Definition jobs_claim (now : time) (db : Database) :
    result (uuid * uuid) * Database :=
  match earliest (List.filter (claimable now)
                    (map_to_list db.(account_deletion_jobs)).*2) with
  | None => (Err ErrNoRows, db)
  | Some j =>
      if Int.int4_ok (j.(job_attempt_count) + 1)
      then (Ok (j.(job_id), j.(job_user_id)),
            set_jobs <[j.(job_id) := claim now j]> db)
      else (Err (PgError numericOutOfRangeCode), db)
  end.

Definition step_le (s t : DeletionStepRow) : Prop :=
  String.leb s.(step_service) t.(step_service) = true.
#[export] Instance step_le_dec s t : Decision (step_le s t).
Proof. unfold step_le. apply _. Defined.

(** WHERE job_id = $1 ORDER BY service. *)
Definition steps_of (job : uuid) (db : Database) : list DeletionStepRow :=
  merge_sort step_le
    (List.filter (λ s, bool_decide (s.(step_job_id) = job))
       (map_to_list db.(account_deletion_steps)).*2).

Definition steps_update (job : uuid) (service : string)
    (f : DeletionStepRow → DeletionStepRow) (db : Database) :
    result nat * Database :=
  let '(n, m) := update_row (job, service) f db.(account_deletion_steps) in
  (Ok n, set_steps (λ _, m) db).

Definition complete_step (now : time) (s : DeletionStepRow) :
    DeletionStepRow :=
  mkDeletionStepRow s.(step_job_id) s.(step_service) "completed"
    s.(step_attempt_count) s.(step_next_attempt_at) None now.

Definition retry_step (attempt minutes : Z) (msg : string) (now : time)
    (s : DeletionStepRow) : DeletionStepRow :=
  mkDeletionStepRow s.(step_job_id) s.(step_service) "pending" attempt
    (TimeAdd now (minutes * Minute)) (Some msg) now.

Definition jobs_update (job : uuid) (f : DeletionJobRow → DeletionJobRow)
    (db : Database) : result nat * Database :=
  let '(n, m) := update_row job f db.(account_deletion_jobs) in
  (Ok n, set_jobs (λ _, m) db).

Definition release_job (now : time) (j : DeletionJobRow) : DeletionJobRow :=
  mkDeletionJobRow j.(job_id) j.(job_user_id) "pending"
    j.(job_attempt_count) j.(job_next_attempt_at) None j.(job_last_error)
    now.

Definition complete_job (now : time) (j : DeletionJobRow) :
    DeletionJobRow :=
  mkDeletionJobRow j.(job_id) j.(job_user_id) "completed"
    j.(job_attempt_count) j.(job_next_attempt_at) None None now.

(** ** Execution of a statement at transaction time [now] *)
Definition exec {X} (q : stmt X) (now : time) (db : Database) :
    result X * Database :=
  match q in stmt X return result X * Database with
  | InsertUser u => users_insert u db
  | SelectUserByEmail e => (users_by_email e db, db)
  | SelectUserByID id => (query_row (db.(users) !! id), db)
  | UpdateUserProfile u => users_update u.(User.ID) (profile_update u) db
  | UpdateUserPassword id h =>
      users_update id (λ u, User.ChangePassword u h now) db
  | DeleteUser id => users_delete id db
  | MarkUserDeletionPending id => users_mark_pending id now db
  | InsertRefreshToken t => tokens_insert t db
  | SelectRefreshTokenByHash h => (tokens_by_hash h db, db)
  | RevokeRefreshToken id => tokens_revoke id now db
  | RevokeRefreshTokensOf u => tokens_revoke_all u now db
  | InsertCredential c => credentials_insert c db
  | SelectCredentialByUser u =>
      (query_row (db.(two_factor_credentials) !! u), db)
  | SelectCredentialBySetupHash h => (credentials_by_setup_hash h db, db)
  | UpdateCredential c => credentials_update c db
  | InsertChallenge c => challenges_insert c db
  | SelectChallengeByHash h => (challenges_by_hash h db, db)
  | ConsumeChallenge id => challenges_consume id now db
  | InsertFlow f => flows_insert f db
  | SelectFlowByFlowHash h => (flows_by_flow_hash h db, db)
  | SelectFlowByResetHash h => (flows_by_reset_hash h db, db)
  | UpdateFlow f => flows_update f db
  | SelectDeletionStatus u =>
      (query_row (User.DeletionStatus <$> db.(users) !! u), db)
  | UpsertDeletionJob id u => jobs_upsert id u now db
  | InsertDeletionStep j s => steps_insert j s now db
  | ClaimDeletionJob => jobs_claim now db
  | SelectDeletionSteps j => (Ok (steps_of j db), db)
  | CompleteStep j s => steps_update j s (complete_step now) db
  | RetryStep j s a m msg =>
      if Int.int4_ok a
      then steps_update j s (retry_step a m msg now) db
      else (Err (PgError numericOutOfRangeCode), db)
  | ReleaseJob j => jobs_update j (release_job now) db
  | CompleteJob j => jobs_update j (complete_job now) db
  end.
End exec.
