(* ===== verification/Effects.v ===== *)
(** * Programs: effects, worlds and execution

    A handler of the program is a value of [prog]: a tree of the effects it
    performs one after the other. [handle] gives the meaning of one effect on
    a [World] (the database, the shared session store, the requests sent and
    the background cleanups started), with the answers of the environment
    (clock readings, randomness, faults of the database and of Redis, HTTP
    responses) taken from an arbitrary [Env]. [run] executes a program alone;
    [sched_run] interleaves the effects of several. *)
From S2P Require Import Prelude GoBase Domain Schema.

(** ** The environment *)

(** A failing call to the database or to Redis: the error the driver
    reports, and whether the effect took place nevertheless (a connection
    lost after the server applied the statement). *)
Record Fault := mkFault { fault_msg : string; fault_applied : bool }.

(** HTTP traffic with the other services, as far as the clients see it. *)
Record Request := mkRequest {
  req_method : string;
  req_url : string;
  req_authorization : string
}.
Record Response := mkResponse {
  resp_status : Z;
  (* the [items[].id] of the decoded JSON body, or the decoding error *)
  resp_items : result (list uuid)
}.

(** The answers of the environment: the i-th one of each kind. Nothing is
    assumed of them unless a theorem says so. *)
Class Env := {
  clock : nat → time;                     (* time.Now().UTC() *)
  db_clock : nat → time;                  (* now() in a transaction *)
  gen_uuid : nat → uuid;                  (* uuid.New() *)
  rand_read : nat → nat → result string;  (* rand.Read into n bytes *)
  entropy : nat → N;                      (* randomness inside a library *)
  fault : nat → option Fault;
  http_do : nat → Request → result Response
}.

(** The shared session store (beebase-common's sessionstore.Store, behind
    the port application/auth.SessionActivator). [now] is the store's clock;
    [ss_active st now u] is the session a verifier would find active. *)
Class SessionStore := {
  ss_state : Type;
  ss_active : ss_state → time → uuid → option uuid;
  ss_activate : uuid → uuid → duration → time → ss_state →
                (option uuid * Z) * ss_state;
  ss_deactivate : uuid → time → ss_state → ss_state;
  ss_deactivate_if_current : uuid → uuid → time → ss_state → bool * ss_state;
  ss_deactivate_prev : uuid → time → ss_state → option uuid * ss_state
}.

(** What ports.go documents of the store. *)
Class SessionStoreLaws `{SessionStore} := {
  ss_activate_active : ∀ u s ttl now st,
    (0 < ttl)%Z →
    ss_active (ss_activate u s ttl now st).2 now u = Some s;
  ss_activate_prev : ∀ u s ttl now st,
    (ss_activate u s ttl now st).1.1 = ss_active st now u;
  ss_activate_only : ∀ u s ttl now st t sid,
    ss_active (ss_activate u s ttl now st).2 t u = Some sid → sid = s;
  ss_activate_other : ∀ u s ttl now st t u',
    u' ≠ u → ss_active (ss_activate u s ttl now st).2 t u' = ss_active st t u';
  ss_deactivate_none : ∀ u now st t,
    ss_active (ss_deactivate u now st) t u = None;
  ss_deactivate_other : ∀ u now st t u',
    u' ≠ u → ss_active (ss_deactivate u now st) t u' = ss_active st t u';
  ss_if_current_true : ∀ u s now st,
    (ss_deactivate_if_current u s now st).1 =
    bool_decide (ss_active st now u = Some s);
  ss_if_current_none : ∀ u s now st t,
    ss_active st now u = Some s →
    ss_active (ss_deactivate_if_current u s now st).2 t u = None;
  ss_if_current_kept : ∀ u s now st,
    ss_active st now u ≠ Some s →
    (ss_deactivate_if_current u s now st).2 = st;
  ss_if_current_other : ∀ u s now st t u',
    u' ≠ u →
    ss_active (ss_deactivate_if_current u s now st).2 t u' = ss_active st t u';
  ss_prev_returned : ∀ u now st,
    (ss_deactivate_prev u now st).1 = ss_active st now u;
  ss_prev_none : ∀ u now st t,
    ss_active (ss_deactivate_prev u now st).2 t u = None;
  ss_prev_other : ∀ u now st t u',
    u' ≠ u →
    ss_active (ss_deactivate_prev u now st).2 t u' = ss_active st t u'
}.

(** ** Effects *)

(** The body of a database transaction: statements, a [Commit] followed by
    the code's return, or a return that leaves the deferred [Rollback] to
    undo everything. *)
Inductive tx (A : Type) : Type :=
  | TxReturn (r : result A)
  | TxStmt (X : Type) (q : stmt X) (k : result X → tx A)
  | TxCommit (k : result unit → result A).
#[global] Arguments TxReturn {A} r.
#[global] Arguments TxStmt {A X} q k.
#[global] Arguments TxCommit {A} k.

Inductive eff : Type → Type :=
  | Now : eff time
  | NewUUID : eff uuid
  | RandRead (n : nat) : eff (result string)
  | Entropy : eff N
  | Query (X : Type) (q : stmt X) : eff (result X)
  (* [Begin] (the outer result) and the body *)
  | Transaction (A : Type) (body : tx A) : eff (result (result A))
  | Activate (user session : uuid) (ttl : duration) :
      eff (result (option uuid * Z))
  | Deactivate (user : uuid) : eff (result unit)
  | DeactivateIfCurrent (user session : uuid) : eff (result bool)
  | DeactivatePrev (user : uuid) : eff (result (option uuid))
  | HttpDo (r : Request) : eff (result Response)
  (* [go func() { ... }()] in cleanupSessionDevices *)
  | GoCleanup (user session : uuid) : eff unit.
#[global] Arguments Query {X} q.
#[global] Arguments Transaction {A} body.

Inductive prog (A : Type) : Type :=
  | Ret (a : A)
  | Vis (X : Type) (e : eff X) (k : X → prog A).
#[global] Arguments Ret {A} a.
#[global] Arguments Vis {A X} e k.

Fixpoint bind {A B} (p : prog A) (k : A → prog B) : prog B :=
  match p with
  | Ret a => k a
  | Vis e h => Vis e (λ x, bind (h x) k)
  end.

(** One effect, its answer returned. *)
Definition perform {X} (e : eff X) : prog X := Vis e Ret.

(** A fallible computation, and Go's [if err != nil { return nil, err }]. *)
Abbreviation go A := (prog (result A)).

Definition returnOk {A} (a : A) : go A := Ret (Ok a).
Definition returnErr {A} (e : error) : go A := Ret (Err e).

Definition bindE {A B} (p : go A) (k : A → go B) : go B :=
  bind p (λ r, match r with Ok a => k a | Err e => Ret (Err e) end).

(** [if err != nil { return nil, fmt.Errorf("msg: %w", err) }]. *)
Definition wrapE {A} (msg : string) (p : go A) : go A :=
  bind p (λ r, Ret (match r with Ok a => Ok a | Err e => Err (Wrap msg e) end)).

Declare Scope go_scope.
Delimit Scope go_scope with go.
(** [let! x := p in q] runs [p] and binds whatever it returns (an error is
    inspected by [q]); [let? x := p in q] returns [p]'s error at once. *)
Notation "'let!' x := p 'in' q" := (bind p (λ x, q))
  (at level 10, x pattern, p at level 100, q at level 200) : go_scope.
Notation "'let?' x := p 'in' q" := (bindE p (λ x, q))
  (at level 10, x pattern, p at level 100, q at level 200) : go_scope.
Notation "p 'orwrap' msg" := (wrapE msg p)
  (at level 90, left associativity) : go_scope.

(** ** Worlds *)

(** How many answers of each kind the environment has given. *)
Record Counters := mkCounters {
  n_clock : nat; n_uuid : nat; n_rand : nat; n_entropy : nat;
  n_io : nat; n_http : nat
}.

Section worlds.
Context `{PT : PgTime, EV : Env, SS : SessionStore}.

Record World := mkWorld {
  w_db : Database;
  w_sessions : ss_state;
  w_requests : list Request;          (* sent, newest first *)
  w_cleanups : list (uuid * uuid);    (* started, newest first *)
  w_counters : Counters
}.

Definition set_db (db : Database) (w : World) : World :=
  mkWorld db w.(w_sessions) w.(w_requests) w.(w_cleanups) w.(w_counters).
Definition set_sessions (st : ss_state) (w : World) : World :=
  mkWorld w.(w_db) st w.(w_requests) w.(w_cleanups) w.(w_counters).
Definition add_request (r : Request) (w : World) : World :=
  mkWorld w.(w_db) w.(w_sessions) (r :: w.(w_requests)) w.(w_cleanups)
    w.(w_counters).
Definition add_cleanup (c : uuid * uuid) (w : World) : World :=
  mkWorld w.(w_db) w.(w_sessions) w.(w_requests) (c :: w.(w_cleanups))
    w.(w_counters).
Definition set_counters (c : Counters) (w : World) : World :=
  mkWorld w.(w_db) w.(w_sessions) w.(w_requests) w.(w_cleanups) c.

Definition tick_clock (w : World) : World :=
  let c := w.(w_counters) in
  set_counters (mkCounters (S c.(n_clock)) c.(n_uuid) c.(n_rand)
                  c.(n_entropy) c.(n_io) c.(n_http)) w.
Definition tick_uuid (w : World) : World :=
  let c := w.(w_counters) in
  set_counters (mkCounters c.(n_clock) (S c.(n_uuid)) c.(n_rand)
                  c.(n_entropy) c.(n_io) c.(n_http)) w.
Definition tick_rand (w : World) : World :=
  let c := w.(w_counters) in
  set_counters (mkCounters c.(n_clock) c.(n_uuid) (S c.(n_rand))
                  c.(n_entropy) c.(n_io) c.(n_http)) w.
Definition tick_entropy (w : World) : World :=
  let c := w.(w_counters) in
  set_counters (mkCounters c.(n_clock) c.(n_uuid) c.(n_rand)
                  (S c.(n_entropy)) c.(n_io) c.(n_http)) w.
Definition tick_io (w : World) : World :=
  let c := w.(w_counters) in
  set_counters (mkCounters c.(n_clock) c.(n_uuid) c.(n_rand)
                  c.(n_entropy) (S c.(n_io)) c.(n_http)) w.
Definition tick_http (w : World) : World :=
  let c := w.(w_counters) in
  set_counters (mkCounters c.(n_clock) c.(n_uuid) c.(n_rand)
                  c.(n_entropy) c.(n_io) (S c.(n_http))) w.

(** ** Handling one effect *)

(** A call to the database or Redis: it takes effect and answers, or
    fails with the environment's fault. *)
Definition faulty {S A} (i : nat) (r : result A) (s s' : S) :
    result A * S :=
  match fault i with
  | None => (r, s')
  | Some f =>
      (Err (Errorf f.(fault_msg)), if f.(fault_applied) then s' else s)
  end.

Definition handle_query {X} (q : stmt X) (w : World) :
    result X * World :=
  let i := w.(w_counters).(n_io) in
  let '(r, db) := exec q (db_clock i) w.(w_db) in
  let '(r, db) := faulty i r w.(w_db) db in
  (r, set_db db (tick_io w)).

(** The body of a transaction opened at time [now] on [db0]; [db] is what
    it sees and [i] numbers its round trips. The committed (or original)
    database is returned with the next number. A statement that fails
    aborts the transaction: the ones after it fail too. *)
Fixpoint run_tx {A} (t : tx A) (now : time) (aborted : bool)
    (db0 db : Database) (i : nat) : result A * Database * nat :=
  match t with
  | TxReturn r => (r, db0, i)
  | TxCommit k =>
      if aborted
      then (k (Err (PgError "25P02")), db0, S i)
      else match fault i with
           | None => (k (Ok tt), db, S i)
           | Some f =>
               (k (Err (Errorf f.(fault_msg))),
                if f.(fault_applied) then db else db0, S i)
           end
  | TxStmt q k =>
      if aborted then run_tx (k (Err (PgError "25P02"))) now true db0 db (S i)
      else match fault i with
           | Some f =>
               run_tx (k (Err (Errorf f.(fault_msg)))) now true db0 db (S i)
           | None =>
               let '(r, db') := exec q now db in
               let failed :=
                 match r with
                 | Err (PgError _) => true
                 | _ => false
                 end in
               run_tx (k r) now failed db0 db' (S i)
           end
  end.

Definition handle_tx {A} (t : tx A) (w : World) :
    result (result A) * World :=
  let i := w.(w_counters).(n_io) in
  match fault i with
  | Some f => (Err (Errorf f.(fault_msg)), tick_io w)
  | None =>
      let '(r, db, j) :=
        run_tx t (db_clock i) false w.(w_db) w.(w_db) (S i) in
      let c := w.(w_counters) in
      (Ok r,
       set_db db
         (set_counters (mkCounters c.(n_clock) c.(n_uuid) c.(n_rand)
                          c.(n_entropy) j c.(n_http)) w))
  end.

Definition handle_session {A} (f : time → ss_state → A * ss_state)
    (w : World) : result A * World :=
  let i := w.(w_counters).(n_io) in
  let '(a, st) := f (db_clock i) w.(w_sessions) in
  let '(r, st) := faulty i (Ok a) w.(w_sessions) st in
  (r, set_sessions st (tick_io w)).

Definition handle {X} (e : eff X) (w : World) : X * World :=
  match e in eff X return X * World with
  | Now => (clock w.(w_counters).(n_clock), tick_clock w)
  | NewUUID => (gen_uuid w.(w_counters).(n_uuid), tick_uuid w)
  | RandRead n => (rand_read w.(w_counters).(n_rand) n, tick_rand w)
  | Entropy => (entropy w.(w_counters).(n_entropy), tick_entropy w)
  | Query q => handle_query q w
  | Transaction t => handle_tx t w
  | Activate u s ttl => handle_session (ss_activate u s ttl) w
  | Deactivate u => handle_session (λ now st, (tt, ss_deactivate u now st)) w
  | DeactivateIfCurrent u s =>
      handle_session (ss_deactivate_if_current u s) w
  | DeactivatePrev u => handle_session (ss_deactivate_prev u) w
  | HttpDo r =>
      (http_do w.(w_counters).(n_http) r, add_request r (tick_http w))
  | GoCleanup u s => (tt, add_cleanup (u, s) w)
  end.

(** ** Execution *)

Fixpoint run {A} (p : prog A) (w : World) : A * World :=
  match p with
  | Ret a => (a, w)
  | Vis e k => let '(x, w') := handle e w in run (k x) w'
  end.

(** Concurrent executions: a pool of requests being served, one effect of
    one of them at a time. *)
Inductive pool_step {A} : list (prog A) * World → list (prog A) * World → Prop :=
  | PoolStep ps i X (e : eff X) k w :
      ps !! i = Some (Vis e k) →
      pool_step (ps, w)
        (<[i := k (handle e w).1]> ps, (handle e w).2).

Fixpoint sched_run {A} (sched : list nat) (ps : list (prog A)) (w : World) :
    list (prog A) * World :=
  match sched with
  | [] => (ps, w)
  | i :: sched' =>
      match ps !! i with
      | Some (Vis e k) =>
          let '(x, w') := handle e w in
          sched_run sched' (<[i := k x]> ps) w'
      | _ => sched_run sched' ps w
      end
  end.
End worlds.
