(* ===== verification/Logic.v ===== *)
(** * Reasoning about programs

    Equations of [run], the inversion of successful executions that the
    functional theorems use, weakest preconditions for statements about every
    outcome, and the footprint principle: what all effects of a program
    preserve is preserved by the program, alone or interleaved with others. *)
From S2P Require Import Prelude GoBase Domain Schema Effects.
#[local] Open Scope go_scope.

(** ** The effects a program can perform *)

Fixpoint all_effects {A} (P : ∀ X, eff X → Prop) (p : prog A) : Prop :=
  match p with
  | Ret _ => True
  | Vis e k => P _ e ∧ ∀ x, all_effects P (k x)
  end.

Lemma all_effects_bind {A B} P (p : prog A) (k : A → prog B) :
  all_effects P p → (∀ a, all_effects P (k a)) → all_effects P (bind p k).
Proof.
  intros Hp Hk. induction p as [a|X e h IH]; simpl in *; [done|].
  destruct Hp as [He Hh]. split; [done|]. intros x. by apply IH.
Qed.

Lemma all_effects_bindE {A B} P (p : go A) (k : A → go B) :
  all_effects P p → (∀ a, all_effects P (k a)) → all_effects P (bindE p k).
Proof. intros Hp Hk. apply all_effects_bind; [done|]. by intros [a|e]. Qed.

Lemma all_effects_wrapE {A} P msg (p : go A) :
  all_effects P p → all_effects P (wrapE msg p).
Proof. intros Hp. by apply all_effects_bind. Qed.

Lemma all_effects_mono {A} (P Q : ∀ X, eff X → Prop) (p : prog A) :
  (∀ X e, P X e → Q X e) → all_effects P p → all_effects Q p.
Proof.
  intros HPQ. induction p as [a|X e h IH]; simpl; [done|].
  intros [He Hh]. split; [by apply HPQ|]. intros x. by apply IH.
Qed.

(** Walk through a program: every effect is left as a goal unless [auto]
    closes it. *)
Ltac effects_step :=
  match goal with
  | |- all_effects _ (bindE _ _) => apply all_effects_bindE; [|intros ?]
  | |- all_effects _ (bind _ _) => apply all_effects_bind; [|intros ?]
  | |- all_effects _ (wrapE _ _) => apply all_effects_wrapE
  | |- all_effects _ (perform _) => split; [|intros ?; exact I]
  | |- all_effects _ (Ret _) => exact I
  | |- all_effects _ (returnOk _) => exact I
  | |- all_effects _ (returnErr _) => exact I
  | |- all_effects _ (match ?x with _ => _ end) => destruct x eqn:?
  | |- all_effects _ _ => solve [eauto with effects]
  end.
Ltac walk := repeat effects_step.
Create HintDb effects discriminated.

Section logic.
Context `{PT : PgTime, EV : Env, SS : SessionStore}.
Implicit Types (w : World).

(** ** Equations *)

Lemma run_bind {A B} (p : prog A) (k : A → prog B) w :
  run (bind p k) w = run (k (run p w).1) (run p w).2.
Proof.
  revert w. induction p as [a|X e h IH]; intros w; simpl; [done|].
  destruct (handle e w) as [x w']. by rewrite IH.
Qed.

Lemma run_perform {X} (e : eff X) w : run (perform e) w = handle e w.
Proof. unfold perform. simpl. by destruct (handle e w). Qed.

Lemma run_bindE {A B} (p : go A) (k : A → go B) w :
  run (bindE p k) w =
  match run p w with
  | (Ok a, w1) => run (k a) w1
  | (Err e, w1) => (Err e, w1)
  end.
Proof.
  unfold bindE. rewrite run_bind.
  by destruct (run p w) as [[a|e] w1].
Qed.

Lemma run_wrapE {A} msg (p : go A) w :
  run (wrapE msg p) w =
  match run p w with
  | (Ok a, w1) => (Ok a, w1)
  | (Err e, w1) => (Err (Wrap msg e), w1)
  end.
Proof.
  unfold wrapE. rewrite run_bind.
  by destruct (run p w) as [[a|e] w1].
Qed.

(** ** Inversion of successful executions *)

Lemma run_bind_inv {A B} (p : prog A) (k : A → prog B) w b w' :
  run (bind p k) w = (b, w') →
  ∃ a w1, run p w = (a, w1) ∧ run (k a) w1 = (b, w').
Proof. rewrite run_bind. destruct (run p w) as [a w1]. eauto. Qed.

Lemma run_bindE_Ok {A B} (p : go A) (k : A → go B) w b w' :
  run (bindE p k) w = (Ok b, w') →
  ∃ a w1, run p w = (Ok a, w1) ∧ run (k a) w1 = (Ok b, w').
Proof.
  rewrite run_bindE. destruct (run p w) as [[a|e] w1]; [eauto|done].
Qed.

Lemma run_wrapE_Ok {A} msg (p : go A) w a w' :
  run (wrapE msg p) w = (Ok a, w') → run p w = (Ok a, w').
Proof. rewrite run_wrapE. by destruct (run p w) as [[?|?] ?]. Qed.

(** ** Weakest preconditions *)

Definition wp {A} (p : prog A) (Q : A → World → Prop) (w : World) : Prop :=
  Q (run p w).1 (run p w).2.

Lemma wp_ret {A} (a : A) Q w : Q a w → wp (Ret a) Q w.
Proof. done. Qed.

Lemma wp_bind {A B} (p : prog A) (k : A → prog B) Q w :
  wp p (λ a w1, wp (k a) Q w1) w → wp (bind p k) Q w.
Proof. unfold wp. by rewrite run_bind. Qed.

Lemma wp_bindE {A B} (p : go A) (k : A → go B) Q w :
  wp p (λ r w1, match r with
                | Ok a => wp (k a) Q w1
                | Err e => Q (Err e) w1
                end) w →
  wp (bindE p k) Q w.
Proof.
  unfold wp. rewrite run_bindE. by destruct (run p w) as [[a|e] w1].
Qed.

Lemma wp_wrapE {A} msg (p : go A) Q w :
  wp p (λ r w1, Q (match r with Ok a => Ok a | Err e => Err (Wrap msg e) end)
                  w1) w →
  wp (wrapE msg p) Q w.
Proof.
  unfold wp. rewrite run_wrapE. by destruct (run p w) as [[a|e] w1].
Qed.

Lemma wp_perform {X} (e : eff X) Q w :
  Q (handle e w).1 (handle e w).2 → wp (perform e) Q w.
Proof. unfold wp. by rewrite run_perform. Qed.

Lemma wp_mono {A} (p : prog A) (Q Q' : A → World → Prop) w :
  wp p Q w → (∀ a w1, Q a w1 → Q' a w1) → wp p Q' w.
Proof. unfold wp. eauto. Qed.

Lemma wp_run {A} (p : prog A) Q w a w' :
  wp p Q w → run p w = (a, w') → Q a w'.
Proof. unfold wp. intros Hq Hr. by rewrite Hr in Hq. Qed.

(** A call to the database: it answers and takes effect, or fails and may
    or may not have taken effect. *)
Lemma wp_query {X} (q : stmt X) (Q : result X → World → Prop) w :
  let '(r, db') := exec q (db_clock (n_io (w_counters w))) (w_db w) in
  Q r (set_db db' (tick_io w)) →
  (∀ m, Q (Err (Errorf m)) (set_db db' (tick_io w))) →
  (∀ m, Q (Err (Errorf m)) (set_db (w_db w) (tick_io w))) →
  wp (perform (Query q)) Q w.
Proof.
  destruct (exec _ _ _) as [r db'] eqn:E. intros H1 H2 H3.
  apply wp_perform. simpl. unfold handle_query. rewrite E.
  unfold faulty. destruct (fault _) as [f|]; simpl; [|done].
  destruct (fault_applied f); eauto.
Qed.

(** ** The footprint principle *)

Lemma run_invariant {A} (P : ∀ X, eff X → Prop) (I : World → Prop)
    (p : prog A) w :
  all_effects P p →
  (∀ X (e : eff X) w, P X e → I w → I (handle e w).2) →
  I w → I (run p w).2.
Proof.
  intros Hp Hstep. revert w.
  induction p as [a|X e k IH]; intros w Hw; simpl in *; [done|].
  destruct Hp as [He Hk]. specialize (Hstep X e w He Hw).
  destruct (handle e w) as [x w']. by apply IH.
Qed.

Lemma pool_invariant {A} (P : ∀ X, eff X → Prop) (I : World → Prop)
    (c c' : list (prog A) * World) :
  (∀ X (e : eff X) w, P X e → I w → I (handle e w).2) →
  rtc pool_step c c' →
  Forall (all_effects P) c.1 → I c.2 →
  Forall (all_effects P) c'.1 ∧ I c'.2.
Proof.
  intros Hstep Hr. induction Hr as [|c c1 c2 Hs _ IH]; [done|].
  intros Hp Hw. apply IH; destruct Hs as [ps i X e k w Hi]; simpl in *.
  - rewrite Forall_lookup in Hp. pose proof (Hp _ _ Hi) as [_ Hk].
    apply Forall_insert; [|done]. by apply Forall_lookup.
  - rewrite Forall_lookup in Hp. pose proof (Hp _ _ Hi) as [He _]. eauto.
Qed.

(** A schedule is an execution of the pool. *)
Lemma sched_run_reachable {A} sched (ps : list (prog A)) w :
  rtc pool_step (ps, w) (sched_run sched ps w).
Proof.
  revert ps w. induction sched as [|i sched IH]; intros ps w; simpl; [done|].
  destruct (ps !! i) as [[a|X e k]|] eqn:Hi; [done| |done].
  destruct (handle e w) as [x w'] eqn:He.
  eapply rtc_l; [by eapply PoolStep|]. rewrite He. apply IH.
Qed.

Lemma sched_run_app {A} sched1 sched2 (ps : list (prog A)) w :
  sched_run (sched1 ++ sched2) ps w =
  sched_run sched2 (sched_run sched1 ps w).1 (sched_run sched1 ps w).2.
Proof.
  revert ps w. induction sched1 as [|i sched1 IH]; intros ps w; [done|].
  simpl. destruct (ps !! i) as [[a|X e k]|]; [done| |done].
  by destruct (handle e w).
Qed.

(** The program's [i]-th request has an effect left to perform. *)
Definition enabled {A} (i : nat) (ps : list (prog A)) : bool :=
  match ps !! i with Some (Vis _ _) => true | _ => false end.

(** One more turn of an enabled request is one step. *)
Lemma sched_run_step {A} sched i (ps : list (prog A)) w :
  enabled i (sched_run sched ps w).1 = true →
  pool_step (sched_run sched ps w) (sched_run (sched ++ [i]) ps w).
Proof.
  rewrite sched_run_app. destruct (sched_run sched ps w) as [ps1 w1].
  unfold enabled. simpl.
  destruct (ps1 !! i) as [[a|X e k]|] eqn:Hi; [done| |done]. intros _.
  pose proof (PoolStep ps1 i X e k w1 Hi) as Hs.
  by destruct (handle e w1) as [x w2].
Qed.

(** Running alone is the schedule that always picks the one program. *)
Lemma run_sched {A} (p : prog A) w :
  ∃ n, sched_run (replicate n 0) [p] w =
       ([Ret (run p w).1], (run p w).2).
Proof.
  revert w. induction p as [a|X e k IH]; intros w.
  - by exists 0.
  - destruct (handle e w) as [x w'] eqn:He.
    destruct (IH x w') as [n Hn]. exists (S n). simpl. by rewrite He, Hn.
Qed.
End logic.

(** Unfold one layer of a successful execution in hypothesis [H]. *)
Ltac run_inv H :=
  let a := fresh "a" in
  let w := fresh "w" in
  let H1 := fresh "Hrun" in
  lazymatch type of H with
  | run (bindE _ _) _ = (Ok _, _) =>
      apply run_bindE_Ok in H as (a & w & H1 & H)
  | run (wrapE _ _) _ = (Ok _, _) => apply run_wrapE_Ok in H
  | run (bind _ _) _ = _ => apply run_bind_inv in H as (a & w & H1 & H)
  | run (perform _) _ = _ => rewrite run_perform in H
  end.
