(* ===== verification/RelyGuarantee.v ===== *)
(** * Rely and guarantee

    A logic for programs whose effects interleave with those of others. [I]
    is an invariant of the world and [G] what any step of anyone may do; a
    condition is stable when no such step can falsify it. [rg C p Q]: started
    in a world of [I] that satisfies [C], whatever the others do between two
    effects of [p], every effect of [p] keeps [I] and respects [G], and when
    [p] returns [a] the world satisfies [Q a]. [pool_rg] carries it to any
    interleaving of any number of programs. *)
From S2P Require Import Prelude GoBase Domain Schema Effects Logic.
#[local] Open Scope go_scope.

Section rg.
Context `{PT : PgTime, EV : Env, SS : SessionStore}.
Variable I : World → Prop.
Variable G : World → World → Prop.
Implicit Types (w : World) (C : World → Prop).

Definition stable C : Prop := ∀ w w', I w → C w → G w w' → I w' → C w'.

Fixpoint rg {A} C (p : prog A) (Q : A → World → Prop) : Prop :=
  match p with
  | Ret a => ∀ w, I w → C w → Q a w
  | Vis e k => ∀ w, I w → C w →
      I (handle e w).2 ∧ G w (handle e w).2 ∧
      ∃ C', stable C' ∧ C' (handle e w).2 ∧ rg C' (k (handle e w).1) Q
  end.

Lemma stable_pure φ : stable (λ _, φ).
Proof. by intros w w' _ H _ _. Qed.

Lemma stable_and C D : stable C → stable D → stable (λ w, C w ∧ D w).
Proof. intros HC HD w w' Hw [H1 H2] HG Hw'. split; eauto. Qed.

(** ** The rules *)

Lemma rg_pre {A} C C' (p : prog A) Q :
  (∀ w, I w → C w → C' w) → rg C' p Q → rg C p Q.
Proof. intros HC. destruct p; simpl; eauto. Qed.

Lemma rg_post {A} C (p : prog A) (Q Q' : A → World → Prop) :
  (∀ a w, I w → Q a w → Q' a w) → rg C p Q → rg C p Q'.
Proof.
  intros HQ. revert C. induction p as [a|X e k IH]; intros C H; simpl in *.
  - eauto.
  - intros w Hw HC. destruct (H w Hw HC) as (HI & HG & C' & Hs & HC' & Hk).
    split_and!; [done..|]. exists C'. eauto.
Qed.

Lemma rg_ret {A} C (a : A) (Q : A → World → Prop) :
  (∀ w, I w → C w → Q a w) → rg C (Ret a) Q.
Proof. done. Qed.

Lemma rg_bind {A B} C (p : prog A) (k : A → prog B) Q Q' :
  rg C p Q → (∀ a, rg (Q a) (k a) Q') → rg C (bind p k) Q'.
Proof.
  intros Hp Hk. revert C Hp.
  induction p as [a|X e h IH]; intros C Hp; simpl in *.
  - by eapply rg_pre.
  - intros w Hw HC. destruct (Hp w Hw HC) as (HI & HG & C' & Hs & HC' & Hh).
    split_and!; [done..|]. exists C'. eauto.
Qed.

(** One effect. *)
Lemma rg_perform {X} C (e : eff X) (Q : X → World → Prop) :
  (∀ x, stable (Q x)) →
  (∀ w, I w → C w → I (handle e w).2 ∧ G w (handle e w).2 ∧
                    Q (handle e w).1 (handle e w).2) →
  rg C (perform e) Q.
Proof.
  intros Hs He w Hw HC. destruct (He w Hw HC) as (HI & HG & HQ).
  split_and!; [done..|]. exists (Q (handle e w).1).
  split_and!; [apply Hs|done|by intros w2].
Qed.

(** A fact about values is used as a hypothesis. *)
Lemma rg_pure {A} (φ : Prop) (p : prog A) Q :
  (φ → rg (λ _, True) p Q) → rg (λ _, φ) p Q.
Proof.
  intros H. destruct p as [a|X e k]; simpl in *.
  - intros w Hw Hφ. by apply H.
  - intros w Hw Hφ. by apply H.
Qed.

(** What the others cannot falsify, and the program neither: the frame. *)
Lemma rg_frame {A} C D (p : prog A) Q :
  stable D → rg C p Q →
  rg (λ w, C w ∧ D w) p (λ a w, Q a w ∧ D w).
Proof.
  intros HD. revert C. induction p as [a|X e k IH]; intros C H; simpl in *.
  - intros w Hw [HC Hd]. eauto.
  - intros w Hw [HC Hd].
    destruct (H w Hw HC) as (HI & HG & C' & Hs & HC' & Hk).
    split_and!; [done..|]. exists (λ w, C' w ∧ D w).
    split; [by apply stable_and|]. split; [|by apply IH].
    split; [done|by eapply (HD w)].
Qed.

(** A program all of whose effects keep the invariant and the guarantee,
    given a condition that is stable. *)
Lemma rg_effects {A} (P : ∀ X, eff X → Prop) C (p : prog A) :
  all_effects P p →
  (∀ X (e : eff X) w, P X e → I w → C w →
     I (handle e w).2 ∧ G w (handle e w).2) →
  stable C → rg C p (λ _, C).
Proof.
  intros Hp HP HC. induction p as [a|X e k IH]; simpl in *; [done|].
  destruct Hp as [He Hk]. intros w Hw Hc.
  destruct (HP X e w He Hw Hc) as [HI HG]. split_and!; [done..|].
  exists C. split_and!; [done|by eapply (HC w)|by apply IH].
Qed.

(** ** Pools *)

Definition safe {A} w (p : prog A) : Prop :=
  ∃ C, stable C ∧ C w ∧ rg C p (λ _ _, True).

Lemma pool_step_rg {A} (ps ps' : list (prog A)) w w' :
  pool_step (ps, w) (ps', w') → I w → Forall (safe w) ps →
  I w' ∧ G w w' ∧ Forall (safe w') ps'.
Proof.
  intros Hs Hw Hps. inversion Hs as [ps0 i X e k w0 Hi]; subst.
  rewrite Forall_lookup in Hps.
  destruct (Hps _ _ Hi) as (C & HsC & HC & Hrg).
  destruct (Hrg w Hw HC) as (HI & HG & C' & HsC' & HC' & Hk).
  split_and!; [done..|].
  apply Forall_lookup. intros j p Hj.
  destruct (decide (i = j)) as [<-|Hne].
  - rewrite list_lookup_insert_eq in Hj by by eapply lookup_lt_Some.
    injection Hj as <-. by exists C'.
  - rewrite list_lookup_insert_ne in Hj by done.
    destruct (Hps _ _ Hj) as (D & HsD & HD & Hrg').
    exists D. split_and!; [done|by eapply (HsD w)|done].
Qed.

Lemma pool_rg {A} (c c' : list (prog A) * World) :
  rtc pool_step c c' → I c.2 → Forall (safe c.2) c.1 →
  I c'.2 ∧ Forall (safe c'.2) c'.1 ∧ rtc (λ w w', G w w' ∧ I w') c.2 c'.2.
Proof.
  intros Hr. induction Hr as [c|[ps w] [ps1 w1] c2 Hs _ IH]; [done|].
  intros Hw Hps. apply pool_step_rg in Hs as (HI & HG & Hps1); [|done..].
  destruct (IH HI Hps1) as (HI2 & Hps2 & Hr2). split_and!; [done..|].
  by eapply rtc_l.
Qed.
End rg.

(** ** Results *)
Section results.
Context `{PT : PgTime, EV : Env, SS : SessionStore}.
Variable I : World → Prop.
Variable G : World → World → Prop.

(** What a call that returned a value tells; nothing when it failed. *)
Definition on_Ok {A} (Q : A → World → Prop) (r : result A) (w : World) :
    Prop :=
  match r with Ok a => Q a w | Err _ => True end.

Lemma rg_bindE {A B} C (p : go A) (k : A → go B) Q Q' :
  rg I G C p (on_Ok Q) → (∀ a, rg I G (Q a) (k a) (on_Ok Q')) →
  rg I G C (bindE p k) (on_Ok Q').
Proof.
  intros Hp Hk. eapply rg_bind; [exact Hp|].
  intros [a|e]; [apply Hk|by intros w].
Qed.

Lemma rg_wrapE {A} C msg (p : go A) Q :
  rg I G C p (on_Ok Q) → rg I G C (wrapE msg p) (on_Ok Q).
Proof. intros Hp. eapply rg_bind; [exact Hp|]. by intros [a|e] w. Qed.

Lemma rg_err {A} C e (Q : A → World → Prop) :
  rg I G C (returnErr e) (on_Ok Q).
Proof. by intros w. Qed.

Lemma rg_ok {A} C (a : A) (Q : A → World → Prop) :
  (∀ w, I w → C w → Q a w) → rg I G C (returnOk a) (on_Ok Q).
Proof. done. Qed.
End results.

(** ** Values

    Facts about what a program returns that no one can falsify. *)

(** A value of [Q], or an error. *)
Definition okT {A} (Q : A → Prop) (r : result A) : Prop :=
  match r with Ok a => Q a | Err _ => True end.

Definition anything {A} : A → Prop := λ _, True.

Section returns.
Context `{PT : PgTime, EV : Env, SS : SessionStore}.
Variable I : World → Prop.
Variable G : World → World → Prop.

(** Every effect of [p] keeps [I] and respects [G], and [p] returns a value
    of [Q]. *)
Definition returns {A} (p : prog A) (Q : A → Prop) : Prop :=
  rg I G (λ _, True) p (λ a _, Q a).

Lemma returns_ret {A} (a : A) (Q : A → Prop) : Q a → returns (Ret a) Q.
Proof. intros Ha. by apply rg_ret. Qed.

Lemma returns_post {A} (p : prog A) (Q Q' : A → Prop) :
  returns p Q → (∀ a, Q a → Q' a) → returns p Q'.
Proof. intros Hp HQ. eapply rg_post; [|exact Hp]. intros a w _. apply HQ. Qed.

Lemma returns_bind {A B} (p : prog A) (k : A → prog B) Q Q' :
  returns p Q → (∀ a, Q a → returns (k a) Q') → returns (bind p k) Q'.
Proof.
  intros Hp Hk. eapply rg_bind; [exact Hp|]. intros a.
  apply (rg_pure _ _ (Q a)). apply Hk.
Qed.

Lemma returns_bindE {A B} (p : go A) (k : A → go B) Q Q' :
  returns p (okT Q) → (∀ a, Q a → returns (k a) (okT Q')) →
  returns (bindE p k) (okT Q').
Proof.
  intros Hp Hk. eapply returns_bind; [exact Hp|].
  intros [a|e]; [apply Hk|]. intros _. by apply returns_ret.
Qed.

Lemma returns_wrapE {A} msg (p : go A) Q :
  returns p (okT Q) → returns (wrapE msg p) (okT Q).
Proof.
  intros Hp. eapply returns_bind; [exact Hp|].
  intros [a|e] H; by apply returns_ret.
Qed.

Lemma returns_perform {X} (e : eff X) (Q : X → Prop) :
  (∀ w, I w → I (handle e w).2 ∧ G w (handle e w).2 ∧ Q (handle e w).1) →
  returns (perform e) Q.
Proof.
  intros H. apply rg_perform; [intros x; apply stable_pure|].
  intros w Hw _. by apply H.
Qed.

(** What each effect of [p] keeps, and nothing about its value. *)
Definition keeps_always {X} (e : eff X) : Prop :=
  ∀ w, I w → I (handle e w).2 ∧ G w (handle e w).2.

Lemma returns_effects {A} (p : prog A) :
  all_effects (@keeps_always) p → returns p anything.
Proof.
  intros Hp. eapply rg_post; [by intros a w|].
  eapply (rg_effects _ _ (@keeps_always)); [done| |by intros ?].
  intros X e w He Hw _. by apply He.
Qed.

Lemma returns_any {A} (p : go A) :
  all_effects (@keeps_always) p → returns p (okT anything).
Proof.
  intros Hp. eapply returns_post; [by apply returns_effects|]. by intros [a|e].
Qed.

(** Any pool of such programs. *)
Lemma returns_pool {A B} (f : B → prog A) (bs : list B) w ps' w' :
  Forall (λ b, returns (f b) anything) bs → I w →
  rtc pool_step (f <$> bs, w) (ps', w') →
  I w' ∧ rtc (λ w w', G w w' ∧ I w') w w'.
Proof.
  intros Hbs Hw Hr. destruct (pool_rg I G _ _ Hr) as (HI & _ & HG); [done| |done].
  apply Forall_fmap. eapply Forall_impl; [exact Hbs|]. intros b Hb.
  exists (λ _, True). split_and!; [by intros ?|done|exact Hb].
Qed.
End returns.

(** One construct of a program in [returns]; [leaf] proves the calls. *)
Ltac returns_step leaf :=
  cbv beta zeta in *;
  match goal with
  | |- returns _ _ (Ret (Err _)) _ => by apply returns_ret
  | |- returns _ _ (returnErr _) _ => by apply returns_ret
  | |- returns _ _ (returnOk _) (okT anything) => by apply returns_ret
  | |- returns _ _ (Ret _) anything => by apply returns_ret
  | |- returns _ _ (bindE _ _) (okT _) => eapply returns_bindE; [|intros ? ?]
  | |- returns _ _ (wrapE _ _) _ => apply returns_wrapE
  | |- returns _ _ (bind _ _) _ => eapply returns_bind; [|intros ? ?]
  | |- returns _ _ (match ?x with _ => _ end) _ => destruct x eqn:?
  | |- returns _ _ _ _ => leaf
  end.

(** ** Auxiliary state

    What the effects of a run establish for good can be recorded in an
    auxiliary state that only grows, [le]: the invariant relates it to the
    world, and what a program learns from it holds ever after. *)
Section auxiliary.
Context `{PT : PgTime, EV : Env, SS : SessionStore}.
Context {Γ : Type} (le : Γ → Γ → Prop) `{!PreOrder le}.
Variable I : Γ → World → Prop.

(** From [γ] on, every effect of [p] keeps the invariant, perhaps with more
    on record, and [p] returns a value of [Q]. *)
Fixpoint records {A} (γ : Γ) (p : prog A) (Q : Γ → A → Prop) : Prop :=
  match p with
  | Ret a => Q γ a
  | Vis e k => ∀ γ1 w, le γ γ1 → I γ1 w →
      ∃ γ2, le γ1 γ2 ∧ I γ2 (handle e w).2 ∧
            records γ2 (k (handle e w).1) Q
  end.

Lemma records_post {A} γ (p : prog A) (Q Q' : Γ → A → Prop) :
  records γ p Q → (∀ γ' a, le γ γ' → Q γ' a → Q' γ' a) → records γ p Q'.
Proof.
  revert γ. induction p as [a|X e k IH]; intros γ H HQ; simpl in *.
  - by apply HQ.
  - intros γ1 w Hle Hw. destruct (H γ1 w Hle Hw) as (γ2 & Hle2 & HI & Hk).
    exists γ2. split_and!; [done..|]. apply IH; [done|].
    intros γ' a Hle'. apply HQ. etrans; [exact Hle|]. by etrans.
Qed.

Lemma records_ret {A} γ (a : A) (Q : Γ → A → Prop) : Q γ a → records γ (Ret a) Q.
Proof. done. Qed.

Lemma records_bind {A B} γ (p : prog A) (k : A → prog B) Q Q' :
  records γ p Q → (∀ γ' a, le γ γ' → Q γ' a → records γ' (k a) Q') →
  records γ (bind p k) Q'.
Proof.
  revert γ. induction p as [a|X e h IH]; intros γ H Hk; simpl in *.
  - by apply Hk.
  - intros γ1 w Hle Hw. destruct (H γ1 w Hle Hw) as (γ2 & Hle2 & HI & Hh).
    exists γ2. split_and!; [done..|]. apply IH; [done|].
    intros γ' a Hle'. apply Hk. etrans; [exact Hle|]. by etrans.
Qed.

Lemma records_bindE {A B} γ (p : go A) (k : A → go B) Q Q' :
  records γ p (λ γ', okT (Q γ')) →
  (∀ γ' a, le γ γ' → Q γ' a → records γ' (k a) (λ γ', okT (Q' γ'))) →
  records γ (bindE p k) (λ γ', okT (Q' γ')).
Proof.
  intros Hp Hk. eapply records_bind; [exact Hp|].
  intros γ' [a|e] Hle Ha; [by apply Hk|done].
Qed.

Lemma records_wrapE {A} γ msg (p : go A) Q :
  records γ p (λ γ', okT (Q γ')) → records γ (wrapE msg p) (λ γ', okT (Q γ')).
Proof.
  intros Hp. eapply records_bind; [exact Hp|]. by intros γ' [a|e] Hle Ha.
Qed.

Lemma records_perform {X} γ (e : eff X) (Q : Γ → X → Prop) :
  (∀ γ1 w, le γ γ1 → I γ1 w →
     ∃ γ2, le γ1 γ2 ∧ I γ2 (handle e w).2 ∧ Q γ2 (handle e w).1) →
  records γ (perform e) Q.
Proof. intros H γ1 w Hle Hw. by apply H. Qed.

(** A program that records nothing itself. *)
Lemma records_effects {A} (P : Γ → ∀ X, eff X → Prop) γ (p : prog A) :
  (∀ γ1 X (e : eff X) w, P γ1 X e → I γ1 w → I γ1 (handle e w).2) →
  (∀ γ1, le γ γ1 → all_effects (P γ1) p) → records γ p (λ _, anything).
Proof.
  intros HI. revert γ. induction p as [a|X e k IH]; intros γ Hp; [done|].
  intros γ1 w Hle Hw. exists γ1. split_and!; [done| |].
  - destruct (Hp γ1 Hle) as [He _]. eauto.
  - apply IH. intros γ2 Hle2. assert (Hle' : le γ γ2) by by etrans.
    destruct (Hp γ2 Hle') as [_ Hk]. apply Hk.
Qed.

(** Any pool of such programs. *)
Lemma records_pool {A} (c c' : list (prog A) * World) γ :
  rtc pool_step c c' → I γ c.2 →
  Forall (λ p, records γ p (λ _, anything)) c.1 →
  ∃ γ', le γ γ' ∧ I γ' c'.2.
Proof.
  intros Hr. revert γ. induction Hr as [c|c c1 c2 Hs _ IH]; intros γ Hw Hps.
  - by exists γ.
  - destruct Hs as [ps i X e k w Hi]. simpl in *.
    rewrite Forall_lookup in Hps.
    destruct (Hps _ _ Hi γ w) as (γ1 & Hle & HI & Hk); [done..|].
    destruct (IH γ1 HI) as (γ2 & Hle2 & H2).
    + apply Forall_insert; [|done]. apply Forall_lookup. intros j q Hj.
      destruct q as [a|Y f h]; [done|]. intros γ' w' Hle' Hw'.
      apply (Hps j _ Hj γ' w'); [by etrans|done].
    + exists γ2. split; [by etrans|done].
Qed.
End auxiliary.

(** One construct of a program in [records]; [leaf] proves the calls. *)
Ltac records_step leaf :=
  cbv beta zeta in *;
  match goal with
  | |- records _ _ _ (Ret (Err _)) _ => by apply records_ret
  | |- records _ _ _ (returnErr _) _ => by apply records_ret
  | |- records _ _ _ (returnOk _) (λ _, okT anything) => by apply records_ret
  | |- records _ _ _ (Ret _) (λ _, anything) => by apply records_ret
  | |- records ?R ?J _ (bindE (match _ with _ => _ end) _) (λ g, okT (@?Q g)) =>
      (* the branches agree on nothing *)
      apply (records_bindE R J _ _ _ (λ _, anything)); [|intros ? ? ? ?]
  | |- records ?R _ _ (bindE _ _) (λ g, okT (@?Q g)) =>
      eapply (records_bindE R); [|intros ? ? ? ?]
  | |- records ?R _ _ (wrapE _ _) _ => apply (records_wrapE R)
  | |- records ?R _ _ (bind _ _) _ =>
      eapply (records_bind R); [|intros ? ? ? ?]
  | |- records _ _ _ (match ?x with _ => _ end) _ => destruct x eqn:?
  | |- records _ _ _ _ _ => leaf
  end.
