(* ===== verification/Postgres.v ===== *)
(** * The PostgreSQL repositories (internal/repository/postgres)

    Every method as a program: the statement it sends and what it makes of
    the driver's answer ([pgx.ErrNoRows], a unique violation, the affected
    row count, any other error wrapped). *)
From S2P Require Import Prelude GoBase Domain Schema Effects.
#[local] Open Scope go_scope.

(** A query of one row (every [scanOne], and the two [GetByHash] that scan
    their row themselves): a missing row becomes the domain's sentinel, any other error
    is wrapped. *)
Definition scan_one {A} (notFound : error) (msg : string) (q : stmt A) :
    go A :=
  let! r := perform (Query q) in
  match r with
  | Ok a => returnOk a
  | Err err =>
      if errors_Is err ErrNoRows then returnErr notFound
      else returnErr (Wrap msg err)
  end.

(** [Exec], then [tag.RowsAffected() == 0] means the row is not there. *)
Definition exec_affecting (notFound : error) (msg : string) (q : stmt nat) :
    go unit :=
  let? n := perform (Query q) orwrap msg in
  match n with
  | 0 => returnErr notFound
  | S _ => returnOk tt
  end.

(** [Exec] whose row count is ignored. *)
Definition exec_any {A} (msg : string) (q : stmt A) : go unit :=
  let? _ := perform (Query q) orwrap msg in
  returnOk tt.

Module UserRepository.
Definition scanOne (q : stmt User.User) : go User.User :=
  scan_one User_ErrNotFound "postgres: get user" q.

Definition Create (u : User.User) : go unit :=
  let! r := perform (Query (InsertUser u)) in
  match r with
  | Ok _ => returnOk tt
  | Err err =>
      if bool_decide (as_PgError err = Some uniqueViolationCode)
      then returnErr User_ErrEmailTaken
      else returnErr (Wrap "postgres: create user" err)
  end.

Definition GetByEmail (email : string) : go User.User :=
  scanOne (SelectUserByEmail email).

Definition GetByID (id : uuid) : go User.User :=
  scanOne (SelectUserByID id).

Definition Update (u : User.User) : go unit :=
  exec_affecting User_ErrNotFound "postgres: update user"
    (UpdateUserProfile u).

Definition UpdatePassword (id : uuid) (passwordHash : string) : go unit :=
  exec_affecting User_ErrNotFound "postgres: update user password"
    (UpdateUserPassword id passwordHash).

Definition Delete (id : uuid) : go unit :=
  exec_affecting User_ErrNotFound "postgres: delete user" (DeleteUser id).

Definition MarkDeletionPending (id : uuid) : go unit :=
  let? n := perform (Query (MarkUserDeletionPending id))
            orwrap "postgres: mark deletion pending" in
  match n with
  | 0 => let? _ := GetByID id in returnOk tt
  | S _ => returnOk tt
  end.
End UserRepository.

Module RefreshTokenRepository.
Definition Create (t : Token.RefreshToken) : go unit :=
  exec_any "postgres: create refresh token" (InsertRefreshToken t).

Definition GetByHash (hash : string) : go Token.RefreshToken :=
  scan_one Token_ErrNotFound "postgres: get refresh token"
    (SelectRefreshTokenByHash hash).

Definition Revoke (id : uuid) : go unit :=
  exec_any "postgres: revoke refresh token" (RevokeRefreshToken id).

Definition RevokeAllForUser (userID : uuid) : go unit :=
  exec_any "postgres: revoke all refresh tokens"
    (RevokeRefreshTokensOf userID).
End RefreshTokenRepository.

Module TwoFactorCredentialRepository.
Definition scanOne (q : stmt Totp.Credential) : go Totp.Credential :=
  scan_one Totp_ErrNotFound "postgres: get totp credential" q.

Definition Create (c : Totp.Credential) : go unit :=
  exec_any "postgres: create totp credential" (InsertCredential c).

Definition GetByUserID (userID : uuid) : go Totp.Credential :=
  scanOne (SelectCredentialByUser userID).

Definition GetBySetupTokenHash (hash : string) : go Totp.Credential :=
  scanOne (SelectCredentialBySetupHash hash).

Definition Update (c : Totp.Credential) : go unit :=
  exec_affecting Totp_ErrNotFound "postgres: update totp credential"
    (UpdateCredential c).
End TwoFactorCredentialRepository.

Module LoginChallengeRepository.
Definition Create (c : LoginChallenge.LoginChallenge) : go unit :=
  exec_any "postgres: create login challenge" (InsertChallenge c).

Definition GetByHash (hash : string) : go LoginChallenge.LoginChallenge :=
  scan_one LoginChallenge_ErrNotFound "postgres: get login challenge"
    (SelectChallengeByHash hash).

Definition Consume (id : uuid) : go unit :=
  exec_any "postgres: consume login challenge" (ConsumeChallenge id).
End LoginChallengeRepository.

Module PasswordResetFlowRepository.
Definition scanOne (q : stmt PasswordReset.PasswordResetFlow) :
    go PasswordReset.PasswordResetFlow :=
  scan_one PasswordReset_ErrNotFound "postgres: get password reset flow" q.

Definition Create (f : PasswordReset.PasswordResetFlow) : go unit :=
  exec_any "postgres: create password reset flow" (InsertFlow f).

Definition GetByFlowTokenHash (hash : string) :
    go PasswordReset.PasswordResetFlow :=
  scanOne (SelectFlowByFlowHash hash).

Definition GetByResetTokenHash (hash : string) :
    go PasswordReset.PasswordResetFlow :=
  scanOne (SelectFlowByResetHash hash).

Definition Update (f : PasswordReset.PasswordResetFlow) : go unit :=
  exec_affecting PasswordReset_ErrNotFound
    "postgres: update password reset flow" (UpdateFlow f).
End PasswordResetFlowRepository.

(** ** The deletion queue (deletion_store.go) *)

(** application/auth.DeletionStep and DeletionJob (ports.go). *)
Record DeletionStep := mkDeletionStep {
  Service : string;
  Status : string;
  AttemptCount : Z
}.
Record DeletionJob := mkDeletionJob {
  Job_ID : uuid;
  Job_UserID : uuid;
  Job_Steps : list DeletionStep
}.

Definition scan_step (r : DeletionStepRow) : DeletionStep :=
  mkDeletionStep r.(step_service) r.(step_status) r.(step_attempt_count).

Definition deletionServices : list string :=
  ["apiary"; "hive"; "inspection"; "harvest"; "media"; "notification";
   "subscription"].

Module DeletionStore.
(** The loop over [deletionServices], then the final commit. *)
Fixpoint create_steps (jobID : uuid) (names : list string) : tx unit :=
  match names with
  | [] =>
      TxCommit (λ c, match c with
                     | Err err => Err (Wrap "deletion: commit" err)
                     | Ok _ => Ok tt
                     end)
  | name :: names' =>
      TxStmt (InsertDeletionStep jobID name)
        (λ r, match r with
              | Err err => TxReturn (Err (Wrap "deletion: create step" err))
              | Ok _ => create_steps jobID names'
              end)
  end.

(** No row was marked: fine if the account was marked before. *)
Definition check_marked (userID : uuid) : tx unit :=
  TxStmt (SelectDeletionStatus userID) (λ st,
    match st with
    | Err err =>
        if errors_Is err ErrNoRows
        then TxReturn (Err (Errorf "deletion: account is missing"))
        else TxReturn (Err (Wrap "deletion: check account status" err))
    | Ok status =>
        if bool_decide (status ≠ "deletion_pending")
        then TxReturn (Err (Errorf "deletion: account is not deletable"))
        else TxCommit (λ c,
          match c with
          | Err err => Err (Wrap "deletion: commit existing request" err)
          | Ok _ => Ok tt
          end)
    end).

Definition request_tx (jobID userID : uuid) : tx unit :=
  TxStmt (MarkUserDeletionPending userID) (λ tag,
    match tag with
    | Err err => TxReturn (Err (Wrap "deletion: mark pending" err))
    | Ok 0 =>
        check_marked userID
    | Ok (S _) =>
        TxStmt (RevokeRefreshTokensOf userID) (λ r,
          match r with
          | Err err => TxReturn (Err (Wrap "deletion: revoke tokens" err))
          | Ok _ =>
              TxStmt (UpsertDeletionJob jobID userID) (λ r,
                match r with
                | Err err =>
                    TxReturn (Err (Wrap "deletion: create job" err))
                | Ok id => create_steps id deletionServices
                end)
          end)
    end).

Definition RequestDeletion (userID : uuid) : go unit :=
  let! jobID := perform NewUUID in
  let? r := perform (Transaction (request_tx jobID userID))
            orwrap "deletion: begin" in
  Ret r.
End DeletionStore.

Module DeletionJobStore.
Definition claim_tx : tx (option DeletionJob) :=
  TxStmt ClaimDeletionJob (λ r,
    match r with
    | Err err =>
        if errors_Is err ErrNoRows then TxReturn (Ok None)
        else TxReturn (Err err)
    | Ok (id, user) =>
        TxStmt (SelectDeletionSteps id) (λ rows,
          match rows with
          | Err err => TxReturn (Err err)
          | Ok rows =>
              TxCommit (λ c,
                match c with
                | Err err => Err err
                | Ok _ =>
                    Ok (Some (mkDeletionJob id user (scan_step <$> rows)))
                end)
          end)
    end).

Definition ClaimDeletion : go (option DeletionJob) :=
  let? r := perform (Transaction claim_tx) in
  Ret r.

Definition CompleteDeletionStep (jobID : uuid) (service : string) :
    go unit :=
  let? _ := perform (Query (CompleteStep jobID service)) in
  returnOk tt.

Definition min (a b : Z) : Z := if bool_decide (a < b)%Z then a else b.

(** [1 << min(attempt, 8)] minutes. *)
Definition backoff_minutes (attempt : Z) : Z := Z.shiftl 1 (min attempt 8).

Definition RetryDeletionStep (jobID : uuid) (service : string)
    (attempt : Z) (msg : string) : go unit :=
  let? _ := perform (Query (RetryStep jobID service attempt
                              (backoff_minutes attempt) msg)) in
  let? _ := perform (Query (ReleaseJob jobID)) in
  returnOk tt.

Definition CompleteDeletionJob (jobID : uuid) : go unit :=
  let? _ := perform (Query (CompleteJob jobID)) in
  returnOk tt.
End DeletionJobStore.
