(* ===== verification/GoStrings.v ===== *)
(** * Go strings

    A Go string is a sequence of bytes ([string] of the Standard Library).
    The functions of [strings], [unicode/utf8], [encoding/hex] and
    [encoding/base64] the program calls: UTF-8 decoding with the replacement
    rune for ill-formed input, [TrimSpace], [ToLower], [TrimRight],
    [TrimPrefix], and the URL and hex encodings. *)
From Stdlib Require Import Ascii.
From S2P Require Import Prelude.

(** ** Bytes *)

Definition byte_Z (a : ascii) : Z := Z.of_N (N_of_ascii a).
Definition Z_byte (z : Z) : ascii := ascii_of_N (Z.to_N (z `mod` 256)).

Fixpoint string_bytes (s : string) : list ascii :=
  match s with
  | EmptyString => []
  | String a s' => a :: string_bytes s'
  end.
Fixpoint bytes_string (l : list ascii) : string :=
  match l with
  | [] => EmptyString
  | a :: l' => String a (bytes_string l')
  end.

Definition of_Zs (l : list Z) : string := bytes_string (Z_byte <$> l).
Definition to_Zs (s : string) : list Z := byte_Z <$> string_bytes s.

(** ** Prefixes *)

(** [strings.TrimPrefix(s, p)], when [p] is a prefix. *)
Fixpoint strip_prefix (p s : string) : option string :=
  match p, s with
  | EmptyString, _ => Some s
  | String a p', String b s' =>
      if ascii_dec a b then strip_prefix p' s' else None
  | _, EmptyString => None
  end.

Definition TrimPrefix (s p : string) : string :=
  default s (strip_prefix p s).

Fixpoint rev_string_aux (acc s : string) : string :=
  match s with
  | EmptyString => acc
  | String a s' => rev_string_aux (String a acc) s'
  end.
Definition rev_string (s : string) : string := rev_string_aux "" s.

(** Remove, as long as possible, any of the given prefixes. *)
Fixpoint strip_any (ps : list string) (s : string) : option string :=
  match ps with
  | [] => None
  | p :: ps' =>
      match strip_prefix p s with
      | Some s' => Some s'
      | None => strip_any ps' s
      end
  end.

Fixpoint trim_left_fuel (fuel : nat) (ps : list string) (s : string) : string :=
  match fuel with
  | 0 => s
  | S fuel' =>
      match strip_any ps s with
      | Some s' => trim_left_fuel fuel' ps s'
      | None => s
      end
  end.
(** Every prefix is non-empty, so the length of [s] is fuel enough. *)
Definition trim_left (ps : list string) (s : string) : string :=
  trim_left_fuel (String.length s) ps s.
Definition trim_right (ps : list string) (s : string) : string :=
  rev_string (trim_left (rev_string <$> ps) (rev_string s)).

(** The UTF-8 encodings of the runes for which [unicode.IsSpace] holds. *)
Definition space_encodings : list string :=
  of_Zs <$>
  ([ [9]; [10]; [11]; [12]; [13]; [32]; [0xC2; 0x85]; [0xC2; 0xA0];
     [0xE1; 0x9A; 0x80] ] ++
   ((λ i, [0xE2; 0x80; 0x80 + Z.of_nat i]) <$> seq 0 11) ++
   [ [0xE2; 0x80; 0xA8]; [0xE2; 0x80; 0xA9]; [0xE2; 0x80; 0xAF];
     [0xE2; 0x81; 0x9F]; [0xE3; 0x80; 0x80] ])%Z.

(** [strings.TrimSpace]. *)
Definition TrimSpace (s : string) : string :=
  trim_right space_encodings (trim_left space_encodings s).

(** [strings.TrimRight(s, "/")]. *)
Definition TrimRight_slash (s : string) : string := trim_right ["/"] s.

(** ** Runes *)

Definition RuneError : Z := 0xFFFD.
Definition cont (b : Z) : bool := bool_decide (0x80 ≤ b ≤ 0xBF)%Z.

(** [utf8.DecodeRune]: the first rune and its width; an ill-formed sequence
    gives [RuneError] and width 1. *)
Definition decode_rune (l : list Z) : option (Z * nat) :=
  match l with
  | [] => None
  | b0 :: l' =>
      let bad := Some (RuneError, 1) in
      if bool_decide (b0 < 0x80)%Z then Some (b0, 1)
      else if bool_decide (0xC2 ≤ b0 ≤ 0xDF)%Z then
        match l' with
        | b1 :: _ =>
            if cont b1 then Some (((b0 - 0xC0) * 64 + (b1 - 0x80))%Z, 2)
            else bad
        | _ => bad
        end
      else if bool_decide (0xE0 ≤ b0 ≤ 0xEF)%Z then
        match l' with
        | b1 :: b2 :: _ =>
            let lo := if bool_decide (b0 = 0xE0)%Z then 0xA0%Z else 0x80%Z in
            let hi := if bool_decide (b0 = 0xED)%Z then 0x9F%Z else 0xBF%Z in
            if bool_decide (lo ≤ b1 ≤ hi)%Z && cont b2
            then Some (((b0 - 0xE0) * 4096 + (b1 - 0x80) * 64
                        + (b2 - 0x80))%Z, 3)
            else bad
        | _ => bad
        end
      else if bool_decide (0xF0 ≤ b0 ≤ 0xF4)%Z then
        match l' with
        | b1 :: b2 :: b3 :: _ =>
            let lo := if bool_decide (b0 = 0xF0)%Z then 0x90%Z else 0x80%Z in
            let hi := if bool_decide (b0 = 0xF4)%Z then 0x8F%Z else 0xBF%Z in
            if bool_decide (lo ≤ b1 ≤ hi)%Z && cont b2 && cont b3
            then Some (((b0 - 0xF0) * 262144 + (b1 - 0x80) * 4096
                        + (b2 - 0x80) * 64 + (b3 - 0x80))%Z, 4)
            else bad
        | _ => bad
        end
      else bad
  end.

Fixpoint runes_fuel (fuel : nat) (l : list Z) : list Z :=
  match fuel with
  | 0 => []
  | S fuel' =>
      match decode_rune l with
      | None => []
      | Some (r, n) => r :: runes_fuel fuel' (drop n l)
      end
  end.
(** [for _, r := range s]: every rune takes at least one byte. *)
Definition runes (s : string) : list Z :=
  let l := to_Zs s in runes_fuel (length l) l.

(** [utf8.AppendRune]; surrogates and out-of-range values encode as
    [RuneError]. *)
Definition encode_rune (r : Z) : list Z :=
  let enc3 r := [0xE0 + r / 4096; 0x80 + r / 64 `mod` 64; 0x80 + r `mod` 64]%Z in
  if bool_decide (0 ≤ r < 0x80)%Z then [r]
  else if bool_decide (0x80 ≤ r < 0x800)%Z then
    [0xC0 + r / 64; 0x80 + r `mod` 64]%Z
  else if bool_decide (0x800 ≤ r < 0xD800 ∨ 0xE000 ≤ r < 0x10000)%Z then enc3 r
  else if bool_decide (0x10000 ≤ r < 0x110000)%Z then
    [0xF0 + r / 262144; 0x80 + r / 4096 `mod` 64; 0x80 + r / 64 `mod` 64;
     0x80 + r `mod` 64]%Z
  else enc3 RuneError.

(** The Unicode case and digit tables beyond ASCII (data of the Standard
    Library's [unicode] package) are parameters. *)
Class Unicode := {
  unicode_lower : Z → Z;      (* unicode.ToLower on a rune >= 0x80 *)
  unicode_Nd : Z → bool       (* unicode.Is(unicode.Nd, r), r >= 0x80 *)
}.

Definition is_ascii (s : string) : bool :=
  List.forallb (λ b, bool_decide (b < 0x80)%Z) (to_Zs s).

Definition lower_byte (b : Z) : Z :=
  if bool_decide (65 ≤ b ≤ 90)%Z then (b + 32)%Z else b.

Section unicode.
Context `{U : Unicode}.

Definition rune_lower (r : Z) : Z :=
  if bool_decide (r < 0x80)%Z then lower_byte r else unicode_lower r.

(** [strings.ToLower]: bytewise on ASCII, rune by rune otherwise. *)
Definition ToLower (s : string) : string :=
  if is_ascii s then of_Zs (lower_byte <$> to_Zs s)
  else of_Zs (runes s ≫= λ r, encode_rune (rune_lower r)).

(** [unicode.IsDigit]. *)
Definition IsDigit (r : Z) : bool :=
  if bool_decide (r < 0x80)%Z then bool_decide (48 ≤ r ≤ 57)%Z
  else if bool_decide (r ≤ 0xFF)%Z then false
  else unicode_Nd r.
End unicode.

(** ** Encodings *)

Definition hex_digit (z : Z) : ascii :=
  Z_byte (if bool_decide (z < 10)%Z then 48 + z else 87 + z)%Z.
Definition upper_hex_digit (z : Z) : ascii :=
  Z_byte (if bool_decide (z < 10)%Z then 48 + z else 55 + z)%Z.

(** [hex.EncodeToString]. *)
Definition hex_encode (s : string) : string :=
  bytes_string
    (to_Zs s ≫= λ b, [hex_digit (b / 16)%Z; hex_digit (b `mod` 16)%Z]).

(** [url.QueryEscape]. *)
Definition query_unreserved (b : Z) : bool :=
  bool_decide (48 ≤ b ≤ 57 ∨ 65 ≤ b ≤ 90 ∨ 97 ≤ b ≤ 122 ∨
               b = 45 ∨ b = 95 ∨ b = 46 ∨ b = 126)%Z.
Definition QueryEscape (s : string) : string :=
  bytes_string
    (to_Zs s ≫= λ b,
       if query_unreserved b then [Z_byte b]
       else if bool_decide (b = 32)%Z then [Z_byte 43]
       else [Z_byte 37; upper_hex_digit (b / 16)%Z;
             upper_hex_digit (b `mod` 16)%Z]).

(** [base64.RawURLEncoding.EncodeToString]. *)
Definition base64_char (z : Z) : ascii :=
  Z_byte (if bool_decide (z < 26) then 65 + z
          else if bool_decide (z < 52) then 71 + z
          else if bool_decide (z < 62) then z - 4
          else if bool_decide (z = 62)%Z then 45 else 95)%Z.

Fixpoint base64_chars (l : list Z) : list ascii :=
  match l with
  | a :: b :: c :: l' =>
      base64_char (a / 4)%Z ::
      base64_char (a `mod` 4 * 16 + b / 16)%Z ::
      base64_char (b `mod` 16 * 4 + c / 64)%Z ::
      base64_char (c `mod` 64)%Z :: base64_chars l'
  | [a; b] =>
      [base64_char (a / 4)%Z; base64_char (a `mod` 4 * 16 + b / 16)%Z;
       base64_char (b `mod` 16 * 4)%Z]
  | [a] => [base64_char (a / 4)%Z; base64_char (a `mod` 4 * 16)%Z]
  | [] => []
  end.
Definition base64_encode (s : string) : string :=
  bytes_string (base64_chars (to_Zs s)).
