(* ===== verification/Platform.v ===== *)
(** * The platform packages (internal/platform)

    The third-party libraries and cryptographic primitives are the
    parameters of class [Lib]; the packages that wrap them are modelled as
    they are written: tokenhash, totp (code validation at the current and the
    next period), totpsecret (AES-GCM with the nonce in front), password,
    jwtauth, and the HTTP clients of the other services. *)
From Stdlib Require Import Ascii.
From stdpp Require Import pretty.
From S2P Require Import Prelude GoBase Domain Schema Effects GoStrings.
#[local] Open Scope go_scope.

(** An authenticated cipher ([cipher.AEAD], already keyed). *)
Record AEAD := mkAEAD {
  NonceSize : nat;
  Seal : string → string → string;           (* nonce, plaintext *)
  Open : string → string → result string     (* nonce, sealed *)
}.

(** The claims of an access token (authmw.AccessClaims). *)
Record AccessClaims := mkAccessClaims {
  Subject : string;
  IssuedAt : time;
  ClaimExpiresAt : time;
  SessionID : uuid;
  SessionGeneration : Z
}.

Class Lib := {
  (* net/url: the error of a URL that does not parse *)
  url_Parse_error : string → option error;
  (* google/uuid *)
  uuid_String : uuid → string;
  uuid_Parse : string → result uuid;
  (* crypto/sha256: the 32 bytes of the digest *)
  sha256 : string → string;
  (* golang.org/x/crypto/bcrypt *)
  bcrypt_MinCost : Z;
  bcrypt_MaxCost : Z;
  bcrypt_DefaultCost : Z;
  bcrypt_GenerateFromPassword : N → string → Z → result string;
  bcrypt_CompareHashAndPassword : string → string → result unit;
  (* github.com/pquerna/otp: secret and otpauth URI; six digits, SHA-1 *)
  otp_Generate : N → string → string → result (string * string);
  hotp_ValidateCustom : string → Z → string → result bool;
  (* crypto/aes, crypto/cipher *)
  aes_NewCipher_GCM : string → result AEAD;
  (* github.com/golang-jwt/jwt: private key, kid, claims *)
  jwt_SignedString : string → string → AccessClaims → result string
}.

(** The documented behaviour of the primitives that some theorems use. *)
Class BcryptLaws `{Lib} := {
  bcrypt_roundtrip : ∀ salt p cost h,
    bcrypt_GenerateFromPassword salt p cost = Ok h →
    bcrypt_CompareHashAndPassword h p = Ok tt
}.
Class AeadLaws (a : AEAD) := {
  aead_open_seal : ∀ nonce p,
    String.length nonce = a.(NonceSize) →
    a.(Open) nonce (a.(Seal) nonce p) = Ok p
}.

Section platform.
Context `{L : Lib}.

(** ** platform/tokenhash *)

Definition rawTokenBytes : nat := 32.

Definition tokenhash_Generate : go string :=
  let? b := perform (RandRead rawTokenBytes) orwrap "tokenhash: generate" in
  returnOk (base64_encode b).

Definition tokenhash_Hash (raw : string) : string := hex_encode (sha256 raw).

(** ** platform/totp *)

Definition period : Z := 30.
Definition forwardSkew : Z := 1.

Definition GenerateSecret (issuer accountName : string) :
    go (string * string) :=
  let! r := perform Entropy in
  match otp_Generate r issuer accountName with
  | Ok key => returnOk key
  | Err err => returnErr (Wrap "totp: generate secret" err)
  end.

(** The loop [for i := 0; i <= forwardSkew; i++] of ValidateAt, over the
    remaining values of [i]; Go's [t.Unix() / period] truncates. *)
Fixpoint validate_loop (code secretBase32 : string) (current : Z)
    (js : list Z) : bool * Z :=
  match js with
  | [] => (false, 0%Z)
  | i :: js' =>
      let counter := Int.wrap64 (current + i) in
      match hotp_ValidateCustom code (Int.uint64 counter) secretBase32 with
      | Ok true => (true, counter)
      | Ok false | Err _ => validate_loop code secretBase32 current js'
      end
  end.

Definition ValidateAt (code secretBase32 : string) (t : time) : bool * Z :=
  let current := Z.quot (Unix t) period in
  validate_loop code secretBase32 current (seqZ 0 (forwardSkew + 1)).

(** [totp.Validate] at the reading [now]. *)
Definition Validate (code secretBase32 : string) (now : time) : bool :=
  (ValidateAt code secretBase32 now).1.

(** ** platform/totpsecret *)

Definition KeySize : nat := 32.

Definition NewCipher (key : string) : result AEAD :=
  if bool_decide (String.length key ≠ KeySize)
  then Err (Errorf ("totpsecret: key must be 32 bytes, got " +:+
                    pretty (String.length key)))
  else match aes_NewCipher_GCM key with
       | Ok a => Ok a
       | Err err => Err (Wrap "totpsecret: new gcm" err)
       end.

Definition Encrypt (c : AEAD) (plaintext : string) : go string :=
  let? nonce := perform (RandRead c.(NonceSize))
                orwrap "totpsecret: generate nonce" in
  returnOk (nonce +:+ c.(Seal) nonce plaintext).

(** [ciphertext[:n]] and [ciphertext[n:]]. *)
Definition str_take (n : nat) (s : string) : string :=
  bytes_string (take n (string_bytes s)).
Definition str_drop (n : nat) (s : string) : string :=
  bytes_string (drop n (string_bytes s)).

Definition Decrypt (c : AEAD) (ciphertext : string) : result string :=
  let nonceSize := c.(NonceSize) in
  if bool_decide (String.length ciphertext < nonceSize)
  then Err (Errorf "totpsecret: ciphertext too short")
  else match c.(Open) (str_take nonceSize ciphertext)
               (str_drop nonceSize ciphertext) with
       | Ok plaintext => Ok plaintext
       | Err err => Err (Wrap "totpsecret: decrypt" err)
       end.

(** ** platform/password *)

Record BcryptHasher := mkBcryptHasher { cost : Z }.

Definition NewBcryptHasher (c : Z) : BcryptHasher :=
  mkBcryptHasher
    (if bool_decide (c < bcrypt_MinCost ∨ bcrypt_MaxCost < c)%Z
     then bcrypt_DefaultCost else c).

Definition Hash (h : BcryptHasher) (plainPassword : string) : go string :=
  let! salt := perform Entropy in
  Ret (bcrypt_GenerateFromPassword salt plainPassword h.(cost)).

Definition Verify (h : BcryptHasher) (hash plainPassword : string) :
    result unit :=
  bcrypt_CompareHashAndPassword hash plainPassword.

(** ** platform/jwtauth *)

Record Issuer := mkIssuer { priv : string; kid : string; ttl : duration }.

Definition NewIssuer (priv kid : string) (ttl : duration) : Issuer :=
  mkIssuer priv kid ttl.

Definition IssueWithGeneration (i : Issuer) (userID sessionID : uuid)
    (generation : Z) : go (string * time) :=
  let! now := perform Now in
  let expiresAt := TimeAdd now i.(ttl) in
  let claims :=
    {| Subject := uuid_String userID; IssuedAt := now;
       ClaimExpiresAt := expiresAt; SessionID := sessionID;
       SessionGeneration := generation |} in
  match jwt_SignedString i.(priv) i.(kid) claims with
  | Ok signed => returnOk (signed, expiresAt)
  | Err err => returnErr (Wrap "jwtauth: sign" err)
  end.

Definition Issue (i : Issuer) (userID sessionID : uuid) :
    go (string * time) :=
  IssueWithGeneration i userID sessionID 0.

(** ** platform/mediaclient *)

(** [url.Values] with the single key "ids". *)
Fixpoint idsQuery (ids : list uuid) : string :=
  match ids with
  | [] => ""
  | [id] => "ids=" +:+ QueryEscape (uuid_String id)
  | id :: ids' =>
      "ids=" +:+ QueryEscape (uuid_String id) +:+ "&" +:+ idsQuery ids'
  end.

Definition StatusOK : Z := 200.
Definition StatusNoContent : Z := 204.

Definition bearer (token : string) : string := "Bearer " +:+ token.

(** [http.NewRequestWithContext] with the Authorization header set; it fails
    on a URL that does not parse. *)
Definition NewRequest (method url authorization : string) : result Request :=
  match url_Parse_error url with
  | Some err => Err err
  | None => Ok (mkRequest method url authorization)
  end.

Definition VerifyOwnership (baseURL accessToken : string)
    (ids : list uuid) : go unit :=
  match NewRequest "GET" (baseURL +:+ "/api/v1/media?" +:+ idsQuery ids)
          (bearer accessToken) with
  | Err err => returnErr (Wrap "mediaclient: build request" err)
  | Ok req =>
      let? resp := perform (HttpDo req)
                   orwrap "mediaclient: call media-service" in
      if bool_decide (resp.(resp_status) ≠ StatusOK)
      then returnErr (Errorf ("mediaclient: unexpected status " +:+
                              pretty resp.(resp_status) +:+
                              " from media-service"))
      else match resp.(resp_items) with
           | Err err => returnErr (Wrap "mediaclient: decode response" err)
           | Ok items =>
               if bool_decide (length items ≠ length ids)
               then returnErr ErrAvatarNotFound
               else returnOk tt
           end
  end.

(** The DELETE calls of the clients: 204 and 200 are success. *)
Definition delete_call (client service url accessToken : string) : go unit :=
  match NewRequest "DELETE" url (bearer accessToken) with
  | Err err => returnErr (Wrap (client +:+ ": build request") err)
  | Ok req =>
      let? resp := perform (HttpDo req)
                   orwrap (client +:+ ": call " +:+ service) in
      if bool_decide (resp.(resp_status) = StatusNoContent ∨
                      resp.(resp_status) = StatusOK)
      then returnOk tt
      else returnErr (Errorf (client +:+ ": unexpected status " +:+
                              pretty resp.(resp_status) +:+ " from " +:+
                              service))
  end.

Definition DeleteByIDs (baseURL accessToken : string) (ids : list uuid) :
    go unit :=
  match ids with
  | [] => returnOk tt
  | _ =>
      delete_call "mediaclient" "media-service"
        (baseURL +:+ "/api/v1/media?" +:+ idsQuery ids) accessToken
  end.

Definition DeleteAllByUser (baseURL accessToken : string) : go unit :=
  delete_call "mediaclient" "media-service"
    (baseURL +:+ "/api/v1/media/mine") accessToken.

(** ** platform/apiaryclient *)

Definition DeleteAllMine (baseURL accessToken : string) : go unit :=
  delete_call "apiaryclient" "apiary-service"
    (baseURL +:+ "/api/v1/apiaries") accessToken.

(** ** platform/deletionclient *)

Record DeletionClient := mkDeletionClient {
  dc_baseURL : string;
  dc_token : string
}.

Definition NewDeletionClient (baseURL token : string) : DeletionClient :=
  mkDeletionClient (TrimRight_slash baseURL) token.

(** Any 2xx status is success; the errors of the request and of the call
    are returned as they are. *)
Definition internal_delete (c : DeletionClient) (path msg : string) :
    go unit :=
  match NewRequest "DELETE" (c.(dc_baseURL) +:+ path)
          (bearer c.(dc_token)) with
  | Err err => returnErr err
  | Ok req =>
      let? resp := perform (HttpDo req) in
      if bool_decide (200 ≤ resp.(resp_status) < 300)%Z
      then returnOk tt
      else returnErr (Errorf (msg +:+ pretty resp.(resp_status)))
  end.

Definition DeleteUserData (c : DeletionClient) (userID : uuid) : go unit :=
  internal_delete c ("/internal/api/v1/users/" +:+ uuid_String userID)
    "cleanup returned status ".

Definition DeleteSessionData (c : DeletionClient) (userID sessionID : uuid) :
    go unit :=
  internal_delete c
    ("/internal/api/v1/users/" +:+ uuid_String userID +:+ "/sessions/" +:+
     uuid_String sessionID)
    "session cleanup returned status ".

(** ** Facts the clients of this file share *)

Lemma NewRequest_Ok method url authorization req :
  NewRequest method url authorization = Ok req →
  req = mkRequest method url authorization.
Proof. unfold NewRequest. by destruct (url_Parse_error url); intros [= <-]. Qed.
End platform.
