(* ===== verification/Service.v ===== *)
(** * The authentication use cases (internal/application/auth)

    [Service] and its methods as programs, statement by statement: every
    repository call, clock reading, random token, session-store call and
    background cleanup in the order of the code, every early return with the
    error the code returns. The ports are wired as cmd/server/main.go wires
    them (PostgreSQL repositories, bcrypt, jwtauth, the HTTP clients). *)
From S2P Require Import Prelude GoBase Domain Schema Effects GoStrings.
From S2P Require Import Platform Postgres.
#[local] Open Scope go_scope.

(** ** dto.go *)

Record RegisterInput := mkRegisterInput {
  ri_Email : string; ri_Password : string
}.
Record LoginInput := mkLoginInput { li_Email : string; li_Password : string }.

Record Session := mkSession {
  s_UserID : uuid;
  s_Email : string;
  s_CreatedAt : time;
  s_AccessToken : string;
  s_AccessTokenExpiresAt : time;
  s_RefreshToken : string;
  s_RefreshTokenExpiresAt : time
}.

(** [*AvatarChange]: [None] leaves the avatar, [Some None] removes it,
    [Some (Some id)] replaces it. *)
Record UpdateProfileInput := mkUpdateProfileInput {
  upi_FirstName : string;
  upi_LastName : string;
  upi_Avatar : option (option uuid)
}.

Record RegisterResult := mkRegisterResult {
  rr_UserID : uuid;
  rr_SetupToken : string;
  rr_OtpauthURI : string;
  rr_Secret : string;
  rr_ExpiresAt : time
}.

Inductive LoginStatus :=
  | LoginStatusOTPRequired
  | LoginStatusTOTPSetupRequired.

Record LoginResult := mkLoginResult {
  lr_Status : LoginStatus;
  lr_ChallengeToken : string;
  lr_SetupToken : string;
  lr_OtpauthURI : string;
  lr_Secret : string;
  lr_ExpiresAt : time
}.

Record ChangePasswordInput := mkChangePasswordInput {
  cpi_CurrentPassword : string;
  cpi_NewPassword : string;
  cpi_OTP : string
}.

Record PasswordResetRequestResult := mkPasswordResetRequestResult {
  prr_FlowToken : string;
  prr_ExpiresAt : time
}.

Record PasswordResetOTPResult := mkPasswordResetOTPResult {
  pro_ResetToken : string;
  pro_ExpiresAt : time
}.

(** ** The service *)

Record SecurityConfig := mkSecurityConfig {
  RefreshTTL : duration;
  SetupTokenTTL : duration;
  LoginChallengeTTL : duration;
  PasswordResetFlowTTL : duration;
  PasswordResetTokenTTL : duration;
  OTPMaxAttempts : Z;
  OTPLockoutDuration : duration;
  ResetFlowMaxOTPAttempts : Z;
  TOTPIssuer : string
}.

(** [deletion] is nil, or a DeletionRequester whose dynamic type does or does
    not implement SessionCleanupRequester. *)
Inductive Deletion :=
  | NoDeletion
  | DeletionOnly
  | DeletionWithCleanup.

Record AuthService := mkAuthService {
  svc_hasher : BcryptHasher;
  svc_issuer : Issuer;
  (* does the issuer's dynamic type implement GenerationAccessTokenIssuer? *)
  svc_generation_issuer : bool;
  svc_mediaURL : string;
  svc_apiaryURL : string;
  svc_cipher : AEAD;
  svc_security : SecurityConfig;
  svc_deletion : Deletion
}.

(** The repositories are those of [Postgres]; the variadic [deletion] may be
    left out. *)
Definition NewService (hasher : BcryptHasher) (issuer : Issuer)
    (generation_issuer : bool) (mediaURL apiaryURL : string) (cipher : AEAD)
    (security : SecurityConfig) (deletion : list Deletion) : AuthService := {|
  svc_hasher := hasher;
  svc_issuer := issuer;
  svc_generation_issuer := generation_issuer;
  svc_mediaURL := mediaURL;
  svc_apiaryURL := apiaryURL;
  svc_cipher := cipher;
  svc_security := security;
  svc_deletion := match deletion with dr :: _ => dr | [] => NoDeletion end
|}.

Definition demoAccountEmail : string := "demo@gmail.com".
Definition demoOTPCode : string := "123456".

Section service.
Context `{L : Lib} `{U : Unicode}.
Variable s : AuthService.
#[local] Abbreviation sec := (svc_security s).

(** ** service.go *)

Definition normalizeEmail (email : string) : string :=
  ToLower (TrimSpace email).

Definition cleanupSessionDevices (userID sessionID : uuid) : prog unit :=
  match svc_deletion s with
  | DeletionWithCleanup => perform (GoCleanup userID sessionID)
  | _ => Ret tt
  end.

Definition issueSession (u : User.User) : go Session :=
  let? _ := RefreshTokenRepository.RevokeAllForUser u.(User.ID)
            orwrap "auth: revoke prior sessions" in
  let? rawRefresh := tokenhash_Generate
                     orwrap "auth: generate refresh token" in
  let! now := perform Now in
  let! id := perform NewUUID in
  let rt := Token.New u.(User.ID) (tokenhash_Hash rawRefresh)
              sec.(RefreshTTL) now id in
  let? prev := perform (Activate u.(User.ID) rt.(Token.ID) sec.(RefreshTTL))
               orwrap "auth: activate session" in
  let? _ := RefreshTokenRepository.Create rt
            orwrap "auth: store refresh token" in
  let! _ := match prev.1 with
            | Some previous => cleanupSessionDevices u.(User.ID) previous
            | None => Ret tt
            end in
  let? access :=
    (if svc_generation_issuer s
     then IssueWithGeneration (svc_issuer s) u.(User.ID) rt.(Token.ID) prev.2
     else Issue (svc_issuer s) u.(User.ID) rt.(Token.ID))
    orwrap "auth: issue access token" in
  returnOk
    {| s_UserID := u.(User.ID); s_Email := u.(User.Email);
       s_CreatedAt := u.(User.CreatedAt);
       s_AccessToken := access.1; s_AccessTokenExpiresAt := access.2;
       s_RefreshToken := rawRefresh;
       s_RefreshTokenExpiresAt := rt.(Token.ExpiresAt) |}.

Definition issueLoginChallenge (u : User.User) : go LoginResult :=
  let? rawToken := tokenhash_Generate
                   orwrap "auth: generate login challenge token" in
  let! now := perform Now in
  let! id := perform NewUUID in
  let c := LoginChallenge.New u.(User.ID) (tokenhash_Hash rawToken)
             sec.(LoginChallengeTTL) now id in
  let? _ := LoginChallengeRepository.Create c
            orwrap "auth: store login challenge" in
  returnOk
    {| lr_Status := LoginStatusOTPRequired; lr_ChallengeToken := rawToken;
       lr_SetupToken := ""; lr_OtpauthURI := ""; lr_Secret := "";
       lr_ExpiresAt := c.(LoginChallenge.ExpiresAt) |}.

Definition beginTOTPSetup (u : User.User) : go RegisterResult :=
  let? key := GenerateSecret sec.(TOTPIssuer) u.(User.Email)
              orwrap "auth: generate totp secret" in
  let? encryptedSecret := Encrypt (svc_cipher s) key.1
                          orwrap "auth: encrypt totp secret" in
  let? rawSetupToken := tokenhash_Generate
                        orwrap "auth: generate setup token" in
  let setupTokenHash := tokenhash_Hash rawSetupToken in
  let! found := TwoFactorCredentialRepository.GetByUserID u.(User.ID) in
  let? cred :=
    match found with
    | Err err =>
        if negb (errors_Is err Totp_ErrNotFound) then returnErr err
        else
          let! now := perform Now in
          let cred := Totp.New u.(User.ID) encryptedSecret setupTokenHash
                        sec.(SetupTokenTTL) now in
          let? _ := TwoFactorCredentialRepository.Create cred
                    orwrap "auth: create totp credential" in
          returnOk cred
    | Ok cred =>
        let! now := perform Now in
        let cred := Totp.BeginSetup cred encryptedSecret setupTokenHash
                      sec.(SetupTokenTTL) now in
        let? _ := TwoFactorCredentialRepository.Update cred
                  orwrap "auth: update totp credential" in
        returnOk cred
    end in
  returnOk
    {| rr_UserID := u.(User.ID); rr_SetupToken := rawSetupToken;
       rr_OtpauthURI := key.2; rr_Secret := key.1;
       rr_ExpiresAt := default 0%Z cred.(Totp.SetupTokenExpiresAt) |}.

Definition Register (inp : RegisterInput) : go RegisterResult :=
  let? hash := Hash (svc_hasher s) inp.(ri_Password)
               orwrap "auth: hash password" in
  let! now := perform Now in
  let! id := perform NewUUID in
  let u := User.New (normalizeEmail inp.(ri_Email)) hash now id in
  let? _ := UserRepository.Create u in
  beginTOTPSetup u.

Definition Login (inp : LoginInput) : go LoginResult :=
  let! found := UserRepository.GetByEmail (normalizeEmail inp.(li_Email)) in
  match found with
  | Err err =>
      if errors_Is err User_ErrNotFound then returnErr ErrInvalidCredentials
      else returnErr err
  | Ok u =>
      match Verify (svc_hasher s) u.(User.PasswordHash) inp.(li_Password) with
      | Err _ => returnErr ErrInvalidCredentials
      | Ok _ =>
          if User.is_pending u then returnErr ErrInvalidCredentials
          else
            let! cred :=
              TwoFactorCredentialRepository.GetByUserID u.(User.ID) in
            let setup :=
              let? setup := beginTOTPSetup u in
              returnOk
                {| lr_Status := LoginStatusTOTPSetupRequired;
                   lr_ChallengeToken := "";
                   lr_SetupToken := setup.(rr_SetupToken);
                   lr_OtpauthURI := setup.(rr_OtpauthURI);
                   lr_Secret := setup.(rr_Secret);
                   lr_ExpiresAt := setup.(rr_ExpiresAt) |} in
            match cred with
            | Err err =>
                if negb (errors_Is err Totp_ErrNotFound) then returnErr err
                else setup
            | Ok cred =>
                if Totp.IsEnabled cred then issueLoginChallenge u else setup
            end
      end
  end.

Definition Refresh (rawToken : string) : go Session :=
  let! found := RefreshTokenRepository.GetByHash (tokenhash_Hash rawToken) in
  match found with
  | Err err =>
      if errors_Is err Token_ErrNotFound then returnErr ErrInvalidRefreshToken
      else returnErr err
  | Ok rt =>
      if Token.IsRevoked rt then
        let? _ := RefreshTokenRepository.RevokeAllForUser rt.(Token.UserID)
                  orwrap "auth: revoke all after reuse" in
        returnErr ErrInvalidRefreshToken
      else
        let! now := perform Now in
        if Token.IsExpired rt now then returnErr ErrInvalidRefreshToken
        else
          let! ru := UserRepository.GetByID rt.(Token.UserID) in
          match ru with
          | Err _ => returnErr ErrInvalidRefreshToken
          | Ok u =>
              if User.is_pending u then
                let! _ := RefreshTokenRepository.RevokeAllForUser
                            rt.(Token.UserID) in
                returnErr ErrInvalidRefreshToken
              else
                let? _ := RefreshTokenRepository.Revoke rt.(Token.ID)
                          orwrap "auth: revoke rotated token" in
                issueSession u
          end
  end.

Definition Logout (rawToken : string) : go unit :=
  let! found := RefreshTokenRepository.GetByHash (tokenhash_Hash rawToken) in
  match found with
  | Err err =>
      if errors_Is err Token_ErrNotFound then returnOk tt else returnErr err
  | Ok rt =>
      if Token.IsRevoked rt then returnOk tt
      else
        let? _ := RefreshTokenRepository.Revoke rt.(Token.ID) in
        let? _ := perform (DeactivateIfCurrent rt.(Token.UserID)
                             rt.(Token.ID))
                  orwrap "auth: deactivate session on logout" in
        let! _ := cleanupSessionDevices rt.(Token.UserID) rt.(Token.ID) in
        returnOk tt
  end.

Definition CurrentUser (userID : uuid) : go User.User :=
  UserRepository.GetByID userID.

(** The avatar to store and the previous one to delete. *)
Definition avatar_plan (u : User.User) (change : option (option uuid)) :
    option uuid * option uuid :=
  match change with
  | None => (u.(User.AvatarMediaID), None)
  | Some None => (None, u.(User.AvatarMediaID))
  | Some (Some id) =>
      (Some id,
       match u.(User.AvatarMediaID) with
       | Some old => if bool_decide (old ≠ id) then Some old else None
       | None => None
       end)
  end.

Definition UpdateProfile (userID : uuid) (accessToken : string)
    (inp : UpdateProfileInput) : go User.User :=
  let? u := UserRepository.GetByID userID in
  let? _ := match inp.(upi_Avatar) with
            | Some (Some id) =>
                VerifyOwnership (svc_mediaURL s) accessToken [id]
            | _ => returnOk tt
            end in
  let plan := avatar_plan u inp.(upi_Avatar) in
  let? _ := match plan.2 with
            | Some old => DeleteByIDs (svc_mediaURL s) accessToken [old]
            | None => returnOk tt
            end in
  let! now := perform Now in
  let u := User.UpdateProfile u inp.(upi_FirstName) inp.(upi_LastName)
             plan.1 now in
  let? _ := UserRepository.Update u in
  returnOk u.

(** ** service_totp.go *)

(** [(ok, counter, demoCode)]. *)
Definition validateOTP (email : string) (cred : Totp.Credential)
    (code : string) : go (bool * Z * bool) :=
  if bool_decide (email = demoAccountEmail) &&
     bool_decide (code = demoOTPCode)
  then returnOk (true, 0%Z, true)
  else
    match Decrypt (svc_cipher s) cred.(Totp.SecretEncrypted) with
    | Err err => returnErr (Wrap "auth: decrypt totp secret" err)
    | Ok secret =>
        let! now := perform Now in
        let v := ValidateAt code secret now in
        returnOk (v.1, v.2, false)
    end.

(** Returns the credential as the method leaves the one it was given. *)
Definition verifyOTP (email : string) (cred : Totp.Credential)
    (code : string) : go Totp.Credential :=
  let! now := perform Now in
  if Totp.IsLocked cred now then returnErr ErrOTPLocked
  else
    let? v := validateOTP email cred code in
    let '(ok, counter, demoCode) := v in
    let ok :=
      if ok && negb demoCode && Totp.IsCodeConsumed cred counter
      then false else ok in
    if negb ok then
      let! now1 := perform Now in
      let! now2 := perform Now in
      let cred := Totp.RecordFailure cred sec.(OTPMaxAttempts)
                    sec.(OTPLockoutDuration) now1 now2 in
      let? _ := TwoFactorCredentialRepository.Update cred
                orwrap "auth: persist otp failure" in
      let! now3 := perform Now in
      if Totp.IsLocked cred now3 then returnErr ErrOTPLocked
      else returnErr ErrOTPInvalid
    else
      let! now1 := perform Now in
      let cred := Totp.RecordSuccess cred counter now1 in
      let? _ := TwoFactorCredentialRepository.Update cred
                orwrap "auth: persist otp success" in
      returnOk cred.

Definition SetupVerifyOTP (setupToken code : string) : go Session :=
  let! found := TwoFactorCredentialRepository.GetBySetupTokenHash
                  (tokenhash_Hash setupToken) in
  match found with
  | Err err =>
      if errors_Is err Totp_ErrNotFound then returnErr ErrSetupTokenInvalid
      else returnErr err
  | Ok cred =>
      let! now := perform Now in
      if Totp.IsSetupTokenExpired cred now then returnErr ErrSetupTokenInvalid
      else
        let? u := UserRepository.GetByID cred.(Totp.UserID) in
        let? cred := verifyOTP u.(User.Email) cred code in
        if User.is_pending u then returnErr ErrInvalidCredentials
        else
          let? session := issueSession u in
          let! now := perform Now in
          let cred := Totp.Enable cred now in
          let? _ := TwoFactorCredentialRepository.Update cred
                    orwrap "auth: enable totp credential" in
          returnOk session
  end.

Definition LoginVerifyOTP (challengeToken code : string) : go Session :=
  let! found := LoginChallengeRepository.GetByHash
                  (tokenhash_Hash challengeToken) in
  match found with
  | Err err =>
      if errors_Is err LoginChallenge_ErrNotFound
      then returnErr ErrChallengeInvalid else returnErr err
  | Ok challenge =>
      let! now := perform Now in
      if LoginChallenge.IsExpired challenge now ||
         LoginChallenge.IsConsumed challenge
      then returnErr ErrChallengeInvalid
      else
        let! found := TwoFactorCredentialRepository.GetByUserID
                        challenge.(LoginChallenge.UserID) in
        match found with
        | Err err =>
            if errors_Is err Totp_ErrNotFound
            then returnErr ErrChallengeInvalid else returnErr err
        | Ok cred =>
            let? u := UserRepository.GetByID
                        challenge.(LoginChallenge.UserID) in
            let? _ := verifyOTP u.(User.Email) cred code in
            if User.is_pending u then returnErr ErrChallengeInvalid
            else
              let? session := issueSession u in
              let? _ := LoginChallengeRepository.Consume
                          challenge.(LoginChallenge.ID)
                        orwrap "auth: consume login challenge" in
              returnOk session
        end
  end.

(** RevokeAllForUser, DeactivateAndReturnPrevious and the device cleanup
    at the end of ChangePassword and ConfirmPasswordReset. *)
Definition end_sessions (userID : uuid) (msgRevoke msgDeactivate : string) :
    go unit :=
  let? _ := RefreshTokenRepository.RevokeAllForUser userID
            orwrap msgRevoke in
  let? prev := perform (DeactivatePrev userID) orwrap msgDeactivate in
  let! _ := match prev with
            | Some previous => cleanupSessionDevices userID previous
            | None => Ret tt
            end in
  returnOk tt.

Definition ChangePassword (userID : uuid) (inp : ChangePasswordInput) :
    go unit :=
  let? u := UserRepository.GetByID userID in
  match Verify (svc_hasher s) u.(User.PasswordHash)
          inp.(cpi_CurrentPassword) with
  | Err _ => returnErr ErrCurrentPasswordInvalid
  | Ok _ =>
      let! found := TwoFactorCredentialRepository.GetByUserID userID in
      match found with
      | Err err =>
          if errors_Is err Totp_ErrNotFound then returnErr ErrOTPInvalid
          else returnErr err
      | Ok cred =>
          let? _ := verifyOTP u.(User.Email) cred inp.(cpi_OTP) in
          let? newHash := Hash (svc_hasher s) inp.(cpi_NewPassword)
                          orwrap "auth: hash new password" in
          let? _ := UserRepository.UpdatePassword userID newHash in
          end_sessions userID "auth: revoke sessions after password change"
            "auth: deactivate session after password change"
      end
  end.

Definition DeleteAccount (userID : uuid) (accessToken otp : string) :
    go unit :=
  let? u := UserRepository.GetByID userID in
  let! found := TwoFactorCredentialRepository.GetByUserID userID in
  match found with
  | Err err =>
      if errors_Is err Totp_ErrNotFound then returnErr ErrOTPInvalid
      else returnErr err
  | Ok cred =>
      let? _ := verifyOTP u.(User.Email) cred otp in
      match svc_deletion s with
      | NoDeletion =>
          let? _ := DeleteAllMine (svc_apiaryURL s) accessToken in
          let? _ := DeleteAllByUser (svc_mediaURL s) accessToken in
          let? _ := UserRepository.Delete userID in
          let? _ := perform (Deactivate userID)
                    orwrap "auth: deactivate session after account deletion"
          in
          returnOk tt
      | _ =>
          let? _ := DeletionStore.RequestDeletion userID in
          let? _ := RefreshTokenRepository.RevokeAllForUser userID
                    orwrap "auth: revoke sessions for deletion" in
          let? _ := perform (Deactivate userID)
                    orwrap "auth: deactivate session for deletion" in
          returnOk tt
      end
  end.

(** ** service_password_reset.go *)

Definition RequestPasswordReset (email : string) :
    go PasswordResetRequestResult :=
  let! found := UserRepository.GetByEmail (normalizeEmail email) in
  let? eligibleUserID :=
    match found with
    | Ok u =>
        let! cred :=
          TwoFactorCredentialRepository.GetByUserID u.(User.ID) in
        match cred with
        | Err credErr =>
            if negb (errors_Is credErr Totp_ErrNotFound)
            then returnErr credErr else returnOk None
        | Ok cred =>
            returnOk (if Totp.IsEnabled cred then Some u.(User.ID) else None)
        end
    | Err err =>
        if errors_Is err User_ErrNotFound then returnOk None
        else returnErr err
    end in
  let? rawFlowToken := tokenhash_Generate
                       orwrap "auth: generate password reset flow token" in
  let! now := perform Now in
  let! id := perform NewUUID in
  let flow := PasswordReset.New eligibleUserID (tokenhash_Hash rawFlowToken)
                sec.(PasswordResetFlowTTL) now id in
  let? _ := PasswordResetFlowRepository.Create flow
            orwrap "auth: store password reset flow" in
  returnOk {| prr_FlowToken := rawFlowToken;
              prr_ExpiresAt := flow.(PasswordReset.ExpiresAt) |}.

(** The block computing [valid] in VerifyPasswordResetOTP. *)
Definition reset_code_valid (flow : PasswordReset.PasswordResetFlow)
    (code : string) : go bool :=
  match flow.(PasswordReset.UserID) with
  | None => returnOk false
  | Some userID =>
      let! found := TwoFactorCredentialRepository.GetByUserID userID in
      match found with
      | Err credErr =>
          if negb (errors_Is credErr Totp_ErrNotFound)
          then returnErr credErr else returnOk false
      | Ok cred =>
          if negb (Totp.IsEnabled cred) then returnOk false
          else
            let? u := UserRepository.GetByID userID in
            let? v := validateOTP u.(User.Email) cred code in
            let '(ok, counter, demoCode) := v in
            if ok && (demoCode || negb (Totp.IsCodeConsumed cred counter))
            then
              if demoCode then returnOk true
              else
                let! now := perform Now in
                let cred := Totp.MarkCodeUsed cred counter now in
                let? _ :=
                  TwoFactorCredentialRepository.Update cred
                  orwrap "auth: persist totp anti-replay state" in
                returnOk true
            else returnOk false
      end
  end.

Definition VerifyPasswordResetOTP (flowToken code : string) :
    go PasswordResetOTPResult :=
  let! found := PasswordResetFlowRepository.GetByFlowTokenHash
                  (tokenhash_Hash flowToken) in
  match found with
  | Err err =>
      if errors_Is err PasswordReset_ErrNotFound
      then returnErr ErrPasswordResetFlowInvalid else returnErr err
  | Ok flow =>
      let! now := perform Now in
      if PasswordReset.IsExpired flow now ||
         PasswordReset.IsConsumed flow || PasswordReset.IsOTPVerified flow
      then returnErr ErrPasswordResetFlowInvalid
      else if PasswordReset.IsOTPLocked flow sec.(ResetFlowMaxOTPAttempts)
      then returnErr ErrOTPLocked
      else
        let? valid := reset_code_valid flow code in
        if negb valid then
          let '(flow, locked) :=
            PasswordReset.RecordOTPFailure flow
              sec.(ResetFlowMaxOTPAttempts) in
          let? _ := PasswordResetFlowRepository.Update flow
                    orwrap "auth: persist password reset otp failure" in
          if (locked : bool) then returnErr ErrOTPLocked
          else returnErr ErrOTPInvalid
        else
          let? rawResetToken :=
            tokenhash_Generate
            orwrap "auth: generate password reset token" in
          let! now1 := perform Now in
          let flow := PasswordReset.MarkOTPVerified flow now1 in
          let! now2 := perform Now in
          let flow :=
            PasswordReset.IssueResetToken flow
              (tokenhash_Hash rawResetToken)
              sec.(PasswordResetTokenTTL) now2 in
          let? _ := PasswordResetFlowRepository.Update flow
                    orwrap "auth: persist password reset otp success" in
          returnOk
            {| pro_ResetToken := rawResetToken;
               pro_ExpiresAt :=
                 default 0%Z flow.(PasswordReset.ResetTokenExpiresAt) |}
  end.

Definition ConfirmPasswordReset (resetToken newPassword : string) :
    go unit :=
  let! found := PasswordResetFlowRepository.GetByResetTokenHash
                  (tokenhash_Hash resetToken) in
  match found with
  | Err err =>
      if errors_Is err PasswordReset_ErrNotFound
      then returnErr ErrPasswordResetTokenInvalid else returnErr err
  | Ok flow =>
      let! now1 := perform Now in
      let! now2 := perform Now in
      if PasswordReset.IsExpired flow now1 ||
         PasswordReset.IsConsumed flow ||
         negb (PasswordReset.IsOTPVerified flow) ||
         negb (PasswordReset.IsResetTokenValid flow now2)
      then returnErr ErrPasswordResetTokenInvalid
      else
        match flow.(PasswordReset.UserID) with
        | None => returnErr ErrPasswordResetTokenInvalid
        | Some userID =>
            let? newHash := Hash (svc_hasher s) newPassword
                            orwrap "auth: hash new password" in
            let? _ := UserRepository.UpdatePassword userID newHash in
            let! now3 := perform Now in
            let flow := PasswordReset.Consume flow now3 in
            let? _ := PasswordResetFlowRepository.Update flow
                      orwrap "auth: consume password reset flow" in
            end_sessions userID "auth: revoke sessions after password reset"
              "auth: deactivate session after password reset"
        end
  end.
End service.

(** ** The detached device cleanup (the goroutine of cleanupSessionDevices);
    its error is only logged. *)
Definition session_cleanup `{L : Lib} (notification : DeletionClient)
    (userID sessionID : uuid) : prog unit :=
  let! _ := DeleteSessionData notification userID sessionID in
  Ret tt.
