(* ===== verification/Transport.v ===== *)
(** * The HTTP transport (internal/transport/http)

    The request DTOs with their validation, the handlers and the routes. A
    handler is a program that returns the calls it makes on the
    [http.ResponseWriter], in order: what httpx (beebase-common) writes for
    them is not decided here. Decoding a JSON body and parsing an address are
    parameters; RequireAuth's verdict on a request is an argument of
    [ServeHTTP]. *)
From S2P Require Import Prelude GoBase Domain Schema Effects GoStrings.
From S2P Require Import Platform Postgres Service.
#[local] Open Scope go_scope.

(** Parameters of the transport: encoding/json into a struct whose fields are
    strings with the given tags (a field that is absent or null is left out
    of the answer), net/mail. *)
Class Wire := {
  json_Decode : list string → string → result (gmap string string);
  mail_ParseAddress : string → result string;
  (* error codes httpx and authmw export *)
  httpx_CodeInvalidBody : string;
  httpmw_CodeMissingAuthorization : string
}.

(** What [db.Ping] of the connection pool answers within two seconds. *)
Class Pinger := { db_Ping : result unit }.

(** What a handler reads of the request. [rq_user] is what RequireAuth put in
    the context; a header that is absent reads as the empty string. *)
Record HTTPRequest := mkHTTPRequest {
  rq_body : string;
  rq_cookie : string → option string;
  rq_authorization : string;
  rq_user : option uuid
}.

(** ** Responses *)

Record UserResponse := mkUserResponse {
  ur_ID : uuid; ur_Email : string; ur_CreatedAt : time
}.
Record SessionResponse := mkSessionResponse {
  sr_AccessToken : string;
  sr_AccessTokenExpiresAt : Z;
  sr_RefreshTokenExpiresAt : Z;
  sr_User : UserResponse
}.
Record TOTPSetupResponse := mkTOTPSetupResponse {
  tr_Status : string;
  tr_SetupToken : string;
  tr_OtpauthURI : string;
  tr_Secret : string;
  tr_ExpiresAt : Z
}.
Record LoginOTPRequiredResponse := mkLoginOTPRequiredResponse {
  lo_Status : string; lo_ChallengeToken : string; lo_ExpiresAt : Z
}.
Record PasswordResetRequestedResponse := mkPasswordResetRequestedResponse {
  pq_FlowToken : string; pq_ExpiresAt : Z
}.
Record PasswordResetOTPVerifiedResponse :=
  mkPasswordResetOTPVerifiedResponse {
    pv_ResetToken : string; pv_ExpiresAt : Z
  }.
(** profile.Response *)
Record ProfileResponse := mkProfileResponse {
  pr_ID : uuid;
  pr_Email : string;
  pr_FirstName : string;
  pr_LastName : string;
  pr_Avatar : option uuid
}.

(** health.go *)
Record statusResponse := mkStatusResponse { Status_ : string }.

Inductive Payload :=
  | JSession (p : SessionResponse)
  | JUser (p : UserResponse)
  | JSetup (p : TOTPSetupResponse)
  | JOTPRequired (p : LoginOTPRequiredResponse)
  | JResetRequested (p : PasswordResetRequestedResponse)
  | JResetVerified (p : PasswordResetOTPVerifiedResponse)
  | JProfile (p : ProfileResponse)
  | JStatus (p : statusResponse).

(** One call on the response writer; [ServeJWKS] stands for what the handler
    made by beebase-common's jwks package writes. *)
Inductive Write :=
  | WriteJSON (status : Z) (p : Payload)
  | WriteError (status : Z) (code msg : string)
  | WriteValidationError (fields : gmap string string)
  | WriteInternalError (err : error)
  | WriteHeader (status : Z)
  | SetCookie (name value path : string) (expires : time)
  | ClearCookie (name path : string)
  | ServeJWKS.

(** [string(status)]. *)
Definition LoginStatus_string (st : LoginStatus) : string :=
  match st with
  | LoginStatusOTPRequired => "otp_required"
  | LoginStatusTOTPSetupRequired => "totp_setup_required"
  end.

Definition newUserResponse (u : User.User) : UserResponse :=
  {| ur_ID := u.(User.ID); ur_Email := u.(User.Email);
     ur_CreatedAt := u.(User.CreatedAt) |}.
Definition newSessionResponse (x : Session) : SessionResponse :=
  {| sr_AccessToken := x.(s_AccessToken);
     sr_AccessTokenExpiresAt := Unix x.(s_AccessTokenExpiresAt);
     sr_RefreshTokenExpiresAt := Unix x.(s_RefreshTokenExpiresAt);
     sr_User := {| ur_ID := x.(s_UserID); ur_Email := x.(s_Email);
                   ur_CreatedAt := x.(s_CreatedAt) |} |}.
Definition newTOTPSetupResponseFromRegister (r : RegisterResult) :
    TOTPSetupResponse :=
  {| tr_Status := LoginStatus_string LoginStatusTOTPSetupRequired;
     tr_SetupToken := r.(rr_SetupToken); tr_OtpauthURI := r.(rr_OtpauthURI);
     tr_Secret := r.(rr_Secret); tr_ExpiresAt := Unix r.(rr_ExpiresAt) |}.
Definition newTOTPSetupResponseFromLogin (r : LoginResult) :
    TOTPSetupResponse :=
  {| tr_Status := LoginStatus_string r.(lr_Status);
     tr_SetupToken := r.(lr_SetupToken); tr_OtpauthURI := r.(lr_OtpauthURI);
     tr_Secret := r.(lr_Secret); tr_ExpiresAt := Unix r.(lr_ExpiresAt) |}.
Definition newLoginOTPRequiredResponse (r : LoginResult) :
    LoginOTPRequiredResponse :=
  {| lo_Status := LoginStatus_string r.(lr_Status);
     lo_ChallengeToken := r.(lr_ChallengeToken);
     lo_ExpiresAt := Unix r.(lr_ExpiresAt) |}.
Definition newPasswordResetRequestedResponse
    (r : PasswordResetRequestResult) : PasswordResetRequestedResponse :=
  {| pq_FlowToken := r.(prr_FlowToken); pq_ExpiresAt := Unix r.(prr_ExpiresAt) |}.
Definition newPasswordResetOTPVerifiedResponse
    (r : PasswordResetOTPResult) : PasswordResetOTPVerifiedResponse :=
  {| pv_ResetToken := r.(pro_ResetToken);
     pv_ExpiresAt := Unix r.(pro_ExpiresAt) |}.
(** profile.newResponse *)
Definition newResponse (u : User.User) : ProfileResponse :=
  {| pr_ID := u.(User.ID); pr_Email := u.(User.Email);
     pr_FirstName := u.(User.FirstName); pr_LastName := u.(User.LastName);
     pr_Avatar := u.(User.AvatarMediaID) |}.

(** ** Validation shared by the DTOs *)

Definition minPasswordLength : nat := 8.
Definition passwordSpecialChars : string := "!@#$%^&*()_+-=[]{}|;:,.<>?".
Definition otpLength : nat := 6.

Definition CodeEmailRequired : string := "email_required".
Definition CodeEmailInvalid : string := "email_invalid".
Definition CodePasswordRequired : string := "password_required".
Definition CodePasswordTooShort : string := "password_too_short".
Definition CodePasswordMissingDigit : string := "password_missing_digit".
Definition CodePasswordMissingSpecialChar : string :=
  "password_missing_special_char".
Definition CodeOTPRequired : string := "otp_required".
Definition CodeOTPInvalidFormat : string := "otp_invalid_format".
Definition CodeSetupTokenRequired : string := "setup_token_required".
Definition CodeChallengeTokenRequired : string := "challenge_token_required".
Definition CodeCurrentPasswordRequired : string :=
  "current_password_required".
Definition CodeConfirmPasswordMismatch : string :=
  "confirm_password_mismatch".
Definition CodeFlowTokenRequired : string := "flow_token_required".
Definition CodeResetTokenRequired : string := "reset_token_required".

(** [strings.ContainsAny]. *)
Definition ContainsAny (s chars : string) : bool :=
  List.existsb (λ r, bool_decide (r ∈ runes chars)) (runes s).

(** [if code := ...; code != "" { fields[name] = code }] *)
Definition put (name code : string) (fields : gmap string string) :
    gmap string string :=
  if bool_decide (code = "") then fields else <[name := code]> fields.

(** A field that must hold something besides white space. *)
Definition required (value code : string) : string :=
  if bool_decide (TrimSpace value = "") then code else "".

Definition validateOTP (code : string) : string :=
  if bool_decide (code = "") then CodeOTPRequired
  else if bool_decide (String.length code ≠ otpLength)
  then CodeOTPInvalidFormat
  else if List.existsb (λ r, bool_decide (r < 48 ∨ 57 < r)%Z) (runes code)
  then CodeOTPInvalidFormat
  else "".

Section validation.
Context `{W : Wire, U : Unicode}.

Definition validateEmail (email : string) : string :=
  if bool_decide (TrimSpace email = "") then CodeEmailRequired
  else match mail_ParseAddress email with
       | Err _ => CodeEmailInvalid
       | Ok _ => ""
       end.

Definition containsDigit (s : string) : bool := List.existsb IsDigit (runes s).

Definition validatePassword (password : string) : string :=
  if bool_decide (String.length password < minPasswordLength)
  then CodePasswordTooShort
  else if negb (containsDigit password) then CodePasswordMissingDigit
  else if negb (ContainsAny password passwordSpecialChars)
  then CodePasswordMissingSpecialChar
  else "".
End validation.

(** ** The request DTOs

    A DTO is its decoded body; [str tag] reads a string field (absent: the
    zero value). *)

Definition str (tag : string) (m : gmap string string) : string :=
  default "" (m !! tag).

(** One DTO: the JSON tags of its struct and its [Validate]. *)
Record DTO := mkDTO {
  tags : list string;
  Validate : gmap string string → gmap string string
}.

Section requests.
Context `{W : Wire, U : Unicode, L : Lib}.

Definition RegisterRequest : DTO := {|
  tags := ["email"; "password"];
  Validate m :=
    put "email" (validateEmail (str "email" m))
      (put "password" (validatePassword (str "password" m)) ∅)
|}.

Definition LoginRequest : DTO := {|
  tags := ["email"; "password"];
  Validate m :=
    put "email" (validateEmail (str "email" m))
      (put "password"
         (if bool_decide (str "password" m = "") then CodePasswordRequired
          else "") ∅)
|}.

Definition SetupVerifyRequest : DTO := {|
  tags := ["setupToken"; "otp"];
  Validate m :=
    put "setupToken" (required (str "setupToken" m) CodeSetupTokenRequired)
      (put "otp" (validateOTP (str "otp" m)) ∅)
|}.

Definition LoginVerifyOTPRequest : DTO := {|
  tags := ["challengeToken"; "otp"];
  Validate m :=
    put "challengeToken"
      (required (str "challengeToken" m) CodeChallengeTokenRequired)
      (put "otp" (validateOTP (str "otp" m)) ∅)
|}.

Definition ChangePasswordRequest : DTO := {|
  tags := ["currentPassword"; "newPassword"; "otp"];
  Validate m :=
    put "currentPassword"
      (if bool_decide (str "currentPassword" m = "")
       then CodeCurrentPasswordRequired else "")
      (put "newPassword" (validatePassword (str "newPassword" m))
         (put "otp" (validateOTP (str "otp" m)) ∅))
|}.

Definition PasswordResetRequestRequest : DTO := {|
  tags := ["email"];
  Validate m := put "email" (validateEmail (str "email" m)) ∅
|}.

Definition PasswordResetVerifyOTPRequest : DTO := {|
  tags := ["flowToken"; "otp"];
  Validate m :=
    put "flowToken" (required (str "flowToken" m) CodeFlowTokenRequired)
      (put "otp" (validateOTP (str "otp" m)) ∅)
|}.

Definition PasswordResetConfirmRequest : DTO := {|
  tags := ["resetToken"; "newPassword"; "confirmPassword"];
  Validate m :=
    put "resetToken" (required (str "resetToken" m) CodeResetTokenRequired)
      (put "newPassword" (validatePassword (str "newPassword" m))
         (put "confirmPassword"
            (if bool_decide (str "newPassword" m ≠ str "confirmPassword" m)
             then CodeConfirmPasswordMismatch else "") ∅))
|}.

(** [inl]: the response written, and the handler returns. *)
Definition decodeAndValidate (dto : DTO) (body : string) :
    Write + gmap string string :=
  match json_Decode (tags dto) body with
  | Err _ =>
      inl (WriteError 400 httpx_CodeInvalidBody
             "request body must be valid JSON")
  | Ok m =>
      let fields := Validate dto m in
      if bool_decide (fields = ∅) then inr m
      else inl (WriteValidationError fields)
  end.
End requests.

(** ** The request DTOs of transport/http/profile

    The package has its own copies of [validateOTP] and
    [decodeAndValidate]. *)
Module Profile.
Definition maxFirstNameLength : nat := 100.
Definition maxLastNameLength : nat := 100.
Definition otpLength : nat := 6.

Definition CodeFirstNameRequired : string := "first_name_required".
Definition CodeFirstNameTooLong : string := "first_name_too_long".
Definition CodeLastNameRequired : string := "last_name_required".
Definition CodeLastNameTooLong : string := "last_name_too_long".
Definition CodeAvatarInvalid : string := "avatar_invalid".
Definition CodeOTPRequired : string := "otp_required".
Definition CodeOTPInvalidFormat : string := "otp_invalid_format".

Definition CodeUserNotFound : string := "user_not_found".
Definition CodeAvatarNotFound : string := "avatar_not_found".
Definition CodeOTPInvalid : string := "otp_invalid".
Definition CodeOTPLocked : string := "otp_locked".

Definition validateOTP (code : string) : string :=
  if bool_decide (code = "") then CodeOTPRequired
  else if bool_decide (String.length code ≠ otpLength)
  then CodeOTPInvalidFormat
  else if List.existsb (λ r, bool_decide (r < 48 ∨ 57 < r)%Z) (runes code)
  then CodeOTPInvalidFormat
  else "".

(** The check of FirstName and of LastName, each with its own codes. *)
Definition validateName (name : string) (max : nat)
    (codeRequired codeTooLong : string) : string :=
  let name := TrimSpace name in
  if bool_decide (name = "") then codeRequired
  else if bool_decide (max < String.length name) then codeTooLong
  else "".

Section requests.
Context `{W : Wire, L : Lib}.

(** [inl]: the response written, and the handler returns. *)
Definition decodeAndValidate (dto : DTO) (body : string) :
    Write + gmap string string :=
  match json_Decode (tags dto) body with
  | Err _ =>
      inl (WriteError 400 httpx_CodeInvalidBody
             "request body must be valid JSON")
  | Ok m =>
      let fields := Validate dto m in
      if bool_decide (fields = ∅) then inr m
      else inl (WriteValidationError fields)
  end.

Definition UpdateProfileRequest : DTO := {|
  tags := ["firstName"; "lastName"; "avatar"];
  Validate m :=
    put "firstName"
      (validateName (str "firstName" m) maxFirstNameLength
         CodeFirstNameRequired CodeFirstNameTooLong)
      (put "lastName"
         (validateName (str "lastName" m) maxLastNameLength
            CodeLastNameRequired CodeLastNameTooLong)
         (put "avatar"
            (match m !! "avatar" with
             | Some a =>
                 if bool_decide (a = "") then ""
                 else match uuid_Parse a with
                      | Err _ => CodeAvatarInvalid
                      | Ok _ => ""
                      end
             | None => ""
             end) ∅))
|}.

Definition DeleteAccountRequest : DTO := {|
  tags := ["otp"];
  Validate m := put "otp" (validateOTP (str "otp" m)) ∅
|}.

End requests.
End Profile.

(** ** Error answers *)

Definition CodeEmailTaken : string := "email_taken".
Definition CodeUserNotFound : string := "user_not_found".
Definition CodeInvalidCredentials : string := "invalid_credentials".
Definition CodeInvalidRefreshToken : string := "invalid_refresh_token".
Definition CodeOTPInvalid : string := "otp_invalid".
Definition CodeOTPLocked : string := "otp_locked".
Definition CodeSetupTokenInvalid : string := "totp_setup_token_invalid".
Definition CodeChallengeInvalid : string := "login_challenge_invalid".
Definition CodeCurrentPasswordInvalid : string :=
  "current_password_invalid".
Definition CodePasswordResetFlowInvalid : string :=
  "password_reset_flow_invalid".
Definition CodePasswordResetTokenInvalid : string :=
  "password_reset_token_invalid".

(** auth.Handler.writeServiceError *)
Definition auth_writeServiceError (err : error) : Write :=
  if errors_Is err User_ErrEmailTaken then
    WriteError 409 CodeEmailTaken "an account with this email already exists"
  else if errors_Is err User_ErrNotFound then
    WriteError 404 CodeUserNotFound "user not found"
  else if errors_Is err ErrInvalidCredentials then
    WriteError 401 CodeInvalidCredentials "invalid email or password"
  else if errors_Is err ErrInvalidRefreshToken then
    WriteError 401 CodeInvalidRefreshToken "invalid or expired refresh token"
  else if errors_Is err ErrOTPInvalid then
    WriteError 400 CodeOTPInvalid "invalid otp code"
  else if errors_Is err ErrOTPLocked then
    WriteError 429 CodeOTPLocked "too many failed otp attempts"
  else if errors_Is err ErrSetupTokenInvalid then
    WriteError 401 CodeSetupTokenInvalid "invalid or expired setup token"
  else if errors_Is err ErrChallengeInvalid then
    WriteError 401 CodeChallengeInvalid
      "invalid or expired login challenge"
  else if errors_Is err ErrCurrentPasswordInvalid then
    WriteError 401 CodeCurrentPasswordInvalid "current password is incorrect"
  else if errors_Is err ErrPasswordResetFlowInvalid then
    WriteError 400 CodePasswordResetFlowInvalid
      "invalid or expired password reset flow"
  else if errors_Is err ErrPasswordResetTokenInvalid then
    WriteError 400 CodePasswordResetTokenInvalid
      "invalid or expired password reset token"
  else WriteInternalError err.

(** profile.Handler.writeServiceError *)
Definition profile_writeServiceError (err : error) : Write :=
  if errors_Is err User_ErrNotFound then
    WriteError 404 Profile.CodeUserNotFound "user not found"
  else if errors_Is err ErrAvatarNotFound then
    WriteValidationError {[ "avatar" := Profile.CodeAvatarNotFound ]}
  else if errors_Is err ErrOTPInvalid then
    WriteError 400 Profile.CodeOTPInvalid "invalid otp code"
  else if errors_Is err ErrOTPLocked then
    WriteError 429 Profile.CodeOTPLocked "too many failed otp attempts"
  else WriteInternalError err.

(** ** The handlers *)

Definition refreshTokenCookieName : string := "refreshToken".
Definition refreshTokenCookiePath : string := "/api/v1/auth".

Definition setRefreshCookie (session : Session) : Write :=
  SetCookie refreshTokenCookieName session.(s_RefreshToken)
    refreshTokenCookiePath session.(s_RefreshTokenExpiresAt).
Definition clearRefreshCookie : Write :=
  ClearCookie refreshTokenCookieName refreshTokenCookiePath.

(** The token, or the answer written without one. *)
Definition refreshTokenFromCookie (r : HTTPRequest) : Write + string :=
  let missing :=
    WriteError 401 CodeInvalidRefreshToken "invalid or expired refresh token"
  in
  match rq_cookie r refreshTokenCookieName with
  | None => inl missing
  | Some v => if bool_decide (v = "") then inl missing else inr v
  end.

Section handlers.
Context `{W : Wire, U : Unicode, L : Lib}.
Variable s : AuthService.

(** [if !decodeAndValidate(...) { return }; result, err := ...; if err != nil
    { h.writeServiceError(w, err); return }; ...] *)
Definition with_decoded (d : Write + gmap string string)
    (k : gmap string string → prog (list Write)) : prog (list Write) :=
  match d with
  | inl answer => Ret [answer]
  | inr m => k m
  end.
Definition with_body (dto : DTO) (r : HTTPRequest)
    (k : gmap string string → prog (list Write)) : prog (list Write) :=
  with_decoded (decodeAndValidate dto (rq_body r)) k.
Definition with_profile_body (dto : DTO) (r : HTTPRequest)
    (k : gmap string string → prog (list Write)) : prog (list Write) :=
  with_decoded (Profile.decodeAndValidate dto (rq_body r)) k.
Definition answer {A} (onErr : error → Write) (p : go A)
    (onOk : A → list Write) : prog (list Write) :=
  let! res := p in
  match res with
  | Err err => Ret [onErr err]
  | Ok a => Ret (onOk a)
  end.
Definition missing_authentication : Write :=
  WriteError 401 httpmw_CodeMissingAuthorization "missing authentication".

Definition session_writes (session : Session) : list Write :=
  [setRefreshCookie session; WriteJSON 200 (JSession (newSessionResponse session))].

Definition handle_Register (r : HTTPRequest) : prog (list Write) :=
  with_body RegisterRequest r (λ m,
    answer auth_writeServiceError
      (Register s (mkRegisterInput (str "email" m) (str "password" m)))
      (λ result,
        [WriteJSON 201 (JSetup (newTOTPSetupResponseFromRegister result))])).

Definition handle_Login (r : HTTPRequest) : prog (list Write) :=
  with_body LoginRequest r (λ m,
    answer auth_writeServiceError
      (Login s (mkLoginInput (str "email" m) (str "password" m)))
      (λ result,
        match lr_Status result with
        | LoginStatusOTPRequired =>
            [WriteJSON 200 (JOTPRequired (newLoginOTPRequiredResponse result))]
        | _ => [WriteJSON 200 (JSetup (newTOTPSetupResponseFromLogin result))]
        end)).

Definition handle_SetupVerifyOTP (r : HTTPRequest) : prog (list Write) :=
  with_body SetupVerifyRequest r (λ m,
    answer auth_writeServiceError
      (SetupVerifyOTP s (str "setupToken" m) (str "otp" m)) session_writes).

Definition handle_LoginVerifyOTP (r : HTTPRequest) : prog (list Write) :=
  with_body LoginVerifyOTPRequest r (λ m,
    answer auth_writeServiceError
      (LoginVerifyOTP s (str "challengeToken" m) (str "otp" m))
      session_writes).

Definition handle_ChangePassword (r : HTTPRequest) : prog (list Write) :=
  match rq_user r with
  | None => Ret [missing_authentication]
  | Some userID =>
      with_body ChangePasswordRequest r (λ m,
        answer auth_writeServiceError
          (ChangePassword s userID
             (mkChangePasswordInput (str "currentPassword" m)
                (str "newPassword" m) (str "otp" m)))
          (λ _, [WriteHeader 204]))
  end.

Definition handle_RequestPasswordReset (r : HTTPRequest) :
    prog (list Write) :=
  with_body PasswordResetRequestRequest r (λ m,
    answer auth_writeServiceError (RequestPasswordReset s (str "email" m))
      (λ result,
        [WriteJSON 200
           (JResetRequested (newPasswordResetRequestedResponse result))])).

Definition handle_VerifyPasswordResetOTP (r : HTTPRequest) :
    prog (list Write) :=
  with_body PasswordResetVerifyOTPRequest r (λ m,
    answer auth_writeServiceError
      (VerifyPasswordResetOTP s (str "flowToken" m) (str "otp" m))
      (λ result,
        [WriteJSON 200
           (JResetVerified (newPasswordResetOTPVerifiedResponse result))])).

Definition handle_ConfirmPasswordReset (r : HTTPRequest) :
    prog (list Write) :=
  with_body PasswordResetConfirmRequest r (λ m,
    answer auth_writeServiceError
      (ConfirmPasswordReset s (str "resetToken" m) (str "newPassword" m))
      (λ _, [WriteHeader 204])).

Definition handle_Refresh (r : HTTPRequest) : prog (list Write) :=
  match refreshTokenFromCookie r with
  | inl a => Ret [a]
  | inr rawToken =>
      answer auth_writeServiceError (Refresh s rawToken) session_writes
  end.

Definition handle_Logout (r : HTTPRequest) : prog (list Write) :=
  match refreshTokenFromCookie r with
  | inl a => Ret [a]
  | inr rawToken =>
      answer auth_writeServiceError (Logout s rawToken)
        (λ _, [clearRefreshCookie; WriteHeader 204])
  end.

Definition handle_Me (r : HTTPRequest) : prog (list Write) :=
  match rq_user r with
  | None => Ret [missing_authentication]
  | Some userID =>
      answer auth_writeServiceError (CurrentUser userID)
        (λ u, [WriteJSON 200 (JUser (newUserResponse u))])
  end.

(** transport/http/profile *)

Definition handle_Get (r : HTTPRequest) : prog (list Write) :=
  match rq_user r with
  | None => Ret [missing_authentication]
  | Some userID =>
      answer profile_writeServiceError (CurrentUser userID)
        (λ u, [WriteJSON 200 (JProfile (newResponse u))])
  end.

(** The caller's raw access token. *)
Definition requireAuth (r : HTTPRequest) : Write + (uuid * string) :=
  match rq_user r with
  | None => inl missing_authentication
  | Some userID => inr (userID, TrimPrefix (rq_authorization r) "Bearer ")
  end.

(** The request's avatar; the error of [uuid.Parse] is discarded (the zero
    UUID would be used). *)
Definition avatar_change (m : gmap string string) : option (option uuid) :=
  match m !! "avatar" with
  | None => None
  | Some a =>
      if bool_decide (a = "") then Some None
      else Some (Some (match uuid_Parse a with Ok id => id | Err _ => 0%N end))
  end.

Definition handle_Update (r : HTTPRequest) : prog (list Write) :=
  match requireAuth r with
  | inl a => Ret [a]
  | inr (userID, token) =>
      with_profile_body Profile.UpdateProfileRequest r (λ m,
        answer profile_writeServiceError
          (UpdateProfile s userID token
             (mkUpdateProfileInput (TrimSpace (str "firstName" m))
                (TrimSpace (str "lastName" m)) (avatar_change m)))
          (λ updated, [WriteJSON 200 (JProfile (newResponse updated))]))
  end.

Definition handle_Delete (r : HTTPRequest) : prog (list Write) :=
  match requireAuth r with
  | inl a => Ret [a]
  | inr (userID, token) =>
      with_profile_body Profile.DeleteAccountRequest r (λ m,
        answer profile_writeServiceError
          (DeleteAccount s userID token (str "otp" m))
          (λ _, [WriteHeader 204]))
  end.
End handlers.

(** ** Health and readiness (health.go) *)

Definition HealthHandler : list Write :=
  [WriteJSON 200 (JStatus (mkStatusResponse "ok"))].

Definition ReadyHandler `{DB : Pinger} : list Write :=
  match db_Ping with
  | Err _ => [WriteJSON 503 (JStatus (mkStatusResponse "unavailable"))]
  | Ok _ => [WriteJSON 200 (JStatus (mkStatusResponse "ok"))]
  end.

(** ** The routes (router.go) *)

Inductive Endpoint :=
  | EpHealth | EpReady | EpJWKS
  | EpRegister | EpLogin | EpRefresh | EpLogout
  | EpSetupVerifyOTP | EpLoginVerifyOTP
  | EpRequestPasswordReset | EpVerifyPasswordResetOTP | EpConfirmPasswordReset
  | EpMe | EpChangePassword
  | EpProfileGet | EpProfileUpdate | EpProfileDelete.

Record Route := mkRoute {
  rt_method : string;
  rt_pattern : string;
  rt_auth : bool;   (* inside a group that uses RequireAuth *)
  rt_endpoint : Endpoint
}.

Definition NewRouter : list Route := [
  mkRoute "GET" "/health" false EpHealth;
  mkRoute "GET" "/ready" false EpReady;
  mkRoute "GET" "/.well-known/jwks.json" false EpJWKS;
  mkRoute "POST" "/api/v1/auth/register" false EpRegister;
  mkRoute "POST" "/api/v1/auth/login" false EpLogin;
  mkRoute "POST" "/api/v1/auth/refresh" false EpRefresh;
  mkRoute "POST" "/api/v1/auth/logout" false EpLogout;
  mkRoute "POST" "/api/v1/auth/2fa/setup/verify" false EpSetupVerifyOTP;
  mkRoute "POST" "/api/v1/auth/login/verify-otp" false EpLoginVerifyOTP;
  mkRoute "POST" "/api/v1/auth/password-reset/request" false
    EpRequestPasswordReset;
  mkRoute "POST" "/api/v1/auth/password-reset/verify-otp" false
    EpVerifyPasswordResetOTP;
  mkRoute "POST" "/api/v1/auth/password-reset/confirm" false
    EpConfirmPasswordReset;
  mkRoute "GET" "/api/v1/auth/me" true EpMe;
  mkRoute "POST" "/api/v1/auth/change-password" true EpChangePassword;
  mkRoute "GET" "/api/v1/profile/" true EpProfileGet;
  mkRoute "PUT" "/api/v1/profile/" true EpProfileUpdate;
  mkRoute "DELETE" "/api/v1/profile/" true EpProfileDelete
].

Section router.
Context `{W : Wire, U : Unicode, L : Lib, DB : Pinger}.
Variable s : AuthService.

Definition handler (e : Endpoint) : HTTPRequest → prog (list Write) :=
  match e with
  | EpHealth => λ _, Ret HealthHandler
  | EpReady => λ _, Ret ReadyHandler
  | EpJWKS => λ _, Ret [ServeJWKS]
  | EpRegister => handle_Register s
  | EpLogin => handle_Login s
  | EpRefresh => handle_Refresh s
  | EpLogout => handle_Logout s
  | EpSetupVerifyOTP => handle_SetupVerifyOTP s
  | EpLoginVerifyOTP => handle_LoginVerifyOTP s
  | EpRequestPasswordReset => handle_RequestPasswordReset s
  | EpVerifyPasswordResetOTP => handle_VerifyPasswordResetOTP s
  | EpConfirmPasswordReset => handle_ConfirmPasswordReset s
  | EpMe => handle_Me
  | EpChangePassword => handle_ChangePassword s
  | EpProfileGet => handle_Get
  | EpProfileUpdate => handle_Update s
  | EpProfileDelete => handle_Delete s
  end.

(** What reaches the handler of a route: behind RequireAuth only a request it
    lets through, with the user it read off the access token; [None] is a
    request RequireAuth answers itself. *)
Definition ServeHTTP (require_auth : HTTPRequest → option uuid)
    (rt : Route) (r : HTTPRequest) : prog (option (list Write)) :=
  let request user :=
    mkHTTPRequest (rq_body r) (rq_cookie r) (rq_authorization r) user in
  let served user :=
    let! ws := handler (rt_endpoint rt) (request user) in Ret (Some ws) in
  if rt_auth rt then
    match require_auth r with
    | None => Ret None
    | Some u => served (Some u)
    end
  else served None.
End router.
