(* ===== verification/Config.v ===== *)
(** * Configuration and wiring (internal/config, cmd/server)

    [Load] reads the environment; [wire] builds the service and the deletion
    worker's clients from it, as cmd/server/main.go does between loading the
    configuration and starting the server (Process has the rest of [run]). *)
From Stdlib Require Import Ascii.
From stdpp Require Import pretty.
From S2P Require Import Prelude GoBase Domain Schema Effects GoStrings.
From S2P Require Import Platform Postgres Service.
#[local] Open Scope go_scope.

(** ** strconv, encoding/base64 *)

(** A decimal digit string's value. *)
Fixpoint digits_value (acc : Z) (l : list Z) : option Z :=
  match l with
  | [] => Some acc
  | d :: l =>
      if bool_decide (48 ≤ d ≤ 57)%Z
      then digits_value (acc * 10 + (d - 48))%Z l else None
  end.

(** [strconv.Atoi]: an optional sign, at least one digit, within [int]. *)
Definition Atoi (s : string) : result Z :=
  let err := Err (Errorf ("strconv.Atoi: parsing " +:+ s)) in
  let unsigned sign l :=
    match l with
    | [] => err
    | _ => match digits_value 0 l with
           | Some n => if bool_decide (- 2 ^ 63 ≤ sign * n < 2 ^ 63)%Z
                       then Ok (sign * n)%Z else err
           | None => err
           end
    end in
  match to_Zs s with
  | 43%Z :: l => unsigned 1%Z l
  | 45%Z :: l => unsigned (-1)%Z l
  | l => unsigned 1%Z l
  end.

(** [strconv.ParseBool]. *)
Definition ParseBool (s : string) : result bool :=
  if bool_decide (s ∈ ["1"; "t"; "T"; "TRUE"; "true"; "True"]) then Ok true
  else if bool_decide (s ∈ ["0"; "f"; "F"; "FALSE"; "false"; "False"])
  then Ok false
  else Err (Errorf ("strconv.ParseBool: parsing " +:+ s)).

(** The value of a character of the standard base64 alphabet. *)
Definition std_value (c : ascii) : option Z :=
  let z := byte_Z c in
  if bool_decide (65 ≤ z ≤ 90)%Z then Some (z - 65)%Z
  else if bool_decide (97 ≤ z ≤ 122)%Z then Some (z - 71)%Z
  else if bool_decide (48 ≤ z ≤ 57)%Z then Some (z + 4)%Z
  else if bool_decide (z = 43)%Z then Some 62%Z
  else if bool_decide (z = 47)%Z then Some 63%Z
  else None.

(** Quadruples of characters; padding only at the end; the unused bits of
    the last character are not looked at. *)
Fixpoint std_quads (l : list ascii) : option (list Z) :=
  match l with
  | [] => Some []
  | a :: b :: c :: d :: l' =>
      va ← std_value a; vb ← std_value b;
      let b1 := (va * 4 + vb / 16)%Z in
      if bool_decide (byte_Z c = 61)%Z then
        if bool_decide (byte_Z d = 61%Z ∧ l' = []) then Some [b1] else None
      else
        vc ← std_value c;
        let b2 := (vb `mod` 16 * 16 + vc / 4)%Z in
        if bool_decide (byte_Z d = 61)%Z then
          if bool_decide (l' = []) then Some [b1; b2] else None
        else
          vd ← std_value d;
          rest ← std_quads l';
          Some (b1 :: b2 :: (vc `mod` 4 * 64 + vd)%Z :: rest)
  | _ => None
  end.

(** [base64.StdEncoding.DecodeString]: line ends are skipped. *)
Definition StdEncoding_DecodeString (s : string) : result string :=
  let l := filter (λ c, byte_Z c ≠ 10 ∧ byte_Z c ≠ 13)%Z (string_bytes s) in
  match std_quads l with
  | Some bs => Ok (of_Zs bs)
  | None => Err (Errorf "illegal base64 data")
  end.

(** The character of the standard base64 alphabet with a given value. *)
Definition std_char (z : Z) : ascii :=
  Z_byte (if bool_decide (z < 26) then 65 + z
          else if bool_decide (z < 52) then 71 + z
          else if bool_decide (z < 62) then z - 4
          else if bool_decide (z = 62)%Z then 43 else 47)%Z.

Definition std_pad : ascii := Z_byte 61.

Fixpoint std_chars (l : list Z) : list ascii :=
  match l with
  | a :: b :: c :: l' =>
      std_char (a / 4)%Z :: std_char (a `mod` 4 * 16 + b / 16)%Z ::
      std_char (b `mod` 16 * 4 + c / 64)%Z :: std_char (c `mod` 64)%Z ::
      std_chars l'
  | [a; b] =>
      [std_char (a / 4)%Z; std_char (a `mod` 4 * 16 + b / 16)%Z;
       std_char (b `mod` 16 * 4)%Z; std_pad]
  | [a] =>
      [std_char (a / 4)%Z; std_char (a `mod` 4 * 16)%Z; std_pad; std_pad]
  | [] => []
  end.

(** [base64.StdEncoding.EncodeToString]. *)
Definition StdEncoding_EncodeToString (s : string) : string :=
  bytes_string (std_chars (to_Zs s)).

(** ** platform/jwtauth: keys *)

Definition PrivateKeySize : nat := 64.

Definition ParsePrivateKey (encoded : string) : result string :=
  match StdEncoding_DecodeString encoded with
  | Err err => Err (Wrap "jwtauth: decode private key" err)
  | Ok raw =>
      if bool_decide (String.length raw ≠ PrivateKeySize)
      then Err (Errorf ("jwtauth: private key must be 64 bytes, got " +:+
                        pretty (String.length raw)))
      else Ok raw
  end.

Definition KeyID `{L : Lib} (pub : string) : string :=
  hex_encode (str_take 8 (sha256 pub)).

(** [ed25519.PrivateKey.Public]: the second half of the key. *)
Definition Public (key : string) : string := str_drop 32 key.

(** ** internal/config *)

Record Config := mkConfig {
  AppEnv : string;
  HTTPPort : string;
  HTTPReadTimeout : duration;
  HTTPWriteTimeout : duration;
  HTTPIdleTimeout : duration;
  HTTPShutdownTimeout : duration;
  DatabaseURL : string;
  DatabaseConnectTimeout : duration;
  RedisAddr : string;
  RedisConnectTimeout : duration;
  LogLevel : string;
  JWTPrivateKey : string;
  AccessTokenTTL : duration;
  RefreshTokenTTL : duration;
  CookieDomain : string;
  CookieSecure : bool;
  MediaServiceURL : string;
  ApiaryServiceURL : string;
  HiveServiceURL : string;
  InspectionServiceURL : string;
  HarvestServiceURL : string;
  NotificationServiceURL : string;
  SubscriptionServiceURL : string;
  InternalServiceToken : string;
  DeletionWorkerInterval : duration;
  TOTPEncryptionKey : string;
  cfg_TOTPIssuer : string;
  TOTPSetupTokenTTL : duration;
  cfg_LoginChallengeTTL : duration;
  cfg_PasswordResetFlowTTL : duration;
  cfg_PasswordResetTokenTTL : duration;
  TOTPMaxFailedAttempts : Z;
  TOTPLockoutDuration : duration;
  PasswordResetFlowMaxOTPAttempts : Z
}.

(** time.ParseDuration, which computes fractions in floating point, and the
    order in which Go iterates over a map are parameters. *)
Class Runtime := {
  time_ParseDuration : string → result duration;
  map_order : list (string * string) → list (string * string);
  map_order_perm : ∀ l, map_order l ≡ₚ l
}.

Section config.
Context `{R : Runtime}.
(** [os.LookupEnv]. *)
Variable LookupEnv : string → option string.

Definition getEnv (key fallback : string) : string :=
  match LookupEnv key with
  | Some v => if bool_decide (v ≠ "") then v else fallback
  | None => fallback
  end.

(** getDuration, getInt and getBool: unset, empty or ill-formed values fall
    back. *)
Definition getParsed {A} (parse : string → result A) (key : string)
    (fallback : A) : A :=
  match LookupEnv key with
  | None => fallback
  | Some v =>
      if bool_decide (v = "") then fallback
      else match parse v with Ok a => a | Err _ => fallback end
  end.
Definition getDuration : string → duration → duration :=
  getParsed time_ParseDuration.
Definition getInt : string → Z → Z := getParsed Atoi.
Definition getBool : string → bool → bool := getParsed ParseBool.

Definition read_config : Config :=
  let env := getEnv "APP_ENV" "development" in
  {| AppEnv := env;
     HTTPPort := getEnv "HTTP_PORT" "8080";
     HTTPReadTimeout := getDuration "HTTP_READ_TIMEOUT" (5 * Second);
     HTTPWriteTimeout := getDuration "HTTP_WRITE_TIMEOUT" (10 * Second);
     HTTPIdleTimeout := getDuration "HTTP_IDLE_TIMEOUT" (60 * Second);
     HTTPShutdownTimeout := getDuration "HTTP_SHUTDOWN_TIMEOUT" (15 * Second);
     DatabaseURL := getEnv "DATABASE_URL" "";
     DatabaseConnectTimeout :=
       getDuration "DATABASE_CONNECT_TIMEOUT" (5 * Second);
     RedisAddr := getEnv "REDIS_ADDR" "";
     RedisConnectTimeout := getDuration "REDIS_CONNECT_TIMEOUT" (5 * Second);
     LogLevel := getEnv "LOG_LEVEL" "info";
     JWTPrivateKey := getEnv "JWT_PRIVATE_KEY" "";
     AccessTokenTTL := getDuration "ACCESS_TOKEN_TTL" (15 * Minute);
     RefreshTokenTTL := getDuration "REFRESH_TOKEN_TTL" (720 * 60 * Minute);
     CookieDomain := getEnv "COOKIE_DOMAIN" "";
     CookieSecure :=
       getBool "COOKIE_SECURE" (bool_decide (env ≠ "development"));
     MediaServiceURL := getEnv "MEDIA_SERVICE_URL" "";
     ApiaryServiceURL := getEnv "APIARY_SERVICE_URL" "";
     HiveServiceURL := getEnv "HIVE_SERVICE_URL" "";
     InspectionServiceURL := getEnv "INSPECTION_SERVICE_URL" "";
     HarvestServiceURL := getEnv "HARVEST_SERVICE_URL" "";
     NotificationServiceURL := getEnv "NOTIFICATION_SERVICE_URL" "";
     SubscriptionServiceURL := getEnv "SUBSCRIPTION_SERVICE_URL" "";
     InternalServiceToken := getEnv "INTERNAL_SERVICE_TOKEN" "";
     DeletionWorkerInterval :=
       getDuration "DELETION_WORKER_INTERVAL" (5 * Second);
     TOTPEncryptionKey := getEnv "TOTP_ENCRYPTION_KEY" "";
     cfg_TOTPIssuer := getEnv "TOTP_ISSUER" "BeeBase";
     TOTPSetupTokenTTL := getDuration "TOTP_SETUP_TOKEN_TTL" (15 * Minute);
     cfg_LoginChallengeTTL := getDuration "LOGIN_CHALLENGE_TTL" (5 * Minute);
     cfg_PasswordResetFlowTTL :=
       getDuration "PASSWORD_RESET_FLOW_TTL" (10 * Minute);
     cfg_PasswordResetTokenTTL :=
       getDuration "PASSWORD_RESET_TOKEN_TTL" (10 * Minute);
     TOTPMaxFailedAttempts := getInt "TOTP_MAX_FAILED_ATTEMPTS" 5;
     TOTPLockoutDuration := getDuration "TOTP_LOCKOUT_DURATION" (15 * Minute);
     PasswordResetFlowMaxOTPAttempts :=
       getInt "PASSWORD_RESET_FLOW_MAX_OTP_ATTEMPTS" 5 |}.

(** The first of [checks] whose value is missing. *)
Fixpoint first_missing (checks : list (string * string)) : option error :=
  match checks with
  | [] => None
  | (name, value) :: checks =>
      if bool_decide (value = "")
      then Some (Errorf ("config: " +:+ name +:+ " is required"))
      else first_missing checks
  end.

Definition Load : result Config :=
  let cfg := read_config in
  let checks :=
    [("DATABASE_URL", cfg.(DatabaseURL)); ("REDIS_ADDR", cfg.(RedisAddr));
     ("JWT_PRIVATE_KEY", cfg.(JWTPrivateKey));
     ("MEDIA_SERVICE_URL", cfg.(MediaServiceURL));
     ("APIARY_SERVICE_URL", cfg.(ApiaryServiceURL))] ++
    map_order
      [("HIVE_SERVICE_URL", cfg.(HiveServiceURL));
       ("INSPECTION_SERVICE_URL", cfg.(InspectionServiceURL));
       ("HARVEST_SERVICE_URL", cfg.(HarvestServiceURL));
       ("NOTIFICATION_SERVICE_URL", cfg.(NotificationServiceURL));
       ("SUBSCRIPTION_SERVICE_URL", cfg.(SubscriptionServiceURL));
       ("INTERNAL_SERVICE_TOKEN", cfg.(InternalServiceToken))] ++
    [("TOTP_ENCRYPTION_KEY", cfg.(TOTPEncryptionKey))] in
  match first_missing checks with
  | Some err => Err err
  | None => Ok cfg
  end.
End config.

(** ** cmd/server: the wiring *)

Record Server := mkServer {
  srv_service : AuthService;
  srv_notification : DeletionClient;
  srv_cleanup : gmap string DeletionClient;
  srv_worker_interval : duration;
  srv_kid : string
}.

(** What starting the process depends on: the connections, beebase-common's
    JWKS handler (a function of the public key and its id) and HTTP server,
    and the signals. *)
Class Boot := {
  pgxpool_New : string → result unit;
  pool_Ping : result unit;
  sessionstore_NewRedisClient : string → result unit;
  jwks_NewHandler : string → string → result unit;
  (* what srv.Run returns, if it does before a signal arrives *)
  server_Run : option (result unit);
  server_Shutdown : duration → result unit
}.

Definition wire `{L : Lib, B : Boot} (cfg : Config) : result Server :=
  match ParsePrivateKey cfg.(JWTPrivateKey) with
  | Err err => Err (Wrap "load JWT private key" err)
  | Ok privateKey =>
      let kid := KeyID (Public privateKey) in
      match jwks_NewHandler (Public privateKey) kid with
      | Err err => Err (Wrap "build JWKS handler" err)
      | Ok _ =>
          match StdEncoding_DecodeString cfg.(TOTPEncryptionKey) with
          | Err err => Err (Wrap "decode TOTP_ENCRYPTION_KEY" err)
          | Ok totpKey =>
              match NewCipher totpKey with
              | Err err => Err (Wrap "build totp cipher" err)
              | Ok totpCipher =>
                  let security := {|
                    RefreshTTL := cfg.(RefreshTokenTTL);
                    SetupTokenTTL := cfg.(TOTPSetupTokenTTL);
                    LoginChallengeTTL := cfg.(cfg_LoginChallengeTTL);
                    PasswordResetFlowTTL := cfg.(cfg_PasswordResetFlowTTL);
                    PasswordResetTokenTTL := cfg.(cfg_PasswordResetTokenTTL);
                    OTPMaxAttempts := cfg.(TOTPMaxFailedAttempts);
                    OTPLockoutDuration := cfg.(TOTPLockoutDuration);
                    ResetFlowMaxOTPAttempts :=
                      cfg.(PasswordResetFlowMaxOTPAttempts);
                    TOTPIssuer := cfg.(cfg_TOTPIssuer)
                  |} in
                  let client url := NewDeletionClient url
                                      cfg.(InternalServiceToken) in
                  let notificationCleanup :=
                    client cfg.(NotificationServiceURL) in
                  Ok {|
                    srv_service :=
                      NewService (NewBcryptHasher 0)
                        (NewIssuer privateKey kid cfg.(AccessTokenTTL)) true
                        cfg.(MediaServiceURL) cfg.(ApiaryServiceURL)
                        totpCipher security [DeletionWithCleanup];
                    srv_notification := notificationCleanup;
                    srv_cleanup := list_to_map [
                      ("apiary", client cfg.(ApiaryServiceURL));
                      ("hive", client cfg.(HiveServiceURL));
                      ("inspection", client cfg.(InspectionServiceURL));
                      ("harvest", client cfg.(HarvestServiceURL));
                      ("media", client cfg.(MediaServiceURL));
                      ("notification", notificationCleanup);
                      ("subscription", client cfg.(SubscriptionServiceURL))];
                    srv_worker_interval := cfg.(DeletionWorkerInterval);
                    srv_kid := kid
                  |}
              end
          end
      end
  end.
