(* ===== verification/Process.v ===== *)
(** * The three commands (cmd/server, cmd/dbclear, cmd/keygen)

    A command is the list of actions it takes on the outside, in order, and
    its outcome: connections, contexts and servers acquired and released
    ([defer] releases on every path), statements sent, lines printed. *)
From stdpp Require Import pretty.
From S2P Require Import Prelude GoBase Domain Schema Effects GoStrings.
From S2P Require Import Platform Postgres Service Config.

Inductive resource :=
  | SignalContext                         (* signal.NotifyContext *)
  | ConnectContext (timeout : duration)   (* context.WithTimeout *)
  | ShutdownContext (timeout : duration)
  | PgPool
  | RedisClient.
#[export] Instance resource_eq_dec : EqDecision resource.
Proof. solve_decision. Defined.

Inductive action :=
  | Acquire (r : resource)
  | Release (r : resource)
  | StartWorker (interval : duration)   (* go worker.Run(ctx, interval) *)
  | StartServer (addr : string)         (* go srv.Run() *)
  | ListTables                          (* the SELECT of ClearAllData *)
  | ExecSQL (sql : string)
  | Stdout (line : string)
  | Stderr (line : string).
#[export] Instance action_eq_dec : EqDecision action.
Proof. solve_decision. Defined.

(** ** Commands *)

Definition proc (A : Type) : Type := list action * A.

Definition ret {A} (a : A) : proc A := ([], a).
Definition act (e : action) : proc unit := ([e], tt).
Definition andThen {A B} (p : proc A) (k : A → proc B) : proc B :=
  (p.1 ++ (k p.2).1, (k p.2).2).

Declare Scope proc_scope.
Delimit Scope proc_scope with proc.
Notation "'let*' x := p 'in' q" := (andThen p (λ x, q))
  (at level 10, x pattern, p at level 100, q at level 200) : proc_scope.
#[local] Open Scope proc_scope.

(** [defer r.Close()] and the rest of the function. *)
Definition deferring {A} (r : resource) (body : proc A) : proc A :=
  let* a := body in
  let* _ := act (Release r) in
  ret a.

(** A context made for [body] and cancelled after it. *)
Definition within {A} (r : resource) (body : proc A) : proc A :=
  let* _ := act (Acquire r) in deferring r body.

(** ** platform/postgres: New *)

Section postgres.
Context `{B : Boot}.

Definition postgres_New (dsn : string) : proc (result unit) :=
  match pgxpool_New dsn with
  | Err err => ret (Err (Wrap "postgres: create pool" err))
  | Ok _ =>
      let* _ := act (Acquire PgPool) in
      match pool_Ping with
      | Err err =>
          let* _ := act (Release PgPool) in
          ret (Err (Wrap "postgres: ping" err))
      | Ok _ => ret (Ok tt)
      end
  end.

Definition redis_New (addr : string) : proc (result unit) :=
  match sessionstore_NewRedisClient addr with
  | Err err => ret (Err err)
  | Ok _ => let* _ := act (Acquire RedisClient) in ret (Ok tt)
  end.
End postgres.

(** ** cmd/server *)

Section server.
Context `{R : Runtime, L : Lib, B : Boot}.
Variable LookupEnv : string → option string.

(** From [go worker.Run] on: the select over the server's end and the
    signal, and the graceful shutdown. *)
Definition serve_until_signal (cfg : Config) (srv : Server) :
    proc (result unit) :=
  let* _ := act (StartWorker (srv_worker_interval srv)) in
  let* _ := act (StartServer (":" +:+ HTTPPort cfg)) in
  match server_Run with
  | Some (Err err) => ret (Err (Wrap "run server" err))
  | Some (Ok _) => ret (Ok tt)
  | None =>
      within (ShutdownContext (HTTPShutdownTimeout cfg))
        (ret match server_Shutdown (HTTPShutdownTimeout cfg) with
             | Err err => Err (Wrap "graceful shutdown" err)
             | Ok _ => Ok tt
             end)
  end.

Definition server_run : proc (result unit) :=
  match Load LookupEnv with
  | Err err => ret (Err (Wrap "load config" err))
  | Ok cfg =>
      within SignalContext (
        let* db := within (ConnectContext (DatabaseConnectTimeout cfg))
                     (postgres_New (DatabaseURL cfg)) in
        match db with
        | Err err => ret (Err (Wrap "connect to database" err))
        | Ok _ =>
            deferring PgPool (
              let* redis := within (ConnectContext (RedisConnectTimeout cfg))
                              (redis_New (RedisAddr cfg)) in
              match redis with
              | Err err => ret (Err (Wrap "connect to redis" err))
              | Ok _ =>
                  deferring RedisClient
                    match wire cfg with
                    | Err err => ret (Err err)
                    | Ok srv => serve_until_signal cfg srv
                    end
              end)
        end)
  end.

(** The exit status of the process. *)
Definition server_main : proc Z :=
  let* r := server_run in
  match r with
  | Err err => ret 1%Z
  | Ok _ => ret 0%Z
  end.
End server.

(** ** cmd/dbclear *)

(** The answers dbclear depends on: pg_tables (schema and name), the order
    of a SELECT's ORDER BY, pgx's quoting of an identifier, the failures of
    the two statements and of reading a row, and net/url. *)
Class Catalog := {
  pg_tables : list (string * string);
  order_by_name : list string → list string;
  order_by_perm : ∀ l, order_by_name l ≡ₚ l;
  Identifier_Sanitize : string → string;
  list_error : option error;
  scan_error : option error;
  rows_error : option error;
  truncate_error : option error;
  (* url.Parse, then String of the URL without its user *)
  url_without_user : string → result string
}.

Section dbclear.
Context `{B : Boot, C : Catalog, U : Unicode}.

(** WHERE schemaname = 'public' AND tablename <> 'schema_migrations' ORDER
    BY tablename. *)
Definition application_tables : list string :=
  order_by_name
    (filter (λ t, t.1 = "public" ∧ t.2 ≠ "schema_migrations") pg_tables).*2.

(** [strings.Join]. *)
Fixpoint Join (l : list string) (sep : string) : string :=
  match l with
  | [] => ""
  | [a] => a
  | a :: l' => a +:+ sep +:+ Join l' sep
  end.

Definition truncate_stmt (tables : list string) : string :=
  "TRUNCATE TABLE " +:+ Join (Identifier_Sanitize <$> tables) ", " +:+
  " RESTART IDENTITY CASCADE".

Definition ClearAllData : proc (result (list string)) :=
  let* _ := act ListTables in
  match list_error with
  | Some err => ret (Err (Wrap "list tables" err))
  | None =>
      let tables := application_tables in
      match (if bool_decide (tables = []) then None else scan_error) with
      | Some err => ret (Err (Wrap "scan table name" err))
      | None =>
          match rows_error with
          | Some err => ret (Err (Wrap "list tables" err))
          | None =>
              if bool_decide (tables = []) then ret (Ok [])
              else
                let* _ := act (ExecSQL (truncate_stmt tables)) in
                match truncate_error with
                | Some err => ret (Err (Wrap "truncate tables" err))
                | None => ret (Ok tables)
                end
          end
      end
  end.

Definition redact (dsn : string) : string :=
  match url_without_user dsn with
  | Err _ => "<database>"
  | Ok u => u
  end.

(** The prompt; [answer] is the line read from stdin. *)
Definition confirm (dsn answer : string) : proc bool :=
  let* _ := act (Stdout ("This will permanently delete ALL data in " +:+
                          redact dsn)) in
  let* _ := act (Stdout "Type 'yes' to continue: ") in
  ret (bool_decide (TrimSpace answer = "yes")).

Definition dbclear_run (LookupEnv : string → option string) (yes : bool)
    (answer : string) : proc (result unit) :=
  let dsn := default "" (LookupEnv "DATABASE_URL") in
  if bool_decide (dsn = "")
  then ret (Err (Errorf "DATABASE_URL is required"))
  else
    let* go_on := (if yes then ret true else confirm dsn answer) in
    if negb go_on then let* _ := act (Stdout "aborted") in ret (Ok tt)
    else
      let* pool := postgres_New dsn in
      match pool with
      | Err err => ret (Err (Wrap "connect to database" err))
      | Ok _ =>
          deferring PgPool (
            let* r := ClearAllData in
            match r with
            | Err err => ret (Err (Wrap "clear data" err))
            | Ok [] =>
                let* _ := act (Stdout
                  "no application tables found; nothing to clear") in
                ret (Ok tt)
            | Ok cleared =>
                let* _ := act (Stdout
                  ("cleared " +:+ pretty (length cleared) +:+ " table(s): " +:+
                   Join cleared ", ")) in
                ret (Ok tt)
            end)
      end.

Definition dbclear_main (LookupEnv : string → option string) (yes : bool)
    (answer : string) : proc Z :=
  let* r := dbclear_run LookupEnv yes answer in
  match r with
  | Err err =>
      let* _ := act (Stderr ("dbclear: " +:+ Error_text err)) in ret 1%Z
  | Ok _ => ret 0%Z
  end.
End dbclear.

(** ** cmd/keygen *)

(** [generated]: what ed25519.GenerateKey(rand.Reader) returns, the public
    and the private key. *)
Definition keygen_main `{L : Lib} (generated : result (string * string)) :
    proc Z :=
  match generated with
  | Err err =>
      let* _ := act (Stderr ("generate key: " +:+ Error_text err)) in
      ret 1%Z
  | Ok (pub, priv) =>
      let* _ := act (Stdout ("JWT_PRIVATE_KEY=" +:+
                              StdEncoding_EncodeToString priv)) in
      let* _ := act (Stdout ("# kid: " +:+ KeyID pub)) in
      ret 0%Z
  end.
