(* ===== verification/Footprint.v ===== *)
(** * Footprints

    Which tables a statement can write, and the frame theorem: a program none
    of whose effects writes a table leaves that table alone, on every path,
    faults included; likewise for the session store. *)
From S2P Require Import Prelude GoBase Domain Schema Effects Logic.
From S2P Require Import Postgres.
#[local] Open Scope go_scope.

Inductive table :=
  | Users | RefreshTokens | Credentials | Challenges | Flows | Jobs | Steps.

#[export] Instance table_eq_dec : EqDecision table.
Proof. solve_decision. Defined.

Definition writes {X} (q : stmt X) : list table :=
  match q with
  | InsertUser _ | UpdateUserProfile _ | UpdateUserPassword _ _
  | MarkUserDeletionPending _ => [Users]
  | DeleteUser _ => [Users; RefreshTokens; Credentials; Challenges; Flows]
  | InsertRefreshToken _ | RevokeRefreshToken _ | RevokeRefreshTokensOf _ =>
      [RefreshTokens]
  | InsertCredential _ | UpdateCredential _ => [Credentials]
  | InsertChallenge _ | ConsumeChallenge _ => [Challenges]
  | InsertFlow _ | UpdateFlow _ => [Flows]
  | UpsertDeletionJob _ _ | ClaimDeletionJob | ReleaseJob _ | CompleteJob _ =>
      [Jobs]
  | InsertDeletionStep _ _ | CompleteStep _ _ | RetryStep _ _ _ _ _ => [Steps]
  | _ => []
  end.

Definition same_table (t : table) (d d' : Database) : Prop :=
  match t with
  | Users => users d = users d'
  | RefreshTokens => refresh_tokens d = refresh_tokens d'
  | Credentials => two_factor_credentials d = two_factor_credentials d'
  | Challenges => login_challenges d = login_challenges d'
  | Flows => password_reset_flows d = password_reset_flows d'
  | Jobs => account_deletion_jobs d = account_deletion_jobs d'
  | Steps => account_deletion_steps d = account_deletion_steps d'
  end.

#[export] Instance same_table_refl t : Reflexive (same_table t).
Proof. intros d. by destruct t. Qed.
#[export] Instance same_table_trans t : Transitive (same_table t).
Proof. intros d1 d2 d3. destruct t; simpl; congruence. Qed.
#[export] Instance same_table_sym t : Symmetric (same_table t).
Proof. intros d1 d2. destruct t; simpl; congruence. Qed.

(** Every statement of a transaction's body satisfies [P]. *)
Fixpoint tx_all {A} (P : ∀ X, stmt X → Prop) (t : tx A) : Prop :=
  match t with
  | TxReturn _ => True
  | TxCommit _ => True
  | TxStmt q k => P _ q ∧ ∀ r, tx_all P (k r)
  end.

(** Every statement an effect sends satisfies [P]. *)
Definition eff_stmts (P : ∀ X, stmt X → Prop) {X} (e : eff X) : Prop :=
  match e with
  | Query q => P _ q
  | Transaction t => tx_all P t
  | _ => True
  end.

Lemma tx_all_True {A} (t : tx A) : tx_all (λ _ _, True) t.
Proof. induction t; simpl; auto. Qed.

Lemma eff_stmts_True {X} (e : eff X) : eff_stmts (λ _ _, True) e.
Proof. destruct e; try done. apply tx_all_True. Qed.

Definition keeps_table (t : table) {X} (e : eff X) : Prop :=
  eff_stmts (λ X q, t ∉ writes q) e.

Definition keeps_sessions {X} (e : eff X) : Prop :=
  match e with
  | Activate _ _ _ | Deactivate _ | DeactivateIfCurrent _ _
  | DeactivatePrev _ => False
  | _ => True
  end.

Definition sends_no_request {X} (e : eff X) : Prop :=
  match e with HttpDo _ => False | _ => True end.

(** ** Automation: the repositories are unfolded to their statements *)
#[export] Hint Unfold
  scan_one exec_affecting exec_any
  UserRepository.scanOne TwoFactorCredentialRepository.scanOne
  PasswordResetFlowRepository.scanOne
  UserRepository.Create UserRepository.GetByEmail UserRepository.GetByID
  UserRepository.Update UserRepository.UpdatePassword UserRepository.Delete
  UserRepository.MarkDeletionPending
  RefreshTokenRepository.Create RefreshTokenRepository.GetByHash
  RefreshTokenRepository.Revoke RefreshTokenRepository.RevokeAllForUser
  TwoFactorCredentialRepository.Create
  TwoFactorCredentialRepository.GetByUserID
  TwoFactorCredentialRepository.GetBySetupTokenHash
  TwoFactorCredentialRepository.Update
  LoginChallengeRepository.Create LoginChallengeRepository.GetByHash
  LoginChallengeRepository.Consume
  PasswordResetFlowRepository.Create
  PasswordResetFlowRepository.GetByFlowTokenHash
  PasswordResetFlowRepository.GetByResetTokenHash
  PasswordResetFlowRepository.Update
  DeletionStore.RequestDeletion DeletionJobStore.ClaimDeletion
  DeletionJobStore.CompleteDeletionStep DeletionJobStore.RetryDeletionStep
  DeletionJobStore.CompleteDeletionJob : effects.

(** Close a leaf [P X e] of a walk. *)
Ltac leaf :=
  first [ exact I
        | solve [simpl; rewrite ?list_elem_of_In; simpl; intuition congruence] ].

Section footprint.
Context `{PT : PgTime, EV : Env, SS : SessionStore}.

Lemma exec_keeps {X} t (q : stmt X) now db :
  t ∉ writes q → same_table t db (exec q now db).2.
Proof.
  rewrite list_elem_of_In. intros Ht.
  destruct q; simpl in Ht; simpl;
    unfold users_insert, users_update, users_delete, users_mark_pending,
      tokens_insert, tokens_revoke, tokens_revoke_all, credentials_insert,
      credentials_update, challenges_insert, challenges_consume,
      flows_insert, flows_update, jobs_upsert, steps_insert, jobs_claim,
      steps_update, jobs_update;
    repeat case_match; simpl; try done;
    destruct t; simpl; try done; exfalso; apply Ht; tauto.
Qed.

(** What every statement keeps when it is executed at time [now], a
    transaction opened then keeps, committed or rolled back, and so does any
    effect, whatever fails. *)
Section statements.
Context (P : ∀ X, stmt X → Prop) (J : Database → Prop).

Lemma run_tx_stmts {A} (b : tx A) now ab db0 db i :
  (∀ X (q : stmt X) db, P X q → J db → J (exec q now db).2) →
  tx_all P b → J db0 → J db → J (run_tx b now ab db0 db i).1.2.
Proof.
  intros HJ.
  revert ab db i. induction b as [r|X q k IH|k]; intros ab db i Hb H0 Hdb; simpl.
  - done.
  - destruct Hb as [Hq Hk]. destruct ab; [by apply IH|].
    destruct (fault i); [by apply IH|].
    pose proof (HJ _ q db Hq Hdb) as Hx.
    destruct (exec q _ db) as [r db']. by apply IH.
  - destruct ab; [done|]. destruct (fault i) as [f|]; simpl; [|done].
    by destruct (fault_applied f).
Qed.

Lemma handle_stmts {X} (e : eff X) w :
  (∀ X (q : stmt X) db, P X q → J db →
     J (exec q (db_clock (n_io (w_counters w))) db).2) →
  eff_stmts P e → J (w_db w) → J (w_db (handle e w).2).
Proof.
  intros HJ He Hw. destruct e; try done; simpl in He |- *;
    unfold handle_query, handle_tx, handle_session, faulty.
  - pose proof (HJ _ q _ He Hw) as Hx.
    destruct (exec _ _ _) as [r db']. destruct (fault _) as [f|]; [|done].
    by destruct (fault_applied f).
  - destruct (fault _); [done|].
    pose proof (run_tx_stmts body (db_clock (n_io (w_counters w))) false
      (w_db w) (w_db w) (S (n_io (w_counters w))) HJ He Hw Hw) as Hx.
    by destruct (run_tx _ _ _ _ _ _) as [[r db'] j].
  - by destruct (ss_activate _ _ _ _ _), (fault _).
  - by destruct (fault _).
  - by destruct (ss_deactivate_if_current _ _ _ _), (fault _).
  - by destruct (ss_deactivate_prev _ _ _), (fault _).
Qed.
End statements.

Lemma handle_keeps {X} t (e : eff X) w :
  keeps_table t e → same_table t (w_db w) (w_db (handle e w).2).
Proof.
  intros He.
  apply (handle_stmts (λ X q, t ∉ writes q) (same_table t (w_db w))); [|done..].
  intros Y q db Hq Hdb. etrans; [exact Hdb|]. by apply exec_keeps.
Qed.

(** The round trips are numbered upwards. *)
Lemma run_tx_io {A} (b : tx A) now ab db0 db i :
  i ≤ (run_tx b now ab db0 db i).2.
Proof.
  revert ab db i. induction b as [r|X q k IH|k]; intros ab db i; simpl; [done| |].
  - destruct ab; [etrans; [|apply IH]; lia|].
    destruct (fault i); [etrans; [|apply IH]; lia|].
    destruct (exec q now db). etrans; [|apply IH]; lia.
  - destruct ab; [simpl; lia|]. destruct (fault i); simpl; lia.
Qed.

Lemma handle_io {X} (e : eff X) w :
  n_io (w_counters w) ≤ n_io (w_counters (handle e w).2).
Proof.
  destruct e; simpl; try lia;
    try (unfold handle_query, handle_session; repeat case_match; simpl; lia).
  unfold handle_tx. destruct (fault _); [simpl; lia|].
  pose proof (run_tx_io body (db_clock (n_io (w_counters w))) false (w_db w)
    (w_db w) (S (n_io (w_counters w)))) as Hi.
  destruct (run_tx _ _ _ _ _ _) as [[r db] j]. simpl in *. lia.
Qed.

(** The frame theorem for tables. *)
Lemma run_keeps {A} t (p : prog A) w :
  all_effects (λ X e, keeps_table t e) p →
  same_table t (w_db w) (w_db (run p w).2).
Proof.
  intros Hp. apply (run_invariant (λ X e, keeps_table t e)
    (λ w', same_table t (w_db w) (w_db w'))); [done| |done].
  intros X e w1 He Hw1. etrans; [done|]. by apply handle_keeps.
Qed.

(** A program that only reads leaves the database alone. *)
Lemma same_db d d' : (∀ T, same_table T d d') → d = d'.
Proof.
  intros H. destruct d, d'.
  pose proof (H Users). pose proof (H RefreshTokens).
  pose proof (H Credentials). pose proof (H Challenges).
  pose proof (H Flows). pose proof (H Jobs). pose proof (H Steps).
  simpl in *. congruence.
Qed.

Lemma run_reads {A} (p : prog A) w :
  all_effects (λ X e, eff_stmts (λ X q, writes q = []) e) p →
  w_db (run p w).2 = w_db w.
Proof.
  intros Hp. symmetry. apply same_db. intros T. apply run_keeps.
  eapply all_effects_mono; [|done]. intros X e He. unfold keeps_table.
  destruct e; try done; simpl in *; [by rewrite He; apply not_elem_of_nil|].
  induction body as [r|Y q k IH|k]; [done| |done]. simpl in *.
  destruct He as [Hq Hk]. split; [rewrite Hq; apply not_elem_of_nil|auto].
Qed.

Lemma handle_keeps_sessions {X} (e : eff X) w :
  keeps_sessions e → w_sessions (handle e w).2 = w_sessions w.
Proof.
  destruct e; simpl; try done; intros _.
  - unfold handle_query. destruct (exec _ _ _) as [r db'].
    by destruct (faulty _ _ _ _).
  - unfold handle_tx. destruct (fault _); [done|].
    by destruct (run_tx _ _ _ _ _ _) as [[r db'] j].
Qed.

Lemma run_keeps_sessions {A} (p : prog A) w :
  all_effects (@keeps_sessions) p →
  w_sessions (run p w).2 = w_sessions w.
Proof.
  intros Hp. apply (run_invariant (@keeps_sessions)
    (λ w', w_sessions w' = w_sessions w)); [done| |done].
  intros X e w1 He Hw1. by rewrite handle_keeps_sessions.
Qed.

Lemma handle_keeps_requests {X} (e : eff X) w :
  sends_no_request e → w_requests (handle e w).2 = w_requests w.
Proof.
  destruct e; simpl; try done; intros _.
  - unfold handle_query. destruct (exec _ _ _) as [r db'].
    by destruct (faulty _ _ _ _).
  - unfold handle_tx. destruct (fault _); [done|].
    by destruct (run_tx _ _ _ _ _ _) as [[r db'] j].
  - unfold handle_session. destruct (ss_activate _ _ _ _ _).
    by destruct (faulty _ _ _ _).
  - unfold handle_session. by destruct (faulty _ _ _ _).
  - unfold handle_session. destruct (ss_deactivate_if_current _ _ _ _).
    by destruct (faulty _ _ _ _).
  - unfold handle_session. destruct (ss_deactivate_prev _ _ _).
    by destruct (faulty _ _ _ _).
Qed.

Lemma run_keeps_requests {A} (p : prog A) w :
  all_effects (@sends_no_request) p →
  w_requests (run p w).2 = w_requests w.
Proof.
  intros Hp. apply (run_invariant (@sends_no_request)
    (λ w', w_requests w' = w_requests w)); [done| |done].
  intros X e w1 He Hw1. by rewrite handle_keeps_requests.
Qed.
End footprint.
