(* ===== verification/Integrity.v ===== *)
(** * Integrity of the database

    The invariant the schema states (keys, UNIQUE columns, foreign keys, CHECK
    constraints, INT ranges) as [db_ok], preserved by every statement, hence
    by every transaction, by every program of the service run alone, and by
    any interleaving of any number of them, whatever faults occur. *)
From S2P Require Import Prelude Tables GoBase Domain Schema Effects Logic.
From S2P Require Import Footprint.

(** CHECK (deletion_status IN ('active', 'deletion_pending')). *)
Definition user_status_ok (u : User.User) : Prop :=
  u.(User.DeletionStatus) = User.DeletionStatusActive ∨
  u.(User.DeletionStatus) = User.DeletionStatusPending.

(** CHECK (status IN ('pending', 'processing', 'completed')). *)
Definition queue_status_ok (s : string) : Prop :=
  s = "pending" ∨ s = "processing" ∨ s = "completed".

Record db_ok (db : Database) : Prop := {
  ok_users_key : keyed User.ID (users db);
  ok_users_email : unique (λ u, Some (User.Email u)) (users db);
  ok_users_status : every user_status_ok (users db);

  ok_tokens_key : keyed Token.ID (refresh_tokens db);
  ok_tokens_hash : unique (λ t, Some (Token.TokenHash t)) (refresh_tokens db);
  ok_tokens_fk :
    references (λ t, Some (Token.UserID t)) (users db) (refresh_tokens db);

  ok_creds_key : keyed Totp.UserID (two_factor_credentials db);
  ok_creds_hash : unique Totp.SetupTokenHash (two_factor_credentials db);
  ok_creds_fk :
    references (λ c, Some (Totp.UserID c)) (users db)
      (two_factor_credentials db);
  ok_creds_int : every (λ c, Int.int4_ok (Totp.FailedAttempts c) = true)
                   (two_factor_credentials db);

  ok_challenges_key : keyed LoginChallenge.ID (login_challenges db);
  ok_challenges_hash :
    unique (λ c, Some (LoginChallenge.TokenHash c)) (login_challenges db);
  ok_challenges_fk :
    references (λ c, Some (LoginChallenge.UserID c)) (users db)
      (login_challenges db);

  ok_flows_key : keyed PasswordReset.ID (password_reset_flows db);
  ok_flows_flow_hash :
    unique (λ f, Some (PasswordReset.FlowTokenHash f))
      (password_reset_flows db);
  ok_flows_reset_hash :
    unique PasswordReset.ResetTokenHash (password_reset_flows db);
  ok_flows_fk :
    references PasswordReset.UserID (users db) (password_reset_flows db);
  ok_flows_int : every (λ f, Int.int4_ok (PasswordReset.OTPAttempts f) = true)
                   (password_reset_flows db);

  ok_jobs_key : keyed job_id (account_deletion_jobs db);
  ok_jobs_user : unique (λ j, Some (job_user_id j)) (account_deletion_jobs db);
  ok_jobs_status : every (λ j, queue_status_ok (job_status j))
                     (account_deletion_jobs db);

  ok_steps_key :
    keyed (λ s, (step_job_id s, step_service s)) (account_deletion_steps db);
  ok_steps_fk :
    references (λ s, Some (step_job_id s)) (account_deletion_jobs db)
      (account_deletion_steps db);
  ok_steps_status : every (λ s, queue_status_ok (step_status s))
                      (account_deletion_steps db)
}.

Lemma db_ok_empty : db_ok empty_db.
Proof. split; auto with beebase. Qed.

(** Turn the booleans of an executable guard into propositions. *)
Ltac guards :=
  repeat match goal with
    | H : (_ || _) = false |- _ => apply orb_false_iff in H as [? ?]
    | H : (_ && _) = true |- _ => apply andb_true_iff in H as [? ?]
    | H : negb _ = false |- _ => apply negb_false_iff in H
    | H : negb _ = true |- _ => apply negb_true_iff in H
    | H : bool_decide _ = true |- _ => apply bool_decide_eq_true in H
    | H : bool_decide _ = false |- _ => apply bool_decide_eq_false in H
    | H : any_row _ _ = false |- _ => rewrite any_row_false in H
    end.

Lemma earliest_elem l j : earliest l = Some j → j ∈ l.
Proof.
  revert j. induction l as [|i l IH]; intros j; simpl; [done|].
  destruct (earliest l) as [j'|]; [|intros [= ->]; by left].
  case_bool_decide; intros [= <-]; [right; by apply IH|by left].
Qed.

Lemma earliest_None l : earliest l = None → l = [].
Proof.
  destruct l as [|j l]; [done|]. simpl. destruct (earliest l); [|done].
  by case_bool_decide.
Qed.

Lemma earliest_first l j j' :
  earliest l = Some j → j' ∈ l →
  (job_next_attempt_at j ≤ job_next_attempt_at j')%Z.
Proof.
  revert j. induction l as [|i l IH]; intros j He Hin; [by apply not_elem_of_nil in Hin|].
  simpl in He. apply elem_of_cons in Hin.
  destruct (earliest l) as [i'|] eqn:El.
  - specialize (IH i' eq_refl). case_bool_decide; injection He as <-;
      destruct Hin as [->|Hin]; try lia; specialize (IH Hin); lia.
  - apply earliest_None in El. subst l. injection He as ->.
    destruct Hin as [->|Hin]; [lia|by apply not_elem_of_nil in Hin].
Qed.

(** The job that is claimed is stored, and can be claimed. *)
Lemma claim_candidate now (m : gmap uuid DeletionJobRow) j :
  earliest (List.filter (claimable now) (map_to_list m).*2) = Some j →
  ∃ k, m !! k = Some j ∧ claimable now j = true.
Proof.
  intros He. apply earliest_elem in He.
  rewrite list_elem_of_In, List.filter_In, <-list_elem_of_In in He.
  destruct He as [Hin Hcl].
  apply list_elem_of_fmap in Hin as ([k j'] & -> & Hin).
  apply elem_of_map_to_list in Hin. by exists k.
Qed.

Section integrity.
Context `{PT : PgTime, EV : Env, SS : SessionStore}.

(** Changing the users table in a way that keeps its keys leaves the other
    tables' foreign keys intact. *)
Lemma db_ok_users db m :
  db_ok db →
  keyed User.ID m → unique (λ u, Some (User.Email u)) m →
  every user_status_ok m →
  (∀ r, is_Some (users db !! r) → is_Some (m !! r)) →
  db_ok (set_users (λ _, m) db).
Proof.
  intros [] ????. split; simpl; try done; by eapply references_target.
Qed.

Lemma users_insert_ok u db : db_ok db → db_ok (users_insert u db).2.
Proof.
  intros Hok. unfold users_insert. case_match; [done|]. simpl. guards.
  apply (db_ok_users db (<[User.ID u:=user_row u]> (users db))); try done;
    destruct Hok; auto with beebase.
  - apply unique_insert; [done|]. intros c k' v' [= <-] Hk [= He].
    match goal with H : ∀ _ _, _ |- _ => specialize (H _ _ Hk) end.
    guards. congruence.
  - apply every_insert; [done|]. by left.
Qed.

Lemma users_update_ok id f db :
  (∀ u, User.ID (f u) = User.ID u ∧ User.Email (f u) = User.Email u ∧
        User.DeletionStatus (f u) = User.DeletionStatus u) →
  db_ok db → db_ok (users_update id f db).2.
Proof.
  intros Hf Hok. unfold users_update, update_row.
  destruct (users db !! id) as [u|] eqn:Hu; simpl; [|by destruct db].
  apply (db_ok_users db (<[id:=f u]> (users db))); [done|..].
  - apply keyed_insert; [apply Hok|]. rewrite (proj1 (Hf u)).
    by apply (ok_users_key _ Hok).
  - eapply unique_update; [apply Hok|done|]. simpl. f_equal. apply Hf.
  - apply every_insert; [apply Hok|]. unfold user_status_ok.
    destruct (Hf u) as (_ & _ & ->). by apply (ok_users_status _ Hok id).
  - auto with beebase.
Qed.

Lemma users_mark_pending_ok id now db :
  db_ok db → db_ok (users_mark_pending id now db).2.
Proof.
  intros Hok. unfold users_mark_pending.
  destruct (users db !! id) as [u|] eqn:Hu; [|done].
  case_match; [|done]. simpl.
  apply (db_ok_users db (<[id:=mark_pending now u]> (users db))); [done|..].
  - apply keyed_insert; [apply Hok|]. exact (ok_users_key _ Hok _ _ Hu).
  - by eapply unique_update; [apply Hok|..].
  - apply every_insert; [apply Hok|]. by right.
  - auto with beebase.
Qed.

Lemma users_delete_ok id db : db_ok db → db_ok (users_delete id db).2.
Proof.
  intros []. unfold users_delete.
  destruct (users db !! id) as [u|] eqn:Hu; simpl; [|done].
  split; simpl; auto with beebase;
    apply references_cascade; try done; simpl; congruence.
Qed.

Lemma tokens_insert_ok t db : db_ok db → db_ok (tokens_insert t db).2.
Proof.
  intros []. unfold tokens_insert. case_match; [done|].
  case_match; [|done]. guards. split; simpl; auto with beebase.
  - apply unique_insert; [done|]. intros c k' v' [= <-] Hk [= He].
    match goal with H : ∀ _ _, _ |- _ => specialize (H _ _ Hk) end.
    guards. congruence.
  - apply references_insert; [done|]. by intros r [= <-].
Qed.

Lemma tokens_update_ok (g : Token.RefreshToken → Token.RefreshToken) db :
  (∀ t, Token.ID (g t) = Token.ID t ∧
        Token.TokenHash (g t) = Token.TokenHash t ∧
        Token.UserID (g t) = Token.UserID t) →
  db_ok db → db_ok (set_refresh_tokens (fmap g) db).
Proof.
  intros Hg []. split; simpl; try done.
  - apply keyed_fmap; [apply Hg|done].
  - apply unique_fmap; [|done]. intros t. f_equal. apply Hg.
  - apply references_fmap; [|done]. intros t. f_equal. apply Hg.
Qed.

Lemma tokens_revoke_ok id now db :
  db_ok db → db_ok (tokens_revoke id now db).2.
Proof.
  intros []. unfold tokens_revoke.
  destruct (refresh_tokens db !! id) as [t|] eqn:Ht; [|done].
  case_match; [done|]. split; simpl; try done.
  - apply keyed_insert; [done|]. exact (ok_tokens_key0 _ _ Ht).
  - by eapply unique_update.
  - by eapply references_update.
Qed.

Lemma tokens_revoke_all_ok u now db :
  db_ok db → db_ok (tokens_revoke_all u now db).2.
Proof. apply tokens_update_ok. intros t. by case_match. Qed.

(** A hash no other row holds is held only by the row itself. *)
Lemma setup_hash_free c db h k v :
  setup_hash_taken c db = false →
  keyed Totp.UserID (two_factor_credentials db) →
  Totp.SetupTokenHash c = Some h →
  two_factor_credentials db !! k = Some v →
  Totp.SetupTokenHash v = Some h → k = Totp.UserID c.
Proof.
  unfold setup_hash_taken. intros Hf Hkey Hc Hk Hv. rewrite Hc in Hf.
  guards. specialize (Hf _ _ Hk). simpl in Hf.
  rewrite bool_decide_true in Hf by done. simpl in Hf. guards.
  rewrite <-(Hkey _ _ Hk). by apply dec_stable.
Qed.

Lemma reset_hash_free f db h k v :
  reset_hash_taken f db = false →
  keyed PasswordReset.ID (password_reset_flows db) →
  PasswordReset.ResetTokenHash f = Some h →
  password_reset_flows db !! k = Some v →
  PasswordReset.ResetTokenHash v = Some h → k = PasswordReset.ID f.
Proof.
  unfold reset_hash_taken. intros Hf Hkey Hc Hk Hv. rewrite Hc in Hf.
  guards. specialize (Hf _ _ Hk). simpl in Hf.
  rewrite bool_decide_true in Hf by done. simpl in Hf. guards.
  rewrite <-(Hkey _ _ Hk). by apply dec_stable.
Qed.

Lemma credentials_insert_ok c db :
  db_ok db → db_ok (credentials_insert c db).2.
Proof.
  intros []. unfold credentials_insert. repeat (case_match; [done|]).
  case_match; [|done]. guards. split; simpl; auto with beebase.
  - apply unique_insert; [done|]. intros h k' v' Hh Hk Hv.
    by eapply setup_hash_free.
  - apply references_insert; [done|]. by intros r [= <-].
Qed.

Lemma credentials_update_ok c db :
  db_ok db → db_ok (credentials_update c db).2.
Proof.
  intros []. unfold credentials_update. case_match; [done|].
  destruct (two_factor_credentials db !! Totp.UserID c) as [old|] eqn:Hold;
    [|done].
  case_match; [done|]. guards.
  split; simpl; auto with beebase.
  - apply keyed_insert; [done|]. exact (ok_creds_key0 _ _ Hold).
  - apply unique_insert; [done|]. intros h k' v' Hh Hk Hv.
    by eapply setup_hash_free.
  - by eapply references_update.
Qed.

Lemma challenges_insert_ok c db :
  db_ok db → db_ok (challenges_insert c db).2.
Proof.
  intros []. unfold challenges_insert. case_match; [done|].
  case_match; [|done]. guards. split; simpl; auto with beebase.
  - apply unique_insert; [done|]. intros h k' v' [= <-] Hk [= He].
    match goal with H : ∀ _ _, _ |- _ => specialize (H _ _ Hk) end.
    guards. congruence.
  - apply references_insert; [done|]. by intros r [= <-].
Qed.

Lemma challenges_consume_ok id now db :
  db_ok db → db_ok (challenges_consume id now db).2.
Proof.
  intros []. unfold challenges_consume.
  destruct (login_challenges db !! id) as [c|] eqn:Hc; [|done].
  case_match; [done|].
  assert (Hid : LoginChallenge.ID (consume_live now c) = id).
  { unfold consume_live. case_match; exact (ok_challenges_key0 _ _ Hc). }
  split; simpl; auto with beebase.
  - eapply unique_update; [done..|]. unfold consume_live. by case_match.
  - eapply references_update; [done..|]. unfold consume_live. by case_match.
Qed.

Lemma flows_insert_ok f db : db_ok db → db_ok (flows_insert f db).2.
Proof.
  intros []. unfold flows_insert. repeat (case_match; [done|]).
  case_match; [|done]. guards. split; simpl; auto with beebase.
  - apply unique_insert; [done|]. intros h k' v' [= <-] Hk [= He].
    match goal with H : ∀ _ _, _ |- _ => specialize (H _ _ Hk) end.
    guards. congruence.
  - apply unique_insert; [done|]. intros h k' v' Hh Hk Hv.
    by eapply reset_hash_free.
  - apply references_insert; [done|]. intros r. simpl. intros Hr.
    unfold flow_owner_ok in *. rewrite Hr in *. by guards.
Qed.

Lemma flows_update_ok f db : db_ok db → db_ok (flows_update f db).2.
Proof.
  intros []. unfold flows_update. case_match; [done|].
  destruct (password_reset_flows db !! PasswordReset.ID f) as [old|] eqn:Hold;
    [|done].
  case_match; [done|]. guards. split; simpl; auto with beebase.
  - apply keyed_insert; [done|]. exact (ok_flows_key0 _ _ Hold).
  - by eapply unique_update.
  - apply unique_insert; [done|]. intros h k' v' Hh Hk Hv.
    by eapply reset_hash_free.
  - by eapply references_update.
Qed.

Lemma jobs_update_ok id g db :
  (∀ j, job_id (g j) = job_id j ∧ job_user_id (g j) = job_user_id j ∧
        queue_status_ok (job_status (g j))) →
  db_ok db → db_ok (jobs_update id g db).2.
Proof.
  intros Hg []. unfold jobs_update, update_row.
  destruct (account_deletion_jobs db !! id) as [j|] eqn:Hj; simpl;
    [|by destruct db].
  destruct (Hg j) as (Hid & Hu & Hst). split; simpl; auto with beebase.
  - apply keyed_insert; [done|]. rewrite Hid. by apply ok_jobs_key0.
  - eapply unique_update; [done..|]. simpl. by rewrite Hu.
  - eapply references_target; [done|]. auto with beebase.
Qed.

Lemma jobs_upsert_ok id u now db :
  db_ok db → db_ok (jobs_upsert id u now db).2.
Proof.
  intros []. unfold jobs_upsert.
  destruct (select_one _ _) as [j|] eqn:Hsel; simpl.
  - apply select_one_Some in Hsel as [Hju [k Hk]].
    pose proof (ok_jobs_key0 _ _ Hk) as Hid. simpl in Hid. subst k.
    split; simpl; auto with beebase.
    + by eapply unique_update.
    + apply every_insert; [done|]. by apply (ok_jobs_status0 _ _ Hk).
    + eapply references_target; [done|]. auto with beebase.
  - rewrite select_one_None in Hsel.
    case_match; [done|]. guards. split; simpl; auto with beebase.
    + apply unique_insert; [done|]. intros c k' v' [= <-] Hk [= Hv].
      specialize (Hsel _ _ Hk). guards. congruence.
    + apply every_insert; [done|]. by left.
    + eapply references_target; [done|]. auto with beebase.
Qed.

Lemma jobs_claim_ok now db : db_ok db → db_ok (jobs_claim now db).2.
Proof.
  intros []. unfold jobs_claim.
  destruct (earliest _) as [j|] eqn:He; [|done].
  destruct (Int.int4_ok _); [|done]. simpl.
  apply claim_candidate in He as (k & Hk & _).
  pose proof (ok_jobs_key0 _ _ Hk) as Hid. simpl in Hid. subst k.
  split; simpl; auto with beebase.
  - by eapply unique_update.
  - apply every_insert; [done|]. right. by left.
  - eapply references_target; [done|]. auto with beebase.
Qed.

Lemma steps_insert_ok j sv now db :
  db_ok db → db_ok (steps_insert j sv now db).2.
Proof.
  intros []. unfold steps_insert. case_match; [done|].
  case_match; [|done]. guards. split; simpl; auto with beebase.
  - apply references_insert; [done|]. by intros r [= <-].
  - apply every_insert; [done|]. by left.
Qed.

Lemma steps_update_ok j sv g db :
  (∀ s, step_job_id (g s) = step_job_id s ∧
        step_service (g s) = step_service s ∧
        queue_status_ok (step_status (g s))) →
  db_ok db → db_ok (steps_update j sv g db).2.
Proof.
  intros Hg []. unfold steps_update, update_row.
  destruct (account_deletion_steps db !! (j, sv)) as [st|] eqn:Hs; simpl;
    [|by destruct db].
  destruct (Hg st) as (Hj & Hsv & Hst). split; simpl; auto with beebase.
  - apply keyed_insert; [done|]. rewrite Hj, Hsv. by apply ok_steps_key0.
  - eapply references_update; [done..|]. simpl. by rewrite Hj.
Qed.

#[local] Hint Resolve users_insert_ok users_delete_ok users_mark_pending_ok
  tokens_insert_ok tokens_revoke_ok tokens_revoke_all_ok
  credentials_insert_ok credentials_update_ok challenges_insert_ok
  challenges_consume_ok flows_insert_ok flows_update_ok jobs_upsert_ok
  steps_insert_ok jobs_claim_ok : beebase.

(** Every statement preserves the invariant. *)
Lemma exec_ok {X} (q : stmt X) now db : db_ok db → db_ok (exec q now db).2.
Proof.
  intros Hok. destruct q; cbn [exec snd]; auto with beebase.
  - by apply users_update_ok.
  - by apply users_update_ok.
  - apply steps_update_ok; [|done]. intros st. repeat split. right; by right.
  - case_match; [|done]. apply steps_update_ok; [|done].
    intros st. repeat split. by left.
  - apply jobs_update_ok; [|done]. intros st. repeat split. by left.
  - apply jobs_update_ok; [|done]. intros st. repeat split. right; by right.
Qed.

Lemma handle_ok {X} (e : eff X) w :
  db_ok (w_db w) → db_ok (w_db (handle e w).2).
Proof.
  apply (handle_stmts (λ _ _, True)); [|apply eff_stmts_True].
  intros Y q db _. apply exec_ok.
Qed.

Lemma all_effects_True {A} (p : prog A) : all_effects (λ _ _, True) p.
Proof. induction p; simpl; auto. Qed.

Lemma run_ok {A} (p : prog A) w :
  db_ok (w_db w) → db_ok (w_db (run p w).2).
Proof.
  apply (run_invariant (λ _ _, True) (λ w, db_ok (w_db w)));
    [apply all_effects_True|].
  intros X e w' _. apply handle_ok.
Qed.

Lemma pool_ok {A} (ps ps' : list (prog A)) w w' :
  rtc pool_step (ps, w) (ps', w') → db_ok (w_db w) → db_ok (w_db w').
Proof.
  intros Hr Hok.
  apply (pool_invariant (λ _ _, True) (λ w, db_ok (w_db w)) _ _) in Hr as [_ ?].
  - done.
  - intros X e w1 _. apply handle_ok.
  - apply Forall_forall. intros p _. apply all_effects_True.
  - done.
Qed.
End integrity.
