(* ===== verification/Repositories.v ===== *)
(** * What a successful repository call tells

    For every method of the repositories: when the call returns without an
    error, the row it found or the change it made, and the world after it.
    The errors a method can report as its own sentinels are characterised
    too. *)
From S2P Require Import Prelude Tables GoBase Domain Schema Effects Logic.
From S2P Require Import Postgres.
#[local] Open Scope go_scope.

Section repositories.
Context `{PT : PgTime, EV : Env, SS : SessionStore}.
Implicit Types (w : World).

(** The transaction time of the next statement. *)
Definition next_now w : time := db_clock (n_io (w_counters w)).

Lemma faulty_Ok {A S} i (r : result A) (s0 s1 s2 : S) a :
  faulty i r s0 s1 = (Ok a, s2) → r = Ok a ∧ s2 = s1.
Proof. unfold faulty. destruct (fault i); naive_solver. Qed.

Lemma run_query_Ok {X} (q : stmt X) w a w' :
  run (perform (Query q)) w = (Ok a, w') →
  ∃ db', exec q (next_now w) (w_db w) = (Ok a, db') ∧
         w' = set_db db' (tick_io w).
Proof.
  rewrite run_perform. simpl. unfold handle_query, next_now.
  destruct (exec _ _ _) as [r db'] eqn:E.
  destruct (faulty _ _ _ _) as [r' db''] eqn:F. intros [= -> <-].
  apply faulty_Ok in F as [-> ->]. eauto.
Qed.

(** An error of a statement is the statement's own or a fault. *)
Lemma run_query_Err {X} (q : stmt X) w e w' :
  run (perform (Query q)) w = (Err e, w') →
  (∃ msg, e = Errorf msg) ∨
  (exec q (next_now w) (w_db w)).1 = Err e.
Proof.
  rewrite run_perform. simpl. unfold handle_query, next_now, faulty.
  destruct (exec _ _ _) as [r db'].
  destruct (fault _) as [f|]; intros [= <- <-]; [left; eauto|by right].
Qed.

Lemma set_db_same w : set_db (w_db w) w = w.
Proof. by destruct w. Qed.
Lemma set_db_tick_io w : set_db (w_db w) (tick_io w) = tick_io w.
Proof. by destruct w. Qed.

Lemma query_row_Ok {A} (o : option A) a : query_row o = Ok a → o = Some a.
Proof. destruct o; naive_solver. Qed.

Lemma scan_one_Ok {A} nf msg (q : stmt A) w a w' :
  run (scan_one nf msg q) w = (Ok a, w') →
  ∃ db', exec q (next_now w) (w_db w) = (Ok a, db') ∧
         w' = set_db db' (tick_io w).
Proof.
  unfold scan_one. intros (r & w1 & Hr & H)%run_bind_inv.
  destruct r as [a'|e].
  - injection H as -> <-. by apply run_query_Ok.
  - by destruct (errors_Is e ErrNoRows).
Qed.

(** [scan_one] reports its sentinel exactly for a missing row. *)
Lemma scan_one_notfound {A} nf msg (q : stmt A) w e w' :
  (∀ m e', nf ≠ Wrap m e') → (∀ m, nf ≠ Errorf m) → (∀ c, nf ≠ PgError c) →
  nf ≠ ErrNoRows →
  (∀ e', (exec q (next_now w) (w_db w)).1 = Err e' →
         e' = ErrNoRows ∨ ∃ c, e' = PgError c) →
  run (scan_one nf msg q) w = (Err e, w') →
  errors_Is e nf = true →
  (exec q (next_now w) (w_db w)).1 = Err ErrNoRows.
Proof.
  unfold scan_one. intros Hw Hf Hp Hn Hq (r & w1 & Hr & H)%run_bind_inv He.
  destruct r as [a'|e']; [done|].
  apply run_query_Err in Hr as [[m ->]|Hx].
  - simpl in H. injection H as <- _. rewrite errors_Is_wrap_iff in He by done.
    simpl in He. rewrite orb_false_r in He. apply bool_decide_eq_true in He.
    by destruct (Hf m).
  - destruct (Hq _ Hx) as [->|[c ->]]; [done|].
    simpl in H. injection H as <- _. rewrite errors_Is_wrap_iff in He by done.
    simpl in He. rewrite orb_false_r in He. apply bool_decide_eq_true in He.
    by destruct (Hp c).
Qed.

Lemma exec_affecting_Ok nf msg (q : stmt nat) w w' :
  run (exec_affecting nf msg q) w = (Ok tt, w') →
  ∃ n db', exec q (next_now w) (w_db w) = (Ok (S n), db') ∧
           w' = set_db db' (tick_io w).
Proof.
  unfold exec_affecting. intros (n & w1 & Hr & H)%run_bindE_Ok.
  apply run_wrapE_Ok in Hr. apply run_query_Ok in Hr as (db' & Hx & ->).
  destruct n as [|n]; [done|]. injection H as <-. eauto.
Qed.

Lemma exec_any_Ok {A} msg (q : stmt A) w w' :
  run (exec_any msg q) w = (Ok tt, w') →
  ∃ a db', exec q (next_now w) (w_db w) = (Ok a, db') ∧
           w' = set_db db' (tick_io w).
Proof.
  unfold exec_any. intros (n & w1 & Hr & H)%run_bindE_Ok.
  apply run_wrapE_Ok in Hr. apply run_query_Ok in Hr as (db' & Hx & ->).
  injection H as <-. eauto.
Qed.

(** ** Every outcome of a call *)

(** A query that finds its row returns it, or reports a fault. *)
Lemma scan_one_row {A} nf msg (q : stmt A) w a r w' :
  (∀ now, exec q now (w_db w) = (Ok a, w_db w)) →
  run (scan_one nf msg q) w = (r, w') →
  w' = tick_io w ∧ (r = Ok a ∨ ∃ m, r = Err (Wrap msg (Errorf m))).
Proof.
  intros Hq. unfold scan_one. rewrite run_bind, run_perform. simpl.
  unfold handle_query, faulty. rewrite Hq.
  destruct (fault _) as [[m []]|]; intros [= <- <-];
    (split; [exact (set_db_same (tick_io w))|]); eauto.
Qed.

(** A query without a row reports the sentinel, or a fault. *)
Lemma scan_one_norow {A} nf msg (q : stmt A) w r w' :
  (∀ now, exec q now (w_db w) = (Err ErrNoRows, w_db w)) →
  run (scan_one nf msg q) w = (r, w') →
  w' = tick_io w ∧ (r = Err nf ∨ ∃ m, r = Err (Wrap msg (Errorf m))).
Proof.
  intros Hq. unfold scan_one. rewrite run_bind, run_perform. simpl.
  unfold handle_query, faulty. rewrite Hq.
  destruct (fault _) as [[m []]|]; intros [= <- <-];
    (split; [exact (set_db_same (tick_io w))|]); eauto.
Qed.

(** A write takes effect and reports it, or fails with a fault and may or
    may not have taken effect. *)
Lemma exec_any_cases {A} msg (q : stmt A) w r w' :
  (∀ now, is_Ok (exec q now (w_db w)).1 = true) →
  run (exec_any msg q) w = (r, w') →
  (r = Ok tt ∨ ∃ m, r = Err (Wrap msg (Errorf m))) ∧
  (w' = set_db (exec q (next_now w) (w_db w)).2 (tick_io w) ∨
   w' = tick_io w ∧ is_Ok r = false).
Proof.
  intros Hq. unfold exec_any. rewrite run_bindE, run_wrapE, run_perform.
  simpl. unfold handle_query, faulty. specialize (Hq (next_now w)).
  unfold next_now in *. destruct (exec _ _ _) as [[a|e] db']; [|done].
  destruct (fault _) as [[m ap]|]; simpl; [|intros [= <- <-]; eauto].
  intros [= <- <-]. split; [eauto|].
  destruct ap; [by left|]. right. split; [exact (set_db_same (tick_io w))|done].
Qed.

(** A fault is none of the sentinels. *)
Lemma errors_Is_fault msg m target :
  (∀ m, target ≠ Errorf m) → (∀ m e, target ≠ Wrap m e) →
  errors_Is (Wrap msg (Errorf m)) target = false.
Proof.
  intros H1 H2. simpl. rewrite !bool_decide_false; [done| |];
    intros <-; naive_solver.
Qed.

(** ** Users *)

Lemma GetByID_Ok id w u w' :
  run (UserRepository.GetByID id) w = (Ok u, w') →
  users (w_db w) !! id = Some u ∧ w' = tick_io w.
Proof.
  intros (db' & Hx & ->)%scan_one_Ok. simpl in Hx.
  injection Hx as Hx%query_row_Ok <-. by rewrite set_db_tick_io.
Qed.

Lemma GetByEmail_Ok email w u w' :
  run (UserRepository.GetByEmail email) w = (Ok u, w') →
  (∃ k, users (w_db w) !! k = Some u) ∧ User.Email u = email ∧
  w' = tick_io w.
Proof.
  intros (db' & Hx & ->)%scan_one_Ok. simpl in Hx.
  injection Hx as Hx%query_row_Ok <-. rewrite set_db_tick_io.
  apply select_one_Some in Hx as [He Hk]. by apply bool_decide_eq_true in He.
Qed.

Lemma CreateUser_Ok u w w' :
  run (UserRepository.Create u) w = (Ok tt, w') →
  users (w_db w) !! User.ID u = None ∧
  (∀ k v, users (w_db w) !! k = Some v → User.Email v ≠ User.Email u) ∧
  w' = set_db (set_users <[User.ID u := user_row u]> (w_db w)) (tick_io w).
Proof.
  unfold UserRepository.Create. intros (r & w1 & Hr & H)%run_bind_inv.
  destruct r as [[]|e]; [|by case_bool_decide].
  injection H as <-. apply run_query_Ok in Hr as (db' & Hx & ->).
  simpl in Hx. unfold users_insert in Hx.
  destruct (_ || _) eqn:E; [done|]. injection Hx as <-.
  apply orb_false_iff in E as [E1 E2]. apply bool_decide_eq_false in E1.
  rewrite any_row_false in E2. split_and!; [|intros k v Hk|done].
  - by apply eq_None_not_Some.
  - specialize (E2 _ _ Hk). by apply bool_decide_eq_false in E2.
Qed.

Lemma UpdatePassword_Ok id h w w' :
  run (UserRepository.UpdatePassword id h) w = (Ok tt, w') →
  ∃ u, users (w_db w) !! id = Some u ∧
    w' = set_db (set_users
                   (λ _, <[id := User.ChangePassword u h (next_now w)]>
                           (users (w_db w))) (w_db w)) (tick_io w).
Proof.
  intros (n & db' & Hx & ->)%exec_affecting_Ok. simpl in Hx.
  unfold users_update, update_row in Hx.
  destruct (users (w_db w) !! id) as [u|]; [|done].
  injection Hx as <- <-. eauto.
Qed.

Lemma UpdateUser_Ok u w w' :
  run (UserRepository.Update u) w = (Ok tt, w') →
  ∃ old, users (w_db w) !! User.ID u = Some old ∧
    w' = set_db (set_users (λ _, <[User.ID u := profile_update u old]>
                                   (users (w_db w))) (w_db w)) (tick_io w).
Proof.
  intros (n & db' & Hx & ->)%exec_affecting_Ok. simpl in Hx.
  unfold users_update, update_row in Hx.
  destruct (users (w_db w) !! User.ID u) as [old|]; [|done].
  injection Hx as <- <-. eauto.
Qed.

Lemma DeleteUser_Ok id w w' :
  run (UserRepository.Delete id) w = (Ok tt, w') →
  is_Some (users (w_db w) !! id) ∧
  w' = set_db (users_delete id (w_db w)).2 (tick_io w).
Proof.
  intros (n & db' & Hx & ->)%exec_affecting_Ok. simpl in Hx.
  unfold users_delete in *. destruct (users (w_db w) !! id); [|done].
  injection Hx as <- <-. eauto.
Qed.

(** ** Refresh tokens *)

Lemma TokenByHash_Ok h w t w' :
  run (RefreshTokenRepository.GetByHash h) w = (Ok t, w') →
  (∃ k, refresh_tokens (w_db w) !! k = Some t) ∧ Token.TokenHash t = h ∧
  w' = tick_io w.
Proof.
  intros (db' & Hx & ->)%scan_one_Ok. simpl in Hx.
  injection Hx as Hx%query_row_Ok <-. rewrite set_db_tick_io.
  apply select_one_Some in Hx as [He Hk]. by apply bool_decide_eq_true in He.
Qed.

Lemma CreateToken_Ok t w w' :
  run (RefreshTokenRepository.Create t) w = (Ok tt, w') →
  refresh_tokens (w_db w) !! Token.ID t = None ∧
  (∀ k v, refresh_tokens (w_db w) !! k = Some v →
          Token.TokenHash v ≠ Token.TokenHash t) ∧
  is_Some (users (w_db w) !! Token.UserID t) ∧
  w' = set_db (set_refresh_tokens <[Token.ID t := token_row t]> (w_db w))
         (tick_io w).
Proof.
  intros (n & db' & Hx & ->)%exec_any_Ok. simpl in Hx.
  unfold tokens_insert in Hx. destruct (_ || _) eqn:E; [done|].
  destruct (bool_decide _) eqn:Eu in Hx; [|done]. injection Hx as _ <-.
  apply orb_false_iff in E as [E1 E2]. apply bool_decide_eq_false in E1.
  apply bool_decide_eq_true in Eu.
  rewrite any_row_false in E2. split_and!; [|intros k v Hk|done|done].
  - by apply eq_None_not_Some.
  - specialize (E2 _ _ Hk). by apply bool_decide_eq_false in E2.
Qed.

Lemma RevokeAll_Ok u w w' :
  run (RefreshTokenRepository.RevokeAllForUser u) w = (Ok tt, w') →
  w' = set_db (set_refresh_tokens
                 (update_where (live_token_of u) (revoke (next_now w)))
                 (w_db w)) (tick_io w).
Proof.
  intros (n & db' & Hx & ->)%exec_any_Ok. simpl in Hx.
  unfold tokens_revoke_all in Hx. by injection Hx as _ <-.
Qed.

Lemma RevokeToken_Ok id w w' :
  run (RefreshTokenRepository.Revoke id) w = (Ok tt, w') →
  w' = set_db (tokens_revoke id (next_now w) (w_db w)).2 (tick_io w).
Proof.
  intros (n & db' & Hx & ->)%exec_any_Ok. simpl in Hx. by rewrite Hx.
Qed.

(** The row of a token the caller presents. *)
Lemma TokenByHash_row w k t r w' :
  unique (λ t, Some (Token.TokenHash t)) (refresh_tokens (w_db w)) →
  refresh_tokens (w_db w) !! k = Some t →
  run (RefreshTokenRepository.GetByHash (Token.TokenHash t)) w = (r, w') →
  w' = tick_io w ∧
  (r = Ok t ∨
   ∃ m, r = Err (Wrap "postgres: get refresh token" (Errorf m))).
Proof.
  intros Hu Hk. apply scan_one_row. intros now. simpl.
  unfold tokens_by_hash. erewrite (select_one_row _ _ (Token.TokenHash t));
    [done| |exact Hu|exact Hk|by apply bool_decide_eq_true].
  intros v' Hv. simpl. f_equal. by apply bool_decide_eq_true in Hv.
Qed.

(** Not found means that no row has the hash. *)
Lemma TokenByHash_notfound h w e w' :
  run (RefreshTokenRepository.GetByHash h) w = (Err e, w') →
  errors_Is e Token_ErrNotFound = true →
  w' = tick_io w ∧
  ∀ k t, refresh_tokens (w_db w) !! k = Some t → Token.TokenHash t ≠ h.
Proof.
  intros H He. destruct (tokens_by_hash h (w_db w)) as [t|e'] eqn:Ht.
  - apply (scan_one_row _ _ _ _ t) in H as [-> [?|[m [= ->]]]];
      [done| |intros now; simpl; by rewrite Ht].
    by rewrite errors_Is_fault in He.
  - unfold tokens_by_hash in Ht. destruct (select_one _ _) eqn:Hs; [done|].
    simpl in Ht. injection Ht as <-.
    apply scan_one_norow in H as [-> _].
    2:{ intros now. simpl. unfold tokens_by_hash. by rewrite Hs. }
    split; [done|]. rewrite select_one_None in Hs. intros k t Hk.
    specialize (Hs _ _ Hk). by apply bool_decide_eq_false in Hs.
Qed.

(** ** TOTP credentials *)

Lemma CredentialByUser_Ok u w c w' :
  run (TwoFactorCredentialRepository.GetByUserID u) w = (Ok c, w') →
  two_factor_credentials (w_db w) !! u = Some c ∧ w' = tick_io w.
Proof.
  intros (db' & Hx & ->)%scan_one_Ok. simpl in Hx.
  injection Hx as Hx%query_row_Ok <-. by rewrite set_db_tick_io.
Qed.

Lemma CredentialBySetupHash_Ok h w c w' :
  run (TwoFactorCredentialRepository.GetBySetupTokenHash h) w = (Ok c, w') →
  (∃ k, two_factor_credentials (w_db w) !! k = Some c) ∧
  Totp.SetupTokenHash c = Some h ∧ w' = tick_io w.
Proof.
  intros (db' & Hx & ->)%scan_one_Ok. simpl in Hx.
  injection Hx as Hx%query_row_Ok <-. rewrite set_db_tick_io.
  apply select_one_Some in Hx as [He Hk]. by apply bool_decide_eq_true in He.
Qed.

Lemma UpdateCredential_Ok c w w' :
  run (TwoFactorCredentialRepository.Update c) w = (Ok tt, w') →
  ∃ old,
    two_factor_credentials (w_db w) !! Totp.UserID c = Some old ∧
    w' = set_db (set_credentials
                   <[Totp.UserID c := credential_update c old]> (w_db w))
           (tick_io w).
Proof.
  intros (n & db' & Hx & ->)%exec_affecting_Ok. simpl in Hx.
  unfold credentials_update in Hx. destruct (negb _); [done|].
  destruct (two_factor_credentials (w_db w) !! Totp.UserID c) as [old|];
    [|done].
  destruct (setup_hash_taken _ _); [done|]. injection Hx as <- <-. eauto.
Qed.

Lemma CreateCredential_Ok c w w' :
  run (TwoFactorCredentialRepository.Create c) w = (Ok tt, w') →
  two_factor_credentials (w_db w) !! Totp.UserID c = None ∧
  w' = set_db (set_credentials
                 <[Totp.UserID c := credential_row c]> (w_db w))
         (tick_io w).
Proof.
  intros (n & db' & Hx & ->)%exec_any_Ok. simpl in Hx.
  unfold credentials_insert in Hx. destruct (negb _); [done|].
  destruct (_ || _) eqn:E; [done|].
  destruct (bool_decide _) in Hx; [|done]. injection Hx as _ <-.
  apply orb_false_iff in E as [E _]. apply bool_decide_eq_false in E.
  split; [|done]. by apply eq_None_not_Some.
Qed.

(** ** Login challenges *)

Lemma ChallengeByHash_Ok h w c w' :
  run (LoginChallengeRepository.GetByHash h) w = (Ok c, w') →
  (∃ k, login_challenges (w_db w) !! k = Some c) ∧
  LoginChallenge.TokenHash c = h ∧ w' = tick_io w.
Proof.
  intros (db' & Hx & ->)%scan_one_Ok. simpl in Hx.
  injection Hx as Hx%query_row_Ok <-. rewrite set_db_tick_io.
  apply select_one_Some in Hx as [He Hk]. by apply bool_decide_eq_true in He.
Qed.

Lemma CreateChallenge_Ok c w w' :
  run (LoginChallengeRepository.Create c) w = (Ok tt, w') →
  login_challenges (w_db w) !! LoginChallenge.ID c = None ∧
  w' = set_db (set_challenges
                 <[LoginChallenge.ID c := challenge_row c]> (w_db w))
         (tick_io w).
Proof.
  intros (n & db' & Hx & ->)%exec_any_Ok. simpl in Hx.
  unfold challenges_insert in Hx. destruct (_ || _) eqn:E; [done|].
  destruct (bool_decide _) in Hx; [|done]. injection Hx as _ <-.
  apply orb_false_iff in E as [E _]. apply bool_decide_eq_false in E.
  split; [|done]. by apply eq_None_not_Some.
Qed.

Lemma ConsumeChallenge_Ok id w w' :
  run (LoginChallengeRepository.Consume id) w = (Ok tt, w') →
  w' = set_db (challenges_consume id (next_now w) (w_db w)).2 (tick_io w).
Proof.
  intros (n & db' & Hx & ->)%exec_any_Ok. simpl in Hx. by rewrite Hx.
Qed.

(** ** Password-reset flows *)

Lemma FlowByFlowHash_Ok h w f w' :
  run (PasswordResetFlowRepository.GetByFlowTokenHash h) w = (Ok f, w') →
  (∃ k, password_reset_flows (w_db w) !! k = Some f) ∧
  PasswordReset.FlowTokenHash f = h ∧ w' = tick_io w.
Proof.
  intros (db' & Hx & ->)%scan_one_Ok. simpl in Hx.
  injection Hx as Hx%query_row_Ok <-. rewrite set_db_tick_io.
  apply select_one_Some in Hx as [He Hk]. by apply bool_decide_eq_true in He.
Qed.

Lemma FlowByResetHash_Ok h w f w' :
  run (PasswordResetFlowRepository.GetByResetTokenHash h) w = (Ok f, w') →
  (∃ k, password_reset_flows (w_db w) !! k = Some f) ∧
  PasswordReset.ResetTokenHash f = Some h ∧ w' = tick_io w.
Proof.
  intros (db' & Hx & ->)%scan_one_Ok. simpl in Hx.
  injection Hx as Hx%query_row_Ok <-. rewrite set_db_tick_io.
  apply select_one_Some in Hx as [He Hk]. by apply bool_decide_eq_true in He.
Qed.

(** The flow a caller's token names. *)
Lemma FlowByFlowHash_row w k f r w' :
  unique (λ f, Some (PasswordReset.FlowTokenHash f))
    (password_reset_flows (w_db w)) →
  password_reset_flows (w_db w) !! k = Some f →
  run (PasswordResetFlowRepository.GetByFlowTokenHash
         (PasswordReset.FlowTokenHash f)) w = (r, w') →
  w' = tick_io w ∧
  (r = Ok f ∨
   ∃ m, r = Err (Wrap "postgres: get password reset flow" (Errorf m))).
Proof.
  intros Hu Hk. apply scan_one_row. intros now. simpl.
  unfold flows_by_flow_hash.
  erewrite (select_one_row _ _ (PasswordReset.FlowTokenHash f));
    [done| |exact Hu|exact Hk|by apply bool_decide_eq_true].
  intros v' Hv. simpl. f_equal. by apply bool_decide_eq_true in Hv.
Qed.

Lemma FlowByResetHash_row w k f h r w' :
  unique PasswordReset.ResetTokenHash (password_reset_flows (w_db w)) →
  password_reset_flows (w_db w) !! k = Some f →
  PasswordReset.ResetTokenHash f = Some h →
  run (PasswordResetFlowRepository.GetByResetTokenHash h) w = (r, w') →
  w' = tick_io w ∧
  (r = Ok f ∨
   ∃ m, r = Err (Wrap "postgres: get password reset flow" (Errorf m))).
Proof.
  intros Hu Hk Hh. apply scan_one_row. intros now. simpl.
  unfold flows_by_reset_hash.
  erewrite (select_one_row _ _ h);
    [done| |exact Hu|exact Hk|by apply bool_decide_eq_true].
  intros v' Hv. by apply bool_decide_eq_true in Hv.
Qed.

Lemma CreateFlow_Ok f w w' :
  run (PasswordResetFlowRepository.Create f) w = (Ok tt, w') →
  password_reset_flows (w_db w) !! PasswordReset.ID f = None ∧
  w' = set_db (set_flows <[PasswordReset.ID f := flow_row f]> (w_db w))
         (tick_io w).
Proof.
  intros (n & db' & Hx & ->)%exec_any_Ok. simpl in Hx.
  unfold flows_insert in Hx. destruct (negb _); [done|].
  destruct (_ || _) eqn:E; [done|].
  destruct (flow_owner_ok _ _); [|done]. injection Hx as _ <-.
  apply orb_false_iff in E as [E _]. apply orb_false_iff in E as [E _].
  apply bool_decide_eq_false in E.
  split; [|done]. by apply eq_None_not_Some.
Qed.

Lemma UpdateFlow_Ok f w w' :
  run (PasswordResetFlowRepository.Update f) w = (Ok tt, w') →
  ∃ old,
    password_reset_flows (w_db w) !! PasswordReset.ID f = Some old ∧
    w' = set_db (set_flows
                   <[PasswordReset.ID f := flow_update f old]> (w_db w))
           (tick_io w).
Proof.
  intros (n & db' & Hx & ->)%exec_affecting_Ok. simpl in Hx.
  unfold flows_update in Hx. destruct (negb _); [done|].
  destruct (password_reset_flows (w_db w) !! PasswordReset.ID f) as [old|];
    [|done].
  destruct (reset_hash_taken _ _); [done|]. injection Hx as <- <-. eauto.
Qed.

(** ** The session store *)

Lemma Activate_Ok u sid ttl w r w' :
  run (perform (Activate u sid ttl)) w = (Ok r, w') →
  r = (ss_activate u sid ttl (next_now w) (w_sessions w)).1 ∧
  w' = set_sessions (ss_activate u sid ttl (next_now w) (w_sessions w)).2
         (tick_io w).
Proof.
  rewrite run_perform. simpl. unfold handle_session, next_now.
  destruct (ss_activate _ _ _ _ _) as [a st].
  destruct (faulty _ _ _ _) as [r' st'] eqn:F. intros [= -> <-].
  by apply faulty_Ok in F as [[= ->] ->].
Qed.

Lemma DeactivatePrev_Ok u w r w' :
  run (perform (DeactivatePrev u)) w = (Ok r, w') →
  r = (ss_deactivate_prev u (next_now w) (w_sessions w)).1 ∧
  w' = set_sessions (ss_deactivate_prev u (next_now w) (w_sessions w)).2
         (tick_io w).
Proof.
  rewrite run_perform. simpl. unfold handle_session, next_now.
  destruct (ss_deactivate_prev _ _ _) as [a st].
  destruct (faulty _ _ _ _) as [r' st'] eqn:F. intros [= -> <-].
  by apply faulty_Ok in F as [[= ->] ->].
Qed.

Lemma DeactivateIfCurrent_Ok u sid w r w' :
  run (perform (DeactivateIfCurrent u sid)) w = (Ok r, w') →
  r = (ss_deactivate_if_current u sid (next_now w) (w_sessions w)).1 ∧
  w' = set_sessions
         (ss_deactivate_if_current u sid (next_now w) (w_sessions w)).2
         (tick_io w).
Proof.
  rewrite run_perform. simpl. unfold handle_session, next_now.
  destruct (ss_deactivate_if_current _ _ _ _) as [a st].
  destruct (faulty _ _ _ _) as [r' st'] eqn:F. intros [= -> <-].
  by apply faulty_Ok in F as [[= ->] ->].
Qed.

Lemma Deactivate_Ok u w w' :
  run (perform (Deactivate u)) w = (Ok tt, w') →
  w' = set_sessions (ss_deactivate u (next_now w) (w_sessions w))
         (tick_io w).
Proof.
  rewrite run_perform. simpl. unfold handle_session, next_now.
  destruct (faulty _ _ _ _) as [r' st'] eqn:F. intros [= -> <-].
  by apply faulty_Ok in F as [_ ->].
Qed.
End repositories.
