(* ===== verification/ServiceFacts.v ===== *)
(** * What a successful use case did

    The inversion lemmas of the service's building blocks: token generation,
    [issueSession], [validateOTP], [verifyOTP], [beginTOTPSetup] and
    [end_sessions]. The functional theorems of the use cases compose them. *)
From S2P Require Import Prelude Tables GoBase Domain Schema Effects Logic.
From S2P Require Import GoStrings Platform Postgres Service Footprint.
From S2P Require Import Repositories.
#[local] Open Scope go_scope.

Section facts.
Context `{PT : PgTime, EV : Env, SS : SessionStore, L : Lib, U : Unicode}.
Variable s : AuthService.
#[local] Abbreviation sec := (svc_security s).
Implicit Types (w : World).

(** The next reading of the clock. *)
Definition next_clock w : time := clock (n_clock (w_counters w)).

(** The [i]-th next reading of the clock, and the database's at the [i]-th
    next round trip. *)
Definition reading (i : nat) w : time := clock (i + n_clock (w_counters w)).
Definition db_reading (i : nat) w : time :=
  db_clock (i + n_io (w_counters w)).

(** How many readings and round trips lie between two worlds. *)
Definition spent (readings trips : nat) w w' : Prop :=
  n_clock (w_counters w') = readings + n_clock (w_counters w) ∧
  n_io (w_counters w') = trips + n_io (w_counters w).

Lemma reading_spent r t i w w' :
  spent r t w w' → reading i w' = reading (i + r) w.
Proof. intros [Hc _]. unfold reading. by rewrite Hc, Nat.add_assoc. Qed.

Lemma db_reading_spent r t i w w' :
  spent r t w w' → db_reading i w' = db_reading (i + t) w.
Proof. intros [_ Hi]. unfold db_reading. by rewrite Hi, Nat.add_assoc. Qed.

Lemma run_Now w : run (perform Now) w = (next_clock w, tick_clock w).
Proof. done. Qed.

Lemma tokenhash_Generate_Ok w tok w' :
  run tokenhash_Generate w = (Ok tok, w') →
  ∃ b, rand_read (n_rand (w_counters w)) rawTokenBytes = Ok b ∧
       tok = base64_encode b ∧ w' = tick_rand w.
Proof.
  unfold tokenhash_Generate. intros (b & w1 & Hr & H)%run_bindE_Ok.
  apply run_wrapE_Ok in Hr. rewrite run_perform in Hr. simpl in Hr.
  injection Hr as Hb <-. injection H as <- <-. eauto.
Qed.

Lemma run_cleanup u sid w :
  run (cleanupSessionDevices s u sid) w =
  (tt, match svc_deletion s with
       | DeletionWithCleanup => add_cleanup (u, sid) w
       | _ => w
       end).
Proof. unfold cleanupSessionDevices. by destruct (svc_deletion s). Qed.

(** The claims of the access token of a session. *)
Definition session_claims (user sid : uuid) (generation : Z) (now : time) :
    AccessClaims :=
  {| Subject := uuid_String user; IssuedAt := now;
     ClaimExpiresAt := TimeAdd now (ttl (svc_issuer s));
     SessionID := sid; SessionGeneration := generation |}.

Lemma run_issue user sid gen w a w' :
  run (if svc_generation_issuer s
       then IssueWithGeneration (svc_issuer s) user sid gen
       else Issue (svc_issuer s) user sid) w = (Ok a, w') →
  let gen' := if svc_generation_issuer s then gen else 0%Z in
  jwt_SignedString (priv (svc_issuer s)) (kid (svc_issuer s))
    (session_claims user sid gen' (next_clock w)) = Ok a.1 ∧
  a.2 = TimeAdd (next_clock w) (ttl (svc_issuer s)) ∧
  w' = tick_clock w.
Proof.
  unfold Issue. intros H. simpl.
  assert (H' : run (IssueWithGeneration (svc_issuer s) user sid
                      (if svc_generation_issuer s then gen else 0%Z)) w
               = (Ok a, w')) by by destruct (svc_generation_issuer s).
  unfold IssueWithGeneration in H'. rewrite run_bind, run_Now in H'.
  simpl in H'. unfold session_claims.
  destruct (jwt_SignedString _ _ _); [|done]. by injection H' as <- <-.
Qed.

(** Consuming a challenge writes no other table. *)
Lemma consume_keeps T id now db :
  T ≠ Challenges → same_table T db (challenges_consume id now db).2.
Proof.
  intros HT. apply (exec_keeps T (ConsumeChallenge id)).
  rewrite list_elem_of_In. simpl. intuition congruence.
Qed.

(** The refresh tokens after a successful issueSession: every live token
    of the user revoked at [t], the new row added. *)
Definition rotated (user : uuid) (t : time) (rt : Token.RefreshToken)
    (m : gmap uuid Token.RefreshToken) : gmap uuid Token.RefreshToken :=
  <[Token.ID rt := token_row rt]>
    (update_where (live_token_of user) (revoke t) m).

Record issued (u : User.User) (w : World) (sess : Session) (w' : World)
    (rt : Token.RefreshToken) : Prop := {
  iss_user : Token.UserID rt = User.ID u;
  iss_live : Token.RevokedAt rt = None;
  iss_hash : Token.TokenHash rt = tokenhash_Hash (s_RefreshToken sess);
  iss_expiry : Token.ExpiresAt rt = TimeAdd (next_clock w) (RefreshTTL sec);
  iss_fresh : refresh_tokens (w_db w) !! Token.ID rt = None;
  iss_unseen : ∀ k v, refresh_tokens (w_db w) !! k = Some v →
                 Token.TokenHash v ≠ Token.TokenHash rt;
  iss_tokens : ∃ t, refresh_tokens (w_db w') =
                    rotated (User.ID u) t rt (refresh_tokens (w_db w));
  iss_tables : ∀ T, T ≠ RefreshTokens → same_table T (w_db w) (w_db w');
  iss_store : ∃ t, w_sessions w' =
                   (ss_activate (User.ID u) (Token.ID rt) (RefreshTTL sec)
                      t (w_sessions w)).2 ∧
      (* the access token names the session the store holds *)
      ∃ now gen, jwt_SignedString (priv (svc_issuer s)) (kid (svc_issuer s))
                   (session_claims (User.ID u) (Token.ID rt) gen now) =
                 Ok (s_AccessToken sess) ∧
                 (svc_generation_issuer s = true →
                  gen = (ss_activate (User.ID u) (Token.ID rt)
                           (RefreshTTL sec) t (w_sessions w)).1.2);
  iss_session : s_UserID sess = User.ID u ∧ s_Email sess = User.Email u;
  iss_spent : spent 2 3 w w'
}.

(** The cleanup of the session that is replaced, if there is one, is started
    and nothing else. *)
Lemma run_cleanup_previous user (p : option uuid) w :
  ∃ cl,
    (run (match p with
          | Some previous => cleanupSessionDevices s user previous
          | None => Ret tt
          end) w).2 =
    mkWorld (w_db w) (w_sessions w) (w_requests w) cl (w_counters w).
Proof.
  destruct p as [p|]; [|by destruct w; eexists].
  rewrite run_cleanup. destruct (svc_deletion s); destruct w; by eexists.
Qed.

(** Revoking keeps the rows and their hashes. *)
Lemma revoked_row P t (m : gmap uuid Token.RefreshToken) k v :
  m !! k = Some v →
  ∃ v', update_where P (revoke t) m !! k = Some v' ∧
        Token.TokenHash v' = Token.TokenHash v.
Proof.
  intros Hk. unfold update_where. rewrite lookup_fmap, Hk. simpl.
  eexists. split; [done|]. by destruct (P v).
Qed.

(** A key that is free after revoking was free before. *)
Lemma revoked_none P t (m : gmap uuid Token.RefreshToken) k :
  update_where P (revoke t) m !! k = None → m !! k = None.
Proof.
  unfold update_where. rewrite lookup_fmap. by destruct (m !! k).
Qed.

(** Revoking all tokens of a user leaves no live one. *)
Lemma update_where_none_live u now (m : gmap uuid Token.RefreshToken) k t :
  update_where (live_token_of u) (revoke now) m !! k = Some t →
  live_token_of u t = false.
Proof.
  unfold update_where. rewrite lookup_fmap_Some. intros (t0 & <- & _).
  destruct (live_token_of u t0) eqn:E; [|done].
  unfold live_token_of. simpl. by rewrite andb_false_r.
Qed.

Lemma issueSession_Ok u w sess w' :
  run (issueSession s u) w = (Ok sess, w') →
  ∃ rt, issued u w sess w' rt.
Proof.
  unfold issueSession. intros ([] & w1 & H1 & H)%run_bindE_Ok.
  apply run_wrapE_Ok, RevokeAll_Ok in H1.
  apply run_bindE_Ok in H as (tok & w2 & H2 & H).
  apply run_wrapE_Ok, tokenhash_Generate_Ok in H2 as (b & Hb & -> & ->).
  rewrite run_bind, run_Now in H. cbn [fst snd] in H.
  rewrite run_bind, run_perform in H. cbn [fst snd handle] in H.
  set (rt := Token.New _ _ _ _ _) in H.
  apply run_bindE_Ok in H as (prev & w3 & H3 & H).
  apply run_wrapE_Ok, Activate_Ok in H3 as [-> ->].
  apply run_bindE_Ok in H as ([] & w4 & H4 & H).
  apply run_wrapE_Ok, CreateToken_Ok in H4 as (Hfresh & Huns & _ & ->).
  rewrite run_bind in H.
  match type of H with
  | context [run (match ?p with Some _ => _ | None => _ end) ?w4'] =>
      destruct (run_cleanup_previous (User.ID u) p w4') as [cl Hcl]
  end.
  rewrite Hcl in H. clear Hcl.
  apply run_bindE_Ok in H as (access & w5 & H5 & H).
  apply run_wrapE_Ok, run_issue in H5 as (Hsign & _ & ->).
  injection H as <- <-. exists rt. subst w1. split; try done.
  - exact (revoked_none _ _ _ _ Hfresh).
  - intros k v Hk Heq.
    destruct (revoked_row (live_token_of (User.ID u)) (next_now w) _ _ _ Hk)
      as (v' & Hk' & Hh).
    apply (Huns k v'); [exact Hk'|]. etrans; [exact Hh|exact Heq].
  - by exists (next_now w).
  - by intros [].
  - eexists. split; [reflexivity|]. eexists _, _.
    split; [exact Hsign|]. by intros ->.
Qed.

(** At most one live refresh token per user after a session is issued. *)
Lemma issued_single u w sess w' rt :
  issued u w sess w' rt →
  ∀ k t, refresh_tokens (w_db w') !! k = Some t →
    live_token_of (User.ID u) t = true ↔ k = Token.ID rt.
Proof.
  intros Hi k t. destruct (iss_tokens _ _ _ _ _ Hi) as [now ->].
  unfold rotated. destruct (decide (Token.ID rt = k)) as [<-|Hne].
  - rewrite lookup_insert_eq. intros [= <-]. split; [done|]. intros _.
    unfold live_token_of. simpl. rewrite (iss_user _ _ _ _ _ Hi).
    rewrite bool_decide_true by done. unfold Token.IsRevoked. simpl.
    rewrite (iss_live _ _ _ _ _ Hi). done.
  - rewrite lookup_insert_ne by done. unfold update_where.
    rewrite lookup_fmap_Some. intros (t0 & Ht & _). split; [|congruence].
    intros Hl. exfalso. destruct (live_token_of (User.ID u) t0) eqn:E.
    + subst t. unfold live_token_of in Hl. simpl in Hl.
      rewrite andb_false_r in Hl. done.
    + congruence.
Qed.

(** ** OTP verification *)

(** [code] is a TOTP of the credential's secret, good for the time step
    [counter] at [t], and no code of that step or a later one was used. *)
Definition unused_totp (cred : Totp.Credential) (code : string) (t : time)
    (counter : Z) : Prop :=
  ∃ secret, Decrypt (svc_cipher s) (Totp.SecretEncrypted cred) = Ok secret ∧
    ValidateAt code secret t = (true, counter) ∧
    Totp.IsCodeConsumed cred counter = false.

(** [code], submitted at [t] for the account [email] with credential [cred],
    is accepted with [counter]: an unused TOTP of its time step, or
    ([demo]) the demo account's fixed code, which is none and is taken for
    step 0. *)
Definition code_accepted (email : string) (cred : Totp.Credential)
    (code : string) (t : time) (counter : Z) (demo : bool) : Prop :=
  if demo then email = demoAccountEmail ∧ code = demoOTPCode ∧ counter = 0%Z
  else ¬ (email = demoAccountEmail ∧ code = demoOTPCode) ∧
       unused_totp cred code t counter.

Lemma validateOTP_Ok email cred code w v w' :
  run (validateOTP s email cred code) w = (Ok v, w') →
  (v = (true, 0%Z, true) ∧ email = demoAccountEmail ∧ code = demoOTPCode ∧
   w' = w) ∨
  (¬ (email = demoAccountEmail ∧ code = demoOTPCode) ∧
   ∃ secret, Decrypt (svc_cipher s) (Totp.SecretEncrypted cred) = Ok secret ∧
     v = (ValidateAt code secret (next_clock w), false) ∧
     w' = tick_clock w).
Proof.
  unfold validateOTP. destruct (_ && _) eqn:E.
  - apply andb_true_iff in E as [E1%bool_decide_eq_true
      E2%bool_decide_eq_true].
    intros [= <- <-]. by left.
  - intros H. right. split.
    { intros [-> ->]. by rewrite !bool_decide_true in E. }
    destruct (Decrypt _ _) as [secret|]; [|done].
    rewrite run_bind, run_Now in H. simpl in H. injection H as <- <-.
    exists secret. by destruct (ValidateAt _ _ _).
Qed.

Lemma verifyOTP_Ok email cred code w cred' w' :
  run (verifyOTP s email cred code) w = (Ok cred', w') →
  Totp.IsLocked cred (reading 0 w) = false ∧
  ∃ counter demo old,
    code_accepted email cred code (reading 1 w) counter demo ∧
    cred' = Totp.RecordSuccess cred counter
              (reading (if demo : bool then 1 else 2) w) ∧
    two_factor_credentials (w_db w) !! Totp.UserID cred = Some old ∧
    two_factor_credentials (w_db w') =
      <[Totp.UserID cred := credential_update cred' old]>
        (two_factor_credentials (w_db w)) ∧
    (∀ T, T ≠ Credentials → same_table T (w_db w) (w_db w')) ∧
    w_sessions w' = w_sessions w ∧
    spent (if demo then 2 else 3) 1 w w'.
Proof.
  unfold verifyOTP. rewrite run_bind, run_Now. cbn [fst snd].
  destruct (Totp.IsLocked _ _); [done|]. intros H. split; [done|].
  apply run_bindE_Ok in H as ([[ok counter] demo] & w1 & Hv & H).
  assert (Hw1 : w_db w1 = w_db w ∧ w_sessions w1 = w_sessions w ∧
                spent (if demo then 1 else 2) 0 w w1).
  { apply validateOTP_Ok in Hv as [(Hd & _ & _ & ->)|(_ & ? & _ & Hd & ->)].
    - by injection Hd as -> -> ->.
    - by injection Hd as _ ->. }
  cbn beta iota zeta in H.
  set (ok' := if ok && negb demo && _ then _ else _) in H.
  destruct ok' eqn:Eok; cbn [negb] in H.
  - destruct ok; [|subst ok'; by simpl in Eok].
    rewrite run_bind, run_Now in H. cbn [fst snd] in H.
    apply run_bindE_Ok in H as ([] & w2 & Hu & H).
    injection H as <- <-.
    apply run_wrapE_Ok, UpdateCredential_Ok in Hu as (old & Hold & ->).
    destruct Hw1 as (Hdb & Hss & Hck & Hio).
    exists counter, demo, old. simpl in Hold |- *. rewrite Hdb in Hold |- *.
    split_and!; try done.
    2:{ unfold next_clock, reading. rewrite Hck. by destruct demo. }
    2:{ by intros []. }
    2:{ unfold spent. simpl. rewrite Hck, Hio. by destruct demo. }
    apply validateOTP_Ok in Hv as [(Hv & ? & ? & _)|(Hn & sec' & Hd & Hv & _)].
    + injection Hv as -> ->. done.
    + injection Hv as Hv ->. split; [done|]. exists sec'.
      split_and!; [done|done|]. subst ok'. simpl in Eok.
      by destruct (Totp.IsCodeConsumed cred counter).
  - rewrite run_bind, run_Now in H. cbn [fst snd] in H.
    rewrite run_bind, run_Now in H. cbn [fst snd] in H.
    apply run_bindE_Ok in H as ([] & w2 & Hu & H).
    rewrite run_bind, run_Now in H. cbn [fst snd] in H.
    by destruct (Totp.IsLocked (Totp.RecordFailure _ _ _ _ _) _).
Qed.

(** ** Ending sessions *)

Lemma end_sessions_Ok user m1 m2 w w' :
  run (end_sessions s user m1 m2) w = (Ok tt, w') →
  (∃ t, refresh_tokens (w_db w') =
        update_where (live_token_of user) (revoke t)
          (refresh_tokens (w_db w))) ∧
  (∀ T, T ≠ RefreshTokens → same_table T (w_db w) (w_db w')) ∧
  (∃ t, w_sessions w' = (ss_deactivate_prev user t (w_sessions w)).2 ∧
    (* the session just ended has its devices cleaned up, if possible *)
    w_cleanups w' =
      match svc_deletion s, (ss_deactivate_prev user t (w_sessions w)).1 with
      | DeletionWithCleanup, Some sid => (user, sid) :: w_cleanups w
      | _, _ => w_cleanups w
      end).
Proof.
  unfold end_sessions. intros ([] & w1 & H1 & H)%run_bindE_Ok.
  apply run_wrapE_Ok, RevokeAll_Ok in H1. subst w1.
  apply run_bindE_Ok in H as (prev & w2 & H2 & H).
  apply run_wrapE_Ok, DeactivatePrev_Ok in H2 as [-> ->].
  rewrite run_bind in H. set (now2 := next_now _) in H.
  split; [|split].
  - exists (next_now w). injection H as <-.
    destruct (ss_deactivate_prev _ _ _) as [[sid|] st]; [|done].
    cbn [fst]. rewrite run_cleanup. by destruct (svc_deletion s).
  - intros T HT. injection H as <-.
    destruct (ss_deactivate_prev _ _ _) as [[sid|] st]; cbn [fst];
      rewrite ?run_cleanup; destruct (svc_deletion s); by destruct T.
  - exists now2. injection H as <-.
    change (w_sessions (set_db _ _)) with (w_sessions w).
    destruct (ss_deactivate_prev _ _ _) as [[sid|] st]; cbn [fst snd];
      rewrite ?run_cleanup; by destruct (svc_deletion s).
Qed.
End facts.

(** Split a successful [bindE] whose first part is a wrapped or plain call. *)
Ltac step H x w Hx :=
  apply run_bindE_Ok in H as (x & w & Hx & H); try apply run_wrapE_Ok in Hx.

(** Read the clock. *)
Ltac read_clock H :=
  rewrite run_bind, run_Now in H; cbn [fst snd] in H.

