(* ===== verification/DeletionWorker.v ===== *)
(** * The deletion worker (internal/application/auth/deletion_worker.go)

    [RunOnce] claims one deletion job, asks every service that has not yet
    confirmed to delete the user's data, and deletes the account last. [Run]
    repeats it at every tick of its ticker until the context is done. *)
From S2P Require Import Prelude GoBase Domain Schema Effects Platform.
From S2P Require Import Postgres.
#[local] Open Scope go_scope.

Section worker.
Context `{L : Lib}.
(** The [clients] map: the service's name to its AccountCleanupClient (a
    deletionclient.Client, as cmd/server/main.go fills it). *)
Variable clients : gmap string DeletionClient.

Definition retry (job : DeletionJob) (step : DeletionStep) (cause : error) :
    go unit :=
  let? _ := DeletionJobStore.RetryDeletionStep job.(Job_ID)
              step.(Service) (Int.wrap64 (step.(AttemptCount) + 1))
              (Error_text cause) in
  returnOk tt.

(** The loop over [job.Steps]; [finish] is what follows the loop. *)
Fixpoint run_steps (job : DeletionJob) (steps : list DeletionStep)
    (finish : go unit) : go unit :=
  match steps with
  | [] => finish
  | step :: rest =>
      if bool_decide (step.(Status) = "completed")
      then run_steps job rest finish
      else
        match clients !! step.(Service) with
        | None => retry job step (Errorf "missing cleanup client")
        | Some client =>
            let! r := DeleteUserData client job.(Job_UserID) in
            match r with
            | Err err => retry job step err
            | Ok _ =>
                let? _ := DeletionJobStore.CompleteDeletionStep
                            job.(Job_ID) step.(Service) in
                run_steps job rest finish
            end
        end
  end.

(** [w.users.Delete] (an account already gone is fine), then the job is
    completed. *)
Definition finish_job (job : DeletionJob) : go unit :=
  let! r := UserRepository.Delete job.(Job_UserID) in
  match r with
  | Err err =>
      if negb (errors_Is err User_ErrNotFound) then returnErr err
      else DeletionJobStore.CompleteDeletionJob job.(Job_ID)
  | Ok _ => DeletionJobStore.CompleteDeletionJob job.(Job_ID)
  end.

Definition RunOnce : go unit :=
  let? job := DeletionJobStore.ClaimDeletion in
  match job with
  | None => returnOk tt
  | Some job => run_steps job job.(Job_Steps) (finish_job job)
  end.

(** The ticker's period. *)
Definition Run_interval (interval : duration) : duration :=
  if bool_decide (interval ≤ 0)%Z then (5 * Second)%Z else interval.

(** The loop of [Run] for the [ticks] ticks that precede the end of the
    context; an error of RunOnce is only logged. *)
Fixpoint Run (ticks : nat) : prog unit :=
  match ticks with
  | O => Ret tt
  | S ticks' => let! _ := RunOnce in Run ticks'
  end.
End worker.
