(* ===== verification/Demo.v ===== *)
(** * A concrete environment

    Executable instances of the model's parameters (timestamps, the session
    store, the third-party libraries, the clock and the randomness), with
    their laws proved. The witnesses of the properties run the handlers in
    it. *)
From Stdlib Require Import Ascii DecimalString.
From stdpp Require Import pretty.
From S2P Require Import Prelude GoBase Domain Schema Effects GoStrings.
From S2P Require Import Platform Postgres Service DeletionWorker Integrity.

(** ** Timestamps: whole microseconds *)

#[export] Instance demo_pgtime : PgTime := {| pg_ts t := (t / 1000 * 1000)%Z |}.

#[export] Instance demo_pgtime_laws : PgTimeLaws.
Proof.
  split; intros t; simpl; pose proof (Z.div_mod t 1000);
    pose proof (Z.mod_pos_bound t 1000); lia.
Qed.

(** ** The session store: the user's session, its end, a generation count *)

Record DemoSession := mkDemoSession {
  ds_session : uuid; ds_expires : time
}.
Record DemoStore := mkDemoStore {
  dst_active : gmap uuid DemoSession;
  dst_generation : gmap uuid Z
}.

Definition demo_active (st : DemoStore) (now : time) (u : uuid) : option uuid :=
  match st.(dst_active) !! u with
  | Some d => if bool_decide (now < d.(ds_expires))%Z
              then Some d.(ds_session) else None
  | None => None
  end.

Definition demo_drop (u : uuid) (st : DemoStore) : DemoStore :=
  mkDemoStore (delete u st.(dst_active)) st.(dst_generation).

#[export] Instance demo_store : SessionStore := {|
  ss_state := DemoStore;
  ss_active := demo_active;
  ss_activate u s ttl now st :=
    let g := (default 0 (st.(dst_generation) !! u) + 1)%Z in
    ((demo_active st now u, g),
     mkDemoStore (<[u := mkDemoSession s (now + ttl)]> st.(dst_active))
       (<[u := g]> st.(dst_generation)));
  ss_deactivate u _ st := demo_drop u st;
  ss_deactivate_if_current u s now st :=
    if bool_decide (demo_active st now u = Some s)
    then (true, demo_drop u st) else (false, st);
  ss_deactivate_prev u now st := (demo_active st now u, demo_drop u st)
|}.

Lemma demo_drop_none u st t : demo_active (demo_drop u st) t u = None.
Proof. unfold demo_active. simpl. by rewrite lookup_delete_eq. Qed.
Lemma demo_drop_other u u' st t :
  u' ≠ u → demo_active (demo_drop u st) t u' = demo_active st t u'.
Proof. intros Hu. unfold demo_active. simpl. by rewrite lookup_delete_ne. Qed.

#[export] Instance demo_store_laws : SessionStoreLaws.
Proof.
  split; simpl; try done.
  - intros u s ttl now st Ht. unfold demo_active. simpl.
    rewrite lookup_insert_eq. simpl. by rewrite bool_decide_true by lia.
  - intros u s ttl now st t sid. unfold demo_active. simpl.
    rewrite lookup_insert_eq. simpl. case_bool_decide; [|done].
    by intros [= <-].
  - intros u s ttl now st t u' Hu. unfold demo_active. simpl.
    by rewrite lookup_insert_ne.
  - intros. apply demo_drop_none.
  - intros. by apply demo_drop_other.
  - intros u s now st. by case_bool_decide.
  - intros u s now st t H. rewrite bool_decide_true by done.
    apply demo_drop_none.
  - intros u s now st H. by rewrite bool_decide_false.
  - intros u s now st t u' Hu. case_bool_decide; [|done].
    by apply demo_drop_other.
  - intros. apply demo_drop_none.
  - intros. by apply demo_drop_other.
Qed.

(** ** Libraries *)

Definition demo_aead : AEAD :=
  mkAEAD 12 (λ _ p, "T" +:+ p)
    (λ _ c, match c with
            | String "T"%char p => Ok p
            | _ => Err (Errorf "cipher: message authentication failed")
            end).

#[export] Instance demo_aead_laws : AeadLaws demo_aead.
Proof. done. Qed.

(** The six digits of a time step (every secret the same). *)
Definition demo_digits (counter : Z) : string :=
  String.substring 1 6 (pretty (1000000 + counter `mod` 1000000)%Z).

(** [sha256] hex-printed is the identity up to printing. *)
#[export] Instance demo_lib : Lib := {|
  url_Parse_error url :=
    match url with
    | String ":" _ => Some (Errorf "parse: missing protocol scheme")
    | _ => None
    end;
  uuid_String := pretty;
  uuid_Parse a :=
    match NilZero.uint_of_string a with
    | Some d => Ok (N.of_uint d)
    | None => Err (Errorf "invalid UUID")
    end;
  sha256 x := x;
  bcrypt_MinCost := 4;
  bcrypt_MaxCost := 31;
  bcrypt_DefaultCost := 10;
  bcrypt_GenerateFromPassword _ p _ :=
    if bool_decide (72 < String.length p)
    then Err (Errorf "bcrypt: password length exceeds 72 bytes")
    else Ok ("$2a$" +:+ p);
  bcrypt_CompareHashAndPassword h p :=
    if bool_decide (h = "$2a$" +:+ p) then Ok tt
    else Err (Errorf "crypto/bcrypt: hashedPassword is not the hash");
  otp_Generate r issuer account :=
    Ok ("SECRET" +:+ pretty r,
        "otpauth://totp/" +:+ issuer +:+ ":" +:+ account);
  hotp_ValidateCustom code counter _ :=
    if bool_decide (String.length code = 6)
    then Ok (bool_decide (code = demo_digits counter))
    else Err (Errorf "Input length unexpected");
  aes_NewCipher_GCM _ := Ok demo_aead;
  jwt_SignedString _ kid c :=
    Ok (kid +:+ "." +:+ Subject c +:+ "." +:+ pretty (SessionID c) +:+ "." +:+
        pretty (SessionGeneration c))
|}.

#[export] Instance demo_bcrypt_laws : BcryptLaws.
Proof.
  split. intros salt p cost h. simpl. case_bool_decide; [done|].
  intros [= <-]. by rewrite bool_decide_true.
Qed.

#[export] Instance demo_unicode : Unicode :=
  {| unicode_lower r := r; unicode_Nd _ := false |}.

(** ** Environments *)

(** 2025-06-15 15:06:40 UTC; each reading of the clock is a second later. *)
Definition demo_epoch : time := (1750000000 * Second)%Z.

(** The first [n] characters of [s], padded. *)
Fixpoint pad (n : nat) (s : string) : string :=
  match n, s with
  | O, _ => ""
  | S n', EmptyString => String "."%char (pad n' "")
  | S n', String a s' => String a (pad n' s')
  end.
Lemma pad_length n s : String.length (pad n s) = n.
Proof.
  revert s. induction n as [|n IH]; intros [|a s]; simpl; by rewrite ?IH.
Qed.

Definition demo_bytes (i n : nat) : string := pad n (pretty i).

(** Faults as given, every HTTP call answered 200 with one item. *)
Definition env_with (faults : nat → option Fault) : Env := {|
  clock i := (demo_epoch + Z.of_nat i * Second)%Z;
  db_clock i := (demo_epoch + Z.of_nat i * Second)%Z;
  gen_uuid i := (1000 + N.of_nat i)%N;
  rand_read i n := Ok (demo_bytes i n);
  entropy i := N.of_nat i;
  fault := faults;
  http_do _ _ := Ok (mkResponse 200 (Ok [0%N]))
|}.

Definition no_faults : nat → option Fault := λ _, None.
#[export] Instance demo_env : Env := env_with no_faults.

Definition demo_sec : SecurityConfig := {|
  RefreshTTL := (720 * 60 * Minute)%Z;
  SetupTokenTTL := (15 * Minute)%Z;
  LoginChallengeTTL := (5 * Minute)%Z;
  PasswordResetFlowTTL := (15 * Minute)%Z;
  PasswordResetTokenTTL := (10 * Minute)%Z;
  OTPMaxAttempts := 5;
  OTPLockoutDuration := (15 * Minute)%Z;
  ResetFlowMaxOTPAttempts := 5;
  TOTPIssuer := "BeeBase"
|}.

Definition demo_service : AuthService := {|
  svc_hasher := mkBcryptHasher 10;
  svc_issuer := mkIssuer "key" "kid" (15 * Minute)%Z;
  svc_generation_issuer := true;
  svc_mediaURL := "http://media";
  svc_apiaryURL := "http://apiary";
  svc_cipher := demo_aead;
  svc_security := demo_sec;
  svc_deletion := DeletionWithCleanup
|}.

Definition demo_counters : Counters := mkCounters 0 0 0 0 0 0.

(** The world before the first request. *)
Definition demo_start : World :=
  mkWorld empty_db (mkDemoStore ∅ ∅) [] [] demo_counters.

(** The code of the period the clock is about to read. *)
Definition demo_code (w : World) : string :=
  demo_digits (Z.quot (Unix (clock (n_clock (w_counters w)))) 30).

Definition value {A} (d : A) (r : result A) : A :=
  match r with Ok a => a | Err _ => d end.

Lemma run_value {A} (d : A) (p : prog (result A)) w :
  is_Ok (run p w).1 = true →
  run p w = (Ok (value d (run p w).1), (run p w).2).
Proof. by destruct (run p w) as [[a|e] w']. Qed.

(** A demo run that succeeds: [run p w = (Ok (value d r.1), r.2)], where [r]
    is defined as [run p w]. *)
Ltac run_demo :=
  lazymatch goal with
  | |- run _ _ = (Ok (value _ (fst ?r)), _) =>
      unfold r; cbv zeta; apply run_value; vm_compute; reflexivity
  end.

Definition no_session : Session := mkSession 0 "" 0 "" 0 "" 0.

(** An account registered, its authenticator set up, logged out again: the
    requests of a user's first visit. *)
Definition demo_registered : result RegisterResult * World :=
  run (Register demo_service
         (mkRegisterInput "Bee@Example.com " "correct horse")) demo_start.
Definition demo_setup_token : string :=
  match demo_registered.1 with
  | Ok r => rr_SetupToken r
  | Err _ => ""
  end.
Definition demo_setup : result Session * World :=
  let w := demo_registered.2 in
  run (SetupVerifyOTP demo_service demo_setup_token (demo_code w)) w.
Definition demo_refresh_token : string :=
  match demo_setup.1 with Ok s => s_RefreshToken s | Err _ => "" end.
(** The same a few minutes later. *)
Definition later (n : nat) (w : World) : World :=
  let c := w.(w_counters) in
  set_counters (mkCounters (c.(n_clock) + n) c.(n_uuid) c.(n_rand)
                  c.(n_entropy) (c.(n_io) + n) c.(n_http)) w.
Lemma later_db n w : w_db (later n w) = w_db w.
Proof. done. Qed.
Definition demo_world : World := later 60 demo_setup.2.
Definition demo_login : result LoginResult * World :=
  run (Login demo_service (mkLoginInput "bee@example.com" "correct horse"))
    demo_world.
Definition demo_challenge : string :=
  match demo_login.1 with Ok r => lr_ChallengeToken r | Err _ => "" end.

Definition demo_login_verified : result Session * World :=
  run (LoginVerifyOTP demo_service demo_challenge (demo_code demo_login.2))
    demo_login.2.
Definition demo_refreshed : result Session * World :=
  run (Refresh demo_service demo_refresh_token) demo_world.

Definition no_user : User.User := User.New "" "" 0 0.
Definition demo_user : User.User :=
  default no_user (users (w_db demo_world) !! 1000%N).

(** The worlds above satisfy the schema's invariant. *)
Lemma demo_registered_ok : db_ok (w_db demo_registered.2).
Proof. unfold demo_registered. apply run_ok. exact db_ok_empty. Qed.
Lemma demo_world_ok : db_ok (w_db demo_world).
Proof.
  unfold demo_world, demo_setup. rewrite later_db. cbv zeta. apply run_ok.
  exact demo_registered_ok.
Qed.
Lemma demo_login_ok : db_ok (w_db demo_login.2).
Proof. unfold demo_login. apply run_ok. exact demo_world_ok. Qed.
Lemma demo_refreshed_ok : db_ok (w_db demo_refreshed.2).
Proof. unfold demo_refreshed. apply run_ok. exact demo_world_ok. Qed.

(** The account asks for its deletion; the worker runs. *)
Definition demo_delete : result unit * World :=
  run (DeleteAccount demo_service 1000%N "access" (demo_code demo_world))
    demo_world.
Lemma demo_delete_ok : db_ok (w_db demo_delete.2).
Proof. unfold demo_delete. apply run_ok. exact demo_world_ok. Qed.

Definition demo_clients : gmap string DeletionClient :=
  list_to_map ((λ sv, (sv, NewDeletionClient ("http://" +:+ sv +:+ "/") "key"))
                 <$> deletionServices).

(** A reset of its password is requested. *)
Definition demo_request : result PasswordResetRequestResult * World :=
  run (RequestPasswordReset demo_service "BEE@example.com") demo_world.
Definition demo_flow_token : string :=
  match demo_request.1 with Ok r => prr_FlowToken r | Err _ => "" end.
Lemma demo_request_ok : db_ok (w_db demo_request.2).
Proof. unfold demo_request. apply run_ok. exact demo_world_ok. Qed.
