(* ===== verification/Healthy.v ===== *)
(** * Executions without faults

    When the database and Redis answer every call, a program's result is
    determined; these are the equations of the repository calls and of
    [verifyOTP]'s parts in that case. *)
From S2P Require Import Prelude Tables GoBase Domain Schema Effects Logic.
From S2P Require Import Postgres Integrity Repositories.
#[local] Open Scope go_scope.

(** No call to PostgreSQL or Redis fails. *)
Definition healthy `{EV : Env} : Prop := ∀ i, fault i = None.

(** The next round trip does not fail. *)
Definition served `{EV : Env, SS : SessionStore} (w : World) : Prop :=
  fault (n_io (w_counters w)) = None.

Section served.
Context `{PT : PgTime, EV : Env, SS : SessionStore}.
Implicit Types (w : World).

Lemma served_query {X} (q : stmt X) w :
  served w →
  run (perform (Query q)) w =
  ((exec q (next_now w) (w_db w)).1,
   set_db (exec q (next_now w) (w_db w)).2 (tick_io w)).
Proof.
  intros H. rewrite run_perform. simpl. unfold handle_query, faulty, next_now.
  rewrite H. by destruct (exec _ _ _).
Qed.

(** A SELECT that finds its row. *)
Lemma served_scan_one {A} nf msg (q : stmt A) a w :
  served w → (∀ now, exec q now (w_db w) = (Ok a, w_db w)) →
  run (scan_one nf msg q) w = (Ok a, tick_io w).
Proof.
  intros H Hq. unfold scan_one. rewrite run_bind, served_query, Hq by done.
  exact (f_equal (pair _) (set_db_same (tick_io w))).
Qed.

Lemma served_exec_any {A} msg (q : stmt A) a db' w :
  served w → (exec q (next_now w) (w_db w)) = (Ok a, db') →
  run (exec_any msg q) w = (Ok tt, set_db db' (tick_io w)).
Proof.
  intros H Hq. unfold exec_any.
  by rewrite run_bindE, run_wrapE, served_query, Hq.
Qed.

Lemma served_TokenByHash k t h w :
  served w → db_ok (w_db w) → refresh_tokens (w_db w) !! k = Some t →
  Token.TokenHash t = h →
  run (RefreshTokenRepository.GetByHash h) w = (Ok t, tick_io w).
Proof.
  intros H Hok Hk <-. apply served_scan_one; [done|]. intros now. simpl.
  unfold tokens_by_hash.
  erewrite (select_one_row _ _ (Token.TokenHash t));
    [done| |exact (ok_tokens_hash _ Hok)|exact Hk|
     by apply bool_decide_eq_true].
  intros v' Hv. simpl. f_equal. by apply bool_decide_eq_true in Hv.
Qed.

Lemma served_RevokeToken id w :
  served w →
  run (RefreshTokenRepository.Revoke id) w =
  (Ok tt, set_db (tokens_revoke id (next_now w) (w_db w)).2 (tick_io w)).
Proof.
  intros H. destruct (tokens_revoke id (next_now w) (w_db w)) as [r db'] eqn:E.
  assert (∃ n, r = Ok n) as [n ->].
  { unfold tokens_revoke in E. repeat case_match; injection E as <- _; eauto. }
  by apply (served_exec_any _ _ n).
Qed.
End served.

Section healthy.
Context `{PT : PgTime, EV : Env, SS : SessionStore}.
Hypothesis H : healthy.
Implicit Types (w : World).

Lemma run_query {X} (q : stmt X) w :
  run (perform (Query q)) w =
  ((exec q (next_now w) (w_db w)).1,
   set_db (exec q (next_now w) (w_db w)).2 (tick_io w)).
Proof. apply served_query, H. Qed.

Lemma run_scan_one {A} nf msg (q : stmt A) a w :
  (∀ now, exec q now (w_db w) = (Ok a, w_db w)) →
  run (scan_one nf msg q) w = (Ok a, tick_io w).
Proof. apply served_scan_one, H. Qed.

(** A SELECT without a row. *)
Lemma run_scan_none {A} nf msg (q : stmt A) w :
  (∀ now, exec q now (w_db w) = (Err ErrNoRows, w_db w)) →
  run (scan_one nf msg q) w = (Err nf, tick_io w).
Proof.
  intros Hq. unfold scan_one. rewrite run_bind, run_query, Hq.
  exact (f_equal (pair _) (set_db_same (tick_io w))).
Qed.

Lemma run_exec_affecting nf msg (q : stmt nat) n db' w :
  (exec q (next_now w) (w_db w)) = (Ok (S n), db') →
  run (exec_affecting nf msg q) w = (Ok tt, set_db db' (tick_io w)).
Proof.
  intros Hq. unfold exec_affecting.
  by rewrite run_bindE, run_wrapE, run_query, Hq.
Qed.

Lemma run_exec_any {A} msg (q : stmt A) a db' w :
  (exec q (next_now w) (w_db w)) = (Ok a, db') →
  run (exec_any msg q) w = (Ok tt, set_db db' (tick_io w)).
Proof.
  apply served_exec_any, H.
Qed.

(** ** Credentials *)

Lemma run_CredentialByUser u c w :
  two_factor_credentials (w_db w) !! u = Some c →
  run (TwoFactorCredentialRepository.GetByUserID u) w = (Ok c, tick_io w).
Proof. intros Hc. apply run_scan_one. intros now. simpl. by rewrite Hc. Qed.

(** A row that keeps its setup token does not collide with another. *)
Lemma own_setup_hash c c' u db :
  db_ok db → two_factor_credentials db !! u = Some c →
  Totp.UserID c' = u → Totp.SetupTokenHash c' = Totp.SetupTokenHash c →
  setup_hash_taken c' db = false.
Proof.
  intros Hok Hc Hu Hs. unfold setup_hash_taken. rewrite Hs.
  destruct (Totp.SetupTokenHash c) as [h|] eqn:Hh; [|done].
  apply any_row_false. intros k v Hk.
  destruct (bool_decide (Totp.SetupTokenHash v = Some h)) eqn:E; [|done].
  apply bool_decide_eq_true in E. simpl. apply bool_decide_eq_false.
  rewrite Hu. intros Hn. apply Hn.
  pose proof (ok_creds_key _ Hok _ _ Hk) as Hkey. simpl in Hkey.
  rewrite Hkey. eapply (ok_creds_hash _ Hok); [done..|]. by rewrite Hh.
Qed.

(** An UPDATE whose setup token hash, if any, no other row holds. *)
Lemma run_WriteCredential u c c' w :
  two_factor_credentials (w_db w) !! u = Some c → Totp.UserID c' = u →
  setup_hash_taken c' (w_db w) = false →
  Int.int4_ok (Totp.FailedAttempts c') = true →
  run (TwoFactorCredentialRepository.Update c') w =
  (Ok tt, set_db (set_credentials <[u := credential_update c' c]> (w_db w))
            (tick_io w)).
Proof.
  intros Hc Hu Hs Hi. apply (run_exec_affecting _ _ _ 0). simpl.
  unfold credentials_update. rewrite Hi. simpl. by rewrite Hu, Hc, Hs.
Qed.

Lemma run_UpdateCredential u c c' w :
  db_ok (w_db w) → two_factor_credentials (w_db w) !! u = Some c →
  Totp.UserID c' = Totp.UserID c →
  Totp.SetupTokenHash c' = Totp.SetupTokenHash c →
  Int.int4_ok (Totp.FailedAttempts c') = true →
  run (TwoFactorCredentialRepository.Update c') w =
  (Ok tt, set_db (set_credentials <[u := credential_update c' c]> (w_db w))
            (tick_io w)).
Proof.
  intros Hok Hc Hu Hs Hi.
  pose proof (ok_creds_key _ Hok _ _ Hc) as Hkey. simpl in Hkey.
  apply run_WriteCredential; [done|congruence| |done].
  apply (own_setup_hash c c' u); congruence || done.
Qed.

Lemma run_CredentialBySetupHash u c h w :
  db_ok (w_db w) → two_factor_credentials (w_db w) !! u = Some c →
  Totp.SetupTokenHash c = Some h →
  run (TwoFactorCredentialRepository.GetBySetupTokenHash h) w =
  (Ok c, tick_io w).
Proof.
  intros Hok Hc Hh. apply run_scan_one. intros now. simpl.
  unfold credentials_by_setup_hash.
  erewrite (select_one_row _ _ h);
    [done| |exact (ok_creds_hash _ Hok)|exact Hc|
     by apply bool_decide_eq_true].
  intros v' Hv. by apply bool_decide_eq_true in Hv.
Qed.

Lemma run_CredentialByUser_none u w :
  two_factor_credentials (w_db w) !! u = None →
  run (TwoFactorCredentialRepository.GetByUserID u) w =
  (Err Totp_ErrNotFound, tick_io w).
Proof. intros Hc. apply run_scan_none. intros now. simpl. by rewrite Hc. Qed.

Lemma run_CreateCredential c w :
  two_factor_credentials (w_db w) !! Totp.UserID c = None →
  setup_hash_taken c (w_db w) = false →
  Int.int4_ok (Totp.FailedAttempts c) = true →
  is_Some (users (w_db w) !! Totp.UserID c) →
  run (TwoFactorCredentialRepository.Create c) w =
  (Ok tt, set_db (set_credentials
                    <[Totp.UserID c := credential_row c]> (w_db w))
            (tick_io w)).
Proof.
  intros Hn Hs Hi Hu. apply (run_exec_any _ _ tt). simpl.
  unfold credentials_insert. rewrite Hi. cbn [negb].
  rewrite Hn, Hs, bool_decide_false by (by intros []). cbn [orb].
  by rewrite bool_decide_true.
Qed.

(** ** Password-reset flows *)

Lemma own_reset_hash f f' k db :
  db_ok db → password_reset_flows db !! k = Some f →
  PasswordReset.ID f' = k →
  PasswordReset.ResetTokenHash f' = PasswordReset.ResetTokenHash f →
  reset_hash_taken f' db = false.
Proof.
  intros Hok Hf Hid Hs. unfold reset_hash_taken. rewrite Hs.
  destruct (PasswordReset.ResetTokenHash f) as [h|] eqn:Hh; [|done].
  apply any_row_false. intros k' v Hk.
  destruct (bool_decide (PasswordReset.ResetTokenHash v = Some h)) eqn:E;
    [|done].
  apply bool_decide_eq_true in E. simpl. apply bool_decide_eq_false.
  rewrite Hid. intros Hn. apply Hn.
  pose proof (ok_flows_key _ Hok _ _ Hk) as Hkey. simpl in Hkey.
  rewrite Hkey. eapply (ok_flows_reset_hash _ Hok); [done..|]. by rewrite Hh.
Qed.

(** An UPDATE whose reset token hash, if any, no other row holds. *)
Lemma run_WriteFlow k f f' w :
  password_reset_flows (w_db w) !! k = Some f → PasswordReset.ID f' = k →
  reset_hash_taken f' (w_db w) = false →
  Int.int4_ok (PasswordReset.OTPAttempts f') = true →
  run (PasswordResetFlowRepository.Update f') w =
  (Ok tt, set_db (set_flows <[k := flow_update f' f]> (w_db w)) (tick_io w)).
Proof.
  intros Hf Hu Hs Hi. apply (run_exec_affecting _ _ _ 0). simpl.
  unfold flows_update. rewrite Hi. simpl. by rewrite Hu, Hf, Hs.
Qed.

Lemma run_UpdateFlow k f f' w :
  db_ok (w_db w) → password_reset_flows (w_db w) !! k = Some f →
  PasswordReset.ID f' = PasswordReset.ID f →
  PasswordReset.ResetTokenHash f' = PasswordReset.ResetTokenHash f →
  Int.int4_ok (PasswordReset.OTPAttempts f') = true →
  run (PasswordResetFlowRepository.Update f') w =
  (Ok tt, set_db (set_flows <[k := flow_update f' f]> (w_db w)) (tick_io w)).
Proof.
  intros Hok Hf Hu Hs Hi.
  pose proof (ok_flows_key _ Hok _ _ Hf) as Hkey. simpl in Hkey.
  apply run_WriteFlow; [done|congruence| |done].
  apply (own_reset_hash f f' k); congruence || done.
Qed.

Lemma run_FlowByFlowHash k f h w :
  db_ok (w_db w) → password_reset_flows (w_db w) !! k = Some f →
  PasswordReset.FlowTokenHash f = h →
  run (PasswordResetFlowRepository.GetByFlowTokenHash h) w = (Ok f, tick_io w).
Proof.
  intros Hok Hf <-. apply run_scan_one. intros now. simpl.
  unfold flows_by_flow_hash.
  erewrite (select_one_row _ _ (PasswordReset.FlowTokenHash f));
    [done| |exact (ok_flows_flow_hash _ Hok)|exact Hf|
     by apply bool_decide_eq_true].
  intros v' Hv. simpl. f_equal. by apply bool_decide_eq_true in Hv.
Qed.

Lemma run_FlowByResetHash k f h w :
  db_ok (w_db w) → password_reset_flows (w_db w) !! k = Some f →
  PasswordReset.ResetTokenHash f = Some h →
  run (PasswordResetFlowRepository.GetByResetTokenHash h) w =
  (Ok f, tick_io w).
Proof.
  intros Hok Hf Hh. apply run_scan_one. intros now. simpl.
  unfold flows_by_reset_hash.
  erewrite (select_one_row _ _ h);
    [done| |exact (ok_flows_reset_hash _ Hok)|exact Hf|
     by apply bool_decide_eq_true].
  intros v' Hv. by apply bool_decide_eq_true in Hv.
Qed.

Lemma run_CreateFlow f w :
  password_reset_flows (w_db w) !! PasswordReset.ID f = None →
  (∀ k v, password_reset_flows (w_db w) !! k = Some v →
          PasswordReset.FlowTokenHash v ≠ PasswordReset.FlowTokenHash f) →
  reset_hash_taken f (w_db w) = false →
  Int.int4_ok (PasswordReset.OTPAttempts f) = true →
  (∀ u, PasswordReset.UserID f = Some u → is_Some (users (w_db w) !! u)) →
  run (PasswordResetFlowRepository.Create f) w =
  (Ok tt, set_db (set_flows <[PasswordReset.ID f := flow_row f]> (w_db w))
            (tick_io w)).
Proof.
  intros Hid Hh Hr Hi Hu. apply (run_exec_any _ _ tt). simpl.
  unfold flows_insert. rewrite Hi. cbn [negb].
  rewrite Hid, Hr, bool_decide_false, orb_false_r by (by intros []).
  cbn [orb]. rewrite (proj2 (any_row_false _ _)).
  - unfold flow_owner_ok. destruct (PasswordReset.UserID f) as [u|]; [|done].
    by rewrite bool_decide_true by auto.
  - intros k v Hk. apply bool_decide_eq_false. by eapply Hh.
Qed.

(** ** Users *)

Lemma run_GetByID u usr w :
  users (w_db w) !! u = Some usr →
  run (UserRepository.GetByID u) w = (Ok usr, tick_io w).
Proof. intros Hu. apply run_scan_one. intros now. simpl. by rewrite Hu. Qed.

Lemma run_GetByEmail k u email w :
  db_ok (w_db w) → users (w_db w) !! k = Some u → User.Email u = email →
  run (UserRepository.GetByEmail email) w = (Ok u, tick_io w).
Proof.
  intros Hok Hk <-. apply run_scan_one. intros now. simpl.
  unfold users_by_email.
  erewrite (select_one_row _ _ (User.Email u));
    [done| |exact (ok_users_email _ Hok)|exact Hk|
     by apply bool_decide_eq_true].
  intros v' Hv. simpl. f_equal. by apply bool_decide_eq_true in Hv.
Qed.

Lemma run_CreateUser u w :
  users (w_db w) !! User.ID u = None →
  (∀ k v, users (w_db w) !! k = Some v → User.Email v ≠ User.Email u) →
  run (UserRepository.Create u) w =
  (Ok tt, set_db (set_users <[User.ID u := user_row u]> (w_db w)) (tick_io w)).
Proof.
  intros Hid He. unfold UserRepository.Create. rewrite run_bind, run_query.
  simpl. unfold users_insert. rewrite Hid, bool_decide_false by (by intros []).
  rewrite (proj2 (any_row_false _ _)); [done|].
  intros k v Hk. apply bool_decide_eq_false. by eapply He.
Qed.

Lemma run_UpdatePassword id u h w :
  users (w_db w) !! id = Some u →
  run (UserRepository.UpdatePassword id h) w =
  (Ok tt, set_db (set_users
                    (λ _, <[id := User.ChangePassword u h (next_now w)]>
                            (users (w_db w))) (w_db w)) (tick_io w)).
Proof.
  intros Hu. apply (run_exec_affecting _ _ _ 0). simpl.
  unfold users_update, update_row. by rewrite Hu.
Qed.

(** ** Refresh tokens *)

Lemma run_TokenByHash k t h w :
  db_ok (w_db w) → refresh_tokens (w_db w) !! k = Some t →
  Token.TokenHash t = h →
  run (RefreshTokenRepository.GetByHash h) w = (Ok t, tick_io w).
Proof.
  apply served_TokenByHash, H.
Qed.

Lemma run_CreateToken t w :
  refresh_tokens (w_db w) !! Token.ID t = None →
  (∀ k v, refresh_tokens (w_db w) !! k = Some v →
          Token.TokenHash v ≠ Token.TokenHash t) →
  is_Some (users (w_db w) !! Token.UserID t) →
  run (RefreshTokenRepository.Create t) w =
  (Ok tt, set_db (set_refresh_tokens <[Token.ID t := token_row t]> (w_db w))
            (tick_io w)).
Proof.
  intros Hid Hh Hu. apply (run_exec_any _ _ tt). simpl.
  unfold tokens_insert. rewrite Hid, bool_decide_false by (by intros []).
  rewrite (proj2 (any_row_false _ _)), bool_decide_true; [done|done|].
  intros k v Hk. apply bool_decide_eq_false. by eapply Hh.
Qed.

Lemma run_RevokeToken id w :
  run (RefreshTokenRepository.Revoke id) w =
  (Ok tt, set_db (tokens_revoke id (next_now w) (w_db w)).2 (tick_io w)).
Proof. apply served_RevokeToken, H. Qed.

Lemma run_RevokeAll u w :
  run (RefreshTokenRepository.RevokeAllForUser u) w =
  (Ok tt, set_db (set_refresh_tokens
                    (update_where (live_token_of u) (revoke (next_now w)))
                    (w_db w)) (tick_io w)).
Proof. by eapply run_exec_any. Qed.

(** ** Login challenges *)

Lemma run_ChallengeByHash k c h w :
  db_ok (w_db w) → login_challenges (w_db w) !! k = Some c →
  LoginChallenge.TokenHash c = h →
  run (LoginChallengeRepository.GetByHash h) w = (Ok c, tick_io w).
Proof.
  intros Hok Hk <-. apply run_scan_one. intros now. simpl.
  unfold challenges_by_hash.
  erewrite (select_one_row _ _ (LoginChallenge.TokenHash c));
    [done| |exact (ok_challenges_hash _ Hok)|exact Hk|
     by apply bool_decide_eq_true].
  intros v' Hv. simpl. f_equal. by apply bool_decide_eq_true in Hv.
Qed.

Lemma run_CreateChallenge c w :
  login_challenges (w_db w) !! LoginChallenge.ID c = None →
  (∀ k v, login_challenges (w_db w) !! k = Some v →
          LoginChallenge.TokenHash v ≠ LoginChallenge.TokenHash c) →
  is_Some (users (w_db w) !! LoginChallenge.UserID c) →
  run (LoginChallengeRepository.Create c) w =
  (Ok tt, set_db (set_challenges
                    <[LoginChallenge.ID c := challenge_row c]> (w_db w))
            (tick_io w)).
Proof.
  intros Hid Hh Hu. apply (run_exec_any _ _ tt). simpl.
  unfold challenges_insert. rewrite Hid, bool_decide_false by (by intros []).
  rewrite (proj2 (any_row_false _ _)), bool_decide_true; [done|done|].
  intros k v Hk. apply bool_decide_eq_false. by eapply Hh.
Qed.

Lemma run_ConsumeChallenge id w :
  run (LoginChallengeRepository.Consume id) w =
  (Ok tt, set_db (challenges_consume id (next_now w) (w_db w)).2 (tick_io w)).
Proof.
  destruct (challenges_consume id (next_now w) (w_db w)) as [r db'] eqn:E.
  assert (∃ n, r = Ok n) as [n ->].
  { unfold challenges_consume in E.
    repeat case_match; injection E as <- _; eauto. }
  by apply (run_exec_any _ _ n).
Qed.

(** ** The session store *)

Lemma run_Activate u sid ttl w :
  run (perform (Activate u sid ttl)) w =
  (Ok (ss_activate u sid ttl (next_now w) (w_sessions w)).1,
   set_sessions (ss_activate u sid ttl (next_now w) (w_sessions w)).2
     (tick_io w)).
Proof.
  rewrite run_perform. simpl. unfold handle_session, faulty, next_now.
  rewrite H. by destruct (ss_activate _ _ _ _ _).
Qed.

Lemma run_DeactivatePrev u w :
  run (perform (DeactivatePrev u)) w =
  (Ok (ss_deactivate_prev u (next_now w) (w_sessions w)).1,
   set_sessions (ss_deactivate_prev u (next_now w) (w_sessions w)).2
     (tick_io w)).
Proof.
  rewrite run_perform. simpl. unfold handle_session, faulty, next_now.
  rewrite H. by destruct (ss_deactivate_prev _ _ _).
Qed.
End healthy.
