(* ===== verification/Contracts.v ===== *)
(** * The contracts of the repositories

    The interfaces the domain packages declare (domain/*/repository.go) as
    types of calls; what each call is documented to do to the stored entities
    ([contract]: a relation between the tables before, the domain's own
    outcomes and the tables after); and the theorem that the PostgreSQL
    repositories do exactly that, on every branch. A call that a fault hits
    reports a storage error, which is none of the domain's sentinels, and may
    or may not have taken effect. *)
From S2P Require Import Prelude Tables GoBase Domain Schema Effects Logic.
From S2P Require Import Postgres Footprint Integrity Repositories Healthy.
#[local] Open Scope go_scope.

(** ** The interfaces *)

Inductive UserCall : Type → Type :=
  | UserCreate (u : User.User) : UserCall unit
  | UserGetByEmail (email : string) : UserCall User.User
  | UserGetByID (id : uuid) : UserCall User.User
  | UserUpdate (u : User.User) : UserCall unit
  | UserUpdatePassword (id : uuid) (passwordHash : string) : UserCall unit
  | UserDelete (id : uuid) : UserCall unit
  | UserMarkDeletionPending (id : uuid) : UserCall unit.

Inductive TokenCall : Type → Type :=
  | TokenCreate (t : Token.RefreshToken) : TokenCall unit
  | TokenGetByHash (hash : string) : TokenCall Token.RefreshToken
  | TokenRevoke (id : uuid) : TokenCall unit
  | TokenRevokeAllForUser (userID : uuid) : TokenCall unit.

Inductive CredentialCall : Type → Type :=
  | CredentialCreate (c : Totp.Credential) : CredentialCall unit
  | CredentialGetByUserID (userID : uuid) : CredentialCall Totp.Credential
  | CredentialGetBySetupTokenHash (hash : string) :
      CredentialCall Totp.Credential
  | CredentialUpdate (c : Totp.Credential) : CredentialCall unit.

Inductive ChallengeCall : Type → Type :=
  | ChallengeCreate (c : LoginChallenge.LoginChallenge) : ChallengeCall unit
  | ChallengeGetByHash (hash : string) :
      ChallengeCall LoginChallenge.LoginChallenge
  | ChallengeConsume (id : uuid) : ChallengeCall unit.

Inductive FlowCall : Type → Type :=
  | FlowCreate (f : PasswordReset.PasswordResetFlow) : FlowCall unit
  | FlowGetByFlowTokenHash (hash : string) :
      FlowCall PasswordReset.PasswordResetFlow
  | FlowGetByResetTokenHash (hash : string) :
      FlowCall PasswordReset.PasswordResetFlow
  | FlowUpdate (f : PasswordReset.PasswordResetFlow) : FlowCall unit.

(** ** Outcomes *)

(** What a call may come to: a value, one of the domain's sentinels, or the
    refusal of a row that violates a constraint. *)
Inductive outcome (A : Type) :=
  | Returns (a : A)
  | NotFound
  | EmailTaken
  | Rejected.
#[global] Arguments Returns {A} a.
#[global] Arguments NotFound {A}.
#[global] Arguments EmailTaken {A}.
#[global] Arguments Rejected {A}.

(** An error of the storage, wrapped; [errors.Is] finds no sentinel in it. *)
Definition storage_error (e : error) : Prop :=
  match e with Wrap _ (PgError _) | Wrap _ (Errorf _) => True | _ => False end.

Lemma storage_error_no_sentinel e target :
  storage_error e → (∀ m, target ≠ Errorf m) → (∀ m e', target ≠ Wrap m e') →
  (∀ c, target ≠ PgError c) → errors_Is e target = false.
Proof.
  intros He H1 H2 H3. destruct e as [| | | | | | | | | | | | | | | | | | |m e];
    try done. rewrite errors_Is_wrap_iff by done.
  destruct e; try done; simpl; rewrite orb_false_r;
    apply bool_decide_eq_false; intros <-; naive_solver.
Qed.

Definition sentinels : list error :=
  [User_ErrNotFound; User_ErrEmailTaken; Token_ErrNotFound; Totp_ErrNotFound;
   LoginChallenge_ErrNotFound; PasswordReset_ErrNotFound].

(** The answer a caller sees for an outcome; [notFound] is the package's
    ErrNotFound. *)
Definition answers {A} (notFound : error) (o : outcome A) (r : result A) :
    Prop :=
  match o with
  | Returns a => r = Ok a
  | NotFound => r = Err notFound
  | EmailTaken => r = Err User_ErrEmailTaken
  | Rejected => ∃ e, r = Err e ∧ storage_error e
  end.

(** What a call may lead to: an outcome and the tables after it. *)
Abbreviation effect A := (outcome A → Database → Prop).

(** A repository interface: its implementation and its documentation. *)
Class Repository (P : Type → Type) := {
  repo_notFound : error;
  implementation {A} : P A → go A;
  contract {A} : P A → time → Database → effect A
}.

(** ** The shapes of the contracts *)

(** No row of the table has the property. *)
Definition no_row {V} (P : V → Prop) (m : gmap uuid V) : Prop :=
  ∀ k v, m !! k = Some v → ¬ P v.

(** A lookup returns a row with the property, or reports that there is
    none; it changes nothing. *)
Definition reads {V} (P : V → Prop) (m : gmap uuid V) (db : Database) :
    effect V := λ o db',
  db' = db ∧
  match o with
  | Returns v => P v ∧ ∃ k, m !! k = Some v
  | NotFound => no_row P m
  | _ => False
  end.

(** A lookup by the primary key. *)
Definition reads_key {V} (id : uuid) (m : gmap uuid V) (db : Database) :
    effect V := λ o db',
  db' = db ∧
  match m !! id with Some v => o = Returns v | None => o = NotFound end.

(** A write that takes place under a condition, and is otherwise refused
    without any change. *)
Definition writes_if (ok : Prop) (refusal : outcome unit) (new db : Database) :
    effect unit := λ o db',
  ok ∧ o = Returns tt ∧ db' = new ∨ ¬ ok ∧ o = refusal ∧ db' = db.

(** A write to an existing row. *)
Definition writes_row {V} (id : uuid) (m : gmap uuid V)
    (change : V → effect unit) (db : Database) : effect unit := λ o db',
  match m !! id with
  | Some v => change v o db'
  | None => o = NotFound ∧ db' = db
  end.

(** A write that always succeeds. *)
Definition writes (new : Database) : effect unit := λ o db',
  o = Returns tt ∧ db' = new.

Definition not_stored {V} (id : uuid) (m : gmap uuid V) : Prop :=
  m !! id = None.

(** What a foreign key asks for. *)
Definition stored {V} (id : uuid) (m : gmap uuid V) : Prop :=
  is_Some (m !! id).

(** ** users *)
Section ports.
Context `{PT : PgTime}.

(** The account and, by the foreign keys' ON DELETE CASCADE, every token,
    credential, challenge and flow of it. *)
Definition without_user (id : uuid) (db : Database) : Database :=
  mkDatabase (delete id db.(users))
    (filter (λ kv, kv.2.(Token.UserID) ≠ id) db.(refresh_tokens))
    (filter (λ kv, kv.2.(Totp.UserID) ≠ id) db.(two_factor_credentials))
    (filter (λ kv, kv.2.(LoginChallenge.UserID) ≠ id) db.(login_challenges))
    (filter (λ kv, kv.2.(PasswordReset.UserID) ≠ Some id)
       db.(password_reset_flows))
    db.(account_deletion_jobs) db.(account_deletion_steps).

Definition user_contract {A} (c : UserCall A) (now : time) (db : Database) :
    effect A :=
  match c in UserCall A return effect A with
  | UserCreate u =>
      writes_if (not_stored u.(User.ID) db.(users) ∧
                 no_row (λ v, v.(User.Email) = u.(User.Email)) db.(users))
        EmailTaken (set_users <[u.(User.ID) := user_row u]> db) db
  | UserGetByEmail email =>
      reads (λ v, v.(User.Email) = email) db.(users) db
  | UserGetByID id => reads_key id db.(users) db
  | UserUpdate u =>
      writes_row u.(User.ID) db.(users) (λ old,
        writes (set_users <[u.(User.ID) := profile_update u old]> db)) db
  | UserUpdatePassword id hash =>
      writes_row id db.(users) (λ old,
        writes (set_users <[id := User.ChangePassword old hash now]> db)) db
  | UserDelete id =>
      writes_row id db.(users) (λ _, writes (without_user id db)) db
  | UserMarkDeletionPending id =>
      writes_row id db.(users) (λ u,
        writes
          (if bool_decide (u.(User.DeletionStatus) = User.DeletionStatusActive)
           then set_users <[id := mark_pending now u]> db else db)) db
  end.

#[export] Instance UserRepository_port : Repository UserCall := {
  repo_notFound := User_ErrNotFound;
  implementation A c :=
    match c in UserCall A return go A with
    | UserCreate u => UserRepository.Create u
    | UserGetByEmail e => UserRepository.GetByEmail e
    | UserGetByID id => UserRepository.GetByID id
    | UserUpdate u => UserRepository.Update u
    | UserUpdatePassword id h => UserRepository.UpdatePassword id h
    | UserDelete id => UserRepository.Delete id
    | UserMarkDeletionPending id => UserRepository.MarkDeletionPending id
    end;
  contract := @user_contract
}.

(** ** refresh_tokens *)

Definition token_contract {A} (c : TokenCall A) (now : time) (db : Database) :
    effect A :=
  match c in TokenCall A return effect A with
  | TokenCreate t =>
      writes_if
        (not_stored t.(Token.ID) db.(refresh_tokens) ∧
         no_row (λ v, v.(Token.TokenHash) = t.(Token.TokenHash))
           db.(refresh_tokens) ∧
         stored t.(Token.UserID) db.(users))
        Rejected (set_refresh_tokens <[t.(Token.ID) := token_row t]> db) db
  | TokenGetByHash hash =>
      reads (λ v, v.(Token.TokenHash) = hash) db.(refresh_tokens) db
  | TokenRevoke id =>
      writes (set_refresh_tokens (alter (revoke_live now) id) db)
  | TokenRevokeAllForUser user =>
      writes
        (set_refresh_tokens
           (fmap (λ t, if bool_decide (t.(Token.UserID) = user)
                       then revoke_live now t else t)) db)
  end.

#[export] Instance RefreshTokenRepository_port : Repository TokenCall := {
  repo_notFound := Token_ErrNotFound;
  implementation A c :=
    match c in TokenCall A return go A with
    | TokenCreate t => RefreshTokenRepository.Create t
    | TokenGetByHash h => RefreshTokenRepository.GetByHash h
    | TokenRevoke id => RefreshTokenRepository.Revoke id
    | TokenRevokeAllForUser u => RefreshTokenRepository.RevokeAllForUser u
    end;
  contract := @token_contract
}.

(** ** two_factor_credentials *)

(** The setup token is no other account's. *)
Definition setup_token_free (c : Totp.Credential) (db : Database) : Prop :=
  no_row (λ v, v.(Totp.SetupTokenHash) = c.(Totp.SetupTokenHash) ∧
               c.(Totp.SetupTokenHash) ≠ None ∧
               v.(Totp.UserID) ≠ c.(Totp.UserID))
    db.(two_factor_credentials).

(** The column [failed_attempts] is a 32-bit integer. *)
Definition credential_fits (c : Totp.Credential) : Prop :=
  Int.int4_ok c.(Totp.FailedAttempts) = true.

Definition credential_contract {A} (c : CredentialCall A) (now : time)
    (db : Database) : effect A :=
  match c in CredentialCall A return effect A with
  | CredentialCreate c =>
      writes_if
        (credential_fits c ∧
         not_stored c.(Totp.UserID) db.(two_factor_credentials) ∧
         setup_token_free c db ∧ stored c.(Totp.UserID) db.(users))
        Rejected
        (set_credentials <[c.(Totp.UserID) := credential_row c]> db) db
  | CredentialGetByUserID user => reads_key user db.(two_factor_credentials) db
  | CredentialGetBySetupTokenHash hash =>
      reads (λ v, v.(Totp.SetupTokenHash) = Some hash)
        db.(two_factor_credentials) db
  | CredentialUpdate c => λ o db',
      if Int.int4_ok c.(Totp.FailedAttempts)
      then writes_row c.(Totp.UserID) db.(two_factor_credentials) (λ old,
             writes_if (setup_token_free c db) Rejected
               (set_credentials
                  <[c.(Totp.UserID) := credential_update c old]> db) db)
             db o db'
      else o = Rejected ∧ db' = db
  end.

#[export] Instance TwoFactorCredentialRepository_port :
    Repository CredentialCall := {
  repo_notFound := Totp_ErrNotFound;
  implementation A c :=
    match c in CredentialCall A return go A with
    | CredentialCreate c => TwoFactorCredentialRepository.Create c
    | CredentialGetByUserID u => TwoFactorCredentialRepository.GetByUserID u
    | CredentialGetBySetupTokenHash h =>
        TwoFactorCredentialRepository.GetBySetupTokenHash h
    | CredentialUpdate c => TwoFactorCredentialRepository.Update c
    end;
  contract := @credential_contract
}.

(** ** login_challenges *)

Definition challenge_contract {A} (c : ChallengeCall A) (now : time)
    (db : Database) : effect A :=
  match c in ChallengeCall A return effect A with
  | ChallengeCreate c =>
      writes_if
        (not_stored c.(LoginChallenge.ID) db.(login_challenges) ∧
         no_row (λ v, v.(LoginChallenge.TokenHash) =
                      c.(LoginChallenge.TokenHash)) db.(login_challenges) ∧
         stored c.(LoginChallenge.UserID) db.(users))
        Rejected
        (set_challenges <[c.(LoginChallenge.ID) := challenge_row c]> db) db
  | ChallengeGetByHash hash =>
      reads (λ v, v.(LoginChallenge.TokenHash) = hash) db.(login_challenges)
        db
  | ChallengeConsume id =>
      writes (set_challenges (alter (consume_live now) id) db)
  end.

#[export] Instance LoginChallengeRepository_port :
    Repository ChallengeCall := {
  repo_notFound := LoginChallenge_ErrNotFound;
  implementation A c :=
    match c in ChallengeCall A return go A with
    | ChallengeCreate c => LoginChallengeRepository.Create c
    | ChallengeGetByHash h => LoginChallengeRepository.GetByHash h
    | ChallengeConsume id => LoginChallengeRepository.Consume id
    end;
  contract := @challenge_contract
}.

(** ** password_reset_flows *)

Definition reset_token_free (f : PasswordReset.PasswordResetFlow)
    (db : Database) : Prop :=
  no_row (λ v, v.(PasswordReset.ResetTokenHash) =
               f.(PasswordReset.ResetTokenHash) ∧
               f.(PasswordReset.ResetTokenHash) ≠ None ∧
               v.(PasswordReset.ID) ≠ f.(PasswordReset.ID))
    db.(password_reset_flows).

(** The account of the flow, if it has one, is stored. *)
Definition flow_owned (f : PasswordReset.PasswordResetFlow) (db : Database) :
    Prop :=
  ∀ u, f.(PasswordReset.UserID) = Some u → stored u db.(users).

Definition flow_fits (f : PasswordReset.PasswordResetFlow) : Prop :=
  Int.int4_ok f.(PasswordReset.OTPAttempts) = true.

Definition flow_contract {A} (c : FlowCall A) (now : time) (db : Database) :
    effect A :=
  match c in FlowCall A return effect A with
  | FlowCreate f =>
      writes_if
        (flow_fits f ∧
         not_stored f.(PasswordReset.ID) db.(password_reset_flows) ∧
         no_row (λ v, v.(PasswordReset.FlowTokenHash) =
                      f.(PasswordReset.FlowTokenHash))
           db.(password_reset_flows) ∧
         reset_token_free f db ∧ flow_owned f db)
        Rejected (set_flows <[f.(PasswordReset.ID) := flow_row f]> db) db
  | FlowGetByFlowTokenHash hash =>
      reads (λ v, v.(PasswordReset.FlowTokenHash) = hash)
        db.(password_reset_flows) db
  | FlowGetByResetTokenHash hash =>
      reads (λ v, v.(PasswordReset.ResetTokenHash) = Some hash)
        db.(password_reset_flows) db
  | FlowUpdate f => λ o db',
      if Int.int4_ok f.(PasswordReset.OTPAttempts)
      then writes_row f.(PasswordReset.ID) db.(password_reset_flows) (λ old,
             writes_if (reset_token_free f db) Rejected
               (set_flows <[f.(PasswordReset.ID) := flow_update f old]> db)
               db)
             db o db'
      else o = Rejected ∧ db' = db
  end.

#[export] Instance PasswordResetFlowRepository_port : Repository FlowCall := {
  repo_notFound := PasswordReset_ErrNotFound;
  implementation A c :=
    match c in FlowCall A return go A with
    | FlowCreate f => PasswordResetFlowRepository.Create f
    | FlowGetByFlowTokenHash h =>
        PasswordResetFlowRepository.GetByFlowTokenHash h
    | FlowGetByResetTokenHash h =>
        PasswordResetFlowRepository.GetByResetTokenHash h
    | FlowUpdate f => PasswordResetFlowRepository.Update f
    end;
  contract := @flow_contract
}.
End ports.

(** ** The repositories honour them *)
Section honours.
Context `{PT : PgTime, EV : Env, SS : SessionStore}.
Implicit Types (w : World).

(** The answer and the tables are the contract's; or, if calls may fail at
    all, a storage error, with or without the contract's effect. Nothing but
    the database is touched. *)
Definition honours {A} (notFound : error) (spec : effect A) w (r : result A)
    w' : Prop :=
  w_sessions w' = w_sessions w ∧ w_requests w' = w_requests w ∧
  w_cleanups w' = w_cleanups w ∧
  ((∃ o, answers notFound o r ∧ spec o (w_db w')) ∨
   ¬ healthy ∧ (∃ e, r = Err e ∧ storage_error e) ∧
   (w_db w' = w_db w ∨ ∃ o, spec o (w_db w'))).

(** Every call of a repository, in every state. *)
Definition keeps_contract P `{Repository P} : Prop :=
  ∀ A (c : P A) w r w',
    run (implementation c) w = (r, w') →
    honours repo_notFound (contract c (next_now w) (w_db w)) w r w'.

(** One statement: its own outcome, or a fault. *)
Lemma query_cases {X} (q : stmt X) w r w' :
  run (perform (Query q)) w = (r, w') →
  (w_sessions w' = w_sessions w ∧ w_requests w' = w_requests w ∧
   w_cleanups w' = w_cleanups w) ∧
  ((r, w_db w') = exec q (next_now w) (w_db w) ∨
   ¬ healthy ∧ (∃ m, r = Err (Errorf m)) ∧
   (w_db w' = w_db w ∨ w_db w' = (exec q (next_now w) (w_db w)).2)).
Proof.
  rewrite run_perform. simpl. unfold handle_query, faulty, next_now.
  destruct (exec _ _ _) as [r0 db']. destruct (fault _) as [f|] eqn:Hf.
  - intros [= <- <-]. split; [done|]. right. split_and!.
    + intros Hh. by rewrite Hh in Hf.
    + by eexists.
    + destruct (fault_applied f); [by right|by left].
  - intros [= <- <-]. split; [done|by left].
Qed.

(** The outcome of a statement, by the way its answer is read. *)
Definition row_outcome {A} (r : result A) : outcome A :=
  match r with Ok a => Returns a | Err _ => NotFound end.
Definition any_outcome {A} (r : result A) : outcome unit :=
  match r with Ok _ => Returns tt | Err _ => Rejected end.
Definition count_outcome (r : result nat) : outcome unit :=
  match r with
  | Ok 0 => NotFound
  | Ok (S _) => Returns tt
  | Err _ => Rejected
  end.

(** Statements fail with a row that is missing or an SQLSTATE. *)
Definition row_error {A} (r : result A) : Prop :=
  match r with Err e => e = ErrNoRows | Ok _ => True end.
Definition sql_error {A} (r : result A) : Prop :=
  match r with Err e => ∃ c, e = PgError c | Ok _ => True end.

Section reading.
Context {X A : Type} (reads_as : result X → outcome A) (errs : result X → Prop).
Context (nf : error) (read : result X → result A).

(** A method that sends one statement and makes an answer of its result. *)
Lemma one_statement (q : stmt X) (spec : effect A) w r w' :
  (∀ x, errs x → answers nf (reads_as x) (read x)) →
  (∀ m, ∃ e, read (Err (Errorf m)) = Err e ∧ storage_error e) →
  (∀ x db', exec q (next_now w) (w_db w) = (x, db') →
            errs x ∧ spec (reads_as x) db') →
  run (bind (perform (Query q)) (λ x, Ret (read x))) w = (r, w') →
  honours nf spec w r w'.
Proof.
  intros Hread Hfault Hq (x & w1 & H1 & [= <- <-])%run_bind_inv.
  apply query_cases in H1 as ((? & ? & ?) & Hx).
  split_and!; [done|done|done|].
  destruct Hx as [E|(Hh & [m ->] & Hdb)].
  - destruct (Hq _ _ (eq_sym E)). left. exists (reads_as x). auto.
  - right. split_and!; [done|apply Hfault|].
    destruct Hdb as [Hdb|Hdb]; [by left|right]. rewrite Hdb.
    destruct (exec _ _ _) as [x db'] eqn:E. destruct (Hq _ _ eq_refl). eauto.
Qed.
End reading.

Lemma scan_one_honours {A} nf msg (q : stmt A) (spec : effect A) w r w' :
  (∀ x db', exec q (next_now w) (w_db w) = (x, db') →
            row_error x ∧ spec (row_outcome x) db') →
  run (scan_one nf msg q) w = (r, w') → honours nf spec w r w'.
Proof.
  intros Hq H.
  apply (one_statement row_outcome row_error nf
           (λ x, match x with
                 | Ok a => Ok a
                 | Err e => Err (if errors_Is e ErrNoRows then nf
                                 else Wrap msg e)
                 end) q); [| |done|].
  - intros [a|e]; simpl; [done|by intros ->].
  - intros m. by eexists.
  - rewrite <-H. unfold scan_one. rewrite !run_bind.
    destruct (run (perform _) w) as [[a|e] w1]; [done|].
    simpl. by destruct (errors_Is e ErrNoRows).
Qed.

Lemma exec_any_honours {A} nf msg (q : stmt A) spec w r w' :
  (∀ x db', exec q (next_now w) (w_db w) = (x, db') →
            sql_error x ∧ spec (any_outcome x) db') →
  run (exec_any msg q) w = (r, w') → honours nf spec w r w'.
Proof.
  intros Hq H.
  apply (one_statement any_outcome sql_error nf
           (λ x, match x with Ok _ => Ok tt | Err e => Err (Wrap msg e) end) q);
    [| |done|].
  - intros [a|e]; simpl; [done|intros [c ->]; by eexists].
  - intros m. by eexists.
  - rewrite <-H. unfold exec_any. rewrite run_bindE, run_wrapE, run_bind.
    by destruct (run (perform _) w) as [[a|e] w1].
Qed.

Lemma exec_affecting_honours nf msg (q : stmt nat) spec w r w' :
  (∀ x db', exec q (next_now w) (w_db w) = (x, db') →
            sql_error x ∧ spec (count_outcome x) db') →
  run (exec_affecting nf msg q) w = (r, w') → honours nf spec w r w'.
Proof.
  intros Hq H.
  apply (one_statement count_outcome sql_error nf
           (λ x, match x with
                 | Ok 0 => Err nf
                 | Ok (S _) => Ok tt
                 | Err e => Err (Wrap msg e)
                 end) q); [| |done|].
  - intros [[|n]|e]; simpl; [done|done|intros [c ->]; by eexists].
  - intros m. by eexists.
  - rewrite <-H. unfold exec_affecting. rewrite run_bindE, run_wrapE, run_bind.
    by destruct (run (perform _) w) as [[[|n]|e] w1].
Qed.

(** The tests of the statements, as the contracts' conditions. *)
Lemma any_row_no_row_false {V} (P : V → Prop) (Q : V → bool)
    (m : gmap uuid V) :
  (∀ v, Q v = true ↔ P v) → any_row Q m = false ↔ no_row P m.
Proof.
  intros HQ. rewrite any_row_false. split.
  - intros E k v Hk Hv%HQ. by rewrite (E _ _ Hk) in Hv.
  - intros E k v Hk. apply not_true_is_false. intros Hv%HQ. by eapply E.
Qed.

Lemma select_reads {V} (P : V → Prop) (Q : V → bool) (m : gmap uuid V)
    (db : Database) :
  (∀ v, Q v = true ↔ P v) →
  row_error (query_row (select_one Q m)) ∧
  reads P m db (row_outcome (query_row (select_one Q m))) db.
Proof.
  intros HQ. destruct (select_one Q m) as [v|] eqn:E.
  - apply select_one_Some in E as [Hv%HQ Hk]. by split; [|split].
  - rewrite select_one_None in E. split; [done|]. split; [done|].
    intros k v Hk Hv%HQ. by rewrite (E _ _ Hk) in Hv.
Qed.

Lemma key_reads {V} (id : uuid) (m : gmap uuid V) (db : Database) :
  row_error (query_row (m !! id)) ∧
  reads_key id m db (row_outcome (query_row (m !! id))) db.
Proof. unfold reads_key. by destruct (m !! id). Qed.

(** ** Statement by statement *)

Lemma not_stored_test {V} (id : uuid) (m : gmap uuid V) :
  bool_decide (is_Some (m !! id)) = false ↔ not_stored id m.
Proof. rewrite bool_decide_eq_false. symmetry. apply eq_None_not_Some. Qed.

Lemma setup_token_free_test c db :
  setup_hash_taken c db = false ↔ setup_token_free c db.
Proof.
  unfold setup_hash_taken, setup_token_free.
  destruct (Totp.SetupTokenHash c) as [h|].
  - apply any_row_no_row_false. intros v.
    rewrite andb_true_iff, !bool_decide_eq_true. naive_solver.
  - split; [|done]. intros _ k v _. naive_solver.
Qed.

Lemma reset_token_free_test f db :
  reset_hash_taken f db = false ↔ reset_token_free f db.
Proof.
  unfold reset_hash_taken, reset_token_free.
  destruct (PasswordReset.ResetTokenHash f) as [h|].
  - apply any_row_no_row_false. intros v.
    rewrite andb_true_iff, !bool_decide_eq_true. naive_solver.
  - split; [|done]. intros _ k v _. naive_solver.
Qed.

Lemma flow_owned_test f db : flow_owner_ok f db = true ↔ flow_owned f db.
Proof.
  unfold flow_owner_ok, flow_owned.
  destruct (PasswordReset.UserID f) as [u|]; [|naive_solver].
  rewrite bool_decide_eq_true. naive_solver.
Qed.

Lemma stored_test {V} (id : uuid) (m : gmap uuid V) :
  bool_decide (is_Some (m !! id)) = true ↔ stored id m.
Proof. apply bool_decide_eq_true. Qed.

Lemma column_test {V} (f : V → string) (s : string) (m : gmap uuid V) :
  any_row (λ v, bool_decide (f v = s)) m = false ↔ no_row (λ v, f v = s) m.
Proof. apply any_row_no_row_false. intros v. apply bool_decide_eq_true. Qed.

(** An INSERT: the conditions of the contract are the statement's tests, in
    whatever order it makes them. *)
Ltac insertion :=
  unfold writes_if, credential_fits, flow_fits;
  rewrite <-?not_stored_test, <-?column_test, <-?setup_token_free_test,
    <-?reset_token_free_test, <-?flow_owned_test, <-?stored_test;
  repeat (match goal with |- context [if ?b then _ else _] =>
            match b with
            | ?c || _ || _ => destruct c
            | ?c || _ => destruct c
            | negb ?c => destruct c
            | _ => destruct b
            end
          end; simpl);
  intros [= <- <-]; simpl; (split; [eauto|]);
  first
    [ left; by split_and!
    | right; split_and!; [|done|done]; intros Hok;
      destruct_and? Hok; discriminate ].

Lemma insert_user_contract u now db x db' :
  exec (InsertUser u) now db = (x, db') →
  (x = Ok tt ∨ x = Err (PgError uniqueViolationCode)) ∧
  user_contract (UserCreate u) now db
    (match x with Ok _ => Returns tt | Err _ => EmailTaken end) db'.
Proof.
  simpl. unfold users_insert. insertion.
Qed.

Lemma insert_token_contract t now db x db' :
  exec (InsertRefreshToken t) now db = (x, db') →
  sql_error x ∧ token_contract (TokenCreate t) now db (any_outcome x) db'.
Proof. simpl. unfold tokens_insert. insertion. Qed.

Lemma insert_credential_contract c now db x db' :
  exec (InsertCredential c) now db = (x, db') →
  sql_error x ∧
  credential_contract (CredentialCreate c) now db (any_outcome x) db'.
Proof. simpl. unfold credentials_insert. insertion. Qed.

Lemma insert_challenge_contract c now db x db' :
  exec (InsertChallenge c) now db = (x, db') →
  sql_error x ∧
  challenge_contract (ChallengeCreate c) now db (any_outcome x) db'.
Proof. simpl. unfold challenges_insert. insertion. Qed.

Lemma insert_flow_contract f now db x db' :
  exec (InsertFlow f) now db = (x, db') →
  sql_error x ∧ flow_contract (FlowCreate f) now db (any_outcome x) db'.
Proof. simpl. unfold flows_insert. insertion. Qed.

Lemma update_user_contract id f now db x db' (c : UserCall unit) :
  (∀ o db', writes_row id db.(users)
     (λ old, writes (set_users <[id := f old]> db)) db o db' →
     user_contract c now db o db') →
  users_update id f db = (x, db') →
  sql_error x ∧ user_contract c now db (count_outcome x) db'.
Proof.
  intros Hc. unfold users_update, update_row. unfold writes_row in Hc.
  destruct (users db !! id) as [old|]; intros [= <- <-];
    (split; [done|]); apply Hc; [by split|]. split; [done|]. by destruct db.
Qed.

Lemma delete_user_contract id now db x db' :
  exec (DeleteUser id) now db = (x, db') →
  sql_error x ∧ user_contract (UserDelete id) now db (count_outcome x) db'.
Proof.
  simpl. unfold users_delete, writes_row.
  by destruct (users db !! id); intros [= <- <-].
Qed.

(** An UPDATE of a live row is an [alter] that leaves the others alone. *)
Lemma tokens_revoke_alter id now db :
  ∃ n, tokens_revoke id now db =
       (Ok n, set_refresh_tokens (alter (revoke_live now) id) db).
Proof.
  unfold tokens_revoke, set_refresh_tokens. rewrite alter_alt.
  destruct (refresh_tokens db !! id) as [t|] eqn:Ht; [unfold revoke_live|].
  - destruct (Token.IsRevoked t); [|by eexists].
    rewrite insert_id by done. exists 0. by destruct db.
  - exists 0. by destruct db.
Qed.

Lemma challenges_consume_alter id now db :
  ∃ n, challenges_consume id now db =
       (Ok n, set_challenges (alter (consume_live now) id) db).
Proof.
  unfold challenges_consume, set_challenges. rewrite alter_alt.
  destruct (login_challenges db !! id) as [c|] eqn:Hc.
  - destruct (LoginChallenge.IsConsumed c) eqn:Hl; [|by eexists].
    rewrite insert_id; [exists 0; by destruct db|].
    unfold consume_live. by rewrite Hl.
  - exists 0. by destruct db.
Qed.

Lemma revoke_token_contract id now db x db' :
  exec (RevokeRefreshToken id) now db = (x, db') →
  sql_error x ∧ token_contract (TokenRevoke id) now db (any_outcome x) db'.
Proof.
  simpl. destruct (tokens_revoke_alter id now db) as [n ->].
  by intros [= <- <-].
Qed.

Lemma revoke_tokens_contract user now db x db' :
  exec (RevokeRefreshTokensOf user) now db = (x, db') →
  sql_error x ∧
  token_contract (TokenRevokeAllForUser user) now db (any_outcome x) db'.
Proof.
  simpl. unfold tokens_revoke_all. intros [= <- <-]. split; [done|].
  split; [done|]. unfold set_refresh_tokens, update_where. f_equal.
  apply map_fmap_ext. intros k t _. unfold live_token_of, revoke_live.
  by case_bool_decide; destruct (Token.IsRevoked t).
Qed.

Lemma consume_challenge_contract id now db x db' :
  exec (ConsumeChallenge id) now db = (x, db') →
  sql_error x ∧
  challenge_contract (ChallengeConsume id) now db (any_outcome x) db'.
Proof.
  simpl. destruct (challenges_consume_alter id now db) as [n ->].
  by intros [= <- <-].
Qed.

Lemma update_credential_contract c now db x db' :
  exec (UpdateCredential c) now db = (x, db') →
  sql_error x ∧
  credential_contract (CredentialUpdate c) now db (count_outcome x) db'.
Proof.
  simpl. unfold credentials_update, writes_row, writes_if.
  destruct (Int.int4_ok _); simpl; [|intros [= <- <-]; by split; [eexists|]].
  destruct (_ !! _) as [old|]; [|by intros [= <- <-]].
  rewrite <-setup_token_free_test.
  destruct (setup_hash_taken _ _); intros [= <- <-]; (split; [simpl; eauto|]);
    [by right|by left].
Qed.

Lemma update_flow_contract f now db x db' :
  exec (UpdateFlow f) now db = (x, db') →
  sql_error x ∧ flow_contract (FlowUpdate f) now db (count_outcome x) db'.
Proof.
  simpl. unfold flows_update, writes_row, writes_if.
  destruct (Int.int4_ok _); simpl; [|intros [= <- <-]; by split; [eexists|]].
  destruct (_ !! _) as [old|]; [|by intros [= <- <-]].
  rewrite <-reset_token_free_test.
  destruct (reset_hash_taken _ _); intros [= <- <-]; (split; [simpl; eauto|]);
    [by right|by left].
Qed.

(** ** Method by method *)

Lemma create_user_honours u w r w' :
  run (UserRepository.Create u) w = (r, w') →
  honours User_ErrNotFound (user_contract (UserCreate u) (next_now w) (w_db w))
    w r w'.
Proof.
  intros H.
  apply (one_statement
           (λ x, match x with Ok _ => Returns tt | Err _ => EmailTaken end)
           (λ x, x = Ok tt ∨ x = Err (PgError uniqueViolationCode))
           User_ErrNotFound
           (λ x, match x with
                 | Ok _ => Ok tt
                 | Err e =>
                     Err (if bool_decide (as_PgError e =
                                          Some uniqueViolationCode)
                          then User_ErrEmailTaken
                          else Wrap "postgres: create user" e)
                 end) (InsertUser u)).
  - by intros x [-> | ->].
  - intros m. by eexists.
  - intros x db'. apply insert_user_contract.
  - rewrite <-H. unfold UserRepository.Create. rewrite !run_bind.
    destruct (run (perform _) w) as [[[]|e] w1]; [done|]. cbn.
    by destruct (bool_decide _).
Qed.

Lemma get_user_honours id w r w' :
  run (UserRepository.GetByID id) w = (r, w') →
  honours User_ErrNotFound (reads_key id (users (w_db w)) (w_db w)) w r w'.
Proof. apply scan_one_honours. intros x db' [= <- <-]. apply key_reads. Qed.

(** A row that was not marked: the account is looked for. *)
Lemma not_marked_honours id w w1 r w' :
  w_sessions w1 = w_sessions w → w_requests w1 = w_requests w →
  w_cleanups w1 = w_cleanups w → w_db w1 = w_db w →
  (∀ u, users (w_db w) !! id = Some u →
        User.DeletionStatus u ≠ User.DeletionStatusActive) →
  run (let? _ := UserRepository.GetByID id in returnOk tt) w1 = (r, w') →
  honours User_ErrNotFound
    (user_contract (UserMarkDeletionPending id) (next_now w) (w_db w)) w r w'.
Proof.
  intros Hs Hr Hc Hdb Hu. rewrite run_bindE.
  destruct (run (UserRepository.GetByID id) w1) as [y w2] eqn:E.
  apply get_user_honours in E as (Hs2 & Hr2 & Hc2 & E).
  unfold honours. simpl. unfold writes_row, reads_key in *. rewrite Hdb in E.
  assert (w_db w2 = w_db w) as Hdb2
    by (destruct E as [(? & ? & -> & ?)|(_ & _ & [->|(? & -> & ?)])]; done).
  destruct E as [(o & Ho & _ & Hlook)|(Hh & (e & -> & He) & _)].
  - destruct (users (w_db w) !! id) as [u|] eqn:Hid; subst o;
      simpl in Ho; subst y; intros [= <- <-]; (split_and!; [congruence..|left]).
    + exists (Returns tt). split; [done|]. split; [done|].
      rewrite bool_decide_false by eauto. done.
    + by exists NotFound.
  - intros [= <- <-]. split_and!; [congruence..|right]. rewrite Hdb2.
    split; [done|]. split; [by exists e|by left].
Qed.

(** The one method of two round trips. *)
Lemma mark_deletion_pending_honours id w r w' :
  run (UserRepository.MarkDeletionPending id) w = (r, w') →
  honours User_ErrNotFound
    (user_contract (UserMarkDeletionPending id) (next_now w) (w_db w)) w r w'.
Proof.
  unfold UserRepository.MarkDeletionPending. rewrite run_bindE, run_wrapE.
  destruct (run (perform _) w) as [x w1] eqn:E.
  apply query_cases in E as ((Hs & Hr & Hc) & E). simpl in E.
  destruct (users_mark_pending id (next_now w) (w_db w)) as [x0 db0] eqn:Hm.
  assert (x0 = Ok 1 ∧ user_contract (UserMarkDeletionPending id) (next_now w)
                        (w_db w) (Returns tt) db0 ∨
          x0 = Ok 0 ∧ db0 = w_db w ∧
          ∀ u, users (w_db w) !! id = Some u →
               User.DeletionStatus u ≠ User.DeletionStatusActive) as Hspec.
  { unfold users_mark_pending in Hm. simpl. unfold writes_row.
    destruct (users (w_db w) !! id) as [u|]; [case_bool_decide|];
      injection Hm as <- <-; [by left|right; naive_solver..]. }
  destruct E as [[= -> Hdb]|(Hh & [m ->] & Hdb)].
  - destruct Hspec as [[-> Hspec]|(-> & -> & Hu)]; [|by apply not_marked_honours].
    intros [= <- <-]. split_and!; [done..|left]. exists (Returns tt).
    by rewrite Hdb.
  - intros [= <- <-]. split_and!; [done..|right].
    split_and!; [done|by eexists|]. destruct Hdb as [->|Hdb]; [by left|].
    rewrite Hdb. destruct Hspec as [[_ Hspec]|(_ & -> & _)]; eauto.
Qed.

(** ** Port by port *)

Lemma users_keep_contract : keeps_contract UserCall.
Proof.
  intros A [u|email|id|u|id h|id|id] w r w'; simpl.
  - apply create_user_honours.
  - apply scan_one_honours. intros x db' [= <- <-]. apply select_reads.
    intros v. apply bool_decide_eq_true.
  - apply get_user_honours.
  - apply exec_affecting_honours. intros x db'.
    by apply (update_user_contract _ _ (next_now w) _ _ _ (UserUpdate u)).
  - apply exec_affecting_honours. intros x db'.
    by apply (update_user_contract _ (λ old, User.ChangePassword old h (next_now w))
                (next_now w) _ _ _ (UserUpdatePassword id h)).
  - apply exec_affecting_honours. intros x db'. apply delete_user_contract.
  - apply mark_deletion_pending_honours.
Qed.

Lemma tokens_keep_contract : keeps_contract TokenCall.
Proof.
  intros A [t|h|id|u] w r w'; simpl.
  - apply exec_any_honours. intros x db'. apply insert_token_contract.
  - apply scan_one_honours. intros x db' [= <- <-]. apply select_reads.
    intros v. apply bool_decide_eq_true.
  - apply exec_any_honours. intros x db'. apply revoke_token_contract.
  - apply exec_any_honours. intros x db'. apply revoke_tokens_contract.
Qed.

Lemma credentials_keep_contract : keeps_contract CredentialCall.
Proof.
  intros A [c|u|h|c] w r w'; simpl.
  - apply exec_any_honours. intros x db'. apply insert_credential_contract.
  - apply scan_one_honours. intros x db' [= <- <-]. apply key_reads.
  - apply scan_one_honours. intros x db' [= <- <-]. apply select_reads.
    intros v. apply bool_decide_eq_true.
  - apply exec_affecting_honours. intros x db'.
    apply update_credential_contract.
Qed.

Lemma challenges_keep_contract : keeps_contract ChallengeCall.
Proof.
  intros A [c|h|id] w r w'; simpl.
  - apply exec_any_honours. intros x db'. apply insert_challenge_contract.
  - apply scan_one_honours. intros x db' [= <- <-]. apply select_reads.
    intros v. apply bool_decide_eq_true.
  - apply exec_any_honours. intros x db'. apply consume_challenge_contract.
Qed.

Lemma flows_keep_contract : keeps_contract FlowCall.
Proof.
  intros A [f|h|h|f] w r w'; simpl.
  - apply exec_any_honours. intros x db'. apply insert_flow_contract.
  - apply scan_one_honours. intros x db' [= <- <-]. apply select_reads.
    intros v. apply bool_decide_eq_true.
  - apply scan_one_honours. intros x db' [= <- <-]. apply select_reads.
    intros v. apply bool_decide_eq_true.
  - apply exec_affecting_honours. intros x db'. apply update_flow_contract.
Qed.

(** C7. Every method of the five PostgreSQL repositories implements what its
    port promises, on every branch: it answers with an outcome of the contract
    (a value, the domain's sentinel, a refusal) and leaves the tables as that
    outcome says, a row deleted with all that refers to it; or a call failed,
    which is reported as an error that is none of the sentinels and may or may
    not have taken effect. *)
Theorem repositories_honour_contracts :
  keeps_contract UserCall ∧ keeps_contract TokenCall ∧
  keeps_contract CredentialCall ∧ keeps_contract ChallengeCall ∧
  keeps_contract FlowCall ∧
  Forall (λ target, ∀ e, storage_error e → errors_Is e target = false)
    sentinels.
Proof.
  split_and!; [apply users_keep_contract|apply tokens_keep_contract|
    apply credentials_keep_contract|apply challenges_keep_contract|
    apply flows_keep_contract|].
  repeat constructor; intros e He; by apply storage_error_no_sentinel.
Qed.
End honours.
