(* ===== verification/Supplies.v ===== *)
(** * What the use cases draw from

    For the theorems that a request succeeds: an environment in which nothing
    fails ([working]), identifiers and tokens that no row holds yet
    ([unused]), which they stay while requests draw others, and the use cases'
    building blocks run in it. *)
From S2P Require Import Prelude Tables GoBase Domain Schema Effects Logic.
From S2P Require Import GoStrings Platform Postgres Service Footprint.
From S2P Require Import Integrity Repositories Healthy ServiceFacts.
#[local] Open Scope go_scope.

Section supplies.
Context `{PT : PgTime, EV : Env, SS : SessionStore, L : Lib, U : Unicode}.
Implicit Types (w : World).

(** No call fails, the random source fills its buffers, an authenticator's
    secret can be generated and the configured key signs. *)
Record working (s : AuthService) : Prop := {
  wk_faults : healthy;
  wk_rand : ∀ i n, ∃ b, rand_read i n = Ok b ∧ String.length b = n;
  wk_otp : ∀ r issuer account, ∃ key, otp_Generate r issuer account = Ok key;
  wk_sign : ∀ claims, ∃ t,
    jwt_SignedString (priv (svc_issuer s)) (kid (svc_issuer s)) claims = Ok t
}.

(** ** Identifiers and tokens yet to be drawn *)

(** The hash stored for the token made of the random bytes that are [i] draws
    ahead. *)
Definition drawn_hash (i : nat) w : option string :=
  match rand_read (i + n_rand (w_counters w)) rawTokenBytes with
  | Ok b => Some (tokenhash_Hash (base64_encode b))
  | Err _ => None
  end.

(** No row of the table has the token, its hash read by [h], that is [i]
    draws ahead. *)
Definition token_unused {V} (i : nat) (h : V → option string)
    (m : gmap uuid V) w : Prop :=
  every (λ v, is_Some (h v) → h v ≠ drawn_hash i w) m.

(** Nor the identifier that is drawn next. *)
Record unused {V} (i : nat) (h : V → option string) (m : gmap uuid V) w :
    Prop := {
  unused_id : m !! gen_uuid (n_uuid (w_counters w)) = None;
  unused_hash : token_unused i h m w
}.

(** Nothing was drawn in between. *)
Definition same_draws w w' : Prop :=
  n_uuid (w_counters w') = n_uuid (w_counters w) ∧
  n_rand (w_counters w') = n_rand (w_counters w).

#[export] Instance same_draws_refl : Reflexive same_draws.
Proof. by split. Qed.
#[export] Instance same_draws_trans : Transitive same_draws.
Proof. unfold same_draws. intros w1 w2 w3 [] []. split; congruence. Qed.

Definition draws_nothing {X} (e : eff X) : Prop :=
  match e with NewUUID | RandRead _ => False | _ => True end.

Lemma handle_same_draws {X} (e : eff X) w :
  draws_nothing e → same_draws w (handle e w).2.
Proof.
  unfold same_draws. destruct e; simpl; try done; intros _.
  - unfold handle_query. destruct (exec _ _ _) as [r db'].
    by destruct (faulty _ _ _ _).
  - unfold handle_tx. destruct (fault _); [done|].
    by destruct (run_tx _ _ _ _ _ _) as [[r db'] j].
  - unfold handle_session. destruct (ss_activate _ _ _ _ _).
    by destruct (faulty _ _ _ _).
  - unfold handle_session. by destruct (faulty _ _ _ _).
  - unfold handle_session. destruct (ss_deactivate_if_current _ _ _ _).
    by destruct (faulty _ _ _ _).
  - unfold handle_session. destruct (ss_deactivate_prev _ _ _).
    by destruct (faulty _ _ _ _).
Qed.

Lemma run_same_draws {A} (p : prog A) w :
  all_effects (@draws_nothing) p → same_draws w (run p w).2.
Proof.
  intros Hp. apply (run_invariant (@draws_nothing) (same_draws w));
    [done| |done].
  intros X e w1 He Hw1. etrans; [done|]. by apply handle_same_draws.
Qed.

Lemma unused_same {V} i (h : V → option string) m w w' :
  unused i h m w → same_draws w w' → unused i h m w'.
Proof.
  intros [Hi Hh] [H1 H2]. split; [by rewrite H1|].
  unfold token_unused, drawn_hash in *. by rewrite H2.
Qed.

(** Rows changed in place keep their keys and hashes. *)
Lemma unused_fmap {V} i (h : V → option string) f m w :
  (∀ v, h (f v) = h v) → unused i h m w → unused i h (f <$> m) w.
Proof.
  intros Hf [Hi Hh]. split; [by rewrite lookup_fmap, Hi|].
  intros k v. rewrite lookup_fmap_Some. intros (v0 & <- & Hk).
  rewrite Hf. by eapply Hh.
Qed.

(** The same of one row. *)
Lemma unused_insert {V} i (h : V → option string) m k v v' w :
  m !! k = Some v → h v' = h v → unused i h m w → unused i h (<[k := v']> m) w.
Proof.
  intros Hk Hv [Hi Hh]. split.
  - rewrite lookup_insert_ne; congruence.
  - apply every_insert; [exact Hh|]. rewrite Hv. exact (Hh _ _ Hk).
Qed.

(** ** The building blocks *)

Section blocks.
Variable s : AuthService.
#[local] Abbreviation sec := (svc_security s).
Hypothesis Hw : working s.

Lemma run_Generate w :
  ∃ b, rand_read (n_rand (w_counters w)) rawTokenBytes = Ok b ∧
       drawn_hash 0 w = Some (tokenhash_Hash (base64_encode b)) ∧
       run tokenhash_Generate w = (Ok (base64_encode b), tick_rand w).
Proof.
  destruct (wk_rand _ Hw (n_rand (w_counters w)) rawTokenBytes)
    as (b & Hb & _). exists b. unfold drawn_hash. cbn [Nat.add]. rewrite Hb.
  split_and!; [done|done|]. unfold tokenhash_Generate.
  by rewrite run_bindE, run_wrapE, run_perform; cbn [handle]; rewrite Hb.
Qed.

(** The access token is signed. *)
Lemma run_issue_signs user sid gen w :
  ∃ a, run (if svc_generation_issuer s
            then IssueWithGeneration (svc_issuer s) user sid gen
            else Issue (svc_issuer s) user sid) w = (Ok a, tick_clock w).
Proof.
  unfold Issue. assert (H : ∀ g, ∃ a,
    run (IssueWithGeneration (svc_issuer s) user sid g) w =
    (Ok a, tick_clock w)); [|destruct (svc_generation_issuer s); apply H].
  intros g. unfold IssueWithGeneration. rewrite run_bind, run_Now.
  cbn [fst snd]. match goal with |- context [jwt_SignedString _ _ ?c] =>
    destruct (wk_sign _ Hw c) as [t ->] end. by eexists.
Qed.

(** A session is issued to an account that exists. *)
Lemma issueSession_runs u w :
  is_Some (users (w_db w) !! User.ID u) →
  unused 0 (λ t, Some (Token.TokenHash t)) (refresh_tokens (w_db w)) w →
  ∃ sess w', run (issueSession s u) w = (Ok sess, w').
Proof.
  intros Hu Hun. pose proof (wk_faults _ Hw) as Hh. unfold issueSession.
  rewrite run_bindE, run_wrapE, (run_RevokeAll Hh).
  set (w1 := set_db _ _).
  destruct (run_Generate w1) as (b & Hb & Hdh & Hgen).
  rewrite run_bindE, run_wrapE, Hgen.
  rewrite run_bind, run_Now. cbn [fst snd].
  rewrite run_bind, run_perform. cbn [handle fst snd].
  rewrite run_bindE, run_wrapE, (run_Activate Hh).
  assert (Hun1 : unused 0 (λ t, Some (Token.TokenHash t))
                   (refresh_tokens (w_db w1)) w1).
  { apply (unused_same _ _ _ w); [|done]. simpl. apply unused_fmap; [|done].
    intros t. by destruct (live_token_of _ _). }
  rewrite run_bindE, run_wrapE, (run_CreateToken Hh); [| | |done].
  - rewrite run_bind. match goal with |- context [run (match ?x with _ => _ end) ?w3] =>
      set (p := match x with Some _ => _ | None => _ end); set (w3' := w3) end.
    rewrite run_bindE, run_wrapE.
    match goal with |- context [run (if _ then IssueWithGeneration _ ?u ?i ?g
      else _) ?w4] => destruct (run_issue_signs u i g w4) as [a ->] end.
    by eexists _, _.
  - exact (unused_id _ _ _ _ Hun1).
  - intros k v Hk He. apply (unused_hash _ _ _ _ Hun1 _ _ Hk); [done|].
    rewrite Hdh. by f_equal.
Qed.

Lemma verifyOTP_draws_nothing email c code w :
  same_draws w (run (verifyOTP s email c code) w).2.
Proof.
  apply run_same_draws. unfold verifyOTP, validateOTP.
  autounfold with effects. walk; done.
Qed.

Lemma reset_code_valid_draws_nothing f code w :
  same_draws w (run (reset_code_valid s f code) w).2.
Proof.
  apply run_same_draws. unfold reset_code_valid, validateOTP.
  autounfold with effects. walk; done.
Qed.
End blocks.
End supplies.
