(* ===== verification/Sessions.v ===== *)
(** * Sessions

    The use cases that start, rotate and end a session: SetupVerifyOTP,
    LoginVerifyOTP, Refresh and Logout, and Login, which never starts one. *)
From S2P Require Import Prelude Tables GoBase Domain Schema Effects Logic.
From S2P Require Import GoStrings Platform Postgres Service Footprint.
From S2P Require Import Integrity Repositories Healthy Supplies ServiceFacts.
From S2P Require Import Demo.
#[local] Open Scope go_scope.

Section sessions.
Context `{PT : PgTime, EV : Env, SS : SessionStore, SL : !SessionStoreLaws,
          L : Lib, U : Unicode}.
Variable s : AuthService.
#[local] Abbreviation sec := (svc_security s).
Implicit Types (w : World).

(** [u]'s one session is [rt]: [rt] is the only refresh token of [u] that
    is not revoked, the client holds its secret, the session store names it
    as the active session, and the access token was signed for it. *)
Record single_session (u : User.User) (rt : Token.RefreshToken)
    (sess : Session) (w' : World) : Prop := {
  single_user : Token.UserID rt = User.ID u;
  single_row : refresh_tokens (w_db w') !! Token.ID rt = Some (token_row rt);
  single_hash : Token.TokenHash rt = tokenhash_Hash (s_RefreshToken sess);
  single_live : ∀ k t, refresh_tokens (w_db w') !! k = Some t →
                  live_token_of (User.ID u) t = true ↔ k = Token.ID rt;
  single_store : ∃ t, ss_active (w_sessions w') t (User.ID u) =
                      Some (Token.ID rt);
  single_access : ∃ now gen,
    jwt_SignedString (priv (svc_issuer s)) (kid (svc_issuer s))
      (session_claims s (User.ID u) (Token.ID rt) gen now) =
    Ok (s_AccessToken sess)
}.

Lemma issued_session u w sess w' rt :
  (0 < RefreshTTL sec)%Z →
  issued s u w sess w' rt → single_session u rt sess w'.
Proof.
  intros Httl Hi. pose proof (issued_single _ _ _ _ _ _ Hi) as Hs.
  destruct Hi as [Hu Hl Hh _ _ _ [t Ht] _ (t' & Hst & now & gen & Hj & _) _].
  split; try done.
  - rewrite Ht. unfold rotated. by rewrite lookup_insert_eq.
  - exists t'. rewrite Hst. by apply ss_activate_active.
  - eauto.
Qed.

(** Later writes that leave the tokens and the store alone. *)
Lemma single_session_frame u rt sess w1 w2 :
  single_session u rt sess w1 →
  same_table RefreshTokens (w_db w1) (w_db w2) →
  w_sessions w2 = w_sessions w1 →
  single_session u rt sess w2.
Proof.
  simpl. intros [] Ht Hs. split; rewrite <-?Ht, ?Hs; done.
Qed.

(** issueSession leaves the user exactly one live refresh token, the one
    handed out, which the session store names as the active session and for
    which the access token was signed; other users' tokens and all other
    tables are unchanged. *)
Lemma issueSession_single u w sess w' :
  (0 < RefreshTTL sec)%Z →
  run (issueSession s u) w = (Ok sess, w') →
  ∃ rt,
    single_session u rt sess w' ∧
    refresh_tokens (w_db w) !! Token.ID rt = None ∧
    (∀ T, T ≠ RefreshTokens → same_table T (w_db w) (w_db w')) ∧
    (∀ k t, refresh_tokens (w_db w) !! k = Some t →
            Token.UserID t ≠ User.ID u →
            refresh_tokens (w_db w') !! k = Some t).
Proof.
  intros Httl [rt Hi]%issueSession_Ok. exists rt.
  split; [by eapply issued_session|].
  pose proof (iss_fresh _ _ _ _ _ _ Hi) as Hf. split; [done|].
  split; [exact (iss_tables _ _ _ _ _ _ Hi)|].
  intros k t Hk Hu. destruct (iss_tokens _ _ _ _ _ _ Hi) as [now ->].
  unfold rotated. rewrite lookup_insert_ne by congruence.
  unfold update_where. rewrite lookup_fmap, Hk. simpl.
  unfold live_token_of. by rewrite bool_decide_false.
Qed.

(** C1. When LoginVerifyOTP returns a session, the challenge was the
    account's, unused and in date at this request's reading of the clock, the
    account was not being deleted, its second factor was not locked out, and
    the code was an unused TOTP of the factor's secret at that reading of the
    clock, or the demo account's fixed code (which is no TOTP). Afterwards the
    challenge is used up, the TOTP's time step is recorded as the last one
    used (step 0 for the fixed code), the account has exactly one live refresh
    token and one active session, and no other table changed. *)
Theorem LoginVerifyOTP_success chTok code w sess w' :
  (0 < RefreshTTL sec)%Z → db_ok (w_db w) →
  run (LoginVerifyOTP s chTok code) w = (Ok sess, w') →
  ∃ ch u cred rt counter demo,
    (* the challenge was the account's, unused and in date *)
    login_challenges (w_db w) !! LoginChallenge.ID ch = Some ch ∧
    LoginChallenge.TokenHash ch = tokenhash_Hash chTok ∧
    LoginChallenge.IsConsumed ch = false ∧
    LoginChallenge.IsExpired ch (reading 0 w) = false ∧
    (* the account exists and is not being deleted *)
    users (w_db w) !! LoginChallenge.UserID ch = Some u ∧
    User.is_pending u = false ∧
    (* the code passed a second factor that was not locked out *)
    two_factor_credentials (w_db w) !! User.ID u = Some cred ∧
    Totp.IsLocked cred (reading 1 w) = false ∧
    code_accepted s (User.Email u) cred code (reading 2 w) counter demo ∧
    (* afterwards: one session, the challenge used up, the step recorded *)
    single_session u rt sess w' ∧
    login_challenges (w_db w') =
      <[LoginChallenge.ID ch := consume_live (db_reading 7 w) ch]>
        (login_challenges (w_db w)) ∧
    two_factor_credentials (w_db w') =
      <[User.ID u :=
          credential_update
            (Totp.RecordSuccess cred counter
               (reading (if demo : bool then 2 else 3) w)) cred]>
        (two_factor_credentials (w_db w)) ∧
    (∀ T, T ∈ [Users; Flows; Jobs; Steps] →
          same_table T (w_db w) (w_db w')).
Proof.
  intros Httl Hok. unfold LoginVerifyOTP.
  intros (r & w1 & H1 & H)%run_bind_inv.
  destruct r as [ch|e]; [|by destruct (errors_Is _ _)].
  apply ChallengeByHash_Ok in H1 as ([k Hch] & Hhash & ->).
  read_clock H. destruct (_ || _) eqn:E; [done|].
  apply orb_false_iff in E as [Hexp Hcons].
  apply run_bind_inv in H as (r & w1 & H1 & H).
  destruct r as [cred|e]; [|by destruct (errors_Is _ _)].
  apply CredentialByUser_Ok in H1 as [Hcred ->].
  step H u w1 H1. apply GetByID_Ok in H1 as [Hu ->].
  step H cred' w2 H1. apply verifyOTP_Ok in H1 as
    (Hlock & counter & demo & old & Hacc & -> & Hold & Hc2 & Ht2 & Hs2 & Hsp).
  destruct (User.is_pending u) eqn:Hp; [done|].
  step H sess1 w3 H1. apply issueSession_Ok in H1 as [rt Hi].
  step H x w4 H4. destruct x. apply ConsumeChallenge_Ok in H4.
  injection H as <- <-. subst w4.
  pose proof (ok_challenges_key _ Hok _ _ Hch) as Hkey.
  pose proof (ok_users_key _ Hok _ _ Hu) as Huid.
  pose proof (ok_creds_key _ Hok _ _ Hcred) as Hcid. simpl in *.
  rewrite Hcid, Hcred in Hold. injection Hold as <-.
  assert (Hch3 : login_challenges (w_db w3) = login_challenges (w_db w)).
  { symmetry. etrans; [by apply (Ht2 Challenges)|].
    by apply (iss_tables _ _ _ _ _ _ Hi Challenges). }
  assert (Hcr3 : two_factor_credentials (w_db w3) =
                 two_factor_credentials (w_db w2)).
  { symmetry. by apply (iss_tables _ _ _ _ _ _ Hi Credentials). }
  change (next_now w3) with (db_reading 0 w3).
  rewrite (db_reading_spent _ _ _ _ _ (iss_spent _ _ _ _ _ _ Hi)),
    (db_reading_spent _ _ _ _ _ Hsp).
  exists ch, u, cred, rt, counter, demo.
  rewrite Hkey, Huid. split_and!; try done.
  - eapply single_session_frame; [by eapply issued_session| |done].
    by apply (consume_keeps RefreshTokens).
  - unfold challenges_consume. rewrite Hch3, Hch, Hcons. simpl.
    by rewrite Hch3.
  - etrans; [symmetry; by apply (consume_keeps Credentials)|].
    rewrite Hcr3, Hc2, Hcid. by destruct demo.
  - intros T HT. assert (T ≠ RefreshTokens ∧ T ≠ Credentials ∧ T ≠ Challenges)
      as (Hn1 & Hn2 & Hn3) by (rewrite list_elem_of_In in HT;
        simpl in HT; intuition congruence).
    etrans; [by apply Ht2|]. etrans; [by apply (iss_tables _ _ _ _ _ _ Hi)|].
    by apply consume_keeps.
Qed.

(** C2. When SetupVerifyOTP returns a session, the setup token was the
    account's and in date at this request's reading of the clock, and the code
    was an unused TOTP of the secret being set up, or the demo account's fixed
    code (which is no TOTP). Afterwards the second factor is enabled, the
    setup token is gone, the TOTP's time step is recorded as the last one used
    (step 0 for the fixed code), and the account has exactly one session. *)
Theorem SetupVerifyOTP_success setupToken code w sess w' :
  (0 < RefreshTTL sec)%Z → db_ok (w_db w) →
  run (SetupVerifyOTP s setupToken code) w = (Ok sess, w') →
  ∃ u cred rt counter demo,
    (* the setup token was the account's and in date *)
    two_factor_credentials (w_db w) !! User.ID u = Some cred ∧
    Totp.SetupTokenHash cred = Some (tokenhash_Hash setupToken) ∧
    Totp.IsSetupTokenExpired cred (reading 0 w) = false ∧
    users (w_db w) !! User.ID u = Some u ∧
    User.is_pending u = false ∧
    Totp.IsLocked cred (reading 1 w) = false ∧
    code_accepted s (User.Email u) cred code (reading 2 w) counter demo ∧
    (* afterwards: one session, the factor enabled, the token used up *)
    single_session u rt sess w' ∧
    two_factor_credentials (w_db w') =
      <[User.ID u :=
          credential_update
            (Totp.Enable
               (Totp.RecordSuccess cred counter
                  (reading (if demo : bool then 2 else 3) w))
               (reading (if demo then 5 else 6) w)) cred]>
        (two_factor_credentials (w_db w)) ∧
    (∀ T, T ∈ [Users; Challenges; Flows; Jobs; Steps] →
          same_table T (w_db w) (w_db w')).
Proof.
  intros Httl Hok. unfold SetupVerifyOTP.
  intros (r & w1 & H1 & H)%run_bind_inv.
  destruct r as [cred|e]; [|by destruct (errors_Is _ _)].
  apply CredentialBySetupHash_Ok in H1 as ([k Hcred] & Hhash & ->).
  read_clock H. destruct (Totp.IsSetupTokenExpired _ _) eqn:Hexp; [done|].
  step H u w1 H1. apply GetByID_Ok in H1 as [Hu ->].
  step H cred' w2 H1. apply verifyOTP_Ok in H1 as
    (Hlock & counter & demo & old & Hacc & -> & Hold & Hc2 & Ht2 & Hs2 & Hsp).
  destruct (User.is_pending u) eqn:Hp; [done|].
  step H sess1 w3 H1. apply issueSession_Ok in H1 as [rt Hi].
  read_clock H. change (next_clock w3) with (reading 0 w3) in H.
  rewrite (reading_spent _ _ _ _ _ (iss_spent _ _ _ _ _ _ Hi)),
    (reading_spent _ _ _ _ _ Hsp) in H.
  step H x w4 H4. destruct x. apply UpdateCredential_Ok in H4
    as (old' & Hold' & ->).
  injection H as <- <-.
  pose proof (ok_users_key _ Hok _ _ Hu) as Huid.
  pose proof (ok_creds_key _ Hok _ _ Hcred) as Hcid. simpl in *.
  assert (Hcr3 : two_factor_credentials (w_db w3) =
                 two_factor_credentials (w_db w2)).
  { pose proof (iss_tables _ _ _ _ _ _ Hi Credentials) as Hx.
    simpl in Hx. by rewrite <-Hx. }
  rewrite Hcid, Hcred in Hold. injection Hold as <-.
  rewrite Hcr3, Hc2, Hcid, lookup_insert_eq in Hold'. injection Hold' as <-.
  exists u, cred, rt, counter, demo.
  rewrite Huid, Hcid in *. split_and!; try done.
  - eapply single_session_frame; [by eapply issued_session|done|done].
  - simpl. rewrite Hcr3, Hc2, insert_insert_eq. by destruct demo.
  - intros T HT. assert (T ≠ RefreshTokens ∧ T ≠ Credentials)
      as (Hn1 & Hn2) by (rewrite list_elem_of_In in HT;
        simpl in HT; intuition congruence).
    etrans; [by apply Ht2|]. etrans; [by apply (iss_tables _ _ _ _ _ _ Hi)|].
    by destruct T.
Qed.

Lemma Refresh_Ok raw w sess w' :
  (0 < RefreshTTL sec)%Z → db_ok (w_db w) →
  run (Refresh s raw) w = (Ok sess, w') →
  ∃ old u rt t,
    refresh_tokens (w_db w) !! Token.ID old = Some old ∧
    Token.TokenHash old = tokenhash_Hash raw ∧
    Token.IsRevoked old = false ∧
    Token.IsExpired old (next_clock w) = false ∧
    users (w_db w) !! Token.UserID old = Some u ∧
    User.is_pending u = false ∧
    (* the presented token is revoked, the new one the only live one *)
    Token.ID rt ≠ Token.ID old ∧
    refresh_tokens (w_db w') !! Token.ID old = Some (revoke t old) ∧
    single_session u rt sess w' ∧
    (∀ T, T ≠ RefreshTokens → same_table T (w_db w) (w_db w')).
Proof.
  intros Httl Hok. unfold Refresh.
  intros (r & w1 & H1 & H)%run_bind_inv.
  destruct r as [old|e]; [|by destruct (errors_Is _ _)].
  apply TokenByHash_Ok in H1 as ([k Hold] & Hhash & ->).
  destruct (Token.IsRevoked old) eqn:Hrev.
  { by apply run_bindE_Ok in H as (? & ? & _ & ?). }
  read_clock H. destruct (Token.IsExpired _ _) eqn:Hexp; [done|].
  apply run_bind_inv in H as (r & w1 & H1 & H).
  destruct r as [u|]; [|done]. apply GetByID_Ok in H1 as [Hu ->].
  destruct (User.is_pending u) eqn:Hp.
  { by apply run_bind_inv in H as (? & ? & _ & ?). }
  step H x w2 H1. destruct x. apply RevokeToken_Ok in H1.
  apply issueSession_Ok in H as [rt Hi].
  pose proof (ok_tokens_key _ Hok _ _ Hold) as Hkey.
  pose proof (ok_users_key _ Hok _ _ Hu) as Huid. simpl in *.
  unfold tokens_revoke in H1. simpl in H1.
  rewrite Hkey, Hold, Hrev in H1. simpl in H1.
  set (t := next_now _) in H1.
  assert (H2 : refresh_tokens (w_db w2) !! k = Some (revoke t old))
    by (rewrite H1; simpl; by rewrite lookup_insert_eq).
  exists old, u, rt, t. rewrite Hkey.
  assert (Hne : Token.ID rt ≠ k).
  { pose proof (iss_fresh _ _ _ _ _ _ Hi). congruence. }
  split_and!; try done.
  - destruct (iss_tokens _ _ _ _ _ _ Hi) as [now ->]. unfold rotated.
    rewrite lookup_insert_ne by done. unfold update_where.
    rewrite lookup_fmap, H2. simpl. unfold live_token_of.
    by rewrite andb_false_r.
  - by eapply issued_session.
  - intros T HT. etrans; [|by apply (iss_tables _ _ _ _ _ _ Hi)].
    rewrite H1. by destruct T.
Qed.

(** A live token in date of an account that is not being deleted. *)
Lemma Refresh_runs raw old u w :
  working s → db_ok (w_db w) →
  refresh_tokens (w_db w) !! Token.ID old = Some old →
  Token.TokenHash old = tokenhash_Hash raw →
  Token.IsRevoked old = false → Token.IsExpired old (reading 0 w) = false →
  users (w_db w) !! Token.UserID old = Some u → User.is_pending u = false →
  unused 0 (λ t, Some (Token.TokenHash t)) (refresh_tokens (w_db w)) w →
  ∃ sess w', run (Refresh s raw) w = (Ok sess, w').
Proof.
  intros Hw Hok Hold Hhash Hrev Hexp Hu Hp Hun. pose proof (wk_faults _ Hw) as Hh.
  unfold Refresh.
  rewrite run_bind, (run_TokenByHash Hh (Token.ID old) old) by done.
  cbn [fst snd]. rewrite Hrev. rewrite run_bind, run_Now. cbn [fst snd].
  change (next_clock (tick_io w)) with (reading 0 w). rewrite Hexp.
  rewrite run_bind, (run_GetByID Hh _ u) by done. cbn [fst snd]. rewrite Hp.
  rewrite run_bindE, run_wrapE, (run_RevokeToken Hh). cbn [w_db tick_io set_counters].
  set (w1 := set_db _ _).
  pose proof (ok_users_key _ Hok _ _ Hu) as Hkey. simpl in Hkey.
  assert (Hdb : users (w_db w1) = users (w_db w) ∧
    refresh_tokens (w_db w1) =
      <[Token.ID old := revoke (next_now (tick_io (tick_clock (tick_io w)))) old]>
        (refresh_tokens (w_db w))).
  { subst w1. simpl. unfold tokens_revoke. simpl. by rewrite Hold, Hrev. }
  destruct Hdb as [Hus Hts]. apply (issueSession_runs s Hw).
  { rewrite Hus, Hkey. by exists u. }
  apply (unused_same _ _ _ w); [|done]. rewrite Hts.
  by apply (unused_insert _ _ _ _ old).
Qed.

(** C15. When Refresh returns a session, the presented token was known, live
    and in date and its account not being deleted; afterwards it is revoked
    and the new token is the only live one of the account. Conversely, when
    nothing fails and the hash drawn is new, such a token is always answered
    with a session. *)
Theorem Refresh_rotates raw w :
  (0 < RefreshTTL sec)%Z → db_ok (w_db w) →
  (∀ sess w',
    run (Refresh s raw) w = (Ok sess, w') →
    ∃ old u rt t,
      refresh_tokens (w_db w) !! Token.ID old = Some old ∧
      Token.TokenHash old = tokenhash_Hash raw ∧
      Token.IsRevoked old = false ∧
      Token.IsExpired old (next_clock w) = false ∧
      users (w_db w) !! Token.UserID old = Some u ∧
      User.is_pending u = false ∧
      (* the presented token is revoked, the new one the only live one *)
      Token.ID rt ≠ Token.ID old ∧
      refresh_tokens (w_db w') !! Token.ID old = Some (revoke t old) ∧
      single_session u rt sess w' ∧
      (∀ T, T ≠ RefreshTokens → same_table T (w_db w) (w_db w'))) ∧
  (* conversely, when nothing fails *)
  (∀ old u,
    working s →
    unused 0 (λ t, Some (Token.TokenHash t)) (refresh_tokens (w_db w)) w →
    refresh_tokens (w_db w) !! Token.ID old = Some old →
    Token.TokenHash old = tokenhash_Hash raw →
    Token.IsRevoked old = false → Token.IsExpired old (next_clock w) = false →
    users (w_db w) !! Token.UserID old = Some u → User.is_pending u = false →
    ∃ sess w', run (Refresh s raw) w = (Ok sess, w')).
Proof.
  intros Httl Hok. split; [intros sess w'; by apply Refresh_Ok|].
  intros old u Hw Hun Hold Hhash Hrev Hexp Hu Hp. by eapply Refresh_runs.
Qed.

(** C16. Presenting a revoked refresh token never gives a session, and when it
    is answered with the authentication error every refresh token of the
    account is revoked; the session store is left as it was. *)
Theorem Refresh_reuse_revokes_family k rt raw w r w' :
  db_ok (w_db w) →
  refresh_tokens (w_db w) !! k = Some rt →
  Token.TokenHash rt = tokenhash_Hash raw → Token.IsRevoked rt = true →
  run (Refresh s raw) w = (r, w') →
  is_Ok r = false ∧
  (r = Err ErrInvalidRefreshToken →
   ∀ k t, refresh_tokens (w_db w') !! k = Some t →
          live_token_of (Token.UserID rt) t = false) ∧
  (∀ T, T ≠ RefreshTokens → same_table T (w_db w) (w_db w')) ∧
  w_sessions w' = w_sessions w.
Proof.
  intros Hok Hk Hhash Hrev. unfold Refresh. rewrite <-Hhash.
  intros (r1 & w1 & H1 & H)%run_bind_inv.
  eapply TokenByHash_row in H1 as [-> [->|[m ->]]];
    [| |exact (ok_tokens_hash _ Hok)|exact Hk].
  2:{ cbn iota beta in H. rewrite errors_Is_fault in H by done.
      injection H as <- <-. split_and!; [done|done|by intros []|done]. }
  cbn iota beta in H. rewrite Hrev, run_bindE, run_wrapE in H.
  destruct (run (RefreshTokenRepository.RevokeAllForUser _) _) as [r2 w2]
    eqn:H2.
  apply exec_any_cases in H2 as [Hr2 Hw2]; [|done].
  assert (Hs2 : w_sessions w2 = w_sessions w ∧
    ∀ T, T ≠ RefreshTokens → same_table T (w_db w) (w_db w2)).
  { destruct Hw2 as [->|[-> _]]; split; try done; by intros []. }
  destruct Hs2 as [Hs2 Ht2].
  destruct Hr2 as [->|[m ->]]; injection H as <- <-;
    split_and!; try done.
  intros _ k' t. destruct Hw2 as [->|[_ ?]]; [|done]. simpl.
  apply update_where_none_live.
Qed.

(** ** Logout *)

(** [raw] identifies one row. *)
Lemma token_of_raw h w k rt k' t' :
  db_ok (w_db w) →
  refresh_tokens (w_db w) !! k = Some rt → Token.TokenHash rt = h →
  refresh_tokens (w_db w) !! k' = Some t' → Token.TokenHash t' = h →
  k' = k ∧ t' = rt.
Proof.
  intros Hok Hk Hh Hk' Hh'. assert (k' = k) as ->; [|split; congruence].
  eapply (ok_tokens_hash _ Hok); [done|done|..]; simpl; [done|].
  by rewrite Hh, Hh'.
Qed.

(** Logging out a live token. *)
Lemma Logout_live raw w w' k rt :
  db_ok (w_db w) →
  refresh_tokens (w_db w) !! k = Some rt →
  Token.TokenHash rt = tokenhash_Hash raw → Token.IsRevoked rt = false →
  run (Logout s raw) w = (Ok tt, w') →
  refresh_tokens (w_db w') =
    <[k := revoke (db_reading 1 w) rt]> (refresh_tokens (w_db w)) ∧
  w_sessions w' =
    (ss_deactivate_if_current (Token.UserID rt) k (db_reading 2 w)
       (w_sessions w)).2 ∧
  (∀ T, T ≠ RefreshTokens → same_table T (w_db w) (w_db w')).
Proof.
  intros Hok Hrt Hhash Hrev. unfold Logout. rewrite <-Hhash.
  intros (r & w1 & H1 & H)%run_bind_inv.
  eapply TokenByHash_row in H1 as [-> [->|[m ->]]];
    [| |exact (ok_tokens_hash _ Hok)|exact Hrt].
  2:{ cbn iota beta in H. by rewrite errors_Is_fault in H. }
  cbn iota beta in H. rewrite Hrev in H.
  pose proof (ok_tokens_key _ Hok _ _ Hrt) as Hkey. simpl in Hkey.
  step H x w2 H2. destruct x. apply RevokeToken_Ok in H2. simpl in H2.
  unfold tokens_revoke in H2. simpl in H2.
  rewrite Hkey, Hrt, Hrev in H2. cbn [snd] in H2.
  step H b w3 H3. apply DeactivateIfCurrent_Ok in H3 as [_ ->].
  rewrite run_bind, run_cleanup in H. cbn [fst snd] in H.
  injection H as <-. change (next_now w2) with (db_reading 0 w2).
  rewrite Hkey. split_and!; [| |intros T HT]; rewrite H2;
    destruct (svc_deletion s); try done; by destruct T.
Qed.

(** C24. After a successful Logout the presented token is dead and every other
    token is as it was; if the token had been live, its session is no longer
    active, while another session of the user is left alone; if it was revoked
    before or unknown, no session is touched. *)
Theorem Logout_ends_session raw w w' :
  db_ok (w_db w) →
  run (Logout s raw) w = (Ok tt, w') →
  (* the presented token is dead, every other token as it was *)
  (∀ k t, refresh_tokens (w_db w') !! k = Some t →
          Token.TokenHash t = tokenhash_Hash raw →
          Token.IsRevoked t = true) ∧
  (∀ k t, refresh_tokens (w_db w) !! k = Some t →
          Token.TokenHash t ≠ tokenhash_Hash raw →
          refresh_tokens (w_db w') !! k = Some t) ∧
  (* its session is no longer active, another one of the user stays *)
  (∀ k t, refresh_tokens (w_db w) !! k = Some t →
          Token.TokenHash t = tokenhash_Hash raw →
          Token.IsRevoked t = false →
          if decide (ss_active (w_sessions w) (db_reading 2 w)
                       (Token.UserID t) = Some (Token.ID t))
          then ∀ t', ss_active (w_sessions w') t' (Token.UserID t) = None
          else w_sessions w' = w_sessions w) ∧
  (* a token already dead, or no token of the service, ends no session *)
  ((∀ k t, refresh_tokens (w_db w) !! k = Some t →
           Token.TokenHash t = tokenhash_Hash raw →
           Token.IsRevoked t = true) →
   w_sessions w' = w_sessions w) ∧
  (∀ T, T ≠ RefreshTokens → same_table T (w_db w) (w_db w')).
Proof.
  intros Hok H. pose proof H as Hrun. unfold Logout in H.
  apply run_bind_inv in H as (r & w1 & H1 & H). destruct r as [rt|e].
  2:{ destruct (errors_Is e Token_ErrNotFound) eqn:He; [|done].
      injection H as <-. apply TokenByHash_notfound in H1 as [-> Hno]; [|done].
      split_and!; [|done| |done|by intros []]; intros k t Hk Hh;
        by destruct (Hno _ _ Hk). }
  apply TokenByHash_Ok in H1 as ([k Hrt] & Hhash & ->).
  pose proof (ok_tokens_key _ Hok _ _ Hrt) as Hkey. simpl in Hkey.
  pose proof (λ k' t', token_of_raw _ _ _ _ k' t' Hok Hrt Hhash) as Hone.
  destruct (Token.IsRevoked rt) eqn:Hrev.
  { injection H as <-. split_and!; [|done| |done|by intros []];
      intros k' t' Hk' Hh; destruct (Hone _ _ Hk' Hh) as [_ ->];
      [done|by rewrite Hrev]. }
  clear H. eapply Logout_live in Hrun as (Hdb & -> & Htab); [|done..].
  rewrite Hdb. split_and!; [| | | |done].
  - intros k' t'. destruct (decide (k = k')) as [<-|Hne].
    + rewrite lookup_insert_eq. by intros [= <-].
    + rewrite lookup_insert_ne by done. intros Hk' Hh.
      by destruct (Hone _ _ Hk' Hh).
  - intros k' t' Hk' Hh. rewrite lookup_insert_ne; [done|]. congruence.
  - intros k' t' Hk' Hh _. destruct (Hone _ _ Hk' Hh) as [-> ->].
    rewrite Hkey. destruct (decide _) as [Ha|Ha].
    + intros t''. by apply ss_if_current_none.
    + by apply ss_if_current_kept.
  - intros Hall. rewrite (Hall k rt Hrt Hhash) in Hrev. discriminate Hrev.
Qed.
End sessions.

(** ** Witnesses *)

Lemma LoginVerifyOTP_success_witness :
  ∃ u rt, single_session demo_service u rt
            (value no_session demo_login_verified.1) demo_login_verified.2.
Proof.
  destruct (LoginVerifyOTP_success demo_service demo_challenge
              (demo_code demo_login.2) demo_login.2
              (value no_session demo_login_verified.1) demo_login_verified.2)
    as (ch & u & cred & rt & H).
  - done.
  - exact demo_login_ok.
  - run_demo.
  - exists u, rt. destruct H as (? & ? & ? & ? & ? & H). apply H.
Defined.

Lemma SetupVerifyOTP_success_witness :
  ∃ u rt, single_session demo_service u rt
            (value no_session demo_setup.1) demo_setup.2.
Proof.
  destruct (SetupVerifyOTP_success demo_service demo_setup_token
              (demo_code demo_registered.2) demo_registered.2
              (value no_session demo_setup.1) demo_setup.2)
    as (u & cred & rt & H).
  - done.
  - exact demo_registered_ok.
  - run_demo.
  - exists u, rt. destruct H as (? & ? & ? & ? & ? & H). apply H.
Defined.

Lemma Refresh_rotates_witness :
  ∃ u rt, single_session demo_service u rt
            (value no_session demo_refreshed.1) demo_refreshed.2.
Proof.
  destruct (Refresh_rotates demo_service demo_refresh_token demo_world)
    as [H _].
  - done.
  - exact demo_world_ok.
  - destruct (H (value no_session demo_refreshed.1) demo_refreshed.2)
      as (old & u & rt & t & Hr).
    + run_demo.
    + exists u, rt. apply Hr.
Defined.

(** The rotated token is presented a second time. *)
Definition demo_reused : result Session * World :=
  run (Refresh demo_service demo_refresh_token) demo_refreshed.2.
Definition no_token : Token.RefreshToken := Token.New 0 "" 0 0 0.
Definition demo_old_token : Token.RefreshToken :=
  default no_token (refresh_tokens (w_db demo_refreshed.2) !! 1001%N).

Lemma Refresh_reuse_revokes_family_witness :
  is_Ok demo_reused.1 = false ∧
  (∀ k t, refresh_tokens (w_db demo_reused.2) !! k = Some t →
          live_token_of 1000%N t = false).
Proof.
  destruct (Refresh_reuse_revokes_family demo_service 1001%N demo_old_token
              demo_refresh_token demo_refreshed.2 demo_reused.1 demo_reused.2)
    as (H1 & H2 & _).
  - exact demo_refreshed_ok.
  - by vm_compute.
  - by vm_compute.
  - by vm_compute.
  - unfold demo_reused. by destruct (run _ _).
  - split; [exact H1|]. apply H2. by vm_compute.
Defined.

Definition demo_logout : result unit * World :=
  run (Logout demo_service demo_refresh_token) demo_world.

Lemma Logout_ends_session_witness :
  demo_logout.1 = Ok tt ∧
  (∀ k t, refresh_tokens (w_db demo_logout.2) !! k = Some t →
          Token.TokenHash t = tokenhash_Hash demo_refresh_token →
          Token.IsRevoked t = true).
Proof.
  split; [by vm_compute|].
  destruct (Logout_ends_session demo_service demo_refresh_token demo_world
              demo_logout.2) as (H & _).
  - exact demo_world_ok.
  - unfold demo_logout. rewrite (surjective_pairing (run _ _)) at 1.
    by f_equal.
  - exact H.
Defined.
