(* ===== verification/Requests.v ===== *)
(** * The requests the process serves

    One constructor per use case of the application service (the interface
    Service of transport/http/auth and transport/http/profile) and per
    background activity, so that statements can quantify over any mix of
    concurrent requests; what every mix preserves. *)
From S2P Require Import Prelude Tables GoBase Domain Schema Effects Logic.
From S2P Require Import GoStrings Platform Postgres Service Footprint.
From S2P Require Import Integrity DeletionWorker Demo.
#[local] Open Scope go_scope.

Inductive UseCase :=
  | UCRegister (inp : RegisterInput)
  | UCLogin (inp : LoginInput)
  | UCSetupVerifyOTP (setupToken code : string)
  | UCLoginVerifyOTP (challengeToken code : string)
  | UCRefresh (rawToken : string)
  | UCLogout (rawToken : string)
  | UCCurrentUser (userID : uuid)
  | UCUpdateProfile (userID : uuid) (accessToken : string)
      (inp : UpdateProfileInput)
  | UCChangePassword (userID : uuid) (inp : ChangePasswordInput)
  | UCDeleteAccount (userID : uuid) (accessToken otp : string)
  | UCRequestPasswordReset (email : string)
  | UCVerifyPasswordResetOTP (flowToken code : string)
  | UCConfirmPasswordReset (resetToken newPassword : string)
  (* background *)
  | UCSessionCleanup (notification : DeletionClient) (userID sessionID : uuid)
  | UCDeletionTick (clients : gmap string DeletionClient).

(** A session may start only here. *)
Definition starts_session (r : UseCase) : bool :=
  match r with
  | UCSetupVerifyOTP _ _ | UCLoginVerifyOTP _ _ | UCRefresh _ => true
  | _ => false
  end.

(** The answer goes to the client; what is left is the effect. *)
Definition forget {A} (p : prog A) : prog unit := let! _ := p in Ret tt.

Section serve.
Context `{L : Lib, U : Unicode}.
Variable s : AuthService.

Definition serve (r : UseCase) : prog unit :=
  match r with
  | UCRegister inp => forget (Register s inp)
  | UCLogin inp => forget (Login s inp)
  | UCSetupVerifyOTP t c => forget (SetupVerifyOTP s t c)
  | UCLoginVerifyOTP t c => forget (LoginVerifyOTP s t c)
  | UCRefresh t => forget (Refresh s t)
  | UCLogout t => forget (Logout s t)
  | UCCurrentUser id => forget (CurrentUser id)
  | UCUpdateProfile id t inp => forget (UpdateProfile s id t inp)
  | UCChangePassword id inp => forget (ChangePassword s id inp)
  | UCDeleteAccount id t otp => forget (DeleteAccount s id t otp)
  | UCRequestPasswordReset e => forget (RequestPasswordReset s e)
  | UCVerifyPasswordResetOTP t c => forget (VerifyPasswordResetOTP s t c)
  | UCConfirmPasswordReset t p => forget (ConfirmPasswordReset s t p)
  | UCSessionCleanup n u sid => session_cleanup n u sid
  | UCDeletionTick cl => forget (RunOnce cl)
  end.
End serve.

(** ** Sessions never appear out of nowhere *)

(** Every token of [m'] is one of [m], possibly revoked since. *)
Definition descends (m m' : gmap uuid Token.RefreshToken) : Prop :=
  ∀ k t', m' !! k = Some t' →
    ∃ t, m !! k = Some t ∧ Token.UserID t' = Token.UserID t ∧
         Token.TokenHash t' = Token.TokenHash t ∧
         (Token.IsRevoked t' = false → t' = t).

#[export] Instance descends_refl : Reflexive descends.
Proof. intros m k t Hk. exists t. by split_and!. Qed.
#[export] Instance descends_trans : Transitive descends.
Proof.
  intros m1 m2 m3 H12 H23 k t3 H3.
  apply H23 in H3 as (t2 & H2 & Hu2 & Hh2 & Hr2).
  apply H12 in H2 as (t1 & H1 & Hu1 & Hh1 & Hr1).
  exists t1. split_and!; [done|congruence|congruence|].
  intros Hr. pose proof (Hr2 Hr) as ->. by apply Hr1.
Qed.

(** No effect creates a token or activates a session. *)
Definition creates_no_token {X} (q : stmt X) : Prop :=
  match q with InsertRefreshToken _ => False | _ => True end.

Definition starts_nothing {X} (e : eff X) : Prop :=
  match e with Activate _ _ _ => False | _ => True end ∧
  eff_stmts (@creates_no_token) e.

Section nowhere.
Context `{PT : PgTime, EV : Env, SS : SessionStore, SL : !SessionStoreLaws,
          L : Lib, U : Unicode}.
Variable s : AuthService.

Lemma descends_revoke_where P now m :
  descends m (update_where P (revoke now) m).
Proof.
  intros k t' Hk. unfold update_where in Hk. rewrite lookup_fmap_Some in Hk.
  destruct Hk as (t & <- & Hk). exists t. by destruct (P t).
Qed.

Lemma exec_descends {X} (q : stmt X) now db :
  creates_no_token q →
  descends (refresh_tokens db) (refresh_tokens (exec q now db).2).
Proof.
  intros Hq. destruct (decide (RefreshTokens ∈ writes q)) as [Hin|Hn].
  2:{ pose proof (exec_keeps RefreshTokens q now db Hn) as Hk. simpl in Hk.
      by rewrite <-Hk. }
  destruct q; try done;
    try (exfalso; rewrite list_elem_of_In in Hin; simpl in Hin;
         intuition congruence).
  - cbn [exec]. unfold users_delete. destruct (users db !! id); [|done].
    intros k t Hk. apply map_lookup_filter_Some in Hk as [Hk _]. eauto.
  - cbn [exec]. unfold tokens_revoke.
    destruct (refresh_tokens db !! id) as [t|] eqn:Ht; [|done].
    destruct (Token.IsRevoked t); [done|]. intros k t' Hk. simpl in Hk.
    destruct (decide (id = k)) as [->|Hne].
    + rewrite lookup_insert_eq in Hk. injection Hk as <-. by exists t.
    + rewrite lookup_insert_ne in Hk by done. eauto.
  - apply descends_revoke_where.
Qed.

Lemma handle_descends {X} (e : eff X) w :
  eff_stmts (@creates_no_token) e →
  descends (refresh_tokens (w_db w)) (refresh_tokens (w_db (handle e w).2)).
Proof.
  intros He. apply (handle_stmts (@creates_no_token)
    (λ db, descends (refresh_tokens (w_db w)) (refresh_tokens db))); [|done..].
  intros Y q db Hq Hdb. etrans; [exact Hdb|]. by apply exec_descends.
Qed.

(** No session is active in the second store that was not in the first. *)
Definition no_new_session (st st' : ss_state) : Prop :=
  ∀ t u sid, ss_active st' t u = Some sid → ss_active st t u = Some sid.

Lemma handle_session_no_new {A} (f : time → ss_state → A * ss_state) w :
  (∀ now, no_new_session (w_sessions w) (f now (w_sessions w)).2) →
  no_new_session (w_sessions w) (w_sessions (handle_session f w).2).
Proof.
  intros Hf. unfold handle_session.
  specialize (Hf (db_clock (n_io (w_counters w)))).
  destruct (f _ _) as [a st]. unfold faulty.
  destruct (fault _) as [[m []]|]; [exact Hf|by intros ???|exact Hf].
Qed.

Lemma handle_starts_nothing {X} (e : eff X) w :
  starts_nothing e →
  descends (refresh_tokens (w_db w)) (refresh_tokens (w_db (handle e w).2)) ∧
  no_new_session (w_sessions w) (w_sessions (handle e w).2).
Proof.
  intros [Ha Hs]. split.
  - by apply handle_descends.
  - destruct e; try done;
      try (rewrite handle_keeps_sessions; [by intros ???|exact I]);
      apply handle_session_no_new; intros now t u sid; simpl.
    + destruct (decide (u = user)) as [->|].
      * by rewrite ss_deactivate_none.
      * by rewrite ss_deactivate_other.
    + destruct (decide (ss_active (w_sessions w) now user = Some session)).
      * destruct (decide (u = user)) as [->|].
        -- by rewrite ss_if_current_none.
        -- by rewrite ss_if_current_other.
      * by rewrite ss_if_current_kept.
    + destruct (decide (u = user)) as [->|].
      * by rewrite ss_prev_none.
      * by rewrite ss_prev_other.
Qed.

(** The statements of the deletion request and of the worker's claim. *)
Lemma create_steps_all (P : ∀ X, stmt X → Prop) job names :
  (∀ n, P _ (InsertDeletionStep job n)) →
  tx_all P (DeletionStore.create_steps job names).
Proof.
  intros HP. induction names as [|n names IH]; simpl; [done|].
  split; [done|]. by intros [?|?].
Qed.

Lemma request_tx_all (P : ∀ X, stmt X → Prop) job u :
  P _ (MarkUserDeletionPending u) → P _ (SelectDeletionStatus u) →
  P _ (RevokeRefreshTokensOf u) → P _ (UpsertDeletionJob job u) →
  (∀ id n, P _ (InsertDeletionStep id n)) →
  tx_all P (DeletionStore.request_tx job u).
Proof.
  intros H1 H2 H3 H4 H5. split; [done|].
  intros [[|n]|e]; [split; [done|]|split; [done|]|done].
  - intros [st|e]; [by case_bool_decide|by destruct (errors_Is _ _)].
  - intros [?|?]; [|done]. split; [done|]. intros [id|?]; [|done].
    by apply (create_steps_all P id deletionServices).
Qed.

Lemma claim_tx_all (P : ∀ X, stmt X → Prop) :
  P _ ClaimDeletionJob → (∀ id, P _ (SelectDeletionSteps id)) →
  tx_all P DeletionJobStore.claim_tx.
Proof.
  intros H1 H2. split; [done|]. intros [[id u]|e].
  - split; [done|]. by intros [?|?].
  - by destruct (errors_Is _ _).
Qed.

(** The worker's loop performs the effects of its calls. *)
Lemma run_steps_all (P : ∀ X, eff X → Prop) cl job steps fin :
  (∀ r, P _ (HttpDo r)) → (∀ sv, P _ (Query (CompleteStep (Job_ID job) sv))) →
  (∀ sv a m msg, P _ (Query (RetryStep (Job_ID job) sv a m msg))) →
  P _ (Query (ReleaseJob (Job_ID job))) →
  all_effects P fin → all_effects P (run_steps cl job steps fin).
Proof.
  intros H1 H2 H3 H4 Hf. induction steps as [|st steps IH]; cbn [run_steps]; [done|].
  unfold retry, DeleteUserData, internal_delete,
    DeletionJobStore.RetryDeletionStep,
    DeletionJobStore.CompleteDeletionStep.
  walk; done.
Qed.

Lemma transaction_starts_nothing {A} (b : tx A) :
  tx_all (@creates_no_token) b → starts_nothing (Transaction b).
Proof. done. Qed.

Lemma RequestDeletion_starts_nothing u :
  all_effects (@starts_nothing) (DeletionStore.RequestDeletion u).
Proof.
  unfold DeletionStore.RequestDeletion. walk; try done.
  by apply transaction_starts_nothing, request_tx_all.
Qed.

Lemma serve_starts_nothing r :
  starts_session r = false → all_effects (@starts_nothing) (serve s r).
Proof.
  destruct r; try done; intros _; unfold serve, forget.
  all: unfold Register, Login, Logout, CurrentUser, UpdateProfile,
    ChangePassword, DeleteAccount, RequestPasswordReset,
    VerifyPasswordResetOTP, ConfirmPasswordReset, RunOnce, session_cleanup,
    beginTOTPSetup, issueLoginChallenge, reset_code_valid, verifyOTP,
    validateOTP, end_sessions, cleanupSessionDevices,
    tokenhash_Generate, GenerateSecret, Encrypt, Hash, VerifyOwnership,
    DeleteByIDs, DeleteAllMine, DeleteAllByUser, delete_call,
    DeleteSessionData, internal_delete.
  all: walk; try done.
  all: autounfold with effects; walk; try done.
  all: try by apply transaction_starts_nothing, request_tx_all.
  - by apply transaction_starts_nothing, claim_tx_all.
  - apply run_steps_all; try done. unfold finish_job.
    autounfold with effects. walk; done.
Qed.

(** C4. Under any interleaving of any requests other than SetupVerifyOTP,
    LoginVerifyOTP and Refresh, and whatever calls fail, no refresh token is
    created or revived and no session becomes active: a password alone never
    gives a session. *)
Theorem sessions_only_from_second_factor (rs : list UseCase) w ps' w' :
  Forall (λ r, starts_session r = false) rs →
  rtc pool_step (serve s <$> rs, w) (ps', w') →
  descends (refresh_tokens (w_db w)) (refresh_tokens (w_db w')) ∧
  no_new_session (w_sessions w) (w_sessions w').
Proof.
  intros Hrs Hr.
  assert (H : Forall (all_effects (@starts_nothing)) ps' ∧
    descends (refresh_tokens (w_db w)) (refresh_tokens (w_db w')) ∧
    no_new_session (w_sessions w) (w_sessions w')); [|by destruct H].
  refine (pool_invariant (@starts_nothing)
    (λ w', descends (refresh_tokens (w_db w)) (refresh_tokens (w_db w')) ∧
           no_new_session (w_sessions w) (w_sessions w'))
    (_, w) (_, w') _ Hr _ _).
  - intros X e w1 He [Hd Hn].
    destruct (handle_starts_nothing e w1 He) as [Hd' Hn'].
    split; [by etrans|]. intros t u sid Ht. by apply Hn, Hn'.
  - apply Forall_fmap. eapply Forall_impl; [done|]. intros r.
    apply serve_starts_nothing.
  - split; [done|]. by intros ???.
Qed.

(** The schema's invariant holds after any interleaving of any use cases and
    background activities, whatever faults occur. *)
Lemma concurrent_requests_keep_integrity (rs : list UseCase) w ps' w' :
  db_ok (w_db w) →
  rtc pool_step (serve s <$> rs, w) (ps', w') →
  db_ok (w_db w').
Proof. intros Hok Hr. by eapply pool_ok. Qed.
End nowhere.

(** Two clients of one account type the password at the same time. *)
Definition demo_two_logins : list UseCase :=
  [UCLogin (mkLoginInput "bee@example.com" "correct horse");
   UCLogin (mkLoginInput "BEE@example.com" "correct horse")].
Definition demo_interleaved : list (prog unit) * World :=
  sched_run [0; 1; 0; 1; 0; 1; 0; 1; 1; 0; 0; 1; 0; 1; 0; 1]
    (serve demo_service <$> demo_two_logins) demo_world.

Lemma sessions_only_from_second_factor_witness :
  descends (refresh_tokens (w_db demo_world))
    (refresh_tokens (w_db demo_interleaved.2)) ∧
  no_new_session (w_sessions demo_world) (w_sessions demo_interleaved.2).
Proof.
  apply (sessions_only_from_second_factor demo_service demo_two_logins
           demo_world demo_interleaved.1).
  - repeat constructor.
  - rewrite <-surjective_pairing. apply sched_run_reachable.
Defined.
