(* ===== verification/Coherence.v ===== *)
(** * One session at a time

    Requests served one after the other, each of them possibly cut short (the
    process is killed, the client is gone): whatever calls fail, a user never
    has more than one live refresh token, and when there is one the session
    store names no other session of the user. [always] is the logic of
    executions that may stop after any effect. *)
From S2P Require Import Prelude Tables GoBase Domain Schema Effects Logic.
From S2P Require Import GoStrings Platform Postgres Service Footprint.
From S2P Require Import Integrity Repositories ServiceFacts Sessions Demo.
From S2P Require Import Requests.
#[local] Open Scope go_scope.

(** ** Interrupted executions *)
Section always.
Context `{PT : PgTime, EV : Env, SS : SessionStore}.
Implicit Types (w : World).

(** The world after at most [n] effects of [p]. *)
Fixpoint run_upto {A} (n : nat) (p : prog A) w {struct p} : World :=
  match p, n with
  | Vis e k, S n' => let '(x, w') := handle e w in run_upto n' (k x) w'
  | _, _ => w
  end.

(** [I] holds at every moment of the execution of [p] from [w], and [Q] of
    what it returns. *)
Fixpoint always {A} (I : World → Prop) (p : prog A) (Q : A → World → Prop) w
    {struct p} : Prop :=
  I w ∧ match p with
        | Ret a => Q a w
        | Vis e k => always I (k (handle e w).1) Q (handle e w).2
        end.

Lemma always_start {A} I (p : prog A) Q w : always I p Q w → I w.
Proof. by destruct p; intros []. Qed.

Lemma always_upto {A} I n (p : prog A) Q w :
  always I p Q w → I (run_upto n p w).
Proof.
  revert n w. induction p as [a|X e k IH]; intros n w [HI H]; simpl.
  - by destruct n.
  - destruct n as [|n]; [done|]. specialize (IH _ n _ H).
    by destruct (handle e w).
Qed.

Lemma always_mono {A} I (p : prog A) (Q Q' : A → World → Prop) w :
  always I p Q w → (∀ a w', I w' → Q a w' → Q' a w') → always I p Q' w.
Proof.
  intros Hp HQ. revert w Hp.
  induction p as [a|X e k IH]; intros w [HI H]; split; eauto.
Qed.

Lemma always_ret {A} (I : World → Prop) (a : A) (Q : A → World → Prop) w :
  I w → Q a w → always I (Ret a) Q w.
Proof. by split. Qed.

Lemma always_bind {A B} I (p : prog A) (k : A → prog B) Q w :
  always I p (λ a w', always I (k a) Q w') w → always I (bind p k) Q w.
Proof.
  revert w. induction p as [a|X e h IH]; intros w [HI H]; simpl; [done|].
  split; [done|]. by apply IH.
Qed.

Lemma always_bindE {A B} I (p : go A) (k : A → go B) Q w :
  always I p (λ r w', match r with
                      | Ok a => always I (k a) Q w'
                      | Err e => Q (Err e) w'
                      end) w →
  always I (bindE p k) Q w.
Proof.
  intros Hp. apply always_bind. eapply always_mono; [exact Hp|].
  intros [a|e] w' HI H; [done|by split].
Qed.

Lemma always_wrapE {A} I msg (p : go A) (Q : result A → World → Prop) w :
  always I p (λ r w', Q (match r with
                         | Ok a => Ok a
                         | Err e => Err (Wrap msg e)
                         end) w') w →
  always I (wrapE msg p) Q w.
Proof.
  intros Hp. apply always_bind. eapply always_mono; [exact Hp|].
  intros r w' HI H. by split.
Qed.

(** Effects that keep the invariant and a condition. *)
Lemma always_effects {A} (P : ∀ X, eff X → Prop) (I C : World → Prop)
    (p : prog A) w :
  all_effects P p →
  (∀ X (e : eff X) w, P X e → I w → C w →
     I (handle e w).2 ∧ C (handle e w).2) →
  I w → C w → always I p (λ _, C) w.
Proof.
  intros Hp HP. revert w. induction p as [a|X e k IH]; intros w HI HC;
    (split; [done|]); [done|]. destruct Hp as [He Hk].
  destruct (HP X e w He HI HC) as [HI' HC']. by apply IH.
Qed.

(** What the program answers is what [run] says. *)
Lemma always_run {A} I (p : prog A) (C : World → Prop) w :
  always I p (λ _, C) w → always I p (λ a w', C w' ∧ run p w = (a, w')) w.
Proof.
  revert w. induction p as [a|X e k IH]; intros w [HI H]; simpl in *;
    [done|]. split; [done|]. specialize (IH _ _ H).
  by destruct (handle e w) as [x w'].
Qed.
End always.

Section coherence.
Context `{PT : PgTime, EV : Env, SS : SessionStore, SL : !SessionStoreLaws,
          L : Lib, U : Unicode}.
Variable s : AuthService.
#[local] Abbreviation sec := (svc_security s).
Implicit Types (w : World).

(** ** The invariant *)

(** The user has one live refresh token at most, and with it no other active
    session. *)
Record one_session w : Prop := {
  one_token : ∀ k1 k2 t1 t2,
    refresh_tokens (w_db w) !! k1 = Some t1 → Token.IsRevoked t1 = false →
    refresh_tokens (w_db w) !! k2 = Some t2 → Token.IsRevoked t2 = false →
    Token.UserID t1 = Token.UserID t2 → k1 = k2;
  one_active : ∀ k t now sid,
    refresh_tokens (w_db w) !! k = Some t → Token.IsRevoked t = false →
    ss_active (w_sessions w) now (Token.UserID t) = Some sid → sid = k
}.

(** [u] has no live refresh token. *)
Definition no_live (u : uuid) w : Prop :=
  every (λ t, live_token_of u t = false) (refresh_tokens (w_db w)).
(** The store knows no active session of [u] but [sid]. *)
Definition only_active (u sid : uuid) w : Prop :=
  ∀ now sid', ss_active (w_sessions w) now u = Some sid' → sid' = sid.

(** What starts no session keeps all three. *)
Lemma one_session_descends w w' :
  descends (refresh_tokens (w_db w)) (refresh_tokens (w_db w')) →
  no_new_session (w_sessions w) (w_sessions w') →
  one_session w → one_session w'.
Proof.
  intros Hd Hn [H1 H2]. split.
  - intros k1 k2 t1 t2 Hk1 Hr1 Hk2 Hr2 Hu.
    apply Hd in Hk1 as (t1' & Hk1 & _ & _ & E1). rewrite <-(E1 Hr1) in Hk1.
    apply Hd in Hk2 as (t2' & Hk2 & _ & _ & E2). rewrite <-(E2 Hr2) in Hk2.
    by eapply H1.
  - intros k t now sid Hk Hr Ha.
    apply Hd in Hk as (t' & Hk & _ & _ & E). rewrite <-(E Hr) in Hk.
    eapply H2; [exact Hk|done|]. by apply Hn.
Qed.

Lemma no_live_descends u w w' :
  descends (refresh_tokens (w_db w)) (refresh_tokens (w_db w')) →
  no_live u w → no_live u w'.
Proof.
  intros Hd H k t Hk. apply Hd in Hk as (t' & Hk & _ & _ & E).
  unfold live_token_of. destruct (Token.IsRevoked t) eqn:Hr.
  { by rewrite andb_false_r. }
  rewrite <-(E eq_refl) in Hk. pose proof (H _ _ Hk) as Hl.
  unfold live_token_of in Hl. by rewrite Hr in Hl.
Qed.

Lemma starts_nothing_keeps {X} (e : eff X) u sid w :
  starts_nothing e → one_session w ∧ no_live u w ∧ only_active u sid w →
  let w' := (handle e w).2 in one_session w' ∧ no_live u w' ∧ only_active u sid w'.
Proof.
  intros He (H1 & H2 & H3). destruct (handle_starts_nothing e w He) as [Hd Hn].
  split; [by eapply one_session_descends|].
  split; [by eapply no_live_descends|]. intros now sid' Ha. eapply H3, Hn, Ha.
Qed.

(** ** Programs that keep it *)

Lemma always_one {A} (p : prog A) w :
  all_effects (@starts_nothing) p → one_session w →
  always one_session p (λ _ _, True) w.
Proof.
  intros Hp Hw. eapply (always_effects (@starts_nothing)); [done| |done|done].
  intros X e w1 He H1 _. destruct (handle_starts_nothing e w1 He).
  split; [by eapply one_session_descends|done].
Qed.
(** Activating a session when no refresh token of the user is live. *)
Lemma handle_Activate_one u sid ttl w :
  one_session w → no_live u w →
  let '(r, w') := handle (Activate u sid ttl) w in
  one_session w' ∧ no_live u w' ∧ (is_Ok r = true → only_active u sid w').
Proof.
  intros H1 H2. simpl. unfold handle_session, faulty.
  set (now := db_clock _).
  assert (Hnew : let st := (ss_activate u sid ttl now (w_sessions w)).2 in
    one_session (set_sessions st (tick_io w)) ∧
    only_active u sid (set_sessions st (tick_io w))).
  { split; [|intros t sid' Ha; eapply ss_activate_only; exact Ha].
    split; [exact (one_token _ H1)|]. intros k t t' sid' Hk Hr Ha.
    simpl in Hk, Ha. destruct (decide (Token.UserID t = u)) as [<-|Hne].
    - pose proof (H2 _ _ Hk) as Hl. unfold live_token_of in Hl.
      by rewrite bool_decide_true, Hr in Hl.
    - rewrite ss_activate_other in Ha by done. by eapply (one_active _ H1). }
  destruct (ss_activate u sid ttl now (w_sessions w)) as [a st].
  destruct Hnew as [Hn Ho].
  destruct (fault _) as [[m []]|]; simpl; [done| |done].
  split; [|done]. split; [exact (one_token _ H1)|exact (one_active _ H1)].
Qed.

(** Storing the refresh token of the session just activated. *)
Lemma handle_CreateToken_one t w :
  one_session w → no_live (Token.UserID t) w →
  only_active (Token.UserID t) (Token.ID t) w →
  one_session (handle (Query (InsertRefreshToken t)) w).2.
Proof.
  intros H1 H2 H3. simpl. unfold handle_query, faulty. simpl.
  assert (Hsame : ∀ w', w_db w' = w_db w → w_sessions w' = w_sessions w →
    one_session w').
  { intros w' Hdb Hs. split; rewrite Hdb, ?Hs; apply H1. }
  assert (Hins : one_session (set_db (tokens_insert t (w_db w)).2 (tick_io w))).
  { unfold tokens_insert. destruct (_ || _) eqn:E; [by apply Hsame|].
    clear E. case_bool_decide as Hu; [|by apply Hsame]. clear Hu. simpl.
    assert (Hlive : ∀ k v, refresh_tokens (w_db w) !! k = Some v →
      Token.IsRevoked v = false → Token.UserID v ≠ Token.UserID t).
    { intros k v Hk Hr Hu. pose proof (H2 _ _ Hk) as Hl.
      unfold live_token_of in Hl. by rewrite bool_decide_true, Hr in Hl. }
    split; simpl.
    - intros k1 k2 t1 t2. rewrite !lookup_insert_Some.
      intros [[<- <-]|[Hn1 Hk1]] Hr1 [[<- <-]|[Hn2 Hk2]] Hr2 Hu; simpl in *.
      + done.
      + by destruct (Hlive _ _ Hk2 Hr2).
      + by destruct (Hlive _ _ Hk1 Hr1).
      + by eapply (one_token _ H1).
    - intros k v now sid. rewrite lookup_insert_Some.
      intros [[<- <-]|[Hn Hk]] Hr Ha; simpl in *; [by eapply H3|].
      by eapply (one_active _ H1). }
  destruct (tokens_insert t (w_db w)) as [r db'] eqn:E.
  destruct (fault _) as [[m []]|]; simpl; [exact Hins|by apply Hsame|exact Hins].
Qed.

Lemma always_no_live {A} (p : prog A) u w :
  all_effects (@starts_nothing) p → one_session w → no_live u w →
  always one_session p (λ _, no_live u) w.
Proof.
  intros Hp Hw Hu. eapply (always_effects (@starts_nothing)); [done| |done|done].
  intros X e w1 He H1 H2. destruct (handle_starts_nothing e w1 He).
  split; [by eapply one_session_descends|by eapply no_live_descends].
Qed.

(** The tail of [issueSession], from the call to the session store. *)
Lemma activate_and_store_one {A} rt m1 m2 ttl (k : option uuid * Z → go A) w :
  one_session w → no_live (Token.UserID rt) w →
  (∀ prev, all_effects (@starts_nothing) (k prev)) →
  always one_session
    (let? prev := perform (Activate (Token.UserID rt) (Token.ID rt) ttl)
                  orwrap m1 in
     let? _ := RefreshTokenRepository.Create rt orwrap m2 in
     k prev) (λ _ _, True) w.
Proof.
  intros Hw Hl Hk. apply always_bindE, always_wrapE. split; [done|].
  pose proof (handle_Activate_one (Token.UserID rt) (Token.ID rt) ttl w Hw Hl)
    as Ha.
  destruct (handle _ w) as [[prev|e] w1]; cbn [fst snd];
    destruct Ha as (H1 & H2 & H3); [|by split].
  split; [done|]. apply always_bindE, always_wrapE. split; [done|].
  pose proof (handle_CreateToken_one rt w1 H1 H2 (H3 eq_refl)) as Hc.
  destruct (handle _ w1) as [[[]|e] w2]; [|by split].
  split; [done|]. apply always_one; [apply Hk|exact Hc].
Qed.

Lemma issueSession_one u w :
  one_session w → always one_session (issueSession s u) (λ _ _, True) w.
Proof.
  intros Hw. unfold issueSession. apply always_bindE, always_wrapE.
  eapply always_mono.
  { apply (always_run _ _ (λ _, True)), always_one; [|done].
    autounfold with effects. walk; done. }
  intros [[]|e] w1 Hw1 [_ H1]; [|done]. apply RevokeAll_Ok in H1.
  assert (Hl1 : no_live (User.ID u) w1).
  { rewrite H1. intros k t. apply update_where_none_live. }
  apply always_bindE, always_wrapE. eapply always_mono.
  { apply (always_no_live _ (User.ID u)); [|done|done].
    unfold tokenhash_Generate. walk; done. }
  intros [raw|e] w2 Hw2 Hl2; [|done]. cbn beta iota.
  apply always_bind. eapply always_mono.
  { apply (always_no_live (perform Now) (User.ID u)); [walk; done|done|done]. }
  intros now w3 Hw3 Hl3. apply always_bind. eapply always_mono.
  { apply (always_no_live (perform NewUUID) (User.ID u));
      [walk; done|done|done]. }
  intros id w4 Hw4 Hl4. cbv zeta.
  apply (activate_and_store_one (Token.New (User.ID u) _ _ now id));
    [done|done|].
  intros prev. unfold cleanupSessionDevices, Issue, IssueWithGeneration.
  walk; done.
Qed.
(** A request that starts a session does so as its next-to-last step, after
    calls that start nothing. *)
Lemma always_bindE_one {A B} (p : go A) (k : A → go B) w :
  all_effects (@starts_nothing) p → one_session w →
  (∀ a w', one_session w' → always one_session (k a) (λ _ _, True) w') →
  always one_session (bindE p k) (λ _ _, True) w.
Proof.
  intros Hp Hw Hk. apply always_bindE. eapply always_mono.
  { by apply always_one. }
  intros [a|e] w' Hw' _; [by apply Hk|done].
Qed.

Lemma always_bind_one {A B} (p : prog A) (k : A → prog B) w :
  all_effects (@starts_nothing) p → one_session w →
  (∀ a w', one_session w' → always one_session (k a) (λ _ _, True) w') →
  always one_session (bind p k) (λ _ _, True) w.
Proof.
  intros Hp Hw Hk. apply always_bind. eapply always_mono.
  { by apply always_one. }
  intros a w' Hw' _. by apply Hk.
Qed.

Lemma issue_then_one {A} u (k : Session → go A) w :
  (∀ sess, all_effects (@starts_nothing) (k sess)) → one_session w →
  always one_session (bindE (issueSession s u) k) (λ _ _, True) w.
Proof.
  intros Hk Hw. apply always_bindE. eapply always_mono.
  { by apply issueSession_one. }
  intros [sess|e] w' Hw' _; [|done]. by apply always_one.
Qed.

(** Walk through a use case up to [issueSession]. *)
Ltac one_step :=
  match goal with
  | |- always _ (issueSession _ _) _ _ => by apply issueSession_one
  | |- always _ (bindE (issueSession _ _) _) _ _ =>
      apply issue_then_one; [intros ?|done]
  | |- always _ (bindE _ _) _ _ =>
      apply always_bindE_one; [|done|intros ? ? ?]
  | |- always _ (bind _ _) _ _ =>
      apply always_bind_one; [|done|intros ? ? ?]
  | |- always _ (Ret _) _ _ => by apply always_ret
  | |- always _ (match ?x with _ => _ end) _ _ => destruct x
  | |- all_effects _ _ =>
      unfold verifyOTP, validateOTP, returnErr, returnOk;
      autounfold with effects; walk; done
  end.

Lemma serve_one r w :
  one_session w → always one_session (serve s r) (λ _ _, True) w.
Proof.
  intros Hw. destruct (starts_session r) eqn:Hr.
  2:{ apply always_one; [by apply serve_starts_nothing|done]. }
  destruct r; try done; unfold serve, forget; apply always_bind;
    (eapply always_mono; [|by intros a w' Hw' _; split]).
  - unfold SetupVerifyOTP, returnErr. repeat one_step.
  - unfold LoginVerifyOTP, returnErr. repeat one_step.
  - unfold Refresh, returnErr. repeat one_step.
Qed.

(** Requests one after the other, each stopped after at most [n] effects. *)
Definition serve_all (rs : list (UseCase * nat)) w : World :=
  foldl (λ w r, run_upto r.2 (serve s r.1) w) w rs.

(** C3. When requests are served one after the other, each of them possibly
    stopped after any number of effects and whatever fails, at every moment
    each account has at most one live refresh token, and the one session the
    store may know active for it is that token's. *)
Theorem one_session_at_a_time rs w :
  one_session w → one_session (serve_all rs w).
Proof.
  revert w. induction rs as [|r rs IH]; intros w Hw; [done|].
  apply IH. eapply always_upto. by apply serve_one.
Qed.
End coherence.

(** ** Witness *)

Lemma demo_start_one : one_session demo_start.
Proof.
  split; [intros k1 k2 t1 t2 Hk|intros k t now sid Hk]; discriminate Hk.
Qed.

(** The account is set up; the first try is cut short when its session is
    active and its token not yet stored, and the client tries again with the
    next code. *)
Definition demo_restarts : list (UseCase * nat) :=
  [(UCRegister (mkRegisterInput "Bee@Example.com " "correct horse"), 20);
   (UCSetupVerifyOTP demo_setup_token (demo_code demo_registered.2), 12);
   (UCSetupVerifyOTP demo_setup_token
      (demo_digits (Z.quot (Unix demo_epoch) 30 + 1)), 30)].

Lemma one_session_at_a_time_witness :
  one_session (serve_all demo_service demo_restarts demo_start) ∧
  (∃ t, refresh_tokens (w_db (serve_all demo_service demo_restarts demo_start))
          !! 1002%N = Some t ∧ Token.IsRevoked t = false) ∧
  ss_active (w_sessions (serve_all demo_service (take 2 demo_restarts)
                           demo_start)) demo_epoch 1000%N = Some 1001%N.
Proof.
  split; [|split].
  - apply (one_session_at_a_time demo_service demo_restarts demo_start).
    exact demo_start_one.
  - eexists. split; [vm_compute; reflexivity|vm_compute; reflexivity].
  - vm_compute. reflexivity.
Defined.
