(* ===== verification/OtpGate.v ===== *)
(** * The second-factor gate

    [verifyOTP] (service_totp.go) refines a small automaton, [Gate]: a count
    of consecutive failures, an optional lock-out and the last accepted time
    step. The automaton's properties (lock-out after the configured number of
    failures, no code accepted twice) are those of the running service. *)
From S2P Require Import Prelude Tables GoBase Domain Schema Effects Logic.
From S2P Require Import GoStrings Platform Postgres Service Footprint.
From S2P Require Import Integrity Repositories Healthy ServiceFacts Demo.
#[local] Open Scope go_scope.

(** ** The abstract gate *)

Record Gate := mkGate {
  g_failures : Z;
  g_locked_until : option time;
  g_last : option Z
}.

Definition gate_of (c : Totp.Credential) : Gate :=
  mkGate c.(Totp.FailedAttempts) c.(Totp.LockedUntil)
    c.(Totp.LastUsedCounter).

Definition gate_locked (g : Gate) (now : time) : bool :=
  match g.(g_locked_until) with
  | Some u => bool_decide (now < u)%Z
  | None => false
  end.

(** A wrong code at [now]: the failure is counted, the last one allowed locks
    the gate and starts a new count. *)
Definition gate_reject (max : Z) (lockout : duration) (now : time) (g : Gate) :
    Gate :=
  if bool_decide (max ≤ g.(g_failures) + 1)%Z
  then mkGate 0 (Some (now + lockout)%Z) g.(g_last)
  else mkGate (g.(g_failures) + 1) g.(g_locked_until) g.(g_last).

Definition gate_accept (counter : Z) (g : Gate) : Gate :=
  mkGate 0 None (Some counter).

(** A time step is fresh when it is later than the last accepted one. *)
Definition gate_fresh (g : Gate) (counter : Z) : bool :=
  match g.(g_last) with
  | Some last => bool_decide (last < counter)%Z
  | None => true
  end.

Section gate.
Context `{PT : PgTime, EV : Env, SS : SessionStore, L : Lib, U : Unicode}.
Variable s : AuthService.
#[local] Abbreviation sec := (svc_security s).
Implicit Types (w : World).

(** The gate as a row keeps it. *)
Definition gate_stored (g : Gate) : Gate :=
  mkGate g.(g_failures) (opt_ts g.(g_locked_until)) g.(g_last).

(** The time step a code is good for at [t], if any: the demo account's
    fixed code is taken for step 0. *)
Definition code_step (email : string) (cred : Totp.Credential)
    (code : string) (t : time) : result (option Z) :=
  if bool_decide (email = demoAccountEmail) &&
     bool_decide (code = demoOTPCode)
  then Ok (Some 0%Z)
  else match Decrypt (svc_cipher s) cred.(Totp.SecretEncrypted) with
       | Err e => Err (Wrap "auth: decrypt totp secret" e)
       | Ok secret =>
           let '(ok, counter) := ValidateAt code secret t in
           Ok (if ok && gate_fresh (gate_of cred) counter
               then Some counter else None)
       end.

Lemma IsLocked_gate c now : Totp.IsLocked c now = gate_locked (gate_of c) now.
Proof. done. Qed.

Lemma IsCodeConsumed_gate c n :
  Totp.IsCodeConsumed c n = negb (gate_fresh (gate_of c) n).
Proof.
  unfold Totp.IsCodeConsumed, gate_fresh. simpl.
  destruct (Totp.LastUsedCounter c) as [l|]; [|done].
  repeat case_bool_decide; simpl; lia || done.
Qed.

(** [validateOTP] and the consumed check, as [code_step]. *)
Lemma validateOTP_step email cred code w :
  match code_step email cred code (next_clock w) with
  | Err e => run (validateOTP s email cred code) w = (Err e, w)
  | Ok v => ∃ ok counter demo w1,
      run (validateOTP s email cred code) w = (Ok (ok, counter, demo), w1) ∧
      (w1 = w ∨ w1 = tick_clock w) ∧ (v = None → w1 = tick_clock w) ∧
      (if ok && negb demo && Totp.IsCodeConsumed cred counter
       then false else ok) = bool_decide (is_Some v) ∧
      (∀ n, v = Some n → counter = n)
  end.
Proof.
  unfold code_step, validateOTP. destruct (_ && _).
  - exists true, 0%Z, true, w.
    split_and!; [done|by left|done|done|]. by intros n [= <-].
  - destruct (Decrypt _ _) as [secret|e]; [|done].
    destruct (ValidateAt code secret (next_clock w)) as [ok counter] eqn:E.
    exists ok, counter, false, (tick_clock w). rewrite run_bind, run_Now.
    cbn [fst snd]. rewrite E. split_and!; [done|by right|done| |].
    + rewrite IsCodeConsumed_gate. destruct ok; [|done]. simpl.
      by destruct (gate_fresh _ _).
    + destruct (ok && _); by intros n [= <-].
Qed.

Lemma RecordFailure_gate c now1 now2 :
  Int.int4_ok (Totp.FailedAttempts c) = true →
  gate_of (Totp.RecordFailure c (OTPMaxAttempts sec) (OTPLockoutDuration sec)
             now1 now2) =
  gate_reject (OTPMaxAttempts sec) (OTPLockoutDuration sec) now1 (gate_of c).
Proof.
  unfold Int.int4_ok. intros Hi%bool_decide_eq_true.
  unfold gate_reject, gate_of, Totp.RecordFailure. simpl.
  rewrite !Int.wrap64_id by (unfold Int.in_int64; lia).
  by case_bool_decide.
Qed.

(** The parts of a credential the gate leaves alone. *)
Definition same_factor (c c' : Totp.Credential) : Prop :=
  Totp.UserID c' = Totp.UserID c ∧
  Totp.SecretEncrypted c' = Totp.SecretEncrypted c ∧
  Totp.SetupTokenHash c' = Totp.SetupTokenHash c ∧
  Totp.EnabledAt c' = opt_ts (Totp.EnabledAt c) ∧
  Totp.SetupTokenExpiresAt c' = opt_ts (Totp.SetupTokenExpiresAt c).

(** ** One submission, no faults *)
Hypothesis Hhealthy : healthy.

Lemma verifyOTP_locked email c code w :
  gate_locked (gate_of c) (next_clock w) = true →
  run (verifyOTP s email c code) w = (Err ErrOTPLocked, tick_clock w).
Proof.
  intros Hl. unfold verifyOTP. rewrite run_bind, run_Now. cbn [fst snd].
  by rewrite IsLocked_gate, Hl.
Qed.

Lemma verifyOTP_broken email c code w e :
  gate_locked (gate_of c) (next_clock w) = false →
  code_step email c code (next_clock (tick_clock w)) = Err e →
  run (verifyOTP s email c code) w = (Err e, tick_clock w).
Proof.
  intros Hl Hc. unfold verifyOTP. rewrite run_bind, run_Now. cbn [fst snd].
  rewrite IsLocked_gate, Hl, run_bindE.
  pose proof (validateOTP_step email c code (tick_clock w)) as Hv.
  rewrite Hc in Hv. by rewrite Hv.
Qed.

Lemma verifyOTP_reject u email c code w :
  db_ok (w_db w) → two_factor_credentials (w_db w) !! u = Some c →
  (0 ≤ Totp.FailedAttempts c < 2 ^ 31 - 1)%Z →
  gate_locked (gate_of c) (next_clock w) = false →
  code_step email c code (next_clock (tick_clock w)) = Ok None →
  ∃ c' w',
    let g := gate_reject (OTPMaxAttempts sec) (OTPLockoutDuration sec)
               (reading 2 w) (gate_of c) in
    run (verifyOTP s email c code) w =
      (Err (if gate_locked g (reading 4 w) then ErrOTPLocked
            else ErrOTPInvalid), w') ∧
    w_db w' = set_credentials <[u := c']> (w_db w) ∧
    w_sessions w' = w_sessions w ∧ spent 5 1 w w' ∧
    gate_of c' = gate_stored g ∧ same_factor c c'.
Proof.
  intros Hok Hc Hf Hl Hcode.
  pose proof (validateOTP_step email c code (tick_clock w)) as Hv.
  rewrite Hcode in Hv.
  destruct Hv as (ok & n & demo & w1 & Hv & _ & Hw1 & Hb & _).
  specialize (Hw1 eq_refl). subst w1.
  set (max := OTPMaxAttempts sec). set (lo := OTPLockoutDuration sec).
  set (t := reading 2 w). set (fc := Totp.RecordFailure c max lo t (reading 3 w)).
  set (w2 := tick_clock (tick_clock (tick_clock (tick_clock w)))).
  assert (Hg : gate_of fc = gate_reject max lo t (gate_of c)).
  { apply RecordFailure_gate. unfold Int.int4_ok.
    apply bool_decide_eq_true. lia. }
  assert (Hi : Int.int4_ok (Totp.FailedAttempts fc) = true).
  { assert (Totp.FailedAttempts fc = g_failures (gate_of fc)) as -> by done.
    rewrite Hg. unfold gate_reject, Int.int4_ok.
    destruct (bool_decide (max ≤ _)%Z);
      apply bool_decide_eq_true; simpl; lia. }
  assert (Hdb : w_db w2 = w_db w ∧ w_sessions w2 = w_sessions w)
    by done.
  destruct Hdb as [Hdb Hss].
  pose proof (run_UpdateCredential Hhealthy u c fc w2) as Hup.
  rewrite Hdb in Hup. specialize (Hup Hok Hc eq_refl eq_refl Hi).
  set (w3 := set_db _ _) in Hup.
  exists (credential_update fc c), (tick_clock w3).
  cbv zeta. rewrite <-Hg. split_and!; [|done..].
  - unfold verifyOTP. rewrite run_bind, run_Now. cbn [fst snd].
    rewrite IsLocked_gate, Hl, run_bindE, Hv. cbn beta iota zeta.
    rewrite Hb. cbn [bool_decide negb].
    rewrite bool_decide_false by (by intros []). cbn [negb].
    rewrite run_bind, run_Now. cbn [fst snd].
    rewrite run_bind, run_Now. cbn [fst snd].
    rewrite run_bindE, run_wrapE.
    change (Totp.RecordFailure c (OTPMaxAttempts sec) _ _ _) with fc.
    change (tick_clock (tick_clock _)) with w2. rewrite Hup.
    rewrite run_bind, run_Now. cbn [fst snd]. rewrite IsLocked_gate.
    change (next_clock w3) with (reading 4 w).
    by destruct (gate_locked (gate_of fc) (reading 4 w)).
Qed.

Lemma verifyOTP_accept u email c code w n :
  db_ok (w_db w) → two_factor_credentials (w_db w) !! u = Some c →
  gate_locked (gate_of c) (next_clock w) = false →
  code_step email c code (next_clock (tick_clock w)) = Ok (Some n) →
  ∃ c1 c' w',
    run (verifyOTP s email c code) w = (Ok c1, w') ∧
    w_db w' = set_credentials <[u := c']> (w_db w) ∧
    w_sessions w' = w_sessions w ∧
    gate_of c1 = gate_accept n (gate_of c) ∧
    gate_of c' = gate_accept n (gate_of c) ∧ same_factor c c'.
Proof.
  intros Hok Hc Hl Hcode.
  pose proof (validateOTP_step email c code (tick_clock w)) as Hv.
  rewrite Hcode in Hv.
  destruct Hv as (ok & n' & demo & w1 & Hv & Hw1 & _ & Hb & Hn).
  specialize (Hn n eq_refl). subst n'.
  set (sc := Totp.RecordSuccess c n (next_clock w1)).
  assert (Hdb : w_db (tick_clock w1) = w_db w ∧
                w_sessions (tick_clock w1) = w_sessions w)
    by by destruct Hw1 as [-> | ->].
  destruct Hdb as [Hdb Hss].
  pose proof (run_UpdateCredential Hhealthy u c sc (tick_clock w1)) as Hup.
  rewrite Hdb in Hup. specialize (Hup Hok Hc eq_refl eq_refl eq_refl).
  set (w3 := set_db _ _) in Hup.
  exists sc, (credential_update sc c), w3.
  split_and!; [| |exact Hss|done|done|done].
  - unfold verifyOTP. rewrite run_bind, run_Now. cbn [fst snd].
    rewrite IsLocked_gate, Hl, run_bindE, Hv. cbn beta iota zeta.
    rewrite Hb, bool_decide_true by done. cbn [negb].
    rewrite run_bind, run_Now. cbn [fst snd]. fold sc.
    by rewrite run_bindE, run_wrapE, Hup.
  - done.
Qed.

(** The gate's whole step: [t0] is the time the gate is tried, [t1] the time
    a failure is recorded, [t2] the time the answer is chosen, [v] the fresh
    time step the code is good for. *)
Definition gate_run (g : Gate) (t0 t1 t2 : time) (v : option Z) :
    Gate * result unit :=
  if gate_locked g t0 then (g, Err ErrOTPLocked)
  else match v with
       | Some n => (gate_accept n g, Ok tt)
       | None =>
           let g' := gate_reject (OTPMaxAttempts sec)
                       (OTPLockoutDuration sec) t1 g in
           (g', Err (if gate_locked g' t2 then ErrOTPLocked
                     else ErrOTPInvalid))
       end.

Definition outcome {A} (r : result A) : result unit :=
  match r with Ok _ => Ok tt | Err e => Err e end.

(** C9. verifyOTP refines the abstract gate (count of failures, lock-out, last
    accepted time step): in the absence of faults and when the stored secret
    decrypts, its answer is the gate's answer and the stored credential is the
    gate's next state, on the locked, rejecting and accepting branch, the
    gate's times being this submission's own readings of the clock (for the
    lock, for the code, for the failure); nothing else is written. *)
Theorem verifyOTP_refines_gate u email c code v w r w' :
  db_ok (w_db w) → two_factor_credentials (w_db w) !! u = Some c →
  (0 ≤ Totp.FailedAttempts c < 2 ^ 31 - 1)%Z →
  code_step email c code (reading 1 w) = Ok v →
  run (verifyOTP s email c code) w = (r, w') →
  let next := gate_run (gate_of c) (reading 0 w) (reading 2 w) (reading 4 w) v
  in
  outcome r = next.2 ∧
  ∃ c',
    w_db w' = set_credentials <[u := c']> (w_db w) ∧
    w_sessions w' = w_sessions w ∧
    if gate_locked (gate_of c) (reading 0 w) then c' = c
    else gate_of c' = gate_stored next.1 ∧ same_factor c c'.
Proof.
  intros Hok Hc Hf Hv Hr. unfold gate_run. cbv zeta.
  destruct (gate_locked (gate_of c) (reading 0 w)) eqn:Hl.
  - rewrite verifyOTP_locked in Hr by done. injection Hr as <- <-.
    split; [done|]. exists c. split_and!; [|done|done].
    destruct w as [[] ? ? ? ?]. unfold set_credentials. simpl in *.
    by rewrite insert_id.
  - destruct v as [n|].
    + destruct (verifyOTP_accept u email c code w n) as
        (c1 & c' & w1 & H1 & H2 & H3 & _ & H4 & H5); try done.
      rewrite H1 in Hr. injection Hr as <- <-.
      split; [done|]. exists c'. split_and!; done.
    + destruct (verifyOTP_reject u email c code w) as
        (c' & w1 & H1 & H2 & H3 & _ & H4 & H5); try done.
      rewrite H1 in Hr. injection Hr as <- <-. split; [done|]. by exists c'.
Qed.

(** ** Sequences of submissions *)

(** What LoginVerifyOTP, ChangePassword and DeleteAccount do with a code:
    the credential is read, then the code is submitted. *)
Definition attempt (u : uuid) (email code : string) : go unit :=
  let? c := TwoFactorCredentialRepository.GetByUserID u in
  let? _ := verifyOTP s email c code in
  returnOk tt.







End gate.

(** ** Replay, whatever the faults *)

Section replay.
Context `{PT : PgTime, EV : Env, SS : SessionStore, L : Lib, U : Unicode}.
Variable s : AuthService.
Implicit Types (w : World).

Lemma attempt_Ok u email code w w' :
  db_ok (w_db w) →
  run (attempt s u email code) w = (Ok tt, w') →
  ∃ c n demo c',
    two_factor_credentials (w_db w) !! u = Some c ∧
    code_accepted s email c code (reading 1 w) n demo ∧
    two_factor_credentials (w_db w') !! u = Some c' ∧
    Totp.SecretEncrypted c' = Totp.SecretEncrypted c ∧
    gate_of c' = gate_accept n (gate_of c).
Proof.
  intros Hok (c & w1 & H1 & H)%run_bindE_Ok.
  apply CredentialByUser_Ok in H1 as [Hc ->].
  apply run_bindE_Ok in H as (c1 & w2 & H2 & H). injection H as <-.
  apply verifyOTP_Ok in H2 as
    (_ & n & demo & old & Hacc & -> & Hold & Hc2 & _).
  simpl in *. pose proof (ok_creds_key _ Hok _ _ Hc) as Hkey. simpl in Hkey.
  rewrite Hkey in Hold, Hc2. rewrite Hc in Hold. injection Hold as <-.
  exists c, n, demo. eexists. rewrite Hc2, lookup_insert_eq.
  by split_and!.
Qed.

(** C14. Two codes accepted one after the other for the same account (not the
    demo account) are TOTPs of strictly increasing time steps, whatever faults
    occur: no code is accepted twice. *)
Theorem accepted_codes_increase u email code1 code2 w w1 w2 :
  db_ok (w_db w) → email ≠ demoAccountEmail →
  run (attempt s u email code1) w = (Ok tt, w1) →
  run (attempt s u email code2) w1 = (Ok tt, w2) →
  ∃ c secret n1 n2,
    two_factor_credentials (w_db w) !! u = Some c ∧
    Decrypt (svc_cipher s) (Totp.SecretEncrypted c) = Ok secret ∧
    ValidateAt code1 secret (reading 1 w) = (true, n1) ∧
    ValidateAt code2 secret (reading 1 w1) = (true, n2) ∧
    (n1 < n2)%Z ∧
    Totp.LastUsedCounter <$> two_factor_credentials (w_db w2) !! u =
      Some (Some n2).
Proof.
  intros Hok He H1 H2.
  assert (Hok1 : db_ok (w_db w1)).
  { replace w1 with (run (attempt s u email code1) w).2 by by rewrite H1.
    by apply run_ok. }
  apply attempt_Ok in H1 as (c & n1 & d1 & c1 & Hc & Ha1 & Hc1 & Hs1 & Hl1);
    [|done].
  apply attempt_Ok in H2 as (c1' & n2 & d2 & c2 & Hc1' & Ha2 & Hc2 & _ & Hl2);
    [|done].
  injection Hl1 as _ _ Hl1. injection Hl2 as _ _ Hl2.
  rewrite Hc1 in Hc1'. injection Hc1' as <-.
  destruct d1; [by destruct Ha1|]. destruct d2; [by destruct Ha2|].
  destruct Ha1 as (_ & sec1 & D1 & V1 & _).
  destruct Ha2 as (_ & sec2 & D2 & V2 & C2).
  rewrite Hs1, D1 in D2. injection D2 as <-.
  exists c, sec1, n1, n2. split_and!; try done.
  - unfold Totp.IsCodeConsumed in C2. rewrite Hl1 in C2. guards. lia.
  - rewrite Hc2. simpl. by rewrite Hl2.
Qed.

(** C38. Accepting the demo account's fixed code sets the account's last used
    time step to 0: without faults, a TOTP whose time step counted as used
    before is accepted again, as long as that step is the current or the next
    one. *)
Theorem demo_code_rewinds_replay_guard u w w' :
  healthy → db_ok (w_db w) →
  run (attempt s u demoAccountEmail demoOTPCode) w = (Ok tt, w') →
  ∃ c c',
    two_factor_credentials (w_db w) !! u = Some c ∧
    two_factor_credentials (w_db w') !! u = Some c' ∧
    Totp.LastUsedCounter c' = Some 0%Z ∧
    (* a code that was used is accepted once more, as long as it is the code
       of a current time step *)
    ∀ secret code n w2,
      Decrypt (svc_cipher s) (Totp.SecretEncrypted c) = Ok secret →
      Totp.IsCodeConsumed c n = true → (0 < n)%Z →
      ValidateAt code secret (reading 1 w2) = (true, n) →
      db_ok (w_db w2) → two_factor_credentials (w_db w2) !! u = Some c' →
      (run (attempt s u demoAccountEmail code) w2).1 = Ok tt.
Proof.
  intros Hh Hok H.
  apply attempt_Ok in H as (c & n & d & c' & Hc & Ha & Hc' & Hs & Hg); [|done].
  assert (n = 0%Z) as ->.
  { destruct d; [by destruct Ha as (_ & _ & ?)|].
    destruct Ha as [Hn _]. by destruct Hn. }
  exists c, c'. pose proof Hg as [= _ _ Hl]. split_and!; [done..|].
  intros secret code n w2 Hd _ Hn Hv Hok2 Hc2.
  assert (Hst : ∃ m, code_step s demoAccountEmail c' code (reading 1 w2) =
                     Ok (Some m)).
  { unfold code_step. destruct (_ && _); [by eexists|].
    rewrite Hs, Hd, Hv, Hg. unfold gate_fresh. simpl.
    rewrite bool_decide_true by lia. by eexists. }
  destruct Hst as [m Hst]. unfold attempt.
  rewrite run_bindE, (run_CredentialByUser Hh u c') by done.
  destruct (verifyOTP_accept s Hh u demoAccountEmail c' code (tick_io w2) m)
    as (c1 & c2 & w3 & H1 & _); [done|done|by rewrite Hg|done|].
  by rewrite run_bindE, H1.
Qed.
End replay.

(** ** Witnesses *)

Definition no_credential : Totp.Credential := Totp.New 0 "" "" 0 0.
Definition demo_credential : Totp.Credential :=
  default no_credential (two_factor_credentials (w_db demo_world) !! 1000%N).

Lemma demo_healthy : healthy.
Proof. done. Qed.

Definition demo_verify : result Totp.Credential * World :=
  run (verifyOTP demo_service "bee@example.com" demo_credential "999999")
    demo_world.

(** A wrong code. *)
Lemma verifyOTP_refines_gate_witness :
  outcome demo_verify.1 = Err ErrOTPInvalid ∧
  outcome demo_verify.1 =
    (gate_run demo_service (gate_of demo_credential) (reading 0 demo_world)
       (reading 2 demo_world) (reading 4 demo_world) None).2 ∧
  ∃ c',
    w_db demo_verify.2 = set_credentials <[1000%N := c']> (w_db demo_world).
Proof.
  split; [by vm_compute|].
  destruct (verifyOTP_refines_gate demo_service demo_healthy 1000%N
              "bee@example.com" demo_credential "999999" None demo_world
              demo_verify.1 demo_verify.2) as [H1 (c' & H2 & _)].
  - exact demo_world_ok.
  - by vm_compute.
  - by vm_compute.
  - by vm_compute.
  - unfold demo_verify. by destruct (run _ _).
  - split; [exact H1|]. exists c'. exact H2.
Defined.




(** The same account submits the current code, then the next one (the
    validation allows for a clock one step ahead). *)
Definition demo_next_code (w : World) : string :=
  demo_digits (Z.quot (Unix (clock (n_clock (w_counters w)))) 30 + 1).
Definition demo_first : result unit * World :=
  run (attempt demo_service 1000%N "bee@example.com" (demo_code demo_world))
    demo_world.
Definition demo_second : result unit * World :=
  run (attempt demo_service 1000%N "bee@example.com"
         (demo_next_code demo_first.2)) demo_first.2.

Lemma accepted_codes_increase_witness :
  ∃ secret n1 n2,
    ValidateAt (demo_code demo_world) secret (reading 1 demo_world) =
      (true, n1) ∧
    ValidateAt (demo_next_code demo_first.2) secret (reading 1 demo_first.2) =
      (true, n2) ∧
    (n1 < n2)%Z.
Proof.
  destruct (accepted_codes_increase demo_service 1000%N "bee@example.com"
              (demo_code demo_world) (demo_next_code demo_first.2)
              demo_world demo_first.2 demo_second.2)
    as (c & secret & n1 & n2 & _ & _ & H1 & H2 & H3 & _).
  - exact demo_world_ok.
  - done.
  - vm_compute. reflexivity.
  - vm_compute. reflexivity.
  - exists secret, n1, n2.
    split; [exact H1|]. split; [exact H2|exact H3].
Defined.

(** The demo account, registered and set up like any other, with the code
    that enabled its second factor. *)
Definition demo_registration : result RegisterResult * World :=
  run (Register demo_service (mkRegisterInput "demo@gmail.com" "demo"))
    demo_start.
Definition demo_used_code : string := demo_code demo_registration.2.
Definition demo_account : World :=
  let token := match demo_registration.1 with
               | Ok r => rr_SetupToken r | Err _ => "" end in
  (run (SetupVerifyOTP demo_service token demo_used_code)
     demo_registration.2).2.
Lemma demo_account_ok : db_ok (w_db demo_account).
Proof. unfold demo_account. do 2 apply run_ok. exact db_ok_empty. Qed.
Definition demo_rewind : result unit * World :=
  run (attempt demo_service 1000%N demoAccountEmail demoOTPCode) demo_account.
Lemma demo_rewind_ok : db_ok (w_db demo_rewind.2).
Proof. unfold demo_rewind. apply run_ok. exact demo_account_ok. Qed.

(** The code that was used is refused, until the fixed code is submitted. *)
Lemma demo_code_rewinds_replay_guard_witness :
  (run (attempt demo_service 1000%N demoAccountEmail demo_used_code)
     demo_account).1 = Err ErrOTPInvalid ∧
  (run (attempt demo_service 1000%N demoAccountEmail demo_used_code)
     demo_rewind.2).1 = Ok tt.
Proof.
  split; [vm_compute; reflexivity|].
  destruct (demo_code_rewinds_replay_guard demo_service 1000%N demo_account
              demo_rewind.2) as (c & c' & Hc & Hc' & _ & H).
  - exact demo_healthy.
  - exact demo_account_ok.
  - vm_compute. reflexivity.
  - assert (Ec : c = default no_credential
      (two_factor_credentials (w_db demo_account) !! 1000%N))
      by (rewrite Hc; reflexivity).
    subst c. apply (H "SECRET1" demo_used_code
      (ValidateAt demo_used_code "SECRET1" (reading 1 demo_rewind.2)).2).
    + vm_compute. reflexivity.
    + vm_compute. reflexivity.
    + vm_compute. reflexivity.
    + vm_compute. reflexivity.
    + exact demo_rewind_ok.
    + exact Hc'.
Defined.
