(* ===== verification/Passwords.v ===== *)
(** * Passwords: ChangePassword and the reset flow

    What a successful change or reset did, what it required, and what the
    public reset endpoints cannot be used for. *)
From S2P Require Import Prelude Tables GoBase Domain Schema Effects Logic.
From S2P Require Import GoStrings Platform Postgres Service Footprint.
From S2P Require Import Integrity Repositories Healthy ServiceFacts.
From S2P Require Import OtpGate Demo.
#[local] Open Scope go_scope.

Section passwords.
Context `{PT : PgTime, EV : Env, SS : SessionStore, SL : !SessionStoreLaws,
          L : Lib, BL : !BcryptLaws, U : Unicode}.
Variable s : AuthService.
#[local] Abbreviation sec := (svc_security s).
Implicit Types (w : World).

(** Every session of [user] has ended: no live refresh token, no active
    session; the tokens of others are as they were. *)
Record sessions_ended (user : uuid) (w w' : World) : Prop := {
  ended_tokens : ∀ k t, refresh_tokens (w_db w') !! k = Some t →
                   live_token_of user t = false;
  ended_store : ∀ t, ss_active (w_sessions w') t user = None;
  ended_others : ∀ k t, refresh_tokens (w_db w) !! k = Some t →
                   Token.UserID t ≠ user →
                   refresh_tokens (w_db w') !! k = Some t;
  ended_other_store : ∀ t u, u ≠ user →
                   ss_active (w_sessions w') t u =
                   ss_active (w_sessions w) t u
}.

Lemma end_sessions_ended user m1 m2 w w' :
  run (end_sessions s user m1 m2) w = (Ok tt, w') →
  sessions_ended user w w' ∧
  (∀ T, T ≠ RefreshTokens → same_table T (w_db w) (w_db w')).
Proof.
  intros ((now & Ht) & Htab & now2 & Hs & _)%end_sessions_Ok.
  split; [|done]. split.
  - intros k t. rewrite Ht. apply update_where_none_live.
  - intros t. rewrite Hs. apply ss_prev_none.
  - intros k t Hk Hu. rewrite Ht. unfold update_where.
    rewrite lookup_fmap, Hk. simpl. unfold live_token_of.
    by rewrite bool_decide_false.
  - intros t u Hu. rewrite Hs. by apply ss_prev_other.
Qed.

Lemma sessions_ended_from user w w1 w' :
  sessions_ended user w1 w' →
  refresh_tokens (w_db w1) = refresh_tokens (w_db w) →
  w_sessions w1 = w_sessions w →
  sessions_ended user w w'.
Proof. intros [] Ht Hs. split; rewrite <-?Ht, <-?Hs; done. Qed.

Lemma run_Hash h p w :
  run (Hash h p) w =
  (bcrypt_GenerateFromPassword (entropy (n_entropy (w_counters w))) p
     (cost h), tick_entropy w).
Proof. done. Qed.

Lemma Hash_Ok h p w hash w' :
  run (Hash h p) w = (Ok hash, w') →
  Verify h hash p = Ok tt ∧ w' = tick_entropy w.
Proof.
  rewrite run_Hash. intros [= Hh <-]. split; [|done].
  by eapply bcrypt_roundtrip.
Qed.

(** C19. When ChangePassword succeeds, the current password verified, the
    second factor was not locked out, and the code was an unused TOTP of its
    secret at this request's reading of the clock, or the demo account's fixed
    code (which is no TOTP); afterwards the new password verifies, the TOTP's
    time step is recorded as the last one used (step 0 for the fixed code),
    and every session of the user, and of no one else, has ended. *)
Theorem ChangePassword_success userID inp w w' :
  db_ok (w_db w) →
  run (ChangePassword s userID inp) w = (Ok tt, w') →
  ∃ u cred n demo hash,
    (* required: the current password and the second factor *)
    users (w_db w) !! userID = Some u ∧
    Verify (svc_hasher s) (User.PasswordHash u) (cpi_CurrentPassword inp) =
      Ok tt ∧
    two_factor_credentials (w_db w) !! userID = Some cred ∧
    Totp.IsLocked cred (reading 0 w) = false ∧
    code_accepted s (User.Email u) cred (cpi_OTP inp) (reading 1 w) n demo ∧
    (* done: the new password verifies, every session has ended *)
    users (w_db w') =
      <[userID := User.ChangePassword u hash (db_reading 3 w)]>
        (users (w_db w)) ∧
    Verify (svc_hasher s) hash (cpi_NewPassword inp) = Ok tt ∧
    two_factor_credentials (w_db w') =
      <[userID := credential_update
                    (Totp.RecordSuccess cred n
                       (reading (if demo : bool then 1 else 2) w)) cred]>
        (two_factor_credentials (w_db w)) ∧
    sessions_ended userID w w' ∧
    (∀ T, T ∈ [Challenges; Flows; Jobs; Steps] →
          same_table T (w_db w) (w_db w')).
Proof.
  intros Hok. unfold ChangePassword. intros H. step H u w1 H1.
  apply GetByID_Ok in H1 as [Hu ->].
  destruct (Verify _ (User.PasswordHash u) _) as [[]|] eqn:Hv; [|done].
  apply run_bind_inv in H as (r & w1 & H1 & H).
  destruct r as [cred|e]; [|by destruct (errors_Is _ _)].
  apply CredentialByUser_Ok in H1 as [Hc ->].
  step H c1 w2 H1. apply verifyOTP_Ok in H1 as
    (Hl & n & demo & old & Hacc & -> & Hold & Hc2 & Ht2 & Hs2 & Hsp).
  pose proof (ok_creds_key _ Hok _ _ Hc) as Hkey. simpl in Hkey, Hold, Hc2, Hc.
  rewrite Hkey in Hold, Hc2. rewrite Hc in Hold. injection Hold as <-.
  step H hash w3 H3. apply Hash_Ok in H3 as [Hh ->].
  step H x w4 H4. destruct x. apply UpdatePassword_Ok in H4
    as (u' & Hu' & ->).
  apply end_sessions_ended in H as [He Ht].
  pose proof (Ht2 Users ltac:(done)) as Hus. simpl in Hus, Hu'.
  rewrite <-Hus, Hu in Hu'. injection Hu' as <-.
  change (next_now (tick_entropy w2)) with (db_reading 0 w2) in *.
  rewrite (db_reading_spent _ _ _ _ _ Hsp) in *.
  exists u, cred, n, demo, hash.
  split_and!; try done.
  - pose proof (Ht Users ltac:(done)) as Hx. simpl in Hx. rewrite <-Hx.
    by rewrite Hus.
  - pose proof (Ht Credentials ltac:(done)) as Hx. simpl in Hx.
    rewrite <-Hx. by destruct demo.
  - eapply sessions_ended_from; [done| |done].
    simpl. pose proof (Ht2 RefreshTokens ltac:(done)) as Hx. by simpl in Hx.
  - intros T HT. assert (T ≠ RefreshTokens ∧ T ≠ Credentials ∧ T ≠ Users)
      as (? & ? & ?) by (rewrite list_elem_of_In in HT; simpl in HT;
                         intuition congruence).
    etrans; [by apply Ht2|]. etrans; [|by apply Ht]. by destruct T.
Qed.

(** ** ConfirmPasswordReset *)

Lemma ConfirmPasswordReset_Ok resetToken newPassword w w' :
  db_ok (w_db w) →
  run (ConfirmPasswordReset s resetToken newPassword) w = (Ok tt, w') →
  ∃ f userID u hash now now2,
    (* required: a verified, unused flow and its token, both in date *)
    password_reset_flows (w_db w) !! PasswordReset.ID f = Some f ∧
    PasswordReset.ResetTokenHash f = Some (tokenhash_Hash resetToken) ∧
    PasswordReset.IsOTPVerified f = true ∧
    PasswordReset.IsConsumed f = false ∧
    PasswordReset.IsExpired f (next_clock w) = false ∧
    PasswordReset.IsResetTokenValid f (next_clock (tick_clock w)) = true ∧
    PasswordReset.UserID f = Some userID ∧
    users (w_db w) !! userID = Some u ∧
    (* done: the new password verifies, the flow is used up, every session
       of the account has ended *)
    users (w_db w') =
      <[userID := User.ChangePassword u hash now]> (users (w_db w)) ∧
    Verify (svc_hasher s) hash newPassword = Ok tt ∧
    password_reset_flows (w_db w') =
      <[PasswordReset.ID f :=
          flow_update (PasswordReset.Consume f now2) f]>
        (password_reset_flows (w_db w)) ∧
    sessions_ended userID w w' ∧
    (∀ T, T ∈ [Credentials; Challenges; Jobs; Steps] →
          same_table T (w_db w) (w_db w')).
Proof.
  intros Hok. unfold ConfirmPasswordReset.
  intros (r & w1 & H1 & H)%run_bind_inv.
  destruct r as [f|e]; [|by destruct (errors_Is _ _)].
  apply FlowByResetHash_Ok in H1 as ([k Hf] & Hh & ->).
  read_clock H. read_clock H. destruct (_ || _) eqn:E; [done|]. guards.
  destruct (PasswordReset.UserID f) as [userID|] eqn:Huid; [|done].
  step H hash w3 G3. apply Hash_Ok in G3 as [Hv ->].
  step H x w4 G4. destruct x. apply UpdatePassword_Ok in G4
    as (u & Hu & ->).
  read_clock H. step H x w5 G5. destruct x.
  apply UpdateFlow_Ok in G5 as (old & Hold & ->).
  apply end_sessions_ended in H as [He Ht].
  pose proof (ok_flows_key _ Hok _ _ Hf) as Hkey.
  simpl in Hkey, Hu, Hold. rewrite Hkey, Hf in Hold. injection Hold as <-.
  match goal with H : sessions_ended _ (set_db (set_flows
    <[_ := flow_update (PasswordReset.Consume _ ?n) _]> _) _) _ |- _ =>
      set (now2 := n) in * end.
  match goal with H : sessions_ended _ (set_db (set_flows _ (w_db
    (tick_clock (set_db (set_users (λ _,
      <[_ := User.ChangePassword _ _ ?n]> _) _) _)))) _) _ |- _ =>
      set (now := n) in * end.
  exists f, userID, u, hash, now, now2.
  rewrite Hkey in *. split_and!; try done.
  - symmetry. exact (Ht Users ltac:(done)).
  - rewrite <-Hkey. symmetry. exact (Ht Flows ltac:(done)).
  - by eapply sessions_ended_from.
  - intros T HT. assert (T ≠ RefreshTokens ∧ T ≠ Flows ∧ T ≠ Users)
      as (? & ? & ?) by (rewrite list_elem_of_In in HT; simpl in HT;
                         intuition congruence).
    etrans; [|by apply Ht]. by destruct T.
Qed.

(** A used flow's token is refused, and nothing changes. *)
Lemma ConfirmPasswordReset_refused k f resetToken p w r w' :
  db_ok (w_db w) → password_reset_flows (w_db w) !! k = Some f →
  PasswordReset.ResetTokenHash f = Some (tokenhash_Hash resetToken) →
  PasswordReset.IsConsumed f = true →
  run (ConfirmPasswordReset s resetToken p) w = (r, w') →
  is_Ok r = false ∧ w_db w' = w_db w ∧ w_sessions w' = w_sessions w.
Proof.
  intros Hok Hf Hh Hc. unfold ConfirmPasswordReset.
  intros (r1 & w1 & H1 & H)%run_bind_inv.
  pose proof (FlowByResetHash_row _ _ _ _ _ _ (ok_flows_reset_hash _ Hok)
    Hf Hh H1) as [-> [->|[m ->]]].
  - cbn iota beta in H. read_clock H. read_clock H.
    rewrite Hc, orb_true_r in H. cbn in H. by injection H as <- <-.
  - cbn iota beta in H. rewrite errors_Is_fault in H by done.
    by injection H as <- <-.
Qed.

(** C17. When ConfirmPasswordReset succeeds, the token belonged to a flow
    whose second factor was verified, unused and in date; afterwards the bound
    account's password verifies as the new one, the flow is consumed, every
    session of the account has ended, and no other account changed; the same
    token presented again, with any password and whatever fails, is an error
    and changes nothing. *)
Theorem ConfirmPasswordReset_success resetToken newPassword w w' :
  db_ok (w_db w) →
  run (ConfirmPasswordReset s resetToken newPassword) w = (Ok tt, w') →
  (∃ f userID u hash now now2,
    (* required: a verified, unused flow and its token, both in date *)
    password_reset_flows (w_db w) !! PasswordReset.ID f = Some f ∧
    PasswordReset.ResetTokenHash f = Some (tokenhash_Hash resetToken) ∧
    PasswordReset.IsOTPVerified f = true ∧
    PasswordReset.IsConsumed f = false ∧
    PasswordReset.IsExpired f (next_clock w) = false ∧
    PasswordReset.IsResetTokenValid f (next_clock (tick_clock w)) = true ∧
    PasswordReset.UserID f = Some userID ∧
    users (w_db w) !! userID = Some u ∧
    (* done: the new password verifies, the flow is used up, every session
       of the account has ended *)
    users (w_db w') =
      <[userID := User.ChangePassword u hash now]> (users (w_db w)) ∧
    Verify (svc_hasher s) hash newPassword = Ok tt ∧
    password_reset_flows (w_db w') =
      <[PasswordReset.ID f :=
          flow_update (PasswordReset.Consume f now2) f]>
        (password_reset_flows (w_db w)) ∧
    sessions_ended userID w w' ∧
    (∀ T, T ∈ [Credentials; Challenges; Jobs; Steps] →
          same_table T (w_db w) (w_db w'))) ∧
  (* the token has served: presented again, whatever fails *)
  ∀ again r w2,
    run (ConfirmPasswordReset s resetToken again) w' = (r, w2) →
    is_Ok r = false ∧ w_db w2 = w_db w' ∧ w_sessions w2 = w_sessions w'.
Proof.
  intros Hok Hr. assert (Hok' : db_ok (w_db w')).
  { replace w' with (run (ConfirmPasswordReset s resetToken newPassword) w).2
      by by rewrite Hr. by apply run_ok. }
  apply ConfirmPasswordReset_Ok in Hr; [|done]. split; [exact Hr|].
  destruct Hr as (f & u & usr & h & n1 & n2 & _ & Hh & _ & _ & _ & _ & _ & _ &
    _ & _ & Hf & _). intros again r w2 H2.
  eapply (ConfirmPasswordReset_refused (PasswordReset.ID f));
    [done|rewrite Hf; apply lookup_insert_eq|done|done|done].
Qed.

(** ** RequestPasswordReset *)

(** Looking the account up: the database is only read, and only the count
    of its round trips is different afterwards. *)
Definition only_io w w' : Prop :=
  w_db w' = w_db w ∧ w_sessions w' = w_sessions w ∧
  n_clock (w_counters w') = n_clock (w_counters w) ∧
  n_uuid (w_counters w') = n_uuid (w_counters w) ∧
  n_rand (w_counters w') = n_rand (w_counters w).

Lemma only_io_tick w : only_io w (tick_io w).
Proof. done. Qed.

(** RequestPasswordReset's first half. *)
Definition eligible_account (email : string) : go (option uuid) :=
  let! found := UserRepository.GetByEmail (normalizeEmail email) in
  match found with
  | Ok u =>
      let! cred :=
        TwoFactorCredentialRepository.GetByUserID u.(User.ID) in
      match cred with
      | Err credErr =>
          if negb (errors_Is credErr Totp_ErrNotFound)
          then returnErr credErr else returnOk None
      | Ok cred =>
          returnOk (if Totp.IsEnabled cred then Some u.(User.ID) else None)
      end
  | Err err =>
      if errors_Is err User_ErrNotFound then returnOk None
      else returnErr err
  end.

Lemma run_eligible_account email w :
  healthy → db_ok (w_db w) →
  ∃ e w1, run (eligible_account email) w = (Ok e, w1) ∧ only_io w w1 ∧
          ∀ u, e = Some u → is_Some (users (w_db w) !! u).
Proof.
  intros Hh Hok. unfold eligible_account.
  destruct (select_one (λ v, bool_decide (User.Email v = normalizeEmail email))
              (users (w_db w))) as [u|] eqn:Hs.
  - rewrite run_bind. unfold UserRepository.GetByEmail, UserRepository.scanOne.
    rewrite (run_scan_one Hh _ _ _ u)
      by (intros now; simpl; unfold users_by_email; by rewrite Hs).
    cbn [fst snd]. apply select_one_Some in Hs as [_ [k Hk]].
    pose proof (ok_users_key _ Hok _ _ Hk) as Hkey. simpl in Hkey.
    rewrite run_bind.
    destruct (two_factor_credentials (w_db w) !! User.ID u) as [c|] eqn:Hc.
    + rewrite (run_CredentialByUser Hh _ c) by done. cbn [fst snd].
      eexists _, _. split_and!; [done|done|].
      intros v Hv. destruct (Totp.IsEnabled c); [|done].
      injection Hv as <-. rewrite Hkey. eauto.
    + rewrite (run_CredentialByUser_none Hh) by done. cbn [fst snd].
      by eexists _, _.
  - rewrite run_bind. unfold UserRepository.GetByEmail, UserRepository.scanOne.
    rewrite (run_scan_none Hh)
      by (intros now; simpl; unfold users_by_email; by rewrite Hs).
    cbn [fst snd]. by eexists _, _.
Qed.

(** The other half: the flow is stored. *)
Lemma RequestPasswordReset_from email e b w w1 :
  healthy → run (eligible_account email) w = (Ok e, w1) → only_io w w1 →
  (∀ u, e = Some u → is_Some (users (w_db w) !! u)) →
  rand_read (n_rand (w_counters w)) rawTokenBytes = Ok b →
  password_reset_flows (w_db w) !! gen_uuid (n_uuid (w_counters w)) = None →
  (∀ k f, password_reset_flows (w_db w) !! k = Some f →
          PasswordReset.FlowTokenHash f ≠
          tokenhash_Hash (base64_encode b)) →
  ∃ w',
    run (RequestPasswordReset s email) w =
      (Ok {| prr_FlowToken := base64_encode b;
             prr_ExpiresAt :=
               TimeAdd (next_clock w) (PasswordResetFlowTTL sec) |}, w') ∧
    (let f := PasswordReset.New e (tokenhash_Hash (base64_encode b))
                (PasswordResetFlowTTL sec) (next_clock w)
                (gen_uuid (n_uuid (w_counters w))) in
     w_db w' = set_flows <[PasswordReset.ID f := flow_row f]> (w_db w)) ∧
    w_sessions w' = w_sessions w.
Proof.
  intros Hh He (Hdb & Hss & Hck & Huu & Hrd) Hu Hb Hid Hfresh.
  unfold RequestPasswordReset. rewrite run_bind, run_bindE.
  unfold eligible_account in He. rewrite run_bind in He.
  rewrite He. clear He. rewrite run_bindE, run_wrapE.
  unfold tokenhash_Generate. rewrite run_bindE, run_wrapE, run_perform.
  cbn [handle]. rewrite Hrd, Hb. unfold returnOk. cbn [run].
  rewrite run_bind, run_Now. cbn [fst snd]. rewrite run_bind, run_perform.
  cbn [handle fst snd]. set (w2 := tick_uuid _).
  assert (Hdb2 : w_db w2 = w_db w) by done.
  assert (Hnow : next_clock (tick_rand w1) = next_clock w)
    by (unfold next_clock; simpl; by rewrite Hck).
  assert (Hgen : n_uuid (w_counters (tick_clock (tick_rand w1))) =
                 n_uuid (w_counters w)) by done.
  rewrite Hnow, Hgen. cbv zeta. set (f := PasswordReset.New _ _ _ _ _).
  rewrite run_bindE, run_wrapE, (run_CreateFlow Hh f w2); try done.
  - eexists. split; [done|]. split; [by simpl; rewrite Hdb|exact Hss].
  - by rewrite Hdb2.
  - intros k v. rewrite Hdb2. apply Hfresh.
  - intros u. rewrite Hdb2. apply Hu.
Qed.

(** The answer to a reset request does not depend on the address. *)
Lemma RequestPasswordReset_blind email b w r w' :
  healthy → db_ok (w_db w) →
  rand_read (n_rand (w_counters w)) rawTokenBytes = Ok b →
  password_reset_flows (w_db w) !! gen_uuid (n_uuid (w_counters w)) = None →
  (∀ k f, password_reset_flows (w_db w) !! k = Some f →
          PasswordReset.FlowTokenHash f ≠
          tokenhash_Hash (base64_encode b)) →
  run (RequestPasswordReset s email) w = (r, w') →
  r = Ok {| prr_FlowToken := base64_encode b;
            prr_ExpiresAt :=
              TimeAdd (next_clock w) (PasswordResetFlowTTL sec) |} ∧
  (∀ T, T ≠ Flows → same_table T (w_db w) (w_db w')) ∧
  w_sessions w' = w_sessions w.
Proof.
  intros Hh Hok Hb Hid Hfresh Hr.
  destruct (run_eligible_account email w Hh Hok) as (e & w1 & He & Hio & Hu).
  destruct (RequestPasswordReset_from email e b w w1) as (w2 & H2 & Hdb & Hs);
    try done.
  rewrite H2 in Hr. injection Hr as <- <-. split_and!; [done| |done].
  intros T HT. rewrite Hdb. by destruct T.
Qed.

(** ** VerifyPasswordResetOTP *)

(** A code the flow accepts. *)
Lemma reset_code_valid_Ok f code w w' :
  db_ok (w_db w) →
  run (reset_code_valid s f code) w = (Ok true, w') →
  ∃ userID cred u n demo,
    PasswordReset.UserID f = Some userID ∧
    two_factor_credentials (w_db w) !! userID = Some cred ∧
    Totp.IsEnabled cred = true ∧
    users (w_db w) !! userID = Some u ∧
    code_accepted s (User.Email u) cred code (reading 0 w) n demo ∧
    w_db w' = (if demo : bool then w_db w
               else set_credentials
                      <[userID := credential_update
                                    (Totp.MarkCodeUsed cred n (reading 1 w))
                                    cred]>
                      (w_db w)) ∧
    w_sessions w' = w_sessions w ∧
    spent (if demo then 0 else 2) (if demo then 2 else 3) w w'.
Proof.
  intros Hok. unfold reset_code_valid.
  destruct (PasswordReset.UserID f) as [userID|]; [|done].
  intros (r & w1 & H1 & H)%run_bind_inv.
  destruct r as [cred|e]; [|by destruct (negb _)].
  apply CredentialByUser_Ok in H1 as [Hc ->].
  destruct (Totp.IsEnabled cred) eqn:Hen; [|done].
  step H u w1 H1. apply GetByID_Ok in H1 as [Hu ->].
  step H v w2 H2. destruct v as [[ok n] demo].
  apply validateOTP_Ok in H2 as [(Hv & He & Hd & ->)|(Hn & sec' & Hs & Hv & ->)].
  - injection Hv as -> -> ->. injection H as <-.
    exists userID, cred, u, 0%Z, true. by split_and!.
  - injection Hv as Hv ->. cbn beta iota zeta in H.
    destruct (ok && _) eqn:E; [|done]. guards. subst ok.
    simpl in H1. guards. read_clock H. step H x w3 H3. destruct x.
    injection H as <-. apply UpdateCredential_Ok in H3 as (old & Hold & ->).
    pose proof (ok_creds_key _ Hok _ _ Hc) as Hkey. simpl in Hkey, Hold.
    rewrite Hkey, Hc in Hold. injection Hold as <-.
    exists userID, cred, u, n, false.
    split_and!; try done.
    + split; [done|]. by exists sec'.
    + simpl. by rewrite Hkey.
Qed.

(** What a reset token that was handed out required, and its effect. *)
Lemma VerifyPasswordResetOTP_success flowToken code w res w' :
  db_ok (w_db w) →
  run (VerifyPasswordResetOTP s flowToken code) w = (Ok res, w') →
  ∃ f userID cred u n demo,
    (* required: an open flow with attempts left, bound to an account whose
       second factor is enabled, and a code accepted for that account *)
    password_reset_flows (w_db w) !! PasswordReset.ID f = Some f ∧
    PasswordReset.FlowTokenHash f = tokenhash_Hash flowToken ∧
    PasswordReset.IsExpired f (reading 0 w) = false ∧
    PasswordReset.IsConsumed f = false ∧
    PasswordReset.IsOTPVerified f = false ∧
    (PasswordReset.OTPAttempts f < ResetFlowMaxOTPAttempts sec)%Z ∧
    PasswordReset.UserID f = Some userID ∧
    users (w_db w) !! userID = Some u ∧
    two_factor_credentials (w_db w) !! userID = Some cred ∧
    Totp.IsEnabled cred = true ∧
    code_accepted s (User.Email u) cred code (reading 1 w) n demo ∧
    (* done: the flow is verified and carries the reset token's hash, the
       code is used up; no account and no session changed *)
    password_reset_flows (w_db w') =
      <[PasswordReset.ID f :=
          flow_update
            (PasswordReset.IssueResetToken
               (PasswordReset.MarkOTPVerified f
                  (reading (if demo : bool then 1 else 3) w))
               (tokenhash_Hash (pro_ResetToken res))
               (PasswordResetTokenTTL sec)
               (reading (if demo then 2 else 4) w)) f]>
        (password_reset_flows (w_db w)) ∧
    two_factor_credentials (w_db w') =
      (if demo then two_factor_credentials (w_db w)
       else <[userID := credential_update
                          (Totp.MarkCodeUsed cred n (reading 2 w)) cred]>
              (two_factor_credentials (w_db w))) ∧
    (∀ T, T ∈ [Users; RefreshTokens; Challenges; Jobs; Steps] →
          same_table T (w_db w) (w_db w')) ∧
    w_sessions w' = w_sessions w.
Proof.
  intros Hok. unfold VerifyPasswordResetOTP.
  intros (r & w1 & H1 & H)%run_bind_inv.
  destruct r as [f|e]; [|by destruct (errors_Is _ _)].
  apply FlowByFlowHash_Ok in H1 as ([k Hf] & Hh & ->).
  read_clock H. destruct (_ || _) eqn:E; [done|].
  apply orb_false_iff in E as [[Hexp Hcons]%orb_false_iff Hver].
  destruct (PasswordReset.IsOTPLocked _ _) eqn:Hlock; [done|].
  step H valid w2 H2.
  destruct valid; cbn [negb] in H.
  2:{ exfalso. destruct (PasswordReset.RecordOTPFailure _ _) as [f' lk].
      step H x w3 H3. by destruct lk. }
  apply reset_code_valid_Ok in H2 as (userID & cred & u & n & demo & Hid & Hc &
    Hen & Hu & Hacc & Hdb & Hss & Hsp); [|done].
  step H tok w3 H3. apply tokenhash_Generate_Ok in H3 as (b & _ & _ & ->).
  read_clock H. read_clock H. step H x w4 H4. destruct x.
  apply UpdateFlow_Ok in H4 as (old & Hold & ->). injection H as <- <-.
  change (next_clock (tick_clock (tick_rand w2))) with (reading 1 w2).
  change (next_clock (tick_rand w2)) with (reading 0 w2).
  rewrite !(reading_spent _ _ _ _ _ Hsp).
  pose proof (ok_flows_key _ Hok _ _ Hf) as Hkey.
  simpl in Hkey, Hold, Hu, Hc.
  assert (Hfl : password_reset_flows (w_db w2) =
                password_reset_flows (w_db w))
    by (rewrite Hdb; by destruct demo).
  rewrite Hfl, Hkey, Hf in Hold. injection Hold as <-.
  unfold PasswordReset.IsOTPLocked in Hlock. guards.
  exists f, userID, cred, u, n, demo.
  rewrite Hkey. split_and!; try done.
  - lia.
  - simpl. rewrite Hfl. by destruct demo.
  - simpl. rewrite Hdb. by destruct demo.
  - intros T HT. assert (T ≠ Credentials ∧ T ≠ Flows) as (? & ?)
      by (rewrite list_elem_of_In in HT; simpl in HT; intuition congruence).
    trans (w_db w2).
    + rewrite Hdb. destruct demo; [done|]. by destruct T.
    + by destruct T.
Qed.

(** What the reset endpoint leaves of the login lock-out: every credential
    keeps its count of failures and its lock. *)
Definition keeps_lockout (m m' : gmap uuid Totp.Credential) : Prop :=
  ∀ k c', m' !! k = Some c' →
    ∃ c, m !! k = Some c ∧
         Totp.FailedAttempts c' = Totp.FailedAttempts c ∧
         (Totp.LockedUntil c' = Totp.LockedUntil c ∨
          Totp.LockedUntil c' = opt_ts (Totp.LockedUntil c)).

Lemma keeps_lockout_refl m : keeps_lockout m m.
Proof. intros k c Hk. exists c. split_and!; [done|done|by left]. Qed.

(** Whatever becomes of an UPDATE of a credential. *)
Lemma UpdateCredential_any c w :
  let w' := (run (TwoFactorCredentialRepository.Update c) w).2 in
  w_db w' = w_db w ∨
  ∃ old, two_factor_credentials (w_db w) !! Totp.UserID c = Some old ∧
         w_db w' = set_credentials
                     <[Totp.UserID c := credential_update c old]> (w_db w).
Proof.
  unfold TwoFactorCredentialRepository.Update, exec_affecting.
  rewrite run_bindE, run_wrapE, run_perform. cbn [handle].
  unfold handle_query. cbn [exec]. unfold credentials_update, faulty.
  destruct (negb _).
  { left. by destruct (fault _) as [[? []]|]. }
  destruct (two_factor_credentials (w_db w) !! Totp.UserID c) as [old|];
    [|left; by destruct (fault _) as [[? []]|]].
  destruct (setup_hash_taken _ _).
  { left. by destruct (fault _) as [[? []]|]. }
  destruct (fault _) as [[m []]|]; [right|by left|right]; eauto.
Qed.

Lemma reset_code_valid_keeps_lockout f code w :
  db_ok (w_db w) →
  keeps_lockout (two_factor_credentials (w_db w))
    (two_factor_credentials (w_db (run (reset_code_valid s f code) w).2)).
Proof.
  intros Hok. unfold reset_code_valid.
  destruct (PasswordReset.UserID f) as [userID|]; [|apply keeps_lockout_refl].
  rewrite run_bind.
  assert (Hr := run_reads (TwoFactorCredentialRepository.GetByUserID userID) w
                  ltac:(autounfold with effects; walk; done)).
  destruct (run (TwoFactorCredentialRepository.GetByUserID userID) w)
    as [[cred|e] w1] eqn:H1; simpl in Hr; cbn [fst snd].
  2:{ rewrite <-Hr. destruct (negb _); apply keeps_lockout_refl. }
  apply CredentialByUser_Ok in H1 as [Hc ->].
  destruct (Totp.IsEnabled cred); [|apply keeps_lockout_refl].
  cbn [negb]. (* up to the UPDATE only reads *)
  rewrite run_bindE.
  assert (Hr2 := run_reads (UserRepository.GetByID userID) (tick_io w)
                   ltac:(autounfold with effects; walk; done)).
  destruct (run (UserRepository.GetByID userID) (tick_io w)) as [[u|e] w2];
    simpl in Hr2; [|rewrite <-Hr2; apply keeps_lockout_refl].
  rewrite run_bindE.
  assert (Hr3 := run_reads (validateOTP s (User.Email u) cred code) w2
                   ltac:(unfold validateOTP; walk; done)).
  destruct (run (validateOTP s _ cred code) w2) as [[[[ok n] demo]|e] w3];
    simpl in Hr3; cbn [run snd]; rewrite <-Hr2, <-Hr3;
    [|apply keeps_lockout_refl].
  destruct (ok && _); [|apply keeps_lockout_refl].
  destruct demo; [apply keeps_lockout_refl|].
  rewrite run_bind, run_Now, run_bindE, run_wrapE. cbn [fst snd].
  pose proof (UpdateCredential_any (Totp.MarkCodeUsed cred n (next_clock w3))
                (tick_clock w3)) as Hup.
  destruct (run (TwoFactorCredentialRepository.Update _) _) as [r w4].
  simpl in Hup. rewrite Hr3, Hr2 in Hup.
  assert (Hk4 : keeps_lockout (two_factor_credentials (w_db w))
                  (two_factor_credentials (w_db w4))).
  { destruct Hup as [->|(old & Hold & ->)]; [apply keeps_lockout_refl|].
    pose proof (ok_creds_key _ Hok _ _ Hc) as Hkey. simpl in Hkey.
    rewrite Hkey, Hc in Hold. injection Hold as <-. simpl. rewrite Hkey.
    intros k c'. destruct (decide (userID = k)) as [<-|Hne].
    - rewrite lookup_insert_eq. intros [= <-]. exists cred.
      split_and!; [done|done|by right].
    - rewrite lookup_insert_ne by done. apply keeps_lockout_refl. }
  rewrite Hr3, Hr2. by destruct r.
Qed.

(** Guessing through the reset endpoint cannot lock an account out. *)
Lemma VerifyPasswordResetOTP_keeps_lockout flowToken code w :
  db_ok (w_db w) →
  let w' := (run (VerifyPasswordResetOTP s flowToken code) w).2 in
  keeps_lockout (two_factor_credentials (w_db w))
    (two_factor_credentials (w_db w')) ∧
  (∀ T, T ∈ [Users; RefreshTokens; Challenges; Jobs; Steps] →
        same_table T (w_db w) (w_db w')) ∧
  w_sessions w' = w_sessions w.
Proof.
  intros Hok. cbv zeta. split; [|split].
  - unfold VerifyPasswordResetOTP. rewrite run_bind.
    assert (Hr := run_reads (PasswordResetFlowRepository.GetByFlowTokenHash
                               (tokenhash_Hash flowToken)) w
                    ltac:(autounfold with effects; walk; done)).
    destruct (run (PasswordResetFlowRepository.GetByFlowTokenHash _) w)
      as [[f|e] w1]; simpl in Hr; cbn [fst snd]; rewrite <-Hr;
      [|destruct (errors_Is _ _); apply keeps_lockout_refl].
    rewrite run_bind, run_Now. cbn [fst snd].
    destruct (_ || _); [apply keeps_lockout_refl|].
    destruct (PasswordReset.IsOTPLocked _ _); [apply keeps_lockout_refl|].
    rewrite run_bindE.
    pose proof (reset_code_valid_keeps_lockout f code (tick_clock w1)) as Hk.
    simpl in Hk. rewrite Hr in Hk. specialize (Hk Hok).
    destruct (run (reset_code_valid s f code) _) as [[valid|e] w2];
      [|by rewrite Hr].
    cbn [snd] in Hk. rewrite Hr.
    match goal with |- context [run ?p w2] =>
      pose proof (run_keeps Credentials p w2) as Hkeep end.
    cbn [same_table] in Hkeep. rewrite <-Hkeep; [exact Hk|].
    autounfold with effects. unfold tokenhash_Generate. walk; leaf.
  - intros T HT. apply run_keeps. unfold VerifyPasswordResetOTP.
    unfold reset_code_valid, validateOTP, tokenhash_Generate.
    autounfold with effects.
    rewrite list_elem_of_In in HT. walk; try exact I.
    all: unfold keeps_table; simpl; rewrite list_elem_of_In; simpl;
      intros Hin; simpl in HT; intuition congruence.
  - apply run_keeps_sessions. unfold VerifyPasswordResetOTP.
    unfold reset_code_valid, validateOTP, tokenhash_Generate.
    autounfold with effects. walk; exact I.
Qed.

(** A code the flow cannot accept: the flow is bound to no account, or the
    code is no fresh code of the account it is bound to. *)
Definition unacceptable (f : PasswordReset.PasswordResetFlow)
    (code : string) w : Prop :=
  PasswordReset.UserID f = None ∨
  ∃ userID cred u,
    PasswordReset.UserID f = Some userID ∧
    two_factor_credentials (w_db w) !! userID = Some cred ∧
    Totp.IsEnabled cred = true ∧ users (w_db w) !! userID = Some u ∧
    code_step s (User.Email u) cred code (next_clock (tick_clock w)) =
      Ok None.

Lemma run_reset_code_invalid f code w w0 :
  healthy → unacceptable f code w0 → w_db w = w_db w0 →
  next_clock w = next_clock (tick_clock w0) →
  ∃ w1, run (reset_code_valid s f code) w = (Ok false, w1) ∧
        w_db w1 = w_db w.
Proof.
  intros Hh Hun Hdb Hck. unfold reset_code_valid.
  destruct Hun as [->|(userID & cred & u & -> & Hc & Hen & Hu & Hst)];
    [by eexists|].
  rewrite <-Hdb in Hc, Hu. rewrite <-Hck in Hst.
  rewrite run_bind, (run_CredentialByUser Hh _ cred) by done. cbn [fst snd].
  rewrite Hen. cbn [negb].
  rewrite run_bindE, (run_GetByID Hh _ u) by done.
  pose proof (validateOTP_step s (User.Email u) cred code (tick_io (tick_io w)))
    as Hv.
  assert (Hck2 : next_clock (tick_io (tick_io w)) = next_clock w) by done.
  rewrite Hck2, Hst in Hv. destruct Hv as (ok & n & demo & w1 & Hv & Hw1 & _ & Hb & _).
  rewrite run_bindE, Hv. cbn beta iota zeta.
  assert (E : ok && (demo || negb (Totp.IsCodeConsumed cred n)) = false).
  { rewrite bool_decide_false in Hb by (by intros []).
    by destruct ok, demo, (Totp.IsCodeConsumed cred n). }
  rewrite E. exists w1. split; [done|]. by destruct Hw1 as [-> | ->].
Qed.

(** Nor does the answer to an unacceptable code depend on the account. *)
Lemma reset_wrong_code_uniform flowToken code k f w r w' :
  healthy → db_ok (w_db w) →
  password_reset_flows (w_db w) !! k = Some f →
  PasswordReset.FlowTokenHash f = tokenhash_Hash flowToken →
  PasswordReset.IsExpired f (next_clock w) = false →
  PasswordReset.IsConsumed f = false → PasswordReset.IsOTPVerified f = false →
  (0 ≤ PasswordReset.OTPAttempts f < ResetFlowMaxOTPAttempts sec)%Z →
  (ResetFlowMaxOTPAttempts sec < 2 ^ 31)%Z →
  unacceptable f code w →
  run (VerifyPasswordResetOTP s flowToken code) w = (r, w') →
  r = Err (if bool_decide (ResetFlowMaxOTPAttempts sec ≤
                           PasswordReset.OTPAttempts f + 1)%Z
           then ErrOTPLocked else ErrOTPInvalid) ∧
  (∃ f', password_reset_flows (w_db w') =
           <[k := f']> (password_reset_flows (w_db w)) ∧
         PasswordReset.OTPAttempts f' =
           (PasswordReset.OTPAttempts f + 1)%Z ∧
         PasswordReset.IsOTPVerified f' = false ∧
         PasswordReset.ResetTokenHash f' = PasswordReset.ResetTokenHash f) ∧
  (∀ T, T ≠ Flows → same_table T (w_db w) (w_db w')).
Proof.
  intros Hh Hok Hf Hhash Hexp Hcons Hver Hat Hmax Hun.
  unfold VerifyPasswordResetOTP.
  rewrite run_bind, (run_FlowByFlowHash Hh k f) by done. cbn [fst snd].
  rewrite run_bind, run_Now. cbn [fst snd].
  assert (Hck : next_clock (tick_io w) = next_clock w) by done.
  rewrite Hck, Hexp, Hcons, Hver. cbn [orb].
  assert (Hlk : PasswordReset.IsOTPLocked f (ResetFlowMaxOTPAttempts sec) =
                false) by (apply bool_decide_eq_false; lia).
  rewrite Hlk, run_bindE.
  destruct (run_reset_code_invalid f code (tick_clock (tick_io w)) w)
    as (w1 & H1 & Hdb1); try done.
  rewrite H1. cbn [negb]. unfold PasswordReset.RecordOTPFailure.
  rewrite Int.wrap64_id by (unfold Int.in_int64; lia).
  cbn beta iota zeta. rewrite run_bindE, run_wrapE.
  match goal with |- context [PasswordResetFlowRepository.Update ?x] =>
    set (f1 := x) end.
  simpl in Hdb1.
  rewrite (run_UpdateFlow Hh k f f1 w1); rewrite ?Hdb1; try done.
  2:{ unfold Int.int4_ok. apply bool_decide_eq_true. simpl. lia. }
  case_bool_decide; intros [= <- <-]; (split_and!; [done| |by intros []]);
    exists (flow_update f1 f); simpl; (split_and!; [done|done| |done]);
    revert Hver; unfold PasswordReset.IsOTPVerified; simpl;
    by destruct (PasswordReset.OTPVerifiedAt f).
Qed.

(** C25. On every path of VerifyPasswordResetOTP, whatever fails, every
    credential keeps its failure count and its lock, and no account, token,
    challenge, job or session changes: guessing through the reset endpoint
    cannot lock an account out. When it hands out a reset token, the flow was
    open with attempts left and bound to an account with an enabled second
    factor, and the code was an unused TOTP of its secret at this request's
    reading of the clock, or the demo account's fixed code; afterwards the
    flow is verified and carries the token's hash with the deadline counted
    from this request's reading of the clock, and the TOTP's time step is
    recorded as the last one used, while for the fixed code no credential
    changes. *)
Theorem VerifyPasswordResetOTP_effect flowToken code w r w' :
  db_ok (w_db w) →
  run (VerifyPasswordResetOTP s flowToken code) w = (r, w') →
  (* whatever happens *)
  keeps_lockout (two_factor_credentials (w_db w))
    (two_factor_credentials (w_db w')) ∧
  (∀ T, T ∈ [Users; RefreshTokens; Challenges; Jobs; Steps] →
        same_table T (w_db w) (w_db w')) ∧
  w_sessions w' = w_sessions w ∧
  (* when a reset token is handed out *)
  ∀ res, r = Ok res →
  ∃ f userID cred u n demo,
    (* required: an open flow with attempts left, bound to an account whose
       second factor is enabled, and a code accepted for that account *)
    password_reset_flows (w_db w) !! PasswordReset.ID f = Some f ∧
    PasswordReset.FlowTokenHash f = tokenhash_Hash flowToken ∧
    PasswordReset.IsExpired f (reading 0 w) = false ∧
    PasswordReset.IsConsumed f = false ∧
    PasswordReset.IsOTPVerified f = false ∧
    (PasswordReset.OTPAttempts f < ResetFlowMaxOTPAttempts sec)%Z ∧
    PasswordReset.UserID f = Some userID ∧
    users (w_db w) !! userID = Some u ∧
    two_factor_credentials (w_db w) !! userID = Some cred ∧
    Totp.IsEnabled cred = true ∧
    code_accepted s (User.Email u) cred code (reading 1 w) n demo ∧
    (* done: the flow is verified and carries the reset token's hash, the
       code is used up *)
    password_reset_flows (w_db w') =
      <[PasswordReset.ID f :=
          flow_update
            (PasswordReset.IssueResetToken
               (PasswordReset.MarkOTPVerified f
                  (reading (if demo : bool then 1 else 3) w))
               (tokenhash_Hash (pro_ResetToken res))
               (PasswordResetTokenTTL sec)
               (reading (if demo then 2 else 4) w)) f]>
        (password_reset_flows (w_db w)) ∧
    two_factor_credentials (w_db w') =
      (if demo then two_factor_credentials (w_db w)
       else <[userID := credential_update
                          (Totp.MarkCodeUsed cred n (reading 2 w)) cred]>
              (two_factor_credentials (w_db w))).
Proof.
  intros Hok Hr.
  pose proof (VerifyPasswordResetOTP_keeps_lockout flowToken code w Hok)
    as (Hk & Ht & Hs).
  rewrite Hr in Hk, Ht, Hs. split_and!; [done..|]. intros res ->.
  destruct (VerifyPasswordResetOTP_success flowToken code w res w' Hok Hr)
    as (f & u & c & usr & n & d & H).
  exists f, u, c, usr, n, d. tauto.
Qed.

(** C26. Without faults the reset endpoints do not tell who is registered: the
    answer to a reset request is the same function of the environment for
    every address, registered or not, with or without a second factor, and
    only the flow table is written; an unacceptable code gets the same answer
    and counts the same whether the flow is bound to no account or to an
    account the code is wrong for. *)
Theorem reset_reveals_nothing :
  healthy →
  (∀ email b w r w',
    db_ok (w_db w) →
    rand_read (n_rand (w_counters w)) rawTokenBytes = Ok b →
    password_reset_flows (w_db w) !! gen_uuid (n_uuid (w_counters w)) = None →
    (∀ k f, password_reset_flows (w_db w) !! k = Some f →
            PasswordReset.FlowTokenHash f ≠
            tokenhash_Hash (base64_encode b)) →
    run (RequestPasswordReset s email) w = (r, w') →
    r = Ok {| prr_FlowToken := base64_encode b;
              prr_ExpiresAt :=
                TimeAdd (next_clock w) (PasswordResetFlowTTL sec) |} ∧
    (∀ T, T ≠ Flows → same_table T (w_db w) (w_db w')) ∧
    w_sessions w' = w_sessions w) ∧
  (∀ flowToken code k f w r w',
    db_ok (w_db w) →
    password_reset_flows (w_db w) !! k = Some f →
    PasswordReset.FlowTokenHash f = tokenhash_Hash flowToken →
    PasswordReset.IsExpired f (next_clock w) = false →
    PasswordReset.IsConsumed f = false → PasswordReset.IsOTPVerified f = false →
    (0 ≤ PasswordReset.OTPAttempts f < ResetFlowMaxOTPAttempts sec)%Z →
    (ResetFlowMaxOTPAttempts sec < 2 ^ 31)%Z →
    unacceptable f code w →
    run (VerifyPasswordResetOTP s flowToken code) w = (r, w') →
    r = Err (if bool_decide (ResetFlowMaxOTPAttempts sec ≤
                             PasswordReset.OTPAttempts f + 1)%Z
             then ErrOTPLocked else ErrOTPInvalid) ∧
    (∃ f', password_reset_flows (w_db w') =
             <[k := f']> (password_reset_flows (w_db w)) ∧
           PasswordReset.OTPAttempts f' =
             (PasswordReset.OTPAttempts f + 1)%Z ∧
           PasswordReset.IsOTPVerified f' = false ∧
           PasswordReset.ResetTokenHash f' = PasswordReset.ResetTokenHash f) ∧
    (∀ T, T ≠ Flows → same_table T (w_db w) (w_db w'))).
Proof.
  intros Hh. split; intros.
  - by eapply RequestPasswordReset_blind.
  - by eapply reset_wrong_code_uniform.
Qed.

(** A reset flow whose attempts are used up accepts no code any more, the
    right one included, and submitting one changes nothing. *)
Lemma reset_flow_attempts_capped flowToken code k f w r w' :
  db_ok (w_db w) → password_reset_flows (w_db w) !! k = Some f →
  PasswordReset.FlowTokenHash f = tokenhash_Hash flowToken →
  (ResetFlowMaxOTPAttempts sec ≤ PasswordReset.OTPAttempts f)%Z →
  run (VerifyPasswordResetOTP s flowToken code) w = (r, w') →
  is_Ok r = false ∧ w_db w' = w_db w ∧ w_sessions w' = w_sessions w.
Proof.
  intros Hok Hf Hhash Hat. unfold VerifyPasswordResetOTP. rewrite <-Hhash.
  intros (r1 & w1 & H1 & H)%run_bind_inv.
  pose proof (FlowByFlowHash_row _ _ _ _ _ (ok_flows_flow_hash _ Hok) Hf H1)
    as [-> [->|[m ->]]].
  - cbn iota beta in H. read_clock H.
    assert (Hlk : PasswordReset.IsOTPLocked f (ResetFlowMaxOTPAttempts sec) =
                  true) by (by apply bool_decide_eq_true).
    rewrite Hlk in H. by destruct (_ || _); injection H as <- <-.
  - cbn iota beta in H. rewrite errors_Is_fault in H by done.
    by injection H as <- <-.
Qed.
End passwords.

(** ** Witnesses *)

Definition demo_change : result unit * World :=
  run (ChangePassword demo_service 1000%N
         (mkChangePasswordInput "correct horse" "new password"
            (demo_code demo_world))) demo_world.

Lemma ChangePassword_success_witness :
  sessions_ended 1000%N demo_world demo_change.2 ∧
  ∃ hash, Verify (svc_hasher demo_service) hash "new password" = Ok tt.
Proof.
  destruct (ChangePassword_success demo_service 1000%N
              (mkChangePasswordInput "correct horse" "new password"
                 (demo_code demo_world)) demo_world demo_change.2)
    as (u & c & n & d & hash & H).
  - exact demo_world_ok.
  - vm_compute. reflexivity.
  - destruct H as (_ & _ & _ & _ & _ & _ & Hv & _ & He & _).
    split; [exact He|]. exists hash. exact Hv.
Defined.

(** A whole reset: the request ([demo_request]), the second factor, the new
    password. *)
Definition no_otp_result : PasswordResetOTPResult :=
  mkPasswordResetOTPResult "" 0.
Definition demo_otp : result PasswordResetOTPResult * World :=
  run (VerifyPasswordResetOTP demo_service demo_flow_token
         (demo_code demo_request.2)) demo_request.2.
Definition demo_reset_token : string :=
  match demo_otp.1 with Ok r => pro_ResetToken r | Err _ => "" end.
Definition demo_confirm : result unit * World :=
  run (ConfirmPasswordReset demo_service demo_reset_token "new password")
    demo_otp.2.
Definition demo_confirm_again : result unit * World :=
  run (ConfirmPasswordReset demo_service demo_reset_token "evil password")
    demo_confirm.2.

Lemma demo_otp_ok : db_ok (w_db demo_otp.2).
Proof. unfold demo_otp. apply run_ok. exact demo_request_ok. Qed.

Lemma VerifyPasswordResetOTP_effect_witness :
  keeps_lockout (two_factor_credentials (w_db demo_request.2))
    (two_factor_credentials (w_db demo_otp.2)) ∧
  ∃ f, PasswordReset.UserID f = Some 1000%N ∧
       PasswordReset.FlowTokenHash f = tokenhash_Hash demo_flow_token.
Proof.
  destruct (VerifyPasswordResetOTP_effect demo_service demo_flow_token
              (demo_code demo_request.2) demo_request.2
              (Ok (value no_otp_result demo_otp.1)) demo_otp.2)
    as (Hk & _ & _ & H).
  - exact demo_request_ok.
  - run_demo.
  - split; [exact Hk|].
    destruct (H _ eq_refl) as (f & u & c & usr & n & d & Hf & Hh & _ & _ & _ & _ & Hu & Hus & _).
    exists f. split; [|exact Hh]. rewrite Hu. f_equal.
    destruct (decide (u = 1000%N)) as [->|Hne]; [reflexivity|exfalso].
    assert (Hall : ∀ k, k ≠ 1000%N → users (w_db demo_request.2) !! k = None).
    { assert (E : users (w_db demo_request.2) = {[1000%N := demo_user]})
        by (vm_compute; reflexivity).
      intros k Hk'. rewrite E. by apply lookup_singleton_ne. }
    rewrite (Hall u Hne) in Hus. discriminate Hus.
Defined.

Lemma ConfirmPasswordReset_success_witness :
  (∃ user, sessions_ended user demo_otp.2 demo_confirm.2) ∧
  is_Ok demo_confirm_again.1 = false.
Proof.
  destruct (ConfirmPasswordReset_success demo_service demo_reset_token
              "new password" demo_otp.2 demo_confirm.2) as [H Hagain].
  - exact demo_otp_ok.
  - vm_compute. reflexivity.
  - split.
    + destruct H as (f & user & u & hash & now & now2 & H). exists user.
      destruct H as (_ & _ & _ & _ & _ & _ & _ & _ & _ & _ & _ & H & _).
      exact H.
    + apply (Hagain "evil password" _ demo_confirm_again.2).
      unfold demo_confirm_again. apply surjective_pairing.
Defined.

(** Nobody is registered under the address. *)
Definition demo_blind : result PasswordResetRequestResult * World :=
  run (RequestPasswordReset demo_service "nobody@example.com") demo_world.
Lemma demo_no_flows : password_reset_flows (w_db demo_world) = ∅.
Proof. vm_compute. reflexivity. Qed.

(** A wrong code for the account's flow. *)
Definition no_flow : PasswordReset.PasswordResetFlow :=
  PasswordReset.New None "" 0 0 0.
Definition demo_flow_id : uuid := 1002%N.
Definition demo_flow : PasswordReset.PasswordResetFlow :=
  default no_flow (password_reset_flows (w_db demo_request.2) !! demo_flow_id).
Definition demo_wrong : result PasswordResetOTPResult * World :=
  run (VerifyPasswordResetOTP demo_service demo_flow_token "999999")
    demo_request.2.

Lemma reset_reveals_nothing_witness :
  (∃ t, demo_blind.1 =
        Ok (mkPasswordResetRequestResult
              (base64_encode (demo_bytes 3 rawTokenBytes)) t)) ∧
  PasswordReset.UserID demo_flow = Some 1000%N ∧
  demo_wrong.1 = Err ErrOTPInvalid.
Proof.
  destruct (reset_reveals_nothing demo_service demo_healthy) as [Hblind Hwrong].
  split; [|split; [vm_compute; reflexivity|]].
  - destruct (Hblind "nobody@example.com" (demo_bytes 3 rawTokenBytes)
                demo_world demo_blind.1 demo_blind.2) as [H _].
    + exact demo_world_ok.
    + vm_compute. reflexivity.
    + rewrite demo_no_flows. apply lookup_empty.
    + intros k f. rewrite demo_no_flows, lookup_empty. discriminate.
    + unfold demo_blind. apply surjective_pairing.
    + eexists. exact H.
  - destruct (Hwrong demo_flow_token "999999" demo_flow_id demo_flow
                demo_request.2 demo_wrong.1 demo_wrong.2)
      as [H _]; [..|exact H].
    + exact demo_request_ok.
    + vm_compute. reflexivity.
    + vm_compute. reflexivity.
    + vm_compute. reflexivity.
    + vm_compute. reflexivity.
    + vm_compute. reflexivity.
    + vm_compute. split; [discriminate|reflexivity].
    + vm_compute. reflexivity.
    + right. exists 1000%N, demo_credential, demo_user.
      split_and!; vm_compute; reflexivity.
    + unfold demo_wrong. apply surjective_pairing.
Defined.
