(* ===== verification/Deletion.v ===== *)
(** * Account deletion

    RequestDeletion is all or nothing, and DeleteAccount ends every session
    and leaves the request on file. *)
From S2P Require Import Prelude Tables GoBase Domain Schema Effects Logic.
From S2P Require Import GoStrings Platform Postgres Service Footprint.
From S2P Require Import Integrity Repositories Healthy ServiceFacts.
From S2P Require Import DeletionWorker Demo.
#[local] Open Scope go_scope.

(** A request for the deletion of [u] is on file: the account is marked, its
    tokens are revoked, and its job has a step for every service. *)
Record deletion_requested `{PT : PgTime} (u : uuid) (db db' : Database) :
    Prop := {
  req_user : ∃ usr now, users db !! u = Some usr ∧
               User.DeletionStatus usr = User.DeletionStatusActive ∧
               users db' = <[u := mark_pending now usr]> (users db);
  req_tokens : ∃ now, refresh_tokens db' =
                 update_where (live_token_of u) (revoke now)
                   (refresh_tokens db);
  req_job : ∃ j row, account_deletion_jobs db' !! j = Some row ∧
              job_user_id row = u ∧
              ∀ name, name ∈ deletionServices →
                is_Some (account_deletion_steps db' !! (j, name));
  (* the other jobs are the ones that were there *)
  req_jobs_kept : ∀ k row, account_deletion_jobs db !! k = Some row →
    ∃ row', account_deletion_jobs db' !! k = Some row' ∧
            job_user_id row' = job_user_id row;
  req_jobs_new : ∀ k row', account_deletion_jobs db' !! k = Some row' →
    job_user_id row' = u ∨ account_deletion_jobs db !! k = Some row';
  (* no step is recorded as completed that was not *)
  req_steps_kept : ∀ key, is_Some (account_deletion_steps db !! key) →
    is_Some (account_deletion_steps db' !! key);
  req_steps_done : ∀ key row, account_deletion_steps db' !! key = Some row →
    step_status row = "completed" → account_deletion_steps db !! key = Some row;
  req_tables : ∀ T, T ∈ [Credentials; Challenges; Flows] → same_table T db db'
}.

Section deletion.
Context `{PT : PgTime, EV : Env, SS : SessionStore, SL : !SessionStoreLaws,
          L : Lib, U : Unicode}.
Implicit Types (w : World).

(** ** RequestDeletion *)

(** The steps' loop: nothing, or a row for every name. *)
Lemma create_steps_run job names now ab db0 db i :
  let '(r, dbf, _) :=
    run_tx (DeletionStore.create_steps job names) now ab db0 db i in
  (dbf = db0 ∧ is_Ok r = false) ∨
  ((∀ T, T ≠ Steps → same_table T db dbf) ∧
   (∀ key, is_Some (account_deletion_steps db !! key) →
           is_Some (account_deletion_steps dbf !! key)) ∧
   (∀ n, n ∈ names → is_Some (account_deletion_steps dbf !! (job, n))) ∧
   ∀ key row, account_deletion_steps dbf !! key = Some row →
     step_status row = "completed" →
     account_deletion_steps db !! key = Some row).
Proof.
  revert ab db i. induction names as [|n names IH]; intros ab db i.
  - simpl. destruct ab; [by left|]. destruct (fault i) as [[m []]|].
    + right. split_and!; [done|done| |done]. intros n Hn.
      by apply elem_of_nil in Hn.
    + by left.
    + right. split_and!; [done|done| |done]. intros n Hn.
      by apply elem_of_nil in Hn.
  - cbn [DeletionStore.create_steps run_tx].
    destruct ab; [by left|]. destruct (fault i); [by left|].
    cbn [exec]. unfold steps_insert.
    destruct (account_deletion_steps db !! (job, n)) as [row|] eqn:Hrow.
    + rewrite bool_decide_true by eauto.
      specialize (IH false db (S i)).
      destruct (run_tx _ _ _ _ _ _) as [[r dbf] j].
      destruct IH as [?|(H1 & H2 & H3 & H4)]; [by left|right].
      split_and!; [done|done| |done].
      intros n' [->|Hn]%elem_of_cons; [|by apply H3].
      apply H2. by eexists.
    + rewrite bool_decide_false by (by intros []).
      destruct (bool_decide _); [|by left].
      set (row := mkDeletionStepRow _ _ _ _ _ _ _).
      specialize (IH false (set_steps <[(job, n) := row]> db) (S i)).
      destruct (run_tx _ _ _ _ _ _) as [[r dbf] j].
      destruct IH as [?|(H1 & H2 & H3 & H4)]; [by left|right].
      split_and!.
      * intros T HT. specialize (H1 T HT). by destruct T.
      * intros key [row' Hk]. apply H2. simpl.
        destruct (decide ((job, n) = key)) as [<-|Hne].
        -- rewrite lookup_insert_eq. eauto.
        -- rewrite lookup_insert_ne by done. eauto.
      * intros n' [->|Hn]%elem_of_cons; [|by apply H3].
        apply H2. simpl. rewrite lookup_insert_eq. eauto.
      * intros key row' Hk Hc. specialize (H4 key row' Hk Hc). simpl in H4.
        destruct (decide ((job, n) = key)) as [<-|Hne].
        -- rewrite lookup_insert_eq in H4. injection H4 as <-. discriminate Hc.
        -- by rewrite lookup_insert_ne in H4.
Qed.

(** The upsert finds or creates the user's job and keeps the others. *)
Lemma jobs_upsert_frame job u now db :
  db_ok db →
  match jobs_upsert job u now db with
  | (Ok id, db') =>
      (∃ row, account_deletion_jobs db' !! id = Some row ∧
              job_user_id row = u) ∧
      (∀ k row, account_deletion_jobs db !! k = Some row →
         ∃ row', account_deletion_jobs db' !! k = Some row' ∧
                 job_user_id row' = job_user_id row) ∧
      (∀ k row', account_deletion_jobs db' !! k = Some row' →
         job_user_id row' = u ∨ account_deletion_jobs db !! k = Some row') ∧
      (∀ T, T ≠ Jobs → same_table T db db')
  | (Err _, _) => True
  end.
Proof.
  intros Hok. unfold jobs_upsert.
  destruct (select_one _ _) as [jr|] eqn:Hs.
  - apply select_one_Some in Hs as [Hp [k0 Hk0]].
    apply bool_decide_eq_true in Hp.
    pose proof (ok_jobs_key _ Hok _ _ Hk0) as Hkey. simpl in Hkey. subst k0.
    split_and!; [simpl; rewrite lookup_insert_eq; by eexists|..|by intros []];
      intros k row Hk; simpl in *.
    + destruct (decide (job_id jr = k)) as [<-|Hne].
      * rewrite lookup_insert_eq. eexists. split; [done|]. simpl. congruence.
      * rewrite lookup_insert_ne by done. eauto.
    + destruct (decide (job_id jr = k)) as [<-|Hne].
      * rewrite lookup_insert_eq in Hk. injection Hk as <-. by left.
      * rewrite lookup_insert_ne in Hk by done. by right.
  - case_bool_decide as Hfree; [done|].
    split_and!; [simpl; rewrite lookup_insert_eq; by eexists|..|by intros []];
      intros k row Hk; simpl in *.
    + destruct (decide (job = k)) as [<-|Hne].
      * destruct Hfree. eauto.
      * rewrite lookup_insert_ne by done. eauto.
    + destruct (decide (job = k)) as [<-|Hne].
      * rewrite lookup_insert_eq in Hk. injection Hk as <-. by left.
      * rewrite lookup_insert_ne in Hk by done. by right.
Qed.

(** For an account that was not active: a no-op. *)
Lemma check_marked_run u now db i :
  let '(r, dbf, _) :=
    run_tx (DeletionStore.check_marked u) now false db db i in
  dbf = db ∧
  (r = Ok tt → User.DeletionStatus <$> users db !! u =
               Some User.DeletionStatusPending).
Proof.
  unfold DeletionStore.check_marked. cbn [run_tx]. destruct (fault i) as [f|].
  { change (errors_Is (Errorf (fault_msg f)) ErrNoRows) with false.
    split; [done|intros Hr; discriminate Hr]. }
  cbn [exec]. destruct (users db !! u) as [usr|]; [|done].
  cbn [fmap option_fmap option_map query_row].
  destruct (bool_decide (_ ≠ _)) eqn:E; [done|].
  apply bool_decide_eq_false in E. apply dec_stable in E.
  cbn [run_tx]. destruct (fault _) as [[m []]|]; cbn beta iota;
    (split; [done|]); intros Hr; try discriminate Hr. by rewrite E.
Qed.

(** The statements of a request, one after the other, put it on file. *)
Lemma request_on_file job u usr now db db3 dbf id :
  db_ok db → users db !! u = Some usr →
  User.DeletionStatus usr = User.DeletionStatusActive →
  jobs_upsert job u now
    (set_refresh_tokens (update_where (live_token_of u) (revoke now))
       (set_users <[u := mark_pending now usr]> db)) = (Ok id, db3) →
  (∀ T, T ≠ Steps → same_table T db3 dbf) →
  (∀ key, is_Some (account_deletion_steps db3 !! key) →
          is_Some (account_deletion_steps dbf !! key)) →
  (∀ n, n ∈ deletionServices → is_Some (account_deletion_steps dbf !! (id, n))) →
  (∀ key row, account_deletion_steps dbf !! key = Some row →
     step_status row = "completed" →
     account_deletion_steps db3 !! key = Some row) →
  deletion_requested u db dbf.
Proof.
  intros Hok Hu Hact Hup H1 H2 H3 H4.
  set (db2 := set_refresh_tokens _ _) in Hup.
  assert (Hok2 : db_ok db2).
  { apply (tokens_revoke_all_ok u now).
    pose proof (users_mark_pending_ok u now db Hok) as Hx.
    unfold users_mark_pending in Hx.
    by rewrite Hu, bool_decide_true in Hx by done. }
  pose proof (jobs_upsert_frame job u now db2 Hok2) as Hjob. rewrite Hup in Hjob.
  destruct Hjob as ((row & Hrow & Hju) & Hjk & Hjn & Hj).
  assert (Hframe : ∀ T, T ≠ Steps → T ≠ Jobs → same_table T db2 dbf).
  { intros T HS HJ. etrans; [by apply Hj|by apply H1]. }
  pose proof (H1 Jobs ltac:(done)) as Hjobs. cbn [same_table] in Hjobs.
  pose proof (Hj Steps ltac:(done)) as Hsteps. cbn [same_table] in Hsteps.
  rewrite Hjobs in Hrow, Hjk, Hjn. split.
  - exists usr, now. split_and!; [done|done|].
    symmetry. exact (Hframe Users ltac:(done) ltac:(done)).
  - exists now. symmetry. exact (Hframe RefreshTokens ltac:(done) ltac:(done)).
  - exists id, row. by split_and!.
  - exact Hjk.
  - exact Hjn.
  - intros key Hk. apply H2. by rewrite <-Hsteps.
  - intros key row' Hk Hc. specialize (H4 key row' Hk Hc).
    by rewrite <-Hsteps in H4.
  - intros T HT. assert (T ≠ Steps ∧ T ≠ Jobs ∧ T ≠ Users ∧ T ≠ RefreshTokens)
      as (? & ? & ? & ?) by (rewrite list_elem_of_In in HT; simpl in HT;
                             intuition congruence).
    etrans; [|by apply Hframe]. by destruct T.
Qed.

Lemma weaken {A B C} (x : A * B * C) (P Q : A → B → Prop) :
  (let '(r, d, _) := x in P r d) → let '(r, d, _) := x in P r d ∨ Q r d.
Proof. destruct x as [[r d] n]. by left. Qed.

(** The whole transaction: rolled back, a no-op for an account already
    marked, or a complete request. *)
Lemma request_tx_run job u now db i :
  db_ok db →
  let '(r, dbf, _) :=
    run_tx (DeletionStore.request_tx job u) now false db db i in
  (dbf = db ∧
   (r = Ok tt → User.DeletionStatus <$> users db !! u =
                Some User.DeletionStatusPending)) ∨
  deletion_requested u db dbf.
Proof.
  intros Hok. cbn [DeletionStore.request_tx run_tx].
  destruct (fault i); [by left|]. cbn [exec]. unfold users_mark_pending.
  pose proof (check_marked_run u now db (S i)) as Hnoop.
  destruct (users db !! u) as [usr|] eqn:Hu; [|exact (weaken _ _ _ Hnoop)].
  destruct (bool_decide _) eqn:Hact; [|exact (weaken _ _ _ Hnoop)].
  clear Hnoop. apply bool_decide_eq_true in Hact.
  cbn [run_tx]. destruct (fault (S i)); [by left|].
  cbn [exec tokens_revoke_all run_tx].
  destruct (fault (S (S i))); [by left|]. cbn [exec].
  destruct (jobs_upsert job u now _) as [[id|e] db3] eqn:Hup; [|by left].
  pose proof (create_steps_run id deletionServices now false db db3
    (S (S (S i)))) as Hcs.
  destruct (run_tx (DeletionStore.create_steps _ _) _ _ _ _ _)
    as [[r dbf] n].
  destruct Hcs as [[-> Hr]|(H1 & H2 & H3 & H4)]; [left; by destruct r|right].
  by eapply request_on_file.
Qed.

Lemma RequestDeletion_run u w r w' :
  db_ok (w_db w) →
  run (DeletionStore.RequestDeletion u) w = (r, w') →
  ((w_db w' = w_db w ∧
    (r = Ok tt → User.DeletionStatus <$> users (w_db w) !! u =
                 Some User.DeletionStatusPending)) ∨
   deletion_requested u (w_db w) (w_db w')) ∧
  w_sessions w' = w_sessions w.
Proof.
  intros Hok. unfold DeletionStore.RequestDeletion.
  rewrite run_bind, run_perform. cbn [handle fst snd]. rewrite run_bindE, run_wrapE, run_perform.
  cbn [handle]. unfold handle_tx.
  destruct (fault _) as [f|].
  { intros [= <- <-]. split; [|done]. left. by split. }
  set (job := gen_uuid _). set (i := n_io _).
  pose proof (request_tx_run job u (db_clock i) (w_db (tick_uuid w)) (S i)
    Hok) as Hr.
  destruct (run_tx _ _ _ _ _ _) as [[r1 dbf] j]. cbn [run].
  intros [= <- <-]. split; [|done]. simpl in *.
  destruct Hr as [[-> Hr]|Hr]; [left|by right]. by split.
Qed.

(** ** DeleteAccount *)

Variable s : AuthService.

(** C21. When DeleteAccount succeeds (with a deletion store), the second
    factor was not locked out and the code was an unused TOTP of its secret at
    this request's reading of the clock, or the demo account's fixed code
    (which is no TOTP); afterwards its time step is recorded as the last one
    used (step 0 for the fixed code), the account is marked for deletion, if
    it was still active with a job that has a step for every service, and no
    session of the account is left. *)
Theorem DeleteAccount_success userID accessToken otp w w' :
  db_ok (w_db w) → svc_deletion s ≠ NoDeletion →
  run (DeleteAccount s userID accessToken otp) w = (Ok tt, w') →
  ∃ u cred n demo,
    users (w_db w) !! userID = Some u ∧
    two_factor_credentials (w_db w) !! userID = Some cred ∧
    Totp.IsLocked cred (reading 0 w) = false ∧
    code_accepted s (User.Email u) cred otp (reading 1 w) n demo ∧
    (* the code's step is recorded *)
    two_factor_credentials (w_db w') =
      <[userID := credential_update
                    (Totp.RecordSuccess cred n
                       (reading (if demo : bool then 1 else 2) w)) cred]>
        (two_factor_credentials (w_db w)) ∧
    (* on file *)
    (∃ u', users (w_db w') !! userID = Some u' ∧ User.is_pending u' = true) ∧
    (User.DeletionStatus u = User.DeletionStatusActive →
     ∃ j row, account_deletion_jobs (w_db w') !! j = Some row ∧
              job_user_id row = userID ∧
              ∀ name, name ∈ deletionServices →
                is_Some (account_deletion_steps (w_db w') !! (j, name))) ∧
    (* no session is left *)
    (∀ k t, refresh_tokens (w_db w') !! k = Some t →
            live_token_of userID t = false) ∧
    (∀ t, ss_active (w_sessions w') t userID = None).
Proof.
  intros Hok Hdel. unfold DeleteAccount. intros H. step H u w1 H1.
  apply GetByID_Ok in H1 as [Hu ->].
  apply run_bind_inv in H as (r & w1 & H1 & H).
  destruct r as [cred|e]; [|by destruct (errors_Is _ _)].
  apply CredentialByUser_Ok in H1 as [Hc ->].
  step H c1 w2 H1.
  assert (Hok2 : db_ok (w_db w2)).
  { change w2 with (Ok c1, w2).2. rewrite <-H1. by apply run_ok. }
  apply verifyOTP_Ok in H1 as
    (Hl & n & demo & old & Hacc & -> & Hold & Hc2 & Ht2 & Hs2 & _).
  assert (Htail : run (
    let? _ := DeletionStore.RequestDeletion userID in
    let? _ := RefreshTokenRepository.RevokeAllForUser userID
              orwrap "auth: revoke sessions for deletion" in
    let? _ := perform (Deactivate userID)
              orwrap "auth: deactivate session for deletion" in
    returnOk tt) w2 = (Ok tt, w')) by by destruct (svc_deletion s).
  clear H. rename Htail into H.
  step H x w3 H3. destruct x. apply RequestDeletion_run in H3 as [Hreq _]; [|done].
  step H x w4 H4. destruct x. apply RevokeAll_Ok in H4.
  step H x w5 H5. destruct x. apply Deactivate_Ok in H5. injection H as <-.
  pose proof (Ht2 Users ltac:(done)) as Hus. simpl in Hus.
  assert (Hdb : ∀ T, T ≠ RefreshTokens → same_table T (w_db w3) (w_db w5))
    by (subst; by intros []).
  pose proof (ok_creds_key _ Hok _ _ Hc) as Hkey. simpl in Hkey, Hold, Hc2, Hc.
  rewrite Hkey in Hold, Hc2. rewrite Hc in Hold. injection Hold as <-.
  exists u, cred, n, demo. split_and!; try done.
  - pose proof (Hdb Credentials ltac:(done)) as Hx. simpl in Hx. rewrite <-Hx.
    assert (Hreqc : two_factor_credentials (w_db w3) =
                    two_factor_credentials (w_db w2)).
    { destruct Hreq as [[-> _]|Hreq]; [done|]. symmetry.
      exact (req_tables _ _ _ Hreq Credentials ltac:(set_solver)). }
    rewrite Hreqc, Hc2. by destruct demo.
  - pose proof (Hdb Users ltac:(done)) as Hx. simpl in Hx. rewrite <-Hx.
    destruct Hreq as [[-> Hp]|Hreq].
    + specialize (Hp eq_refl). rewrite <-Hus, Hu in Hp. injection Hp as Hp.
      exists u. rewrite <-Hus. split; [done|]. by apply bool_decide_eq_true.
    + destruct (req_user _ _ _ Hreq) as (usr & t' & _ & _ & ->).
      exists (mark_pending t' usr). by rewrite lookup_insert_eq.
  - intros Hact. pose proof (Hdb Jobs ltac:(done)) as Hx. simpl in Hx.
    pose proof (Hdb Steps ltac:(done)) as Hy. simpl in Hy.
    rewrite <-Hx, <-Hy. destruct Hreq as [[-> Hp]|Hreq].
    + specialize (Hp eq_refl). rewrite <-Hus, Hu in Hp. injection Hp as Hp.
      rewrite Hact in Hp. discriminate Hp.
    + exact (req_job _ _ _ Hreq).
  - intros k tk. subst w5 w4. apply update_where_none_live.
  - intros t'. subst w5. simpl. apply ss_deactivate_none.
Qed.
End deletion.

(** ** Witnesses *)

Lemma DeleteAccount_success_witness :
  (∃ u', users (w_db demo_delete.2) !! 1000%N = Some u' ∧
         User.is_pending u' = true) ∧
  (∀ t, ss_active (w_sessions demo_delete.2) t 1000%N = None).
Proof.
  destruct (DeleteAccount_success demo_service 1000%N "access"
              (demo_code demo_world) demo_world demo_delete.2)
    as (u & c & n & d & H).
  - exact demo_world_ok.
  - discriminate.
  - vm_compute. reflexivity.
  - destruct H as (_ & _ & _ & _ & _ & Hp & _ & _ & Hs).
    split; [exact Hp|exact Hs].
Defined.

(** The connection is lost while the request is being written. *)
Definition lost_connection : nat → option Fault :=
  λ i, if decide (i = n_io (w_counters demo_world) + 5)
       then Some (mkFault "connection reset" false) else None.
Definition demo_lost : result unit * World :=
  run (EV := env_with lost_connection)
    (DeletionStore.RequestDeletion 1000%N) demo_world.
