(* ===== verification/Worker.v ===== *)
(** * The deletion worker: safety and progress

    An account disappears only after every service has been asked to delete
    its data and has confirmed; and it does disappear, completely, when they
    confirm. *)
From stdpp Require Import sorting.
From S2P Require Import Prelude Tables GoBase Domain Schema Effects Logic.
From S2P Require Import GoStrings Platform Postgres Service Footprint.
From S2P Require Import Integrity Repositories Healthy ServiceFacts.
From S2P Require Import DeletionWorker Demo.
#[local] Open Scope go_scope.

(** The job a claim hands out. *)
Abbreviation next_job w :=
  (earliest (List.filter (claimable (next_now w))
               (map_to_list (account_deletion_jobs (w_db w))).*2)).

Section worker.
Context `{PT : PgTime, EV : Env, SS : SessionStore, L : Lib}.
Variable clients : gmap string DeletionClient.
Implicit Types (w : World).

(** ** What a claim returns *)

Lemma elem_of_steps_of job db st :
  st ∈ steps_of job db ↔
  step_job_id st = job ∧ ∃ k, account_deletion_steps db !! k = Some st.
Proof.
  unfold steps_of. rewrite (merge_sort_Permutation step_le).
  rewrite list_elem_of_In, List.filter_In, <-list_elem_of_In.
  rewrite list_elem_of_fmap, bool_decide_eq_true. split.
  - intros [([k v] & -> & Hin) Hj]. split; [done|].
    apply elem_of_map_to_list in Hin. by exists k.
  - intros [Hj [k Hk]]. split; [|done]. exists (k, st). split; [done|].
    by apply elem_of_map_to_list.
Qed.

(** Nothing is claimed, or the most urgent job is. *)
Lemma claim_cases w r w1 :
  run DeletionJobStore.ClaimDeletion w = (r, w1) →
  (w_db w1 = w_db w ∧ (∀ job, r ≠ Ok (Some job)) ∧
   (r = Ok None → next_job w = None) ∨
   ∃ j,
     next_job w = Some j ∧
     w_db w1 = set_jobs <[job_id j := claim (next_now w) j]> (w_db w) ∧
     (∀ job, r = Ok (Some job) →
        job = mkDeletionJob (job_id j) (job_user_id j)
                (scan_step <$> steps_of (job_id j) (w_db w))) ∧
     r ≠ Ok None) ∧
  w_requests w1 = w_requests w ∧ w_sessions w1 = w_sessions w ∧
  w_cleanups w1 = w_cleanups w.
Proof.
  unfold DeletionJobStore.ClaimDeletion.
  rewrite run_bindE, run_perform. cbn [handle]. unfold handle_tx.
  destruct (fault (n_io (w_counters w))) as [f|].
  { intros [= <- <-]. split; [left|done]. by split_and!. }
  unfold next_now. set (now := db_clock _). set (i := n_io _).
  unfold DeletionJobStore.claim_tx. cbn [run_tx].
  destruct (fault (S i)) as [f|].
  { change (errors_Is (Errorf (fault_msg f)) ErrNoRows) with false.
    cbn. intros [= <- <-]. split; [left|done]. by split_and!. }
  cbn [exec]. unfold jobs_claim.
  destruct (earliest _) as [j|] eqn:He.
  2:{ cbn. intros [= <- <-]. split; [left|done]. by split_and!. }
  destruct (Int.int4_ok _).
  2:{ cbn. intros [= <- <-]. split; [left|done]. by split_and!. }
  simpl. destruct (fault (S (S i))) as [f|].
  { intros [= <- <-]. split; [left|done]. by split_and!. }
  destruct (fault (S (S (S i)))) as [[m []]|]; intros [= <- <-];
    (split; [|done]).
  - right. exists j. by split_and!.
  - left. by split_and!.
  - right. exists j. split_and!; try done. by intros job [= <-].
Qed.

Lemma claim_run w r w1 :
  db_ok (w_db w) →
  run DeletionJobStore.ClaimDeletion w = (r, w1) →
  (w_db w1 = w_db w ∧ (∀ job, r ≠ Ok (Some job)) ∨
   ∃ j,
     account_deletion_jobs (w_db w) !! job_id j = Some j ∧
     claimable (next_now w) j = true ∧
     w_db w1 = set_jobs <[job_id j := claim (next_now w) j]> (w_db w) ∧
     ∀ job, r = Ok (Some job) →
       job = mkDeletionJob (job_id j) (job_user_id j)
               (scan_step <$> steps_of (job_id j) (w_db w))) ∧
  w_requests w1 = w_requests w.
Proof.
  intros Hok H. apply claim_cases in H as (H & Hr & _ & _). split; [|done].
  destruct H as [(Hdb & Hno & _)|(j & He & Hdb & Hjob & _)]; [by left|right].
  apply claim_candidate in He as (k & Hin & Hcl).
  pose proof (ok_jobs_key _ Hok _ _ Hin) as Hkey. simpl in Hkey. subst k.
  by exists j.
Qed.

(** ** The loop *)

(** [svc] has confirmed: its step was completed before, or its client was
    sent the request for the user's data. *)
Definition confirmed (user : uuid) (step : DeletionStep) w : Prop :=
  Status step = "completed" ∨
  ∃ client, clients !! Service step = Some client ∧
    mkRequest "DELETE"
      (dc_baseURL client +:+ "/internal/api/v1/users/" +:+ uuid_String user)
      (bearer (dc_token client)) ∈ w_requests w.

Lemma DeleteUserData_Ok client user w w' :
  run (DeleteUserData client user) w = (Ok tt, w') →
  (∃ resp, http_do (n_http (w_counters w))
     (mkRequest "DELETE"
        (dc_baseURL client +:+ "/internal/api/v1/users/" +:+ uuid_String user)
        (bearer (dc_token client))) = Ok resp ∧
     (200 ≤ resp_status resp < 300)%Z) ∧
  w_db w' = w_db w ∧
  w_requests w' =
    mkRequest "DELETE"
      (dc_baseURL client +:+ "/internal/api/v1/users/" +:+ uuid_String user)
      (bearer (dc_token client)) :: w_requests w.
Proof.
  unfold DeleteUserData, internal_delete.
  destruct (NewRequest _ _ _) as [req|] eqn:Hreq; [|done].
  apply NewRequest_Ok in Hreq as ->.
  intros (resp & w1 & H1 & H)%run_bindE_Ok.
  rewrite run_perform in H1. simpl in H1. injection H1 as H1 <-.
  destruct (bool_decide _) eqn:E; [|done]. apply bool_decide_eq_true in E.
  injection H as <-. split_and!; [|done|done]. by exists resp.
Qed.

Definition step_done db (k : uuid * string) : Prop :=
  ∃ row, account_deletion_steps db !! k = Some row ∧
         step_status row = "completed".

(** From [w] to [w1] the loop over [steps] ran to its end. *)
Record loop_done (job : DeletionJob) (steps : list DeletionStep)
    (w w1 : World) : Prop := {
  loop_tables : ∀ T, T ≠ Steps → same_table T (w_db w) (w_db w1);
  loop_requests : ∀ q, q ∈ w_requests w → q ∈ w_requests w1;
  loop_confirmed : ∀ st, st ∈ steps → confirmed (Job_UserID job) st w1;
  loop_kept : ∀ k, step_done (w_db w) k → step_done (w_db w1) k;
  loop_recorded : ∀ st, st ∈ steps → Status st ≠ "completed" →
    step_done (w_db w1) (Job_ID job, Service st);
  loop_keys : ∀ k, is_Some (account_deletion_steps (w_db w1) !! k) →
                   is_Some (account_deletion_steps (w_db w) !! k)
}.

Lemma loop_done_nil job w : loop_done job [] w w.
Proof.
  split; try done; intros st Hst; by apply elem_of_nil in Hst.
Qed.

Lemma loop_done_skip job st steps w w1 :
  Status st = "completed" → loop_done job steps w w1 →
  loop_done job (st :: steps) w w1.
Proof.
  intros Hc []. split; try done.
  - intros st' [->|Hin]%elem_of_cons; [by left|auto].
  - intros st' [->|Hin]%elem_of_cons; [done|auto].
Qed.

Lemma CompleteDeletionStep_Ok job svc w w' :
  run (DeletionJobStore.CompleteDeletionStep job svc) w = (Ok tt, w') →
  w' = set_db (steps_update job svc (complete_step (next_now w))
                 (w_db w)).2 (tick_io w).
Proof.
  unfold DeletionJobStore.CompleteDeletionStep.
  intros (n & w1 & H1 & H)%run_bindE_Ok. injection H as <-.
  apply run_query_Ok in H1 as (db' & Hx & ->). simpl in Hx. by rewrite Hx.
Qed.

(** One step confirmed and recorded. *)
Lemma loop_done_cons job st steps client w w1 w2 w3 :
  clients !! Service st = Some client →
  is_Some (account_deletion_steps (w_db w) !! (Job_ID job, Service st)) →
  run (DeleteUserData client (Job_UserID job)) w = (Ok tt, w1) →
  run (DeletionJobStore.CompleteDeletionStep (Job_ID job) (Service st)) w1 =
    (Ok tt, w2) →
  loop_done job steps w2 w3 → loop_done job (st :: steps) w w3.
Proof.
  intros Hcl [row Hrow] (_ & Hdb & Hrq)%DeleteUserData_Ok
    H2%CompleteDeletionStep_Ok Hl.
  unfold steps_update, update_row in H2. rewrite Hdb, Hrow in H2.
  cbn [snd] in H2. set (k := (Job_ID job, Service st)) in *.
  set (row' := complete_step _ row) in *.
  assert (Hst2 : account_deletion_steps (w_db w2) =
    <[k := row']> (account_deletion_steps (w_db w))) by by rewrite H2.
  assert (Hrq2 : w_requests w2 = w_requests w1) by by rewrite H2.
  assert (Htab : ∀ T, T ≠ Steps → same_table T (w_db w) (w_db w2))
    by (rewrite H2; by intros []).
  assert (Hdone : step_done (w_db w2) k).
  { exists row'. by rewrite Hst2, lookup_insert_eq. }
  clear H2. destruct Hl as [L1 L2 L3 L4 L5 L6]. split.
  - intros T HT. etrans; [by apply Htab|by apply L1].
  - intros q Hq. apply L2. rewrite Hrq2, Hrq. by apply list_elem_of_further.
  - intros st' [->|Hin]%elem_of_cons; [|auto]. right. exists client.
    split; [done|]. apply L2. rewrite Hrq2, Hrq. apply list_elem_of_here.
  - intros k' Hk. apply L4. destruct (decide (k = k')) as [<-|Hne]; [done|].
    destruct Hk as (r & Hr & Hs). exists r.
    by rewrite Hst2, lookup_insert_ne.
  - intros st' [->|Hin]%elem_of_cons Hs; [by apply L4|auto].
  - intros k' Hk%L6. rewrite Hst2 in Hk.
    destruct (decide (k = k')) as [<-|Hne]; [by rewrite Hrow|].
    by rewrite lookup_insert_ne in Hk.
Qed.

Lemma retry_keeps_users job st e w :
  users (w_db (run (retry job st e) w).2) = users (w_db w).
Proof.
  symmetry. apply (run_keeps Users). unfold retry.
  autounfold with effects. walk; leaf.
Qed.

(** The loop either stops early, and then no account is touched, or ends
    in [fin] with every step confirmed and recorded as completed. *)
Lemma run_steps_run job steps fin w r w' :
  run (run_steps clients job steps fin) w = (r, w') →
  (∀ st, st ∈ steps →
     is_Some (account_deletion_steps (w_db w) !! (Job_ID job, Service st))) →
  users (w_db w') = users (w_db w) ∨
  ∃ w1, run fin w1 = (r, w') ∧ loop_done job steps w w1.
Proof.
  revert w. induction steps as [|st steps IH]; intros w H Hrows.
  { right. exists w. split; [done|apply loop_done_nil]. }
  cbn [run_steps] in H.
  assert (Hrest : ∀ st', st' ∈ steps →
    is_Some (account_deletion_steps (w_db w) !! (Job_ID job, Service st')))
    by (intros st' Hin; apply Hrows; by apply list_elem_of_further).
  destruct (bool_decide (Status st = "completed")) eqn:Hc.
  { apply bool_decide_eq_true in Hc. apply IH in H as [?|(w1 & H1 & Hl)];
      [by left| |done].
    right. exists w1. split; [done|]. by apply loop_done_skip. }
  destruct (clients !! Service st) as [client|] eqn:Hcl.
  2:{ left. pose proof (retry_keeps_users job st
        (Errorf "missing cleanup client") w) as Hk. by rewrite H in Hk. }
  apply run_bind_inv in H as (r1 & w1 & H1 & H).
  assert (Hu1 : users (w_db w1) = users (w_db w)).
  { replace w1 with (run (DeleteUserData client (Job_UserID job)) w).2
      by by rewrite H1.
    symmetry. apply (run_keeps Users). unfold DeleteUserData, internal_delete.
    walk; leaf. }
  destruct r1 as [[]|e].
  2:{ left. pose proof (retry_keeps_users job st e w1) as Hk.
      rewrite H in Hk. cbn [snd] in Hk. by rewrite Hk. }
  rewrite run_bindE in H.
  destruct (run (DeletionJobStore.CompleteDeletionStep _ _) w1)
    as [[[]|e] w2] eqn:H2.
  2:{ left. injection H as <- <-. rewrite <-Hu1.
      replace w2 with (run (DeletionJobStore.CompleteDeletionStep
        (Job_ID job) (Service st)) w1).2 by by rewrite H2.
      symmetry. apply (run_keeps Users). autounfold with effects. walk; leaf. }
  pose proof H2 as Hw2. apply CompleteDeletionStep_Ok in Hw2.
  assert (Hkeys : ∀ k, is_Some (account_deletion_steps (w_db w) !! k) →
    is_Some (account_deletion_steps (w_db w2) !! k)).
  { apply DeleteUserData_Ok in H1 as (_ & Hdb & _). intros k Hk.
    rewrite Hw2. simpl. unfold steps_update, update_row. rewrite Hdb.
    destruct (Hrows st (list_elem_of_here _ _)) as [row Hrow]. rewrite Hrow.
    simpl. destruct (decide ((Job_ID job, Service st) = k)) as [<-|Hne].
    - rewrite lookup_insert_eq. eauto.
    - by rewrite lookup_insert_ne. }
  apply IH in H as [Hu|(w3 & H3 & Hl)]; [| |by eauto].
  - left. rewrite Hu, <-Hu1, Hw2. simpl. unfold steps_update.
    by destruct (update_row _ _ _).
  - right. exists w3. split; [done|].
    eapply loop_done_cons; [done|apply Hrows, list_elem_of_here|done|done|done].
Qed.

(** ** The account *)

Lemma DeleteUser_any id w :
  let w' := (run (UserRepository.Delete id) w).2 in
  (w_db w' = w_db w ∨ w_db w' = (users_delete id (w_db w)).2) ∧
  w_requests w' = w_requests w.
Proof.
  unfold UserRepository.Delete, exec_affecting.
  rewrite run_bindE, run_wrapE, run_perform. cbn [handle].
  unfold handle_query. cbn [exec]. unfold faulty.
  destruct (users_delete id (w_db w)) as [[n|e] db']; cbn [snd].
  - destruct (fault _) as [[m []]|];
      [split; [by right|done]|split; [by left|done]|].
    destruct n; (split; [by right|done]).
  - destruct (fault _) as [[m []]|];
      [split; [by right|done]|split; [by left|done]|].
    split; [by right|done].
Qed.

Lemma users_delete_users id db :
  users (users_delete id db).2 = delete id (users db).
Proof.
  unfold users_delete. destruct (users db !! id) eqn:E; [done|].
  simpl. by rewrite delete_id.
Qed.

Lemma finish_job_any job w :
  let w' := (run (finish_job job) w).2 in
  (users (w_db w') = users (w_db w) ∨
   users (w_db w') = delete (Job_UserID job) (users (w_db w))) ∧
  (∀ T, T ∈ [Steps] → same_table T (w_db w) (w_db w')) ∧
  w_requests w' = w_requests w.
Proof.
  cbv zeta. split; [|split].
  - unfold finish_job. rewrite run_bind.
    pose proof (DeleteUser_any (Job_UserID job) w) as [Hd _].
    destruct (run (UserRepository.Delete _) w) as [r w1]. cbn [fst snd] in *.
    match goal with |- context [run ?p w1] =>
      pose proof (run_keeps Users p w1) as Hk end.
    cbn [same_table] in Hk. rewrite <-Hk.
    2:{ autounfold with effects. walk; leaf. }
    destruct Hd as [-> | ->]; [by left|right]. apply users_delete_users.
  - intros T HT. apply list_elem_of_singleton in HT as ->.
    apply run_keeps. unfold finish_job.
    autounfold with effects. walk; leaf.
  - apply run_keeps_requests. unfold finish_job.
    autounfold with effects. walk; exact I.
Qed.

(** The steps the worker is given are the rows of the claimed job. *)
Lemma claimed_row j row db :
  db_ok db → row ∈ steps_of (job_id j) db →
  account_deletion_steps db !! (job_id j, step_service row) = Some row.
Proof.
  intros Hok [Hjid [k Hk]]%elem_of_steps_of.
  pose proof (ok_steps_key _ Hok _ _ Hk) as Hkey. simpl in Hkey.
  by rewrite <-Hjid, Hkey.
Qed.

(** After the loop every step of the job, whether it was given to the worker
    as open or as completed, is recorded as completed. *)
Lemma loop_completes_all j w w1 w2 svc row :
  db_ok (w_db w) →
  account_deletion_steps (w_db w1) = account_deletion_steps (w_db w) →
  let job := mkDeletionJob (job_id j) (job_user_id j)
               (scan_step <$> steps_of (job_id j) (w_db w)) in
  loop_done job (Job_Steps job) w1 w2 →
  account_deletion_steps (w_db w2) !! (job_id j, svc) = Some row →
  step_status row = "completed".
Proof.
  intros Hok Hst1 job [_ _ _ L4 L5 L6] Hk.
  destruct (L6 (job_id j, svc) ltac:(eauto)) as [row0 Hk0].
  rewrite Hst1 in Hk0.
  pose proof (ok_steps_key _ Hok _ _ Hk0) as Hkey. simpl in Hkey.
  injection Hkey as Hjid Hsvc.
  assert (Hdone : step_done (w_db w2) (job_id j, svc)).
  { destruct (decide (step_status row0 = "completed")) as [Hc|Hc].
    - apply L4. exists row0. by rewrite Hst1.
    - rewrite <-Hsvc. apply (L5 (scan_step row0)); [|done].
      simpl. apply list_elem_of_fmap. exists row0. split; [done|].
      apply elem_of_steps_of. eauto. }
  destruct Hdone as (row1 & Hr1 & Hc1). congruence.
Qed.

(** If an account is gone after a run of the deletion worker, whatever
    failed during the run, then the run had claimed that account's job, every
    service of the job had confirmed the deletion of its data, all steps are
    recorded as completed, and no other account was touched. *)
Lemma RunOnce_deletes_last w r w' u usr :
  db_ok (w_db w) →
  run (RunOnce clients) w = (r, w') →
  users (w_db w) !! u = Some usr → users (w_db w') !! u = None →
  ∃ j,
    account_deletion_jobs (w_db w) !! job_id j = Some j ∧
    job_user_id j = u ∧
    (∀ row, row ∈ steps_of (job_id j) (w_db w) →
            confirmed u (scan_step row) w') ∧
    (∀ svc row, account_deletion_steps (w_db w') !! (job_id j, svc) =
                  Some row → step_status row = "completed") ∧
    (∀ u', u' ≠ u → users (w_db w') !! u' = users (w_db w) !! u').
Proof.
  intros Hok H Hu Hu'. unfold RunOnce in H. rewrite run_bindE in H.
  destruct (run DeletionJobStore.ClaimDeletion w) as [[[job|]|e] w1] eqn:H1;
    apply claim_run in H1 as [Hcl Hrq]; try done.
  2-3: injection H as <- <-; exfalso;
    destruct Hcl as [[Hdb _]|(j & _ & _ & Hdb & _)];
    rewrite Hdb in Hu'; simpl in Hu'; congruence.
  destruct Hcl as [[_ Hn]|(j & Hj & _ & Hdb & Hjob)];
    [by destruct (Hn job)|].
  specialize (Hjob job eq_refl). subst job. set (job := mkDeletionJob _ _ _) in *.
  assert (Hus1 : users (w_db w1) = users (w_db w)) by by rewrite Hdb.
  assert (Hst1 : account_deletion_steps (w_db w1) =
                 account_deletion_steps (w_db w)) by by rewrite Hdb.
  apply run_steps_run in H as [Hsame|(w2 & H2 & Hl)].
  { rewrite Hsame, Hus1 in Hu'. congruence. }
  2:{ intros st Hst. rewrite Hst1. simpl in Hst.
      apply list_elem_of_fmap in Hst as (row & -> & Hin).
      exists row. by apply claimed_row. }
  pose proof (finish_job_any job w2) as (Hfin & Hstp & Hrq2).
  rewrite H2 in Hfin, Hstp, Hrq2. cbn [snd] in Hfin, Hstp, Hrq2.
  pose proof (loop_tables _ _ _ _ Hl Users ltac:(done)) as Hus2.
  simpl in Hus2. rewrite <-Hus2, Hus1 in Hfin.
  destruct Hfin as [Hfin|Hfin]; [rewrite Hfin in Hu'; congruence|].
  simpl in Hfin.
  assert (Heq : job_user_id j = u).
  { apply dec_stable. intros Hne. rewrite Hfin, lookup_delete_ne in Hu';
      congruence. }
  exists j. split_and!; [done|done| | |].
  - intros row Hin. unfold confirmed. rewrite Hrq2. rewrite <-Heq.
    apply (loop_confirmed _ _ _ _ Hl (scan_step row)). simpl.
    apply list_elem_of_fmap. eauto.
  - intros svc row Hk.
    pose proof (Hstp Steps ltac:(by apply list_elem_of_singleton)) as Hx.
    cbn [same_table] in Hx. rewrite <-Hx in Hk.
    by eapply (loop_completes_all j w w1).
  - intros u' Hne. rewrite Hfin. apply lookup_delete_ne. congruence.
Qed.

(** ** Progress *)

(** The client's URLs parse. *)
Definition reachable (client : DeletionClient) : Prop :=
  ∀ path, url_Parse_error (dc_baseURL client +:+ path) = None.

(** Every call to another service is answered with a 2xx status. *)
Definition services_up : Prop :=
  (∀ sv client, clients !! sv = Some client → reachable client) ∧
  ∀ n q, ∃ resp, http_do n q = Ok resp ∧ (200 ≤ resp_status resp < 300)%Z.

Lemma run_DeleteUserData sv client user w :
  services_up → clients !! sv = Some client →
  ∃ w', run (DeleteUserData client user) w = (Ok tt, w') ∧ w_db w' = w_db w.
Proof.
  intros [Hurl Hup] Hcl. unfold DeleteUserData, internal_delete, NewRequest.
  rewrite (Hurl _ _ Hcl). rewrite run_bindE, run_perform. cbn [handle].
  destruct (Hup (n_http (w_counters w)) (mkRequest "DELETE"
    (dc_baseURL client +:+ "/internal/api/v1/users/" +:+ uuid_String user)
    (bearer (dc_token client)))) as (resp & -> & Hs).
  rewrite bool_decide_true by done. eexists. done.
Qed.

Lemma run_steps_healthy job steps fin w :
  healthy → services_up →
  (∀ st, st ∈ steps → is_Some (clients !! Service st)) →
  ∃ w1, run (run_steps clients job steps fin) w = run fin w1 ∧
        ∀ T, T ≠ Steps → same_table T (w_db w) (w_db w1).
Proof.
  intros Hh Hup. revert w. induction steps as [|st steps IH]; intros w Hcl.
  { by exists w. }
  assert (Hrest : ∀ st', st' ∈ steps → is_Some (clients !! Service st'))
    by (intros st' Hin; apply Hcl; by apply list_elem_of_further).
  cbn [run_steps]. case_bool_decide; [by apply IH|].
  destruct (Hcl st (list_elem_of_here _ _)) as [client Hc]. rewrite Hc.
  destruct (run_DeleteUserData _ _ (Job_UserID job) w Hup Hc)
    as (w1 & H1 & Hdb1).
  rewrite run_bind, H1. cbn [fst snd]. rewrite run_bindE.
  unfold DeletionJobStore.CompleteDeletionStep.
  rewrite run_bindE, (run_query Hh). cbn [exec]. unfold steps_update.
  destruct (update_row _ _ _) as [n m]. cbn [fst snd].
  set (w2 := set_db _ _).
  destruct (IH w2 Hrest) as (w3 & H3 & Ht). exists w3. split; [done|].
  intros T HT. etrans; [|by apply Ht]. simpl. rewrite <-Hdb1. by destruct T.
Qed.

Lemma run_finish_job job j w :
  healthy → account_deletion_jobs (w_db w) !! Job_ID job = Some j →
  ∃ w' j', run (finish_job job) w = (Ok tt, w') ∧
    users (w_db w') = delete (Job_UserID job) (users (w_db w)) ∧
    account_deletion_jobs (w_db w') =
      <[Job_ID job := j']> (account_deletion_jobs (w_db w)) ∧
    job_status j' = "completed".
Proof.
  intros Hh Hj. unfold finish_job, UserRepository.Delete, exec_affecting.
  rewrite run_bind, run_bindE, run_wrapE, (run_query Hh). cbn [exec].
  unfold users_delete.
  destruct (users (w_db w) !! Job_UserID job) as [u|] eqn:Hu;
    cbn beta iota zeta delta [fst snd]; rewrite ?run_bindE.
  - unfold returnOk. cbn [run fst snd].
    unfold DeletionJobStore.CompleteDeletionJob.
    rewrite run_bindE, (run_query Hh). cbn [exec]. unfold jobs_update,
      update_row. simpl. rewrite Hj. cbn [fst snd].
    eexists _, _. split_and!; [reflexivity|done|reflexivity|done].
  - unfold returnErr. cbn [run fst snd]. rewrite errors_Is_refl. cbn [negb].
    unfold DeletionJobStore.CompleteDeletionJob.
    rewrite run_bindE, (run_query Hh). cbn [exec]. unfold jobs_update,
      update_row. simpl. rewrite Hj. cbn [fst snd].
    eexists _, _.
    split_and!; [reflexivity| |reflexivity|done].
    simpl. by rewrite delete_id.
Qed.

(** One run without faults: the most urgent job is completed, its account
    deleted, everything else left alone. *)
Lemma RunOnce_completes w j :
  healthy → services_up → db_ok (w_db w) →
  earliest (List.filter (claimable (next_now w))
              (map_to_list (account_deletion_jobs (w_db w))).*2) = Some j →
  (job_attempt_count j < 2 ^ 31 - 1)%Z → (0 ≤ job_attempt_count j)%Z →
  (∀ row, row ∈ steps_of (job_id j) (w_db w) →
          is_Some (clients !! step_service row)) →
  ∃ w' j',
    run (RunOnce clients) w = (Ok tt, w') ∧
    users (w_db w') = delete (job_user_id j) (users (w_db w)) ∧
    account_deletion_jobs (w_db w') =
      <[job_id j := j']> (account_deletion_jobs (w_db w)) ∧
    job_status j' = "completed".
Proof.
  intros Hh Hup Hok He Hmax Hmin Hcl. unfold RunOnce.
  assert (Hclaim : ∃ w1, run DeletionJobStore.ClaimDeletion w =
    (Ok (Some (mkDeletionJob (job_id j) (job_user_id j)
                 (scan_step <$> steps_of (job_id j) (w_db w)))), w1) ∧
    w_db w1 = set_jobs <[job_id j := claim (next_now w) j]> (w_db w)).
  { unfold DeletionJobStore.ClaimDeletion.
    rewrite run_bindE, run_perform. cbn [handle]. unfold handle_tx.
    rewrite (Hh (n_io (w_counters w))).
    unfold DeletionJobStore.claim_tx. cbn [run_tx]. rewrite !Hh.
    cbn [exec]. unfold jobs_claim. unfold next_now in He. rewrite He.
    assert (Hi : Int.int4_ok (job_attempt_count j + 1) = true)
      by (unfold Int.int4_ok; apply bool_decide_eq_true; lia).
    rewrite Hi. cbn [run_tx]. rewrite !Hh. cbn [exec run_tx]. rewrite !Hh.
    eexists. by split. }
  destruct Hclaim as (w1 & H1 & Hdb1). rewrite run_bindE, H1.
  set (job := mkDeletionJob _ _ _).
  destruct (run_steps_healthy job (Job_Steps job) (finish_job job) w1)
    as (w2 & H2 & Ht); [done|done| |].
  { intros st Hst. simpl in Hst.
    apply list_elem_of_fmap in Hst as (row & -> & Hin). by apply Hcl. }
  destruct (run_finish_job job (claim (next_now w) j) w2) as
    (w' & j' & H3 & Hu & Hj & Hs); [done| |].
  { pose proof (Ht Jobs ltac:(done)) as Hx. cbn [same_table] in Hx.
    rewrite <-Hx, Hdb1. simpl. apply lookup_insert_eq. }
  pose proof (Ht Users ltac:(done)) as Hx. cbn [same_table] in Hx.
  pose proof (Ht Jobs ltac:(done)) as Hy. cbn [same_table] in Hy.
  exists w', j'. rewrite H2, H3. split_and!; [done| | |done].
  - by rewrite Hu, <-Hx, Hdb1.
  - rewrite Hj, <-Hy, Hdb1. simpl. by rewrite insert_insert_eq.
Qed.

(** ** Retrying *)

(** At most eight doublings. *)
Lemma backoff_power a :
  (0 ≤ a)%Z → DeletionJobStore.backoff_minutes a = (2 ^ Z.min a 8)%Z.
Proof.
  intros Ha. unfold DeletionJobStore.backoff_minutes.
  assert (DeletionJobStore.min a 8 = Z.min a 8) as ->
    by (unfold DeletionJobStore.min; case_bool_decide; lia).
  rewrite Z.shiftl_mul_pow2, Z.mul_1_l by lia. done.
Qed.

(** C35. After RetryDeletionStep the step is due only after its delay, but the
    job can be claimed again at once: the delay is never honoured. *)
Theorem RetryDeletionStep_delay_ignored job svc attempt msg w j step :
  healthy → account_deletion_jobs (w_db w) !! job = Some j →
  account_deletion_steps (w_db w) !! (job, svc) = Some step →
  Int.int4_ok attempt = true → (0 ≤ attempt)%Z →
  ∃ w' j' step' now,
    run (DeletionJobStore.RetryDeletionStep job svc attempt msg) w =
      (Ok tt, w') ∧
    account_deletion_jobs (w_db w') !! job = Some j' ∧
    account_deletion_steps (w_db w') !! (job, svc) = Some step' ∧
    (* the step is due after the delay *)
    step_next_attempt_at step' =
      (now + DeletionJobStore.backoff_minutes attempt * Minute)%Z ∧
    (now + Minute ≤ step_next_attempt_at step')%Z ∧
    (* the job is due whenever it was *)
    ∀ t, (job_next_attempt_at j ≤ t)%Z → claimable t j' = true.
Proof.
  intros Hh Hj Hs Hi Ha. unfold DeletionJobStore.RetryDeletionStep.
  rewrite run_bindE, (run_query Hh). cbn [exec]. rewrite Hi.
  unfold steps_update, update_row. rewrite Hs. cbn [fst snd].
  rewrite run_bindE, (run_query Hh). cbn [exec].
  unfold jobs_update, update_row. simpl. rewrite Hj. cbn [fst snd].
  eexists _, _, _, (next_now w). split_and!.
  - reflexivity.
  - simpl. apply lookup_insert_eq.
  - simpl. apply lookup_insert_eq.
  - done.
  - simpl. unfold TimeAdd. rewrite backoff_power by done.
    pose proof (Z.pow_le_mono_r 2 0 (Z.min attempt 8)).
    unfold Minute, Second. lia.
  - intros t Ht. unfold claimable. simpl.
    by rewrite !bool_decide_true.
Qed.
End worker.

(** ** Witnesses *)

Lemma demo_services_up : services_up demo_clients.
Proof.
  split; [|intros n q; eexists; split; [reflexivity|simpl; lia]].
  intros sv client Hcl%elem_of_list_to_map_2 path.
  apply list_elem_of_fmap in Hcl as (x & [= -> ->] & Hx).
  cbn in Hx. rewrite list_elem_of_In in Hx. simpl in Hx.
  destruct_or! Hx; by subst x.
Qed.

Definition demo_job : DeletionJobRow :=
  default (mkDeletionJobRow 0 0 "" 0 0 None None 0)
    (account_deletion_jobs (w_db demo_delete.2) !! 1002%N).

(** The third failure of the media service's step. *)
Lemma RetryDeletionStep_delay_ignored_witness :
  ∃ w' j',
    run (DeletionJobStore.RetryDeletionStep 1002%N "media" 3 "down")
      demo_delete.2 = (Ok tt, w') ∧
    account_deletion_jobs (w_db w') !! 1002%N = Some j' ∧
    ∀ t, (job_next_attempt_at demo_job ≤ t)%Z → claimable t j' = true.
Proof.
  destruct (RetryDeletionStep_delay_ignored 1002%N "media" 3 "down"
              demo_delete.2 demo_job
              (default (mkDeletionStepRow 0 "" "" 0 0 None 0)
                 (account_deletion_steps (w_db demo_delete.2) !!
                  (1002%N, "media"))))
    as (w' & j' & st & now & H1 & H2 & _ & _ & _ & H3).
  - intros i. reflexivity.
  - vm_compute. reflexivity.
  - vm_compute. reflexivity.
  - reflexivity.
  - lia.
  - exists w', j'. split; [exact H1|]. split; [exact H2|exact H3].
Defined.
