(* ===== verification/Queue.v ===== *)
(** * The deletion queue's contract

    The ports behind which use cases and worker reach the queue of deletion
    jobs (DeletionRequester and DeletionJobStore of ports.go) as types of
    calls, what each call promises about the jobs and steps on file, and that
    deletion_store.go keeps the promise under every fault: a call goes through
    its stages in order, stops where a fault stops it, and reports success
    only when it went through all of them. *)
From stdpp Require Import sorting.
From S2P Require Import Prelude Tables GoBase Domain Schema Effects Logic.
From S2P Require Import GoStrings Platform Postgres Service Footprint.
From S2P Require Import Integrity Repositories Healthy ServiceFacts.
From S2P Require Import DeletionWorker Demo Contracts Deletion Worker.
#[local] Open Scope go_scope.

(** ** The ports *)


Section queue.
Context `{PT : PgTime, EV : Env, SS : SessionStore, SL : !SessionStoreLaws,
          L : Lib, U : Unicode}.
Implicit Types (w : World) (db : Database).


(** ** What a call promises *)






Definition step_put_off (now : time) (attempt : Z) (errText : string)
    (s : DeletionStepRow) : DeletionStepRow :=
  {| step_job_id := step_job_id s; step_service := step_service s;
     step_status := "pending"; step_attempt_count := attempt;
     step_next_attempt_at := (now + 2 ^ Z.min attempt 8 * 60000000000)%Z;
     step_last_error := Some errText; step_updated_at := now |}.





(** ** The statements *)


Lemma retry_step_put_off now a m s :
  retry_step a (2 ^ Z.min a 8) m now s = step_put_off now a m s.
Proof. done. Qed.











(** ** Call by call *)



#[local] Instance step_le_total : Total step_le.
Proof.
  intros s t. unfold step_le. destruct (String.leb_total (step_service s)
    (step_service t)) as [->| ->]; auto.
Qed.







(** ** The request *)











End queue.

(** ** Witness *)


