(* ===== verification/Drain.v ===== *)
(** * The deletion worker empties its queue

    One run completes one job (Worker); repeated as often as there are open
    jobs, the ticker loop completes all of them and deletes their accounts,
    provided every call is answered, the services confirm and the jobs are
    due. *)
From S2P Require Import Prelude Tables GoBase Domain Schema Effects Logic.
From S2P Require Import GoStrings Platform Postgres Service Footprint.
From S2P Require Import Integrity Repositories Healthy DeletionWorker Demo.
From S2P Require Import Requests Worker.
#[local] Open Scope go_scope.

Definition is_open (j : DeletionJobRow) : Prop := job_status j ≠ "completed".

Definition open_jobs (db : Database) : gmap uuid DeletionJobRow :=
  filter (λ kv, job_status kv.2 ≠ "completed") (account_deletion_jobs db).

Section drain.
Context `{PT : PgTime, EV : Env, SS : SessionStore, L : Lib}.
Variable clients : gmap string DeletionClient.
Implicit Types (w : World).

(** The open jobs can be claimed at once, and counted once more. *)
Definition all_due w : Prop :=
  ∀ k j, account_deletion_jobs (w_db w) !! k = Some j → is_open j →
    claimable (next_now w) j = true ∧
    (0 ≤ job_attempt_count j < 2 ^ 31 - 1)%Z.

(** The worker has a client for every step. *)
Definition all_served w : Prop :=
  ∀ key, is_Some (account_deletion_steps (w_db w) !! key) →
    is_Some (clients !! key.2).

(** ** Time does not run backwards, steps do not appear *)

Lemma run_io {A} (p : prog A) w :
  n_io (w_counters w) ≤ n_io (w_counters (run p w).2).
Proof.
  apply (run_invariant (λ _ _, True)
    (λ w', n_io (w_counters w) ≤ n_io (w_counters w'))); [|by intros; etrans;
    [done|apply handle_io]|done].
  apply all_effects_True.
Qed.

Definition adds_no_step {X} (q : stmt X) : Prop :=
  match q with InsertDeletionStep _ _ => False | _ => True end.

Definition no_new_step (db db' : Database) : Prop :=
  ∀ key, is_Some (account_deletion_steps db' !! key) →
         is_Some (account_deletion_steps db !! key).

Lemma steps_update_keys j sv f db : no_new_step db (steps_update j sv f db).2.
Proof.
  unfold steps_update, update_row. intros key.
  destruct (account_deletion_steps db !! (j, sv)) as [row|] eqn:Hr; simpl;
    [|done].
  destruct (decide ((j, sv) = key)) as [<-|Hne]; [by eauto|].
  by rewrite lookup_insert_ne.
Qed.

Lemma exec_no_new_step {X} (q : stmt X) now db :
  adds_no_step q → no_new_step db (exec q now db).2.
Proof.
  intros Hq. destruct (decide (Steps ∈ writes q)) as [Hin|Hn].
  2:{ pose proof (exec_keeps Steps q now db Hn) as Hk. simpl in Hk.
      intros key. by rewrite <-Hk. }
  destruct q; try done;
    try (exfalso; rewrite list_elem_of_In in Hin; simpl in Hin;
         intuition congruence).
  - apply steps_update_keys.
  - cbn [exec]. case_match; [|by intros key]. apply steps_update_keys.
Qed.

Lemma handle_no_new_step {X} (e : eff X) w :
  eff_stmts (@adds_no_step) e → no_new_step (w_db w) (w_db (handle e w).2).
Proof.
  intros He. apply (handle_stmts (@adds_no_step) (no_new_step (w_db w)));
    [|done|by intros key].
  intros Y q db Hq Hdb key Hkey. apply Hdb.
  by apply (exec_no_new_step q) in Hkey.
Qed.

Lemma RunOnce_no_new_step w :
  no_new_step (w_db w) (w_db (run (RunOnce clients) w).2).
Proof.
  apply (run_invariant (λ X e, eff_stmts (@adds_no_step) e)
    (λ w', no_new_step (w_db w) (w_db w'))); [| |by intros key].
  - unfold RunOnce, DeletionJobStore.ClaimDeletion. walk; try done.
    + by apply claim_tx_all.
    + apply run_steps_all; try done. unfold finish_job.
      autounfold with effects. walk; done.
  - intros X e w1 He Hw1 key Hk. by apply Hw1, (handle_no_new_step e w1 He).
Qed.

(** ** The loop *)

Hypothesis Hh : healthy.
Hypothesis Hup : services_up clients.
Hypothesis Hmono : ∀ i k, i ≤ k → (db_clock i ≤ db_clock k)%Z.

Lemma claimable_later now now' j :
  (now ≤ now')%Z → claimable now j = true → claimable now' j = true.
Proof.
  unfold claimable. intros Hle. rewrite !andb_true_iff, !bool_decide_eq_true.
  intros [[H1 H2] H3]. split_and!; [done|lia|].
  destruct (job_lease_until j); [|done].
  rewrite bool_decide_eq_true in *. lia.
Qed.

Lemma claimable_open now j : claimable now j = true → is_open j.
Proof.
  unfold claimable. rewrite !andb_true_iff, !bool_decide_eq_true.
  by intros [[H _] _].
Qed.

(** Nothing to do. *)
Lemma RunOnce_idle w :
  open_jobs (w_db w) = ∅ →
  ∃ w', run (RunOnce clients) w = (Ok tt, w') ∧ w_db w' = w_db w.
Proof.
  intros Ho.
  assert (He : ∀ now, earliest (List.filter (claimable now)
    (map_to_list (account_deletion_jobs (w_db w))).*2) = None).
  { intros now. destruct (earliest _) as [j|] eqn:He; [|done]. exfalso.
    apply claim_candidate in He as (k & Hin & Hcl).
    assert (Hj : open_jobs (w_db w) !! k = Some j).
    { apply map_lookup_filter_Some. split; [done|]. by eapply claimable_open. }
    by rewrite Ho, lookup_empty in Hj. }
  unfold RunOnce, DeletionJobStore.ClaimDeletion.
  rewrite !run_bindE, run_perform. cbn [handle]. unfold handle_tx.
  rewrite (Hh (n_io (w_counters w))).
  unfold DeletionJobStore.claim_tx. cbn [run_tx]. rewrite Hh.
  cbn [exec]. unfold jobs_claim. rewrite He. cbn.
  eexists. by split.
Qed.

Lemma open_job_claimed w :
  all_due w → open_jobs (w_db w) ≠ ∅ →
  ∃ k j, account_deletion_jobs (w_db w) !! k = Some j ∧
    claimable (next_now w) j = true ∧
    earliest (List.filter (claimable (next_now w))
      (map_to_list (account_deletion_jobs (w_db w))).*2) = Some j.
Proof.
  intros Hdue Hne. apply map_choose in Hne as (k & j & Hk).
  apply map_lookup_filter_Some in Hk as [Hk Ho]. simpl in Ho.
  destruct (Hdue _ _ Hk Ho) as [Hc _].
  destruct (earliest _) as [j'|] eqn:He.
  - pose proof He as Hin. apply claim_candidate in Hin as (k' & Hin & Hcl).
    by exists k', j'.
  - apply earliest_None in He.
    assert (Hin : j ∈ List.filter (claimable (next_now w))
      (map_to_list (account_deletion_jobs (w_db w))).*2).
    { rewrite list_elem_of_In, List.filter_In, <-list_elem_of_In.
      split; [|done]. apply list_elem_of_fmap. exists (k, j).
      split; [done|]. by apply elem_of_map_to_list. }
    rewrite He in Hin. by apply elem_of_nil in Hin.
Qed.

(** One tick: one open job less, or none left. *)
Lemma RunOnce_progress w :
  db_ok (w_db w) → all_due w → all_served w → open_jobs (w_db w) ≠ ∅ →
  ∃ w' j j',
    run (RunOnce clients) w = (Ok tt, w') ∧
    account_deletion_jobs (w_db w) !! job_id j = Some j ∧ is_open j ∧
    users (w_db w') = delete (job_user_id j) (users (w_db w)) ∧
    account_deletion_jobs (w_db w') =
      <[job_id j := j']> (account_deletion_jobs (w_db w)) ∧
    ¬ is_open j' ∧
    db_ok (w_db w') ∧ all_due w' ∧ all_served w' ∧
    open_jobs (w_db w') = delete (job_id j) (open_jobs (w_db w)).
Proof.
  intros Hok Hdue Hsrv Hne.
  destruct (open_job_claimed w Hdue Hne) as (k & j & Hk & Hc & He).
  pose proof (ok_jobs_key _ Hok _ _ Hk) as Hkey. simpl in Hkey. subst k.
  pose proof (claimable_open _ _ Hc) as Ho.
  destruct (Hdue _ _ Hk Ho) as [_ Hatt].
  destruct (RunOnce_completes clients w j) as (w' & j' & Hrun & Hu & Hj & Hst);
    try done; try lia.
  { intros row Hrow. apply elem_of_steps_of in Hrow as [_ [key Hrow]].
    pose proof (ok_steps_key _ Hok _ _ Hrow) as Hkey. simpl in Hkey.
    destruct (Hsrv key) as [c Hcl]; [by eexists|]. rewrite <-Hkey in Hcl.
    by exists c. }
  assert (Ew : w' = (run (RunOnce clients) w).2) by by rewrite Hrun.
  exists w', j, j'. split_and!; try done.
  - intros Hn. by apply Hn.
  - rewrite Ew. by apply run_ok.
  - intros k j0 Hj0 Ho0. rewrite Hj in Hj0.
    destruct (decide (job_id j = k)) as [<-|Hk'].
    { rewrite lookup_insert_eq in Hj0. injection Hj0 as <-. by destruct Ho0. }
    rewrite lookup_insert_ne in Hj0 by done.
    destruct (Hdue _ _ Hj0 Ho0) as [Hc0 Ha0]. split; [|done].
    eapply claimable_later; [|exact Hc0]. apply Hmono. rewrite Ew. apply run_io.
  - intros key Hkey. apply Hsrv, RunOnce_no_new_step. by rewrite <-Ew.
  - unfold open_jobs. rewrite Hj, map_filter_insert_False by (intros Hn; by apply Hn).
    apply map_filter_delete.
Qed.

Lemma none_open w k j :
  open_jobs (w_db w) = ∅ →
  account_deletion_jobs (w_db w) !! k = Some j → ¬ is_open j.
Proof.
  intros Ho Hj Hop.
  assert (Hx : open_jobs (w_db w) !! k = Some j)
    by (by apply map_lookup_filter_Some).
  by rewrite Ho, lookup_empty in Hx.
Qed.

Lemma Run_idle n w :
  open_jobs (w_db w) = ∅ → w_db (run (Run clients n) w).2 = w_db w.
Proof.
  revert w. induction n as [|n IH]; intros w Ho; [done|].
  cbn [Run]. rewrite run_bind. destruct (RunOnce_idle w Ho) as (w1 & Hr & Hdb).
  rewrite Hr. cbn [fst snd]. rewrite IH by by rewrite Hdb. done.
Qed.

(** The open jobs after a run are other jobs of other accounts. *)
Lemma still_open w w1 j j' k jk :
  db_ok (w_db w) → account_deletion_jobs (w_db w) !! job_id j = Some j →
  account_deletion_jobs (w_db w1) =
    <[job_id j := j']> (account_deletion_jobs (w_db w)) →
  ¬ is_open j' →
  account_deletion_jobs (w_db w1) !! k = Some jk → is_open jk →
  account_deletion_jobs (w_db w) !! k = Some jk ∧
  job_user_id jk ≠ job_user_id j.
Proof.
  intros Hok Hj Hjobs Hcl Hk Ho. rewrite Hjobs in Hk.
  destruct (decide (job_id j = k)) as [<-|Hne].
  { rewrite lookup_insert_eq in Hk. injection Hk as <-. done. }
  rewrite lookup_insert_ne in Hk by done. split; [done|]. intros E. apply Hne.
  by eapply (ok_jobs_user _ Hok (job_id j) k j jk (job_user_id j));
    [done|done|simpl; f_equal..].
Qed.

(** C23. When nothing fails, every service confirms, every open job is due and
    known to the worker, as many ticks as there are open jobs complete every
    job: the accounts of the open jobs are gone and all others are as they
    were. *)
Theorem Run_drains_queue n w :
  db_ok (w_db w) → all_due w → all_served w → size (open_jobs (w_db w)) ≤ n →
  let w' := (run (Run clients n) w).2 in
  every (λ j, job_status j = "completed") (account_deletion_jobs (w_db w')) ∧
  (∀ k j, account_deletion_jobs (w_db w) !! k = Some j → is_open j →
     users (w_db w') !! job_user_id j = None) ∧
  ∀ u, (∀ k j, account_deletion_jobs (w_db w) !! k = Some j → is_open j →
               job_user_id j ≠ u) →
    users (w_db w') !! u = users (w_db w) !! u.
Proof.
  cbv zeta. revert w. induction n as [|n IH]; intros w Hok Hdue Hsrv Hsz;
    destruct (decide (open_jobs (w_db w) = ∅)) as [Ho|Ho].
  1,3: rewrite Run_idle by done;
    (split_and!; [|intros k j Hj Hop; by destruct (none_open w k j)|done]);
    intros k j Hj; apply dec_stable; by eapply none_open.
  - exfalso. apply Ho. apply map_size_empty_inv. lia.
  - destruct (RunOnce_progress w) as
      (w1 & j & j' & Hr & Hj & Hop & Hu & Hjobs & Hcl & Hok1 & Hdue1 & Hsrv1 & Ho1);
      [done..|].
    cbn [Run]. rewrite run_bind, Hr. cbn [fst snd].
    destruct (IH w1) as (H1 & H2 & H3); try done.
    { rewrite Ho1, map_size_delete.
      assert (Hl : open_jobs (w_db w) !! job_id j = Some j)
        by (by apply map_lookup_filter_Some).
      rewrite Hl. lia. }
    split_and!; [done| |].
    + intros k jk Hk Hopk. destruct (decide (job_id j = k)) as [<-|Hne].
      * assert (jk = j) as -> by congruence.
        rewrite H3; [rewrite Hu; apply lookup_delete_eq|].
        intros k' j1 Hj1 Ho1'. by destruct (still_open w w1 j j' k' j1).
      * apply (H2 k jk); [|done]. by rewrite Hjobs, lookup_insert_ne.
    + intros u Hun. rewrite H3.
      * rewrite Hu. apply lookup_delete_ne. by eapply Hun.
      * intros k' j1 Hj1 Ho1'. eapply (Hun k'); [|done].
        by destruct (still_open w w1 j j' k' j1).
Qed.
End drain.

(** Two accounts wait for their deletion; three ticks. *)
Definition demo_second_account : World :=
  (run (Register demo_service (mkRegisterInput "wasp@example.com" "pw"))
     demo_delete.2).2.
Definition demo_two_jobs : World :=
  (run (DeletionStore.RequestDeletion 1003%N) demo_second_account).2.

Lemma demo_mono i k :
  i ≤ k → (db_clock (Env := demo_env) i ≤ db_clock (Env := demo_env) k)%Z.
Proof. simpl. unfold Second. lia. Qed.

Lemma demo_two_jobs_due : all_due demo_two_jobs.
Proof.
  assert (H : map_Forall (λ k j, claimable (next_now demo_two_jobs) j = true ∧
    (0 ≤ job_attempt_count j)%Z ∧ (job_attempt_count j < 2 ^ 31 - 1)%Z)
    (account_deletion_jobs (w_db demo_two_jobs))).
  { apply (bool_decide_unpack _). vm_compute. exact I. }
  intros k j Hj _. exact (H k j Hj).
Qed.

Lemma demo_two_jobs_served : all_served demo_clients demo_two_jobs.
Proof.
  assert (H : map_Forall (λ key _, is_Some (demo_clients !! key.2))
    (account_deletion_steps (w_db demo_two_jobs))).
  { apply (bool_decide_unpack _). vm_compute. exact I. }
  intros key [row Hrow]. exact (H key row Hrow).
Qed.

Lemma Run_drains_queue_witness :
  size (open_jobs (w_db demo_two_jobs)) = 2 ∧
  every (λ j, job_status j = "completed")
    (account_deletion_jobs
       (w_db (run (Run demo_clients 3) demo_two_jobs).2)).
Proof.
  split; [vm_compute; reflexivity|].
  assert (Hh : healthy (EV := demo_env)) by (intros i; reflexivity).
  destruct (Run_drains_queue demo_clients Hh
    demo_services_up demo_mono 3 demo_two_jobs) as [H _]; [| | | |exact H].
  - unfold demo_two_jobs, demo_second_account. apply run_ok, run_ok.
    exact demo_delete_ok.
  - exact demo_two_jobs_due.
  - exact demo_two_jobs_served.
  - vm_compute. lia.
Defined.
