(* ===== verification/Tokens.v ===== *)
(** * Tokens, codes and secrets

    The platform packages' own guarantees: opaque tokens keep all the
    randomness they are made of, a TOTP is accepted for the current or the
    next period only, and a stored secret decrypts to what was encrypted. *)
From S2P Require Import Prelude GoBase Domain Schema Effects Logic.
From S2P Require Import GoStrings Platform Demo.
#[local] Open Scope go_scope.

(** ** Encodings *)

Lemma string_bytes_string l : string_bytes (bytes_string l) = l.
Proof. induction l as [|a l IH]; simpl; congruence. Qed.
Lemma bytes_string_bytes s : bytes_string (string_bytes s) = s.
Proof. induction s as [|a s IH]; simpl; congruence. Qed.

Lemma byte_Z_range a : (0 ≤ byte_Z a < 256)%Z.
Proof.
  unfold byte_Z. pose proof (Ascii.N_ascii_bounded a). lia.
Qed.
Lemma Z_byte_Z a : Z_byte (byte_Z a) = a.
Proof.
  unfold Z_byte. pose proof (byte_Z_range a). rewrite Z.mod_small by done.
  unfold byte_Z. rewrite N2Z.id. apply Ascii.ascii_N_embedding.
Qed.

(** The value of a character of the base64url alphabet. *)
Definition base64_value (c : Ascii.ascii) : Z :=
  let z := byte_Z c in
  (if bool_decide (z = 45) then 62
   else if bool_decide (z = 95) then 63
   else if bool_decide (z < 58) then z + 4
   else if bool_decide (z < 91) then z - 65 else z - 71)%Z.

Lemma base64_value_char z : (0 ≤ z < 64)%Z → base64_value (base64_char z) = z.
Proof.
  intros Hz.
  assert (Hall : Forall (λ z, base64_value (base64_char z) = z) (seqZ 0 64))
    by (apply (bool_decide_unpack _); vm_compute; exact I).
  rewrite Forall_forall in Hall. apply Hall, elem_of_seqZ. lia.
Qed.

(** A decoder of [base64.RawURLEncoding]. *)
Fixpoint base64_bytes (l : list Ascii.ascii) : list Z :=
  match l with
  | c1 :: c2 :: c3 :: c4 :: l' =>
      let v1 := base64_value c1 in let v2 := base64_value c2 in
      let v3 := base64_value c3 in let v4 := base64_value c4 in
      (v1 * 4 + v2 / 16)%Z :: (v2 `mod` 16 * 16 + v3 / 4)%Z ::
      (v3 `mod` 4 * 64 + v4)%Z :: base64_bytes l'
  | [c1; c2; c3] =>
      let v1 := base64_value c1 in let v2 := base64_value c2 in
      let v3 := base64_value c3 in
      [v1 * 4 + v2 / 16; v2 `mod` 16 * 16 + v3 / 4]%Z
  | [c1; c2] =>
      let v1 := base64_value c1 in let v2 := base64_value c2 in
      [v1 * 4 + v2 / 16]%Z
  | _ => []
  end.

Definition is_byte (z : Z) : Prop := (0 ≤ z < 256)%Z.

(** Two digits in base [n]. *)
Lemma div_digits a b n : (0 ≤ b < n)%Z → ((a * n + b) / n = a)%Z.
Proof. intros Hb. rewrite Z.add_comm, Z.div_add, Z.div_small; lia. Qed.
Lemma mod_digits a b n : (0 ≤ b < n)%Z → ((a * n + b) `mod` n = b)%Z.
Proof. intros Hb. rewrite Z.add_comm, Z.mod_add, Z.mod_small; lia. Qed.

Lemma byte_digits z n m :
  is_byte z → (0 < n)%Z → (n * m = 256)%Z →
  (0 ≤ z / n < m)%Z ∧ (0 ≤ z `mod` n < n)%Z ∧ (z / n * n + z `mod` n = z)%Z.
Proof.
  unfold is_byte. intros Hz Hn Hm. pose proof (Z.mod_pos_bound z n Hn).
  pose proof (Z.div_mod z n ltac:(lia)).
  assert (0 ≤ z / n < m)%Z; [|lia]. split.
  - apply Z.div_pos; lia.
  - apply Z.div_lt_upper_bound; lia.
Qed.

Lemma base64_bytes_chars n l :
  length l ≤ n → Forall is_byte l → base64_bytes (base64_chars l) = l.
Proof.
  revert l. induction n as [|n IH]; intros l Hl Hb.
  { destruct l; [done|simpl in Hl; lia]. }
  destruct l as [|a [|b [|c l]]]; [done| | |].
  all: repeat match goal with
       | H : Forall _ (_ :: _) |- _ => apply Forall_cons in H as [? H]
       end.
  all: repeat match goal with
       | H : is_byte ?z |- _ =>
           destruct (byte_digits z 4 64 H) as (? & ? & ?); [lia|lia|];
           destruct (byte_digits z 16 16 H) as (? & ? & ?); [lia|lia|];
           destruct (byte_digits z 64 4 H) as (? & ? & ?); [lia|lia|];
           clear H
       end.
  all: cbn [base64_chars base64_bytes].
  - rewrite !base64_value_char by lia.
    rewrite <-(Z.add_0_r (a `mod` 4 * 16)), div_digits by lia. f_equal. lia.
  - rewrite !base64_value_char by lia.
    rewrite <-(Z.add_0_r (b `mod` 16 * 4)).
    rewrite !div_digits, !mod_digits by lia. f_equal; [lia|]. f_equal. lia.
  - rewrite !base64_value_char by lia.
    rewrite !div_digits, !mod_digits by lia.
    rewrite IH; [|simpl in Hl; lia|done]. repeat f_equal; lia.
Qed.

Lemma to_Zs_bytes s : Forall is_byte (to_Zs s).
Proof.
  unfold to_Zs. apply Forall_fmap, Forall_forall. intros a _.
  apply byte_Z_range.
Qed.

Lemma length_string_bytes s : length (string_bytes s) = String.length s.
Proof. induction s as [|a s IH]; simpl; congruence. Qed.

Lemma length_base64_chars n l :
  length l = 3 * n + 2 → length (base64_chars l) = 4 * n + 3.
Proof.
  revert l. induction n as [|n IH]; intros l Hl.
  - by destruct l as [|? [|? [|? ?]]].
  - destruct l as [|a [|b [|c l]]]; try (simpl in Hl; lia).
    cbn [base64_chars length]. rewrite IH; [lia|]. simpl in Hl. lia.
Qed.

Section tokens.
Context `{PT : PgTime, EV : Env, SS : SessionStore, L : Lib}.
Implicit Types (w : World).

(** [crypto/rand.Read] fills the whole buffer. *)
Definition rand_full : Prop :=
  ∀ i n b, rand_read i n = Ok b → String.length b = n.

(** A generated token is 43 characters long and its 32 random bytes can
    be read back from it. *)
Lemma Generate_roundtrip w tok w' :
  rand_full → run tokenhash_Generate w = (Ok tok, w') →
  ∃ b, rand_read (n_rand (w_counters w)) rawTokenBytes = Ok b ∧
       base64_bytes (string_bytes tok) = to_Zs b ∧
       String.length tok = 43.
Proof.
  intros Hfull. unfold tokenhash_Generate.
  intros (b & w1 & Hr & H)%run_bindE_Ok. apply run_wrapE_Ok in Hr.
  rewrite run_perform in Hr. cbn [handle] in Hr.
  injection Hr as Hb <-. injection H as <- <-.
  exists b. split; [done|]. unfold base64_encode.
  rewrite string_bytes_string. split.
  - eapply base64_bytes_chars; [done|apply to_Zs_bytes].
  - rewrite <-length_string_bytes, string_bytes_string.
    apply (length_base64_chars 10). unfold to_Zs.
    rewrite length_fmap, length_string_bytes. by rewrite (Hfull _ _ _ Hb).
Qed.

(** ** Codes *)

Definition valid_at (code secret : string) (counter : Z) : bool :=
  match hotp_ValidateCustom code counter secret with
  | Ok b => b
  | Err _ => false
  end.

(** C33. ValidateAt accepts a code exactly for the period of t or the next
    one, the current one first; the wrap-around of the counter does not occur.
    *)
Theorem ValidateAt_spec code secret t :
  (0 ≤ t < 2 ^ 63)%Z →
  let cur := (Unix t / 30)%Z in
  ValidateAt code secret t =
    if valid_at code secret cur then (true, cur)
    else if valid_at code secret (cur + 1) then (true, (cur + 1)%Z)
    else (false, 0%Z).
Proof.
  intros Ht cur. unfold ValidateAt, period.
  assert (Hcur : (0 ≤ cur < 2 ^ 62)%Z).
  { unfold cur, Unix, Second. split.
    - apply Z.div_pos; [|lia]. apply Z.div_pos; lia.
    - apply Z.div_lt_upper_bound; [lia|].
      apply Z.div_lt_upper_bound; lia. }
  rewrite Z.quot_div_nonneg
    by (try lia; unfold Unix, Second; apply Z.div_pos; lia).
  fold cur. change (seqZ 0 (forwardSkew + 1)) with [0; 1]%Z.
  cbn [validate_loop]. rewrite !Z.add_0_r.
  rewrite !Int.wrap64_id by (unfold Int.in_int64; lia).
  rewrite !Int.uint64_id by lia. unfold valid_at.
  destruct (hotp_ValidateCustom code cur secret) as [[]|]; [done| |];
    by destruct (hotp_ValidateCustom code (cur + 1) secret) as [[]|].
Qed.

(** ** Secrets *)

Lemma str_take_app a b : str_take (String.length a) (a +:+ b) = a.
Proof.
  unfold str_take. induction a as [|c a IH]; simpl; [done|]. by rewrite IH.
Qed.
Lemma str_drop_app a b : str_drop (String.length a) (a +:+ b) = b.
Proof.
  unfold str_drop. induction a as [|c a IH]; simpl; [|done].
  by rewrite drop_0, bytes_string_bytes.
Qed.
Lemma str_length_app a b :
  String.length (a +:+ b) = String.length a + String.length b.
Proof. induction a as [|c a IH]; simpl; [done|]. by rewrite IH. Qed.

Lemma decrypt_sealed (c : AEAD) `{AL : !AeadLaws c} nonce plaintext :
  String.length nonce = NonceSize c →
  Decrypt c (nonce +:+ Seal c nonce plaintext) = Ok plaintext.
Proof.
  intros Hn. unfold Decrypt. rewrite str_length_app, Hn.
  rewrite bool_decide_false by lia. rewrite <-Hn.
  rewrite str_take_app, str_drop_app.
  by rewrite (aead_open_seal nonce plaintext).
Qed.

(** What Encrypt returns decrypts to the plaintext. *)
Lemma Encrypt_roundtrip (c : AEAD) `{AL : !AeadLaws c} plaintext w ct w' :
  rand_full → run (Encrypt c plaintext) w = (Ok ct, w') →
  Decrypt c ct = Ok plaintext.
Proof.
  intros Hfull. unfold Encrypt.
  intros (nonce & w1 & Hr & H)%run_bindE_Ok. apply run_wrapE_Ok in Hr.
  rewrite run_perform in Hr. cbn [handle] in Hr.
  injection Hr as Hn <-. injection H as <- <-. apply Hfull in Hn.
  by apply decrypt_sealed.
Qed.
End tokens.

(** ** Witnesses *)

Lemma demo_rand_full : rand_full.
Proof. intros i n b [= <-]. apply pad_length. Qed.

(** A code of the next period. *)
Lemma ValidateAt_spec_witness :
  ValidateAt (demo_digits 58333334) "SECRET" demo_epoch = (true, 58333334%Z).
Proof.
  rewrite (ValidateAt_spec (demo_digits 58333334) "SECRET" demo_epoch).
  - vm_compute. reflexivity.
  - split; [discriminate|reflexivity].
Defined.
