(* ===== verification/Clients.v ===== *)
(** * The clients of the other services

    The interfaces of ports.go behind which the media service, the apiary
    service and the services with an internal deletion endpoint are called,
    as types of calls ([MediaCall], [ApiaryCall], [CleanupCall],
    [SessionCleanupCall]); what each
    call is documented to ask and when it may succeed ([ServicePort]); and
    that the HTTP clients of internal/platform do that, for a media service
    that lists those of the ids in a query that belong to the caller. The
    query names exactly the ids of the call: it decodes to them. *)
From Stdlib Require Import Ascii.
From stdpp Require Import pretty.
From S2P Require Import Prelude GoBase Domain Schema Effects Logic GoStrings.
From S2P Require Import Platform Demo Tokens.
#[local] Open Scope go_scope.

(** ** Query strings *)

Definition hex_value (c : Ascii.ascii) : Z :=
  let z := byte_Z c in
  (if bool_decide (z < 58) then z - 48 else z - 55)%Z.

Lemma hex_value_digit d :
  (0 ≤ d < 16)%Z → hex_value (upper_hex_digit d) = d.
Proof.
  intros Hd.
  assert (Hall : Forall (λ d, hex_value (upper_hex_digit d) = d) (seqZ 0 16))
    by (apply (bool_decide_unpack _); vm_compute; exact I).
  rewrite Forall_forall in Hall. apply Hall, elem_of_seqZ. lia.
Qed.

(** A decoder of what [url.QueryEscape] writes, and of a query. *)
Fixpoint unescape (l : list Ascii.ascii) : list Z :=
  match l with
  | [] => []
  | c :: l' =>
      if bool_decide (byte_Z c = 37)%Z then
        match l' with
        | x :: y :: l'' => (hex_value x * 16 + hex_value y)%Z :: unescape l''
        | _ => []
        end
      else if bool_decide (byte_Z c = 43)%Z then 32%Z :: unescape l'
      else byte_Z c :: unescape l'
  end.

(** The bytes [b] is written as. *)
Definition escape (b : Z) : list Ascii.ascii :=
  if query_unreserved b then [Z_byte b]
  else if bool_decide (b = 32)%Z then [Z_byte 43]
  else [Z_byte 37; upper_hex_digit (b / 16)%Z;
        upper_hex_digit (b `mod` 16)%Z].

Lemma QueryEscape_bytes s :
  string_bytes (QueryEscape s) = to_Zs s ≫= escape.
Proof. unfold QueryEscape. apply string_bytes_string. Qed.

Lemma byte_Z_byte z : (0 ≤ z < 256)%Z → byte_Z (Z_byte z) = z.
Proof.
  intros Hz. unfold byte_Z, Z_byte. rewrite Z.mod_small by done.
  rewrite Ascii.N_ascii_embedding by lia. lia.
Qed.

Lemma unescape_escape b l :
  is_byte b → unescape (escape b ++ l) = b :: unescape l.
Proof.
  unfold is_byte. intros Hb. unfold escape.
  destruct (query_unreserved b) eqn:Hu.
  - unfold query_unreserved in Hu. apply bool_decide_eq_true in Hu. simpl.
    rewrite byte_Z_byte by done. by rewrite !bool_decide_false by lia.
  - case_bool_decide as Hsp; [by subst b|]. simpl. do 2 f_equal.
    destruct (byte_digits b 16 16 Hb) as (? & ? & ?); [lia|lia|].
    by rewrite !hex_value_digit.
Qed.

Lemma unescape_all l : Forall is_byte l → unescape (l ≫= escape) = l.
Proof.
  induction 1 as [|b l Hb _ IH]; [done|].
  cbn [mbind list_bind]. by rewrite unescape_escape, IH.
Qed.

Lemma unescape_QueryEscape s :
  unescape (string_bytes (QueryEscape s)) = to_Zs s.
Proof. rewrite QueryEscape_bytes. apply unescape_all, to_Zs_bytes. Qed.

#[local] Abbreviation amp := "&"%char.

Lemma escape_no_amp b : is_byte b → amp ∉ escape b.
Proof.
  intros Hb. assert (Hall : Forall (λ b, amp ∉ escape b) (seqZ 0 256))
    by (apply (bool_decide_unpack _); vm_compute; exact I).
  rewrite Forall_forall in Hall. apply Hall, elem_of_seqZ.
  unfold is_byte in Hb. lia.
Qed.

Lemma QueryEscape_no_amp s : amp ∉ string_bytes (QueryEscape s).
Proof.
  rewrite QueryEscape_bytes. intros (b & Hin & Hb)%list_elem_of_bind.
  apply (escape_no_amp b); [|done].
  pose proof (to_Zs_bytes s) as Hs. rewrite Forall_forall in Hs. by apply Hs.
Qed.

Fixpoint split_amp (l : list Ascii.ascii) : list (list Ascii.ascii) :=
  match l with
  | [] => [[]]
  | c :: l' =>
      if decide (c = amp) then [] :: split_amp l'
      else match split_amp l' with
           | p :: ps => (c :: p) :: ps
           | [] => [[c]]
           end
  end.

Lemma split_amp_app u v :
  amp ∉ u → split_amp (u ++ amp :: v) = u :: split_amp v.
Proof.
  induction u as [|c u IH]; cbn [split_amp app]; intros Hu;
    apply not_elem_of_cons in Hu as [Hc Hu] || clear Hu.
  - by rewrite decide_True.
  - rewrite decide_False by done. by rewrite IH.
Qed.

Lemma split_amp_none u : amp ∉ u → split_amp u = [u].
Proof.
  induction u as [|c u IH]; [done|]. intros [Hc Hu]%not_elem_of_cons.
  cbn [split_amp]. rewrite decide_False by done. by rewrite IH.
Qed.

(** The value of a field with a key of three letters. *)
Definition field_value (p : list Ascii.ascii) : list Z := unescape (drop 4 p).

(** The values of a query whose keys are all "ids". *)
Definition query_values (q : string) : list (list Z) :=
  match q with
  | EmptyString => []
  | _ => field_value <$> split_amp (string_bytes q)
  end.

Lemma string_bytes_app a b :
  string_bytes (a +:+ b) = string_bytes a ++ string_bytes b.
Proof. induction a as [|c a IH]; [done|]. simpl. by f_equal. Qed.

Section clients.
Context `{PT : PgTime, EV : Env, SS : SessionStore, L : Lib}.
Implicit Types (w : World) (id : uuid) (ids : list uuid).

Lemma ids_field_no_amp id :
  amp ∉ string_bytes ("ids=" +:+ QueryEscape (uuid_String id)).
Proof.
  rewrite string_bytes_app. intros [Hin|Hin]%elem_of_app.
  - revert Hin. apply (bool_decide_unpack _). vm_compute. exact I.
  - by apply QueryEscape_no_amp in Hin.
Qed.

Lemma query_values_fields id ids :
  query_values (idsQuery (id :: ids)) =
  field_value <$> split_amp (string_bytes (idsQuery (id :: ids))).
Proof. by destruct ids. Qed.

Lemma field_value_ids id :
  field_value (string_bytes ("ids=" +:+ QueryEscape (uuid_String id))) =
  to_Zs (uuid_String id).
Proof. apply unescape_QueryEscape. Qed.

(** The query of the media client decodes to the ids of the call. *)
Lemma query_values_idsQuery ids :
  query_values (idsQuery ids) = to_Zs ∘ uuid_String <$> ids.
Proof.
  induction ids as [|id ids IH]; [done|].
  rewrite query_values_fields. destruct ids as [|id' ids].
  - cbn [idsQuery]. rewrite split_amp_none by apply ids_field_no_amp.
    by rewrite list_fmap_singleton, field_value_ids.
  - replace (idsQuery (id :: id' :: ids)) with
      (("ids=" +:+ QueryEscape (uuid_String id)) +:+ "&" +:+
       idsQuery (id' :: ids)) by done.
    rewrite string_bytes_app.
    change (string_bytes ("&" +:+ ?q)) with (amp :: string_bytes q).
    rewrite split_amp_app by apply ids_field_no_amp.
    by rewrite fmap_cons, field_value_ids, <-query_values_fields, IH.
Qed.
End clients.

(** ** The ports *)

(** MediaClient. *)
Inductive MediaCall :=
  | VerifyOwnershipOf (accessToken : string) (ids : list uuid)
  | DeleteByIDsOf (accessToken : string) (ids : list uuid)
  | DeleteAllByUserOf (accessToken : string).
(** ApiaryCascadeDeleter. *)
Inductive ApiaryCall :=
  | DeleteAllMineOf (accessToken : string).
(** AccountCleanupClient. *)
Inductive CleanupCall :=
  | DeleteUserDataOf (userID : uuid).
(** SessionCleanupRequester. *)
Inductive SessionCleanupCall :=
  | DeleteSessionDataOf (userID sessionID : uuid).

(** Whose media an id is, for the bearer of a token. *)
Abbreviation ownership := (string → uuid → Prop).

(** A port, and a client of it configured with [E]: the request a call is
    documented to make, none where there is nothing to ask for, and the
    answers with which it may succeed. *)
Class ServicePort (E P : Type) := {
  client_call `{EV : Env, L : Lib} : E → P → go unit;
  asks `{EV : Env, L : Lib} : E → P → option Request;
  confirms : ownership → P → Response → Prop
}.

Definition deleted (resp : Response) : Prop :=
  resp_status resp = StatusNoContent ∨ resp_status resp = StatusOK.
Definition success (resp : Response) : Prop :=
  (200 ≤ resp_status resp < 300)%Z.

#[export] Instance media_port : ServicePort string MediaCall := {
  client_call _ _ baseURL c :=
    match c with
    | VerifyOwnershipOf t ids => VerifyOwnership baseURL t ids
    | DeleteByIDsOf t ids => DeleteByIDs baseURL t ids
    | DeleteAllByUserOf t => DeleteAllByUser baseURL t
    end;
  asks _ _ baseURL c :=
    match c with
    | VerifyOwnershipOf t ids =>
        Some (mkRequest "GET" (baseURL +:+ "/api/v1/media?" +:+ idsQuery ids)
                (bearer t))
    | DeleteByIDsOf _ [] => None
    | DeleteByIDsOf t ids =>
        Some (mkRequest "DELETE"
                (baseURL +:+ "/api/v1/media?" +:+ idsQuery ids) (bearer t))
    | DeleteAllByUserOf t =>
        Some (mkRequest "DELETE" (baseURL +:+ "/api/v1/media/mine") (bearer t))
    end;
  confirms owns c resp :=
    match c with
    | VerifyOwnershipOf t ids =>
        resp_status resp = StatusOK ∧ (∃ items, resp_items resp = Ok items) ∧
        NoDup ids ∧ ∀ id, id ∈ ids → owns t id
    | _ => deleted resp
    end
}.

#[export] Instance apiary_port : ServicePort string ApiaryCall := {
  client_call _ _ baseURL '(DeleteAllMineOf t) := DeleteAllMine baseURL t;
  asks _ _ baseURL '(DeleteAllMineOf t) :=
    Some (mkRequest "DELETE" (baseURL +:+ "/api/v1/apiaries") (bearer t));
  confirms _ _ := deleted
}.

#[export] Instance cleanup_port : ServicePort DeletionClient CleanupCall := {
  client_call _ _ client '(DeleteUserDataOf u) := DeleteUserData client u;
  asks _ _ client '(DeleteUserDataOf u) :=
    Some (mkRequest "DELETE"
      (dc_baseURL client +:+ "/internal/api/v1/users/" +:+ uuid_String u)
      (bearer (dc_token client)));
  confirms _ _ := success
}.

#[export] Instance session_cleanup_port :
    ServicePort DeletionClient SessionCleanupCall := {
  client_call _ _ client '(DeleteSessionDataOf u sid) :=
    DeleteSessionData client u sid;
  asks _ _ client '(DeleteSessionDataOf u sid) :=
    Some (mkRequest "DELETE"
      (dc_baseURL client +:+ "/internal/api/v1/users/" +:+ uuid_String u +:+
       "/sessions/" +:+ uuid_String sid)
      (bearer (dc_token client)));
  confirms _ _ := success
}.

Section honours.
Context `{PT : PgTime, EV : Env, SS : SessionStore, L : Lib}.
Implicit Types (w : World) (ids : list uuid).

(** The request for the caller's media among [ids]. *)
Definition media_query (baseURL t : string) ids : Request :=
  mkRequest "GET" (baseURL +:+ "/api/v1/media?" +:+ idsQuery ids) (bearer t).

(** The media service lists, once each, those of the ids of a query that
    exist and belong to the caller, and omits the others. *)
Definition media_honest (baseURL : string) (owns : ownership) : Prop :=
  ∀ n t ids resp items,
    http_do n (media_query baseURL t ids) = Ok resp →
    resp_status resp = StatusOK → resp_items resp = Ok items →
    NoDup items ∧ ∀ id, id ∈ items ↔ id ∈ ids ∧ owns t id.

(** The call makes its one request, unless its URL does not parse, and
    succeeds when the answer confirms it; the database and the sessions are
    not touched. *)
Definition honours_port `{ServicePort E P} owns (e : E) (c : P) w
    (r : result unit) w' : Prop :=
  w_db w' = w_db w ∧ w_sessions w' = w_sessions w ∧
  w_cleanups w' = w_cleanups w ∧
  match asks e c with
  | None => r = Ok tt ∧ w_requests w' = w_requests w
  | Some q =>
      (is_Some (url_Parse_error (req_url q)) ∧ w_requests w' = w_requests w ∧
       r ≠ Ok tt) ∨
      (w_requests w' = q :: w_requests w ∧
       (r = Ok tt ↔ ∃ resp, http_do (n_http (w_counters w)) q = Ok resp ∧
                            confirms owns c resp))
  end.

Definition keeps_port `{ServicePort E P} owns (e : E) : Prop :=
  ∀ (c : P) w r w',
    run (client_call e c) w = (r, w') → honours_port owns e c w r w'.

(** A client's call, as the five of them are written. *)
Lemma one_call owns `{ServicePort E P} (e : E) (c : P) method url auth wrap
    (call : Request → go Response) (k : Response → go unit) ans w r w' :
  asks e c = Some (mkRequest method url auth) →
  (∀ q, call q = perform (HttpDo q) ∨
        ∃ msg, call q = wrapE msg (perform (HttpDo q))) →
  (∀ resp, k resp = Ret (ans resp)) →
  (∀ resp, http_do (n_http (w_counters w)) (mkRequest method url auth) =
             Ok resp →
           ans resp = Ok tt ↔ confirms owns c resp) →
  run (match NewRequest method url auth with
       | Err err => returnErr (wrap err)
       | Ok req => let? resp := call req in k resp
       end) w = (r, w') →
  honours_port owns e c w r w'.
Proof.
  intros Hq Hcall Hret Hk. unfold honours_port, NewRequest. rewrite Hq. simpl.
  destruct (url_Parse_error url) as [err|].
  { intros [= <- <-]. split_and!; [done..|left]. split_and!; [by eexists|done..]. }
  set (q := mkRequest _ _ _) in *. rewrite run_bindE.
  assert (Hrun : ∃ e', run (call q) w =
    (match http_do (n_http (w_counters w)) q with
     | Ok resp => Ok resp | Err err => Err (e' err) end,
     add_request q (tick_http w))).
  { destruct (Hcall q) as [->|[msg ->]]; [exists id|exists (Wrap msg)];
      rewrite ?run_wrapE, run_perform; simpl;
      by destruct (http_do _ _). }
  destruct Hrun as [e' ->].
  destruct (http_do _ _) as [resp|err] eqn:Hdo; [rewrite Hret|];
    intros [= <- <-]; (split_and!; [done..|right]); (split; [done|]).
  - rewrite Hk by done. naive_solver.
  - naive_solver.
Qed.

(** The three DELETE calls made with the caller's token. *)
Lemma delete_call_honours owns `{ServicePort E P} (e : E) (c : P) name service
    url t w r w' :
  asks e c = Some (mkRequest "DELETE" url (bearer t)) →
  (∀ resp, deleted resp ↔ confirms owns c resp) →
  run (delete_call name service url t) w = (r, w') →
  honours_port owns e c w r w'.
Proof.
  intros Hq Hc. unfold delete_call.
  eapply (one_call owns e c _ _ _ _
    (λ q, wrapE (name +:+ ": call " +:+ service) (perform (HttpDo q)))
    _ (λ resp, if bool_decide (deleted resp) then Ok tt else Err _) w r w');
    [exact Hq|by eauto| |].
  - intros resp. unfold deleted. by case_bool_decide.
  - intros resp _. rewrite <-Hc. by case_bool_decide.
Qed.

(** As many items as ids: no id is named twice and all are owned. *)
Lemma items_count ids items (own : uuid → Prop) :
  NoDup items → (∀ id, id ∈ items ↔ id ∈ ids ∧ own id) →
  length items = length ids ↔ NoDup ids ∧ ∀ id, id ∈ ids → own id.
Proof.
  intros Hnd Hin. split.
  - intros Hlen. assert (Hp : items ≡ₚ ids).
    { apply submseteq_length_Permutation; [|lia].
      apply NoDup_submseteq; [done|]. intros id Hid. by apply Hin. }
    split; [by rewrite <-Hp|]. intros id Hid. apply Hin. by rewrite Hp.
  - intros [Hids Hown]. apply Permutation_length, NoDup_Permutation; [done..|].
    intros id. rewrite Hin. naive_solver.
Qed.

(** The answer of VerifyOwnership to an answer of the media service. *)
Definition ownership_answer (ids : list uuid) (resp : Response) : result unit :=
  if bool_decide (resp_status resp ≠ StatusOK)
  then Err (Errorf ("mediaclient: unexpected status " +:+
                    pretty (resp_status resp) +:+ " from media-service"))
  else match resp_items resp with
       | Err err => Err (Wrap "mediaclient: decode response" err)
       | Ok items =>
           if bool_decide (length items ≠ length ids)
           then Err ErrAvatarNotFound else Ok tt
       end.

Lemma ownership_answer_honest owns baseURL n t ids resp :
  media_honest baseURL owns →
  http_do n (media_query baseURL t ids) = Ok resp →
  let listed := resp_status resp = StatusOK ∧
                ∃ items, resp_items resp = Ok items in
  let owned := NoDup ids ∧ ∀ id, id ∈ ids → owns t id in
  (ownership_answer ids resp = Ok tt ↔ listed ∧ owned) ∧
  (ownership_answer ids resp = Err ErrAvatarNotFound ↔ listed ∧ ¬ owned).
Proof.
  intros Hh Hdo listed owned. unfold ownership_answer, listed.
  case_bool_decide as Hst; [split; split; intros; naive_solver|].
  destruct (resp_items resp) as [items|err] eqn:Hi;
    [|split; split; intros; naive_solver].
  destruct (Hh _ _ _ _ _ Hdo Hst Hi) as [Hnd Hin].
  assert (Hcount : length items = length ids ↔ owned) by by apply items_count.
  case_bool_decide as Hl; rewrite Hcount in Hl; split; split; intros;
    split_and?; eauto; naive_solver.
Qed.

Lemma VerifyOwnership_continues ids resp :
  (if bool_decide (resp_status resp ≠ StatusOK)
   then returnErr (Errorf ("mediaclient: unexpected status " +:+
                           pretty (resp_status resp) +:+
                           " from media-service"))
   else match resp_items resp with
        | Err err => returnErr (Wrap "mediaclient: decode response" err)
        | Ok items => if bool_decide (length items ≠ length ids)
                      then returnErr ErrAvatarNotFound else returnOk tt
        end) = Ret (ownership_answer ids resp).
Proof.
  unfold ownership_answer. case_bool_decide; [done|].
  destruct (resp_items resp); [|done]. by case_bool_decide.
Qed.

Lemma media_keeps owns baseURL :
  media_honest baseURL owns → keeps_port (P := MediaCall) owns baseURL.
Proof.
  intros Hh [t ids|t ids|t] w r w'.
  - apply (one_call owns baseURL (VerifyOwnershipOf t ids) _ _ _ _
      (λ q, wrapE _ (perform (HttpDo q))) _ (ownership_answer ids));
      [reflexivity|eauto|apply VerifyOwnership_continues|].
    intros resp Hdo.
    destruct (ownership_answer_honest _ _ _ _ _ _ Hh Hdo) as [-> _].
    simpl. tauto.
  - destruct ids as [|id ids]; [by intros [= <- <-]|].
    by apply delete_call_honours.
  - by apply delete_call_honours.
Qed.

Lemma apiary_keeps owns baseURL :
  keeps_port (P := ApiaryCall) owns baseURL.
Proof. intros [t] w r w'. by apply delete_call_honours. Qed.

Lemma internal_delete_honours owns `{ServicePort DeletionClient P}
    (client : DeletionClient) (c : P) path msg w r w' :
  asks client c =
    Some (mkRequest "DELETE" (dc_baseURL client +:+ path)
            (bearer (dc_token client))) →
  (∀ resp, success resp ↔ confirms owns c resp) →
  run (internal_delete client path msg) w = (r, w') →
  honours_port owns client c w r w'.
Proof.
  intros Hq Hc. unfold internal_delete.
  eapply (one_call owns client c _ _ _ id (λ q, perform (HttpDo q)) _
    (λ resp, if bool_decide (success resp) then Ok tt else Err _));
    [exact Hq|by left| |].
  - intros resp. unfold success. by case_bool_decide.
  - intros resp _. rewrite <-Hc. by case_bool_decide.
Qed.

Lemma cleanup_keeps owns (client : DeletionClient) :
  keeps_port (P := CleanupCall) owns client.
Proof. intros [u] w r w'. by apply internal_delete_honours. Qed.

Lemma session_cleanup_keeps owns (client : DeletionClient) :
  keeps_port (P := SessionCleanupCall) owns client.
Proof. intros [u sid] w r w'. by apply internal_delete_honours. Qed.

(** The sentinel tells that an id is not the caller's. *)
Lemma VerifyOwnership_denied owns baseURL t ids w r w' :
  media_honest baseURL owns →
  run (VerifyOwnership baseURL t ids) w = (r, w') →
  r = Err ErrAvatarNotFound ↔
  url_Parse_error (req_url (media_query baseURL t ids)) = None ∧
  (∃ resp, http_do (n_http (w_counters w)) (media_query baseURL t ids) =
             Ok resp ∧ resp_status resp = StatusOK ∧
           ∃ items, resp_items resp = Ok items) ∧
  ¬ (NoDup ids ∧ ∀ id, id ∈ ids → owns t id).
Proof.
  intros Hh. unfold VerifyOwnership, NewRequest. fold (media_query baseURL t ids).
  destruct (url_Parse_error _) as [err|] eqn:Hu; [|rewrite run_bindE, run_wrapE].
  { intros [= <- <-]. split; [done|]. intros [Hn _]. simpl in Hn. congruence. }
  rewrite run_perform. simpl.
  destruct (http_do _ _) as [resp|err] eqn:Hdo.
  2:{ intros [= <- <-]. split; [done|naive_solver]. }
  rewrite VerifyOwnership_continues. intros [= <- <-].
  destruct (ownership_answer_honest _ _ _ _ _ _ Hh Hdo) as [_ ->].
  naive_solver.
Qed.

(** An id listed when it was asked for alone is the caller's. *)
Lemma listed_owned owns baseURL n t id resp item :
  media_honest baseURL owns →
  http_do n (media_query baseURL t [id]) = Ok resp →
  resp_status resp = StatusOK → resp_items resp = Ok [item] → owns t id.
Proof.
  intros Hh Hdo Hst Hi. destruct (Hh _ _ _ _ _ Hdo Hst Hi) as [_ Hin].
  destruct (proj1 (Hin item)) as [->%list_elem_of_singleton Ho]; [left|done].
Qed.

(** C8. The HTTP clients do what their ports promise: a call makes exactly its
    one documented request (none for a URL that does not parse, nor for
    DeleteByIDs of an empty list), touches nothing else and succeeds exactly
    on a confirming answer; with a media service that lists those of the ids
    asked for that belong to the caller, VerifyOwnership succeeds only if
    every id is the caller's and no id is named twice, and reports
    ErrAvatarNotFound exactly when a listing shows otherwise. *)
Theorem clients_honour_ports owns mediaURL apiaryURL (client : DeletionClient) :
  media_honest mediaURL owns →
  keeps_port (P := MediaCall) owns mediaURL ∧
  keeps_port (P := ApiaryCall) owns apiaryURL ∧
  keeps_port (P := CleanupCall) owns client ∧
  keeps_port (P := SessionCleanupCall) owns client ∧
  ∀ t ids w r w',
    run (VerifyOwnership mediaURL t ids) w = (r, w') →
    r = Err ErrAvatarNotFound ↔
    url_Parse_error (req_url (media_query mediaURL t ids)) = None ∧
    (∃ resp, http_do (n_http (w_counters w)) (media_query mediaURL t ids) =
               Ok resp ∧ resp_status resp = StatusOK ∧
             ∃ items, resp_items resp = Ok items) ∧
    ¬ (NoDup ids ∧ ∀ id, id ∈ ids → owns t id).
Proof.
  intros Hh. split_and!.
  - by apply media_keeps.
  - apply apiary_keeps.
  - apply cleanup_keeps.
  - apply session_cleanup_keeps.
  - intros t ids w r w'. by apply VerifyOwnership_denied.
Qed.
End honours.

(** ** Witness *)

(** A media service in which "alice" has two files. *)
Definition demo_owns : ownership := λ t id, t = "alice" ∧ id ∈ [7%N; 8%N].
Definition demo_media (q : Request) : result Response :=
  match strip_prefix ("http://media" +:+ "/api/v1/media?") (req_url q) with
  | Some query =>
      Ok (mkResponse 200
        (Ok (filter (λ id, req_authorization q = bearer "alice" ∧
                           to_Zs (uuid_String id) ∈ query_values query)
               [7%N; 8%N])))
  | None => Ok (mkResponse 204 (Err (Errorf "EOF")))
  end.
Definition demo_library : Env := {|
  clock := clock (Env := demo_env); db_clock := db_clock (Env := demo_env);
  gen_uuid := gen_uuid (Env := demo_env);
  rand_read := rand_read (Env := demo_env);
  entropy := entropy (Env := demo_env); fault := no_faults;
  http_do _ := demo_media
|}.

Lemma strip_prefix_app p q : strip_prefix p (p +:+ q) = Some q.
Proof.
  induction p as [|c p IH]; [done|]. simpl. by destruct (ascii_dec c c).
Qed.

#[local] Instance byte_Z_inj : Inj (=) (=) byte_Z.
Proof. intros a b E. by rewrite <-(Z_byte_Z a), E, Z_byte_Z. Qed.

#[local] Instance to_Zs_inj : Inj (=) (=) to_Zs.
Proof.
  intros a b E. rewrite <-(bytes_string_bytes a), <-(bytes_string_bytes b).
  f_equal. exact (list_fmap_eq_inj byte_Z _ _ _ E).
Qed.

Lemma demo_media_honest :
  media_honest (EV := demo_library) "http://media" demo_owns.
Proof.
  intros n t ids resp items Hdo _ Hi.
  change (demo_media (media_query "http://media" t ids) = Ok resp) in Hdo.
  unfold demo_media in Hdo.
  change (req_url (media_query "http://media" t ids)) with
    (("http://media" +:+ "/api/v1/media?") +:+ idsQuery ids) in Hdo.
  rewrite strip_prefix_app in Hdo. injection Hdo as <-. injection Hi as <-.
  rewrite query_values_idsQuery. split.
  { apply NoDup_filter. apply (bool_decide_unpack _). vm_compute. exact I. }
  intros id. rewrite list_elem_of_filter. unfold demo_owns.
  assert (Ht : req_authorization (media_query "http://media" t ids) =
               bearer "alice" ↔ t = "alice").
  { split; [|by intros ->]. cbn [req_authorization media_query]. unfold bearer.
    intros E%(f_equal (strip_prefix "Bearer ")).
    rewrite !strip_prefix_app in E. congruence. }
  rewrite Ht. split.
  - intros [[-> (id' & E & Hid')%list_elem_of_fmap] Hid]. simpl in E.
    apply (inj to_Zs), (inj pretty) in E. by subst id'.
  - intros [Hid [-> Hown]]. split; [|done]. split; [done|].
    apply list_elem_of_fmap. by exists id.
Qed.

(** She may use the two, and is refused a third; nobody else may use them. *)
Lemma clients_honour_ports_witness :
  (run (EV := demo_library) (VerifyOwnership "http://media" "alice" [7%N; 8%N])
     demo_start).1 = Ok tt ∧
  (run (EV := demo_library) (VerifyOwnership "http://media" "alice" [7%N; 9%N])
     demo_start).1 = Err ErrAvatarNotFound ∧
  ¬ demo_owns "alice" 9%N.
Proof.
  assert (H97 : ¬ demo_owns "alice" 9%N)
    by (intros [_ H]; revert H; apply (bool_decide_unpack _); vm_compute;
        exact I).
  destruct (clients_honour_ports (EV := demo_library) demo_owns "http://media"
    "http://apiary" (NewDeletionClient "http://hive" "key") demo_media_honest)
    as (Hmedia & _ & _ & _ & Hdenied).
  split_and!; [| |exact H97].
  - destruct (Hmedia (VerifyOwnershipOf "alice" [7%N; 8%N]) demo_start _ _
      (surjective_pairing _)) as (_ & _ & _ & [[[e He] _]|[_ Hr]]).
    + exfalso. revert He. vm_compute. discriminate.
    + apply Hr. eexists. split; [reflexivity|]. cbn [confirms media_port].
      split_and!; [reflexivity|eexists; reflexivity| |].
      * apply (bool_decide_unpack _). vm_compute. exact I.
      * intros id Hid. split; [reflexivity|exact Hid].
  - apply (Hdenied "alice" [7%N; 9%N] demo_start _ _ (surjective_pairing _)).
    split_and!; [reflexivity|eexists; split_and!; [reflexivity|reflexivity|]|].
    + eexists. reflexivity.
    + intros [_ Hall]. apply H97, Hall. right. left.
Defined.
