(* ===== verification/Accounts.v ===== *)
(** * Accounts: Register, Login and UpdateProfile

    What a successful registration, first login step or profile update did,
    and the addresses and avatars they refuse. *)
From S2P Require Import Prelude Tables GoBase Domain Schema Effects Logic.
From S2P Require Import GoStrings Platform Postgres Service Footprint.
From S2P Require Import Integrity Repositories Healthy ServiceFacts Tokens.
From S2P Require Import Demo.
#[local] Open Scope go_scope.

Section accounts.
Context `{PT : PgTime, EV : Env, SS : SessionStore, L : Lib,
          BL : !BcryptLaws, U : Unicode}.
Variable s : AuthService.
Context `{AL : !AeadLaws (svc_cipher s)}.
#[local] Abbreviation sec := (svc_security s).
Implicit Types (w : World).

(** The second factor of [user] is being set up: not enabled, reachable
    with the setup token until [expires], and its stored secret is the one
    returned. *)
Definition setup_started (user : uuid) (setupToken secret : string)
    (expires : time) (c : Totp.Credential) : Prop :=
  Totp.UserID c = user ∧ Totp.IsEnabled c = false ∧
  Totp.SetupTokenHash c = Some (tokenhash_Hash setupToken) ∧
  Totp.SetupTokenExpiresAt c = Some (pg_ts expires) ∧
  Totp.FailedAttempts c = 0%Z ∧ Totp.LockedUntil c = None ∧
  Decrypt (svc_cipher s) (Totp.SecretEncrypted c) = Ok secret.

(** The secret is encrypted with a fresh nonce. *)
Lemma Encrypt_Ok c plaintext w ct w' :
  run (Encrypt c plaintext) w = (Ok ct, w') →
  rand_full → AeadLaws c → Decrypt c ct = Ok plaintext ∧ w' = tick_rand w.
Proof.
  unfold Encrypt. intros (nonce & w1 & Hr & H)%run_bindE_Ok Hfull Hc.
  apply run_wrapE_Ok in Hr. rewrite run_perform in Hr. cbn [handle] in Hr.
  injection Hr as Hn <-. injection H as <- <-. split; [|done].
  by apply (decrypt_sealed c nonce plaintext), (Hfull _ _ _ Hn).
Qed.

Lemma beginTOTPSetup_Ok u w res w' :
  rand_full → db_ok (w_db w) →
  run (beginTOTPSetup s u) w = (Ok res, w') →
  ∃ c, two_factor_credentials (w_db w') =
         <[User.ID u := c]> (two_factor_credentials (w_db w)) ∧
       setup_started (User.ID u) (rr_SetupToken res) (rr_Secret res)
         (rr_ExpiresAt res) c ∧
       Totp.LastUsedCounter c =
         (two_factor_credentials (w_db w) !! User.ID u
          ≫= Totp.LastUsedCounter) ∧
       rr_UserID res = User.ID u ∧
       (∀ T, T ≠ Credentials → same_table T (w_db w) (w_db w')) ∧
       w_sessions w' = w_sessions w.
Proof.
  intros Hfull Hok. unfold beginTOTPSetup. intros H.
  step H key w1 H1. unfold GenerateSecret in H1.
  rewrite run_bind, run_perform in H1. cbn [handle fst snd] in H1.
  destruct (otp_Generate _ _ _) as [k|]; [|done]. injection H1 as <- <-.
  step H ct w2 H2. apply Encrypt_Ok in H2 as [Hdec ->]; [|done|done].
  step H tok w3 H3. apply tokenhash_Generate_Ok in H3 as (b & _ & _ & ->).
  set (w3 := tick_rand _) in H.
  apply run_bind_inv in H as (found & w4 & H4 & H).
  step H cred w5 H5. injection H as <- <-. cbn [rr_SetupToken rr_Secret].
  destruct found as [old|e].
  - apply CredentialByUser_Ok in H4 as [Hold ->].
    pose proof (ok_creds_key _ Hok _ _ Hold) as Hkey. simpl in Hkey, Hold.
    read_clock H5. set (now := next_clock _) in H5.
    step H5 x w6 H6. destruct x. injection H5 as <- <-.
    apply UpdateCredential_Ok in H6 as (old' & Hold' & ->).
    simpl in Hold'. rewrite Hkey, Hold in Hold'. injection Hold' as <-.
    eexists. simpl. rewrite Hkey, Hold.
    split_and!; [done| |done|done|by intros []|done]. by split_and!.
  - destruct (negb _); [done|].
    assert (Hdb4 : w_db w4 = w_db w ∧ w_sessions w4 = w_sessions w).
    { assert (Hr := run_reads (TwoFactorCredentialRepository.GetByUserID
        (User.ID u)) w3 ltac:(autounfold with effects; walk; done)).
      assert (Hs := run_keeps_sessions
        (TwoFactorCredentialRepository.GetByUserID (User.ID u)) w3
        ltac:(autounfold with effects; walk; exact I)).
      by rewrite H4 in Hr, Hs. }
    destruct Hdb4 as [Hdb4 Hs4].
    read_clock H5. step H5 x w6 H6. destruct x. injection H5 as <- <-.
    apply CreateCredential_Ok in H6 as [Hnone ->].
    simpl in Hnone. rewrite Hdb4 in Hnone.
    eexists. simpl. rewrite Hdb4, Hnone.
    split_and!; [done| |done|done|by intros []|done]. by split_and!.
Qed.

(** A row of a second factor belongs to an account. *)
Lemma no_user_no_credential db u :
  db_ok db → users db !! u = None → two_factor_credentials db !! u = None.
Proof.
  intros Hok Hu. destruct (two_factor_credentials db !! u) as [c|] eqn:Hc;
    [|done].
  destruct (ok_creds_fk _ Hok _ _ u Hc) as [v Hv]; [|congruence].
  f_equal. exact (ok_creds_key _ Hok _ _ Hc).
Qed.

(** A successful registration: the normalised address was new, the account is
    stored active with a hash the password verifies against, its second factor
    is set up but not enabled, reachable with the returned token, its stored
    secret decrypting to the returned one; no session exists. *)
Lemma Register_success inp w res w' :
  rand_full → db_ok (w_db w) →
  run (Register s inp) w = (Ok res, w') →
  ∃ u c,
    (* a new address, however it was typed *)
    User.Email u = normalizeEmail (ri_Email inp) ∧
    (∀ k v, users (w_db w) !! k = Some v → User.Email v ≠ User.Email u) ∧
    users (w_db w) !! User.ID u = None ∧
    (* the account: active, its password the given one *)
    users (w_db w') = <[User.ID u := u]> (users (w_db w)) ∧
    User.is_pending u = false ∧
    Verify (svc_hasher s) (User.PasswordHash u) (ri_Password inp) = Ok tt ∧
    (* its second factor: only set up, with the returned token and secret *)
    two_factor_credentials (w_db w') =
      <[User.ID u := c]> (two_factor_credentials (w_db w)) ∧
    setup_started (User.ID u) (rr_SetupToken res) (rr_Secret res)
      (rr_ExpiresAt res) c ∧
    Totp.LastUsedCounter c = None ∧
    rr_UserID res = User.ID u ∧
    (* no session *)
    (∀ T, T ∈ [RefreshTokens; Challenges; Flows; Jobs; Steps] →
          same_table T (w_db w) (w_db w')) ∧
    w_sessions w' = w_sessions w.
Proof.
  intros Hfull Hok. unfold Register. intros H. step H hash w1 H1.
  unfold Hash in H1. rewrite run_bind, run_perform in H1.
  cbn [handle fst snd run] in H1. injection H1 as Hh <-.
  apply bcrypt_roundtrip in Hh.
  read_clock H. rewrite run_bind, run_perform in H. cbn [handle fst snd] in H.
  set (u := User.New _ _ _ _) in H. step H x w2 H2. destruct x.
  assert (Hok2 : db_ok (w_db w2)).
  { match type of H2 with run ?p ?w1 = _ =>
      replace w2 with (run p w1).2 by (by rewrite H2) end.
    by apply run_ok. }
  apply CreateUser_Ok in H2 as (Hid & Hem & Hw2).
  apply beginTOTPSetup_Ok in H as
    (c & Hc & Hset & Hlast & Hru & Ht & Hs); [|done|done].
  assert (Hu2 : users (w_db w2) = <[User.ID u := user_row u]> (users (w_db w)))
    by by rewrite Hw2.
  assert (Hc2 : two_factor_credentials (w_db w2) =
                two_factor_credentials (w_db w)) by by rewrite Hw2.
  assert (Ht2 : ∀ T, T ≠ Users → same_table T (w_db w) (w_db w2))
    by (rewrite Hw2; by intros []).
  assert (Hs2 : w_sessions w2 = w_sessions w) by by rewrite Hw2.
  exists (user_row u), c. split_and!; try done.
  - pose proof (Ht Users ltac:(done)) as Hx. cbn [same_table] in Hx.
    by rewrite <-Hx.
  - by rewrite Hc, Hc2.
  - by rewrite Hlast, Hc2, (no_user_no_credential _ _ Hok Hid).
  - intros T HT. assert (T ≠ Users ∧ T ≠ Credentials) as (? & ?)
      by (rewrite list_elem_of_In in HT; simpl in HT; intuition congruence).
    etrans; [by apply Ht2|by apply Ht].
  - by rewrite Hs.
Qed.

(** Registering an address that is taken up to normalisation fails on
    every path and writes nothing; without faults the error is ErrEmailTaken.
    *)
Lemma Register_taken inp k v w r w' :
  users (w_db w) !! k = Some v →
  User.Email v = normalizeEmail (ri_Email inp) →
  run (Register s inp) w = (r, w') →
  is_Ok r = false ∧ w_db w' = w_db w ∧ w_sessions w' = w_sessions w ∧
  (healthy →
   is_Ok (run (Hash (svc_hasher s) (ri_Password inp)) w).1 = true →
   r = Err User_ErrEmailTaken).
Proof.
  intros Hk He. unfold Register. rewrite run_bindE, run_wrapE.
  unfold Hash. rewrite run_bind, run_perform. cbn [handle fst snd run].
  destruct (bcrypt_GenerateFromPassword _ _ _) as [hash|e].
  2:{ intros [= <- <-]. by split_and!. }
  rewrite run_bind, run_Now. cbn [fst snd].
  rewrite run_bind, run_perform. cbn [handle fst snd].
  set (u := User.New _ _ _ _). set (w1 := tick_uuid _).
  rewrite run_bindE. unfold UserRepository.Create.
  rewrite run_bind, run_perform. cbn [handle]. unfold handle_query.
  cbn [exec].
  assert (Hins : users_insert u (w_db w1) =
                 (Err (PgError uniqueViolationCode), w_db w1)).
  { unfold users_insert.
    assert (Ha : any_row (λ v, bool_decide (User.Email v = User.Email u))
                   (users (w_db w1)) = true).
    { apply any_row_true. exists k, v. split; [done|].
      by apply bool_decide_eq_true. }
    by rewrite Ha, orb_true_r. }
  rewrite Hins. unfold faulty.
  destruct (fault _) as [f|] eqn:Hf; intros [= <- <-]; split_and!; try done.
  - by destruct (fault_applied f).
  - intros Hh. by rewrite Hh in Hf.
Qed.

(** ** Login *)

(** The challenge handed out for the second factor. *)
Definition challenge_issued (user : uuid) (res : LoginResult) (w w' : World) :
    Prop :=
  ∃ ch now,
    login_challenges (w_db w') =
      <[LoginChallenge.ID ch := challenge_row ch]>
        (login_challenges (w_db w)) ∧
    LoginChallenge.UserID ch = user ∧
    LoginChallenge.TokenHash ch = tokenhash_Hash (lr_ChallengeToken res) ∧
    LoginChallenge.IsConsumed ch = false ∧
    LoginChallenge.ExpiresAt ch = TimeAdd now (LoginChallengeTTL sec) ∧
    lr_ExpiresAt res = LoginChallenge.ExpiresAt ch ∧
    (∀ T, T ≠ Challenges → same_table T (w_db w) (w_db w')) ∧
    w_sessions w' = w_sessions w.

Lemma issueLoginChallenge_Ok u w res w' :
  run (issueLoginChallenge s u) w = (Ok res, w') →
  lr_Status res = LoginStatusOTPRequired ∧
  challenge_issued (User.ID u) res w w'.
Proof.
  unfold issueLoginChallenge. intros H.
  step H tok w2 H2. apply tokenhash_Generate_Ok in H2 as (b & _ & _ & ->).
  read_clock H. rewrite run_bind, run_perform in H.
  cbn [handle fst snd] in H. set (now := next_clock _) in H.
  set (ch := LoginChallenge.New _ _ _ _ _) in H.
  step H x w3 H3. destruct x. apply CreateChallenge_Ok in H3 as [_ ->].
  injection H as <- <-. split; [done|]. exists ch, now.
  split_and!; try done. by intros [].
Qed.

(** The setup started when there is no enabled factor. *)
Lemma login_setup_Ok u w res w' :
  rand_full → db_ok (w_db w) →
  run (let? setup := beginTOTPSetup s u in
       returnOk
         {| lr_Status := LoginStatusTOTPSetupRequired;
            lr_ChallengeToken := "";
            lr_SetupToken := rr_SetupToken setup;
            lr_OtpauthURI := rr_OtpauthURI setup;
            lr_Secret := rr_Secret setup;
            lr_ExpiresAt := rr_ExpiresAt setup |}) w = (Ok res, w') →
  lr_Status res = LoginStatusTOTPSetupRequired ∧
  (∃ c, two_factor_credentials (w_db w') =
          <[User.ID u := c]> (two_factor_credentials (w_db w)) ∧
        setup_started (User.ID u) (lr_SetupToken res) (lr_Secret res)
          (lr_ExpiresAt res) c) ∧
  (∀ T, T ≠ Credentials → same_table T (w_db w) (w_db w')) ∧
  w_sessions w' = w_sessions w.
Proof.
  intros Hfull Hok H. step H setup w2 H2. injection H as <- <-.
  apply beginTOTPSetup_Ok in H2 as (c & Hc & Hset & _ & _ & Ht & Hs); [|done..].
  split_and!; [done|by exists c|done|done].
Qed.

(** GetByUserID, whatever it answers, reads. *)
Lemma CredentialByUser_any u w r w' :
  run (TwoFactorCredentialRepository.GetByUserID u) w = (r, w') →
  w_db w' = w_db w ∧ w_sessions w' = w_sessions w ∧
  (∀ e, r = Err e → errors_Is e Totp_ErrNotFound = true →
        two_factor_credentials (w_db w) !! u = None).
Proof.
  intros H. destruct (two_factor_credentials (w_db w) !! u) as [c|] eqn:Hc.
  - assert (Hq : ∀ now, exec (SelectCredentialByUser u) now (w_db w) =
                        (Ok c, w_db w)) by (intros now; simpl; by rewrite Hc).
    destruct (scan_one_row _ _ _ w c r w' Hq H) as [-> Hr].
    split_and!; [done..|]. intros e -> He.
    destruct Hr as [?|[m [= ->]]]; [done|]. by rewrite errors_Is_fault in He.
  - apply scan_one_norow in H as [-> _]; [done|].
    intros now. simpl. by rewrite Hc.
Qed.

(** A successful first login step: the address is that of an account that is
    not being deleted and the password verified; all it did was to store a
    challenge with the hash of the returned token (second factor enabled) or
    to start the factor's setup (not enabled). *)
Lemma Login_success inp w res w' :
  rand_full → db_ok (w_db w) →
  run (Login s inp) w = (Ok res, w') →
  ∃ u,
    users (w_db w) !! User.ID u = Some u ∧
    User.Email u = normalizeEmail (li_Email inp) ∧
    Verify (svc_hasher s) (User.PasswordHash u) (li_Password inp) = Ok tt ∧
    User.is_pending u = false ∧
    match lr_Status res with
    | LoginStatusOTPRequired =>
        (∃ c, two_factor_credentials (w_db w) !! User.ID u = Some c ∧
              Totp.IsEnabled c = true) ∧
        challenge_issued (User.ID u) res w w'
    | LoginStatusTOTPSetupRequired =>
        (∀ c, two_factor_credentials (w_db w) !! User.ID u = Some c →
              Totp.IsEnabled c = false) ∧
        (∃ c, two_factor_credentials (w_db w') =
                <[User.ID u := c]> (two_factor_credentials (w_db w)) ∧
              setup_started (User.ID u) (lr_SetupToken res) (lr_Secret res)
                (lr_ExpiresAt res) c) ∧
        (∀ T, T ≠ Credentials → same_table T (w_db w) (w_db w')) ∧
        w_sessions w' = w_sessions w
    end.
Proof.
  intros Hfull Hok. unfold Login. intros (r & w1 & H1 & H)%run_bind_inv.
  destruct r as [u|e]; [|by destruct (errors_Is _ _)].
  apply GetByEmail_Ok in H1 as ([k Hu] & He & ->).
  destruct (Verify _ _ _) as [[]|] eqn:Hv; [|done].
  destruct (User.is_pending u) eqn:Hp; [done|].
  apply run_bind_inv in H as (cred & w1 & H1 & H).
  pose proof (ok_users_key _ Hok _ _ Hu) as Hkey. simpl in Hkey.
  exists u. apply CredentialByUser_any in H1 as Hany.
  destruct Hany as (Hdb & Hss & Hnone).
  split_and!; [by rewrite Hkey|done|done|done|].
  destruct cred as [c|e].
  - apply CredentialByUser_Ok in H1 as [Hc ->]. simpl in Hc.
    destruct (Totp.IsEnabled c) eqn:Hen.
    + apply issueLoginChallenge_Ok in H as [-> H]. split; [by exists c|done].
    + apply login_setup_Ok in H as (-> & H2 & H3 & H4); [|done..].
      split_and!; try done. intros c' Hc'. congruence.
  - destruct (errors_Is e Totp_ErrNotFound) eqn:Hnf; [|done].
    apply login_setup_Ok in H as (-> & H2 & H3 & H4);
      [|done|by rewrite Hdb].
    rewrite Hdb, Hss in *. split_and!; try done.
    intros c' Hc'. specialize (Hnone e eq_refl Hnf). simpl in Hnone.
    congruence.
Qed.

(** ** UpdateProfile *)

Definition media_list_request (accessToken : string) (id : uuid) : Request :=
  mkRequest "GET" (svc_mediaURL s +:+ "/api/v1/media?" +:+ idsQuery [id])
    (bearer accessToken).
Definition media_delete_request (accessToken : string) (id : uuid) :
    Request :=
  mkRequest "DELETE" (svc_mediaURL s +:+ "/api/v1/media?" +:+ idsQuery [id])
    (bearer accessToken).

Lemma VerifyOwnership_Ok token id w w' :
  run (VerifyOwnership (svc_mediaURL s) token [id]) w = (Ok tt, w') →
  (∃ resp item,
     http_do (n_http (w_counters w)) (media_list_request token id) = Ok resp ∧
     resp_status resp = StatusOK ∧ resp_items resp = Ok [item]) ∧
  w' = add_request (media_list_request token id) (tick_http w).
Proof.
  unfold VerifyOwnership. intros H.
  destruct (NewRequest _ _ _) as [req|] eqn:Hreq; [|done].
  apply NewRequest_Ok in Hreq as ->.
  step H resp w1 H1.
  rewrite run_perform in H1. cbn [handle] in H1. injection H1 as H1 <-.
  destruct (bool_decide _) eqn:E; [done|]. apply bool_decide_eq_false in E.
  apply dec_stable in E. destruct (resp_items resp) as [items|] eqn:Hi; [|done].
  destruct (bool_decide _) eqn:E2; [done|]. apply bool_decide_eq_false in E2.
  apply dec_stable in E2. injection H as <-. split; [|done].
  destruct items as [|item [|]]; try done. by exists resp, item.
Qed.

(** The media service, asked as its [i]-th call, confirmed the deletion. *)
Definition media_deleted (accessToken : string) (id : uuid) (i : nat) : Prop :=
  ∃ resp, http_do i (media_delete_request accessToken id) = Ok resp ∧
    (resp_status resp = StatusNoContent ∨ resp_status resp = StatusOK).

(** Which call deletes the replaced avatar: a new one is looked up first. *)
Definition deletion_call (change : option (option uuid)) w : nat :=
  match change with
  | Some (Some _) => S (n_http (w_counters w))
  | _ => n_http (w_counters w)
  end.

Lemma DeleteByIDs_Ok token id w w' :
  run (DeleteByIDs (svc_mediaURL s) token [id]) w = (Ok tt, w') →
  media_deleted token id (n_http (w_counters w)) ∧
  w' = add_request (media_delete_request token id) (tick_http w).
Proof.
  unfold DeleteByIDs, delete_call. intros H.
  destruct (NewRequest _ _ _) as [req|] eqn:Hreq; [|done].
  apply NewRequest_Ok in Hreq as ->.
  step H resp w1 H1.
  rewrite run_perform in H1. cbn [handle] in H1. injection H1 as H1 <-.
  case_bool_decide as Hst; [|done]. injection H as <-.
  split; [by exists resp|done].
Qed.

(** A successful update stores the names and the planned avatar and nothing
    else; a new avatar was listed by the media service for the caller's
    token, and the avatar it replaces was deleted there before. *)
Lemma UpdateProfile_Ok userID token inp w u' w' :
  db_ok (w_db w) →
  run (UpdateProfile s userID token inp) w = (Ok u', w') →
  ∃ u,
    users (w_db w) !! userID = Some u ∧
    let '(avatar, old) := avatar_plan u (upi_Avatar inp) in
    users (w_db w') =
      <[userID := User.UpdateProfile u (upi_FirstName inp)
                    (upi_LastName inp) avatar (pg_ts (reading 0 w))]>
        (users (w_db w)) ∧
    u' = User.UpdateProfile u (upi_FirstName inp) (upi_LastName inp) avatar
           (reading 0 w) ∧
    (∀ o, old = Some o →
          media_deleted token o (deletion_call (upi_Avatar inp) w)) ∧
    (∀ id, upi_Avatar inp = Some (Some id) →
       ∃ resp item,
         http_do (n_http (w_counters w)) (media_list_request token id) =
           Ok resp ∧
         resp_status resp = StatusOK ∧ resp_items resp = Ok [item]) ∧
    w_requests w' =
      match old with
      | Some o => [media_delete_request token o]
      | None => []
      end ++
      match upi_Avatar inp with
      | Some (Some id) => [media_list_request token id]
      | _ => []
      end ++ w_requests w ∧
    (∀ T, T ≠ Users → same_table T (w_db w) (w_db w')) ∧
    w_sessions w' = w_sessions w.
Proof.
  intros Hok. unfold UpdateProfile. intros H. step H u w1 H1.
  apply GetByID_Ok in H1 as [Hu ->].
  pose proof (ok_users_key _ Hok _ _ Hu) as Hkey. simpl in Hkey.
  step H x w2 H2. destruct x.
  assert (Hown : (∀ id, upi_Avatar inp = Some (Some id) →
       ∃ resp item,
         http_do (n_http (w_counters w)) (media_list_request token id) =
           Ok resp ∧
         resp_status resp = StatusOK ∧ resp_items resp = Ok [item]) ∧
    w_requests w2 = match upi_Avatar inp with
      | Some (Some id) => [media_list_request token id]
      | _ => []
      end ++ w_requests w ∧ w_db w2 = w_db w ∧ w_sessions w2 = w_sessions w ∧
    n_clock (w_counters w2) = n_clock (w_counters w) ∧
    n_http (w_counters w2) = deletion_call (upi_Avatar inp) w).
  { destruct (upi_Avatar inp) as [[id|]|]; [|by injection H2 as <-..].
    apply VerifyOwnership_Ok in H2 as [Hr ->]. split_and!; try done.
    by intros id' [= <-]. }
  destruct Hown as (Hown & Hrq & Hdb & Hss & Hck & Hn). clear H2.
  destruct (avatar_plan u (upi_Avatar inp)) as [avatar old] eqn:Hplan.
  cbn [fst snd] in H. step H x w3 H3. destruct x.
  assert (Hdel : w_requests w3 = match old with
      | Some o => [media_delete_request token o]
      | None => []
      end ++ w_requests w2 ∧ w_db w3 = w_db w2 ∧
      w_sessions w3 = w_sessions w2 ∧
      n_clock (w_counters w3) = n_clock (w_counters w2) ∧
      ∀ o, old = Some o →
           media_deleted token o (deletion_call (upi_Avatar inp) w)).
  { destruct old as [o|]; [|by injection H3 as <-].
    apply DeleteByIDs_Ok in H3 as [Hd ->]. rewrite Hn in Hd.
    split_and!; try done. by intros o' [= <-]. }
  destruct Hdel as (Hrq3 & Hdb3 & Hss3 & Hck3 & Hdel). clear H3.
  read_clock H. replace (next_clock w3) with (reading 0 w) in H
    by (unfold next_clock, reading; by rewrite Hck3, Hck).
  step H x w4 H4. destruct x. injection H as <- <-.
  apply UpdateUser_Ok in H4 as (old' & Hold & ->).
  simpl in Hold |- *. rewrite Hdb3, Hdb, Hkey, Hu in Hold.
  injection Hold as <-. exists u. rewrite Hplan.
  split_and!; [done| |done|done|done| | |by rewrite Hss3].
  - by rewrite Hdb3, Hdb, Hkey.
  - by rewrite Hrq3, Hrq.
  - intros T HT. rewrite Hdb3, Hdb. by destruct T.
Qed.
(** Whatever becomes of an update: the database is written only when the
    replaced avatar, if there is one, is gone. *)
Lemma UpdateProfile_deletes_first userID token inp w r w' :
  run (UpdateProfile s userID token inp) w = (r, w') →
  w_db w' = w_db w ∨
  ∃ u, users (w_db w) !! userID = Some u ∧
    ∀ o, (avatar_plan u (upi_Avatar inp)).2 = Some o →
         media_deleted token o (deletion_call (upi_Avatar inp) w).
Proof.
  unfold UpdateProfile. rewrite run_bindE.
  pose proof (run_reads (UserRepository.GetByID userID) w
    ltac:(autounfold with effects; walk; done)) as Hdb.
  destruct (run (UserRepository.GetByID userID) w) as [[u|e] w1] eqn:H1;
    [|intros [= _ <-]; by left].
  apply GetByID_Ok in H1 as [Hu ->]. clear Hdb. rewrite run_bindE.
  match goal with |- context [run ?p (tick_io w)] => set (q := p) end.
  assert (Hq : w_db (run q (tick_io w)).2 = w_db w ∧
    (is_Ok (run q (tick_io w)).1 = true →
     n_http (w_counters (run q (tick_io w)).2) =
     deletion_call (upi_Avatar inp) w)).
  { subst q. destruct (upi_Avatar inp) as [[id|]|]; [|done..]. split.
    - etrans; [apply run_reads|done]. unfold VerifyOwnership. walk; done.
    - destruct (run _ _) as [[[]|e] w2] eqn:H2; [|done]. intros _.
      by apply VerifyOwnership_Ok in H2 as [_ ->]. }
  destruct (run q (tick_io w)) as [[[]|e] w2]; cbn [fst snd] in Hq;
    destruct Hq as [Hdb Hn]; [|intros [= _ <-]; by left].
  specialize (Hn eq_refl). rewrite run_bindE.
  destruct (avatar_plan u (upi_Avatar inp)).2 as [o|] eqn:Hplan.
  - pose proof (run_reads (DeleteByIDs (svc_mediaURL s) token [o]) w2
      ltac:(unfold DeleteByIDs, delete_call; walk; done)) as Hdb2.
    destruct (run (DeleteByIDs _ _ _) w2) as [[[]|e] w3] eqn:H3.
    + intros _. right. exists u. split; [done|].
      apply DeleteByIDs_Ok in H3 as [Hd _]. rewrite Hn in Hd.
      by rewrite Hplan; intros o' [= <-].
    + intros [= _ <-]. left. by rewrite <-Hdb.
  - intros _. right. exists u. split; [done|]. by rewrite Hplan.
Qed.
End accounts.
