(* ===== verification/Journeys.v ===== *)
(** * Requests that succeed

    The converse of the theorems of Sessions, Accounts and Passwords: in an
    environment where nothing fails, a user who presents what a use case asks
    for gets what it promises. The requests of one journey are made in worlds
    that need not be adjacent: between them anything may happen that leaves
    the rows of the journey as they are. *)
From S2P Require Import Prelude Tables GoBase Domain Schema Effects Logic.
From S2P Require Import GoStrings Platform Postgres Service Footprint.
From S2P Require Import Integrity Repositories Healthy Supplies ServiceFacts.
From S2P Require Import Sessions OtpGate Passwords Tokens Accounts Demo.
#[local] Open Scope go_scope.

Section journeys.
Context `{PT : PgTime, PTL : !PgTimeLaws, EV : Env, SS : SessionStore,
          SL : !SessionStoreLaws, L : Lib, BL : !BcryptLaws, U : Unicode}.
Variable s : AuthService.
Context `{AL : !AeadLaws (svc_cipher s)}.
#[local] Abbreviation sec := (svc_security s).
Hypothesis Hwork : working s.
Hypothesis Httl : (0 < RefreshTTL sec)%Z.
Implicit Types (w : World).

Let Hh : healthy := wk_faults s Hwork.

Lemma working_rand_full : rand_full.
Proof.
  intros i n b Hb. destruct (wk_rand _ Hwork i n) as (b' & Hb' & Hl).
  congruence.
Qed.

(** bcrypt takes the password (it has at most 72 bytes). *)
Definition hashable (pw : string) : Prop :=
  ∀ salt, ∃ h, bcrypt_GenerateFromPassword salt pw (cost (svc_hasher s)) = Ok h.

(** The refresh token to come is new. *)
Abbreviation tokens_unused w :=
  (unused 0 (λ t, Some (Token.TokenHash t)) (refresh_tokens (w_db w)) w).
(** The same of the login challenge to come. *)
Abbreviation challenges_unused w :=
  (unused 0 (λ c, Some (LoginChallenge.TokenHash c))
     (login_challenges (w_db w)) w).

(** A deadline that is stored is kept to within a microsecond. *)
Lemma stored_deadline t e :
  (t + 1000 ≤ e)%Z → After t (pg_ts e) = false.
Proof.
  intros Ht. apply bool_decide_eq_false. pose proof (pg_ts_gt e). lia.
Qed.

(** ** Signing in *)

Lemma issueLoginChallenge_runs u w :
  is_Some (users (w_db w) !! User.ID u) →
  challenges_unused w →
  ∃ res w', run (issueLoginChallenge s u) w = (Ok res, w').
Proof.
  intros Hu Hun. unfold issueLoginChallenge.
  destruct (run_Generate s Hwork w) as (b & _ & Hdh & Hgen).
  rewrite run_bindE, run_wrapE, Hgen. rewrite run_bind, run_Now. cbn [fst snd].
  rewrite run_bind, run_perform. cbn [handle fst snd].
  rewrite run_bindE, run_wrapE, (run_CreateChallenge Hh); [by eexists _, _|..|done].
  - exact (unused_id _ _ _ _ Hun).
  - intros k v Hk He. apply (unused_hash _ _ _ _ Hun _ _ Hk); [done|].
    rewrite Hdh. by f_equal.
Qed.

Lemma Login_runs inp u c w :
  db_ok (w_db w) → users (w_db w) !! User.ID u = Some u →
  User.Email u = normalizeEmail (li_Email inp) →
  Verify (svc_hasher s) (User.PasswordHash u) (li_Password inp) = Ok tt →
  User.is_pending u = false →
  two_factor_credentials (w_db w) !! User.ID u = Some c →
  Totp.IsEnabled c = true →
  challenges_unused w →
  ∃ res w', run (Login s inp) w = (Ok res, w') ∧
            lr_Status res = LoginStatusOTPRequired ∧
            challenge_issued s (User.ID u) res w w'.
Proof.
  intros Hok Hu He Hv Hp Hc Hen Hun. unfold Login.
  rewrite run_bind, (run_GetByEmail Hh (User.ID u) u) by done. cbn [fst snd].
  rewrite Hv, Hp. rewrite run_bind, (run_CredentialByUser Hh _ c) by done.
  cbn [fst snd]. rewrite Hen.
  destruct (issueLoginChallenge_runs u (tick_io (tick_io w))) as (res & w' & Hr).
  { by exists u. }
  { by apply (unused_same _ _ _ w). }
  exists res, w'. split; [done|]. by apply issueLoginChallenge_Ok in Hr.
Qed.

Lemma LoginVerifyOTP_runs chTok code ch u c n w :
  db_ok (w_db w) →
  login_challenges (w_db w) !! LoginChallenge.ID ch = Some ch →
  LoginChallenge.TokenHash ch = tokenhash_Hash chTok →
  LoginChallenge.IsConsumed ch = false →
  LoginChallenge.IsExpired ch (reading 0 w) = false →
  users (w_db w) !! LoginChallenge.UserID ch = Some u →
  User.is_pending u = false →
  two_factor_credentials (w_db w) !! LoginChallenge.UserID ch = Some c →
  gate_locked (gate_of c) (reading 1 w) = false →
  code_step s (User.Email u) c code (reading 2 w) = Ok (Some n) →
  tokens_unused w →
  ∃ sess w' rt, run (LoginVerifyOTP s chTok code) w = (Ok sess, w') ∧
                single_session s u rt sess w'.
Proof.
  intros Hok Hch Hhash Hcons Hexp Hu Hp Hc Hl Hcode Hun. unfold LoginVerifyOTP.
  rewrite run_bind, (run_ChallengeByHash Hh (LoginChallenge.ID ch) ch) by done.
  cbn [fst snd]. rewrite run_bind, run_Now. cbn [fst snd].
  change (next_clock (tick_io w)) with (reading 0 w). rewrite Hexp, Hcons. cbn [orb].
  rewrite run_bind, (run_CredentialByUser Hh _ c) by done. cbn [fst snd].
  rewrite run_bindE, (run_GetByID Hh _ u) by done.
  set (w2 := tick_io (tick_io _)).
  destruct (verifyOTP_accept s Hh (LoginChallenge.UserID ch) (User.Email u) c
              code w2 n) as (c1 & c' & w3 & H1 & H2 & H3 & _); try done.
  rewrite run_bindE, H1, Hp.
  pose proof (verifyOTP_draws_nothing s (User.Email u) c code w2) as Hd.
  rewrite H1 in Hd. cbn [snd] in Hd.
  pose proof (ok_users_key _ Hok _ _ Hu) as Hkey. simpl in Hkey.
  destruct (issueSession_runs s Hwork u w3) as (sess & w4 & H4).
  { rewrite H2. simpl. rewrite Hkey. by exists u. }
  { rewrite H2. apply (unused_same _ _ _ w); [exact Hun|exact Hd]. }
  rewrite run_bindE, H4. rewrite run_bindE, run_wrapE, (run_ConsumeChallenge Hh).
  apply issueSession_Ok in H4 as [rt Hi].
  eexists sess, _, rt. split; [done|].
  eapply single_session_frame; [by eapply issued_session| |done].
  by apply (consume_keeps RefreshTokens).
Qed.

(** C10. When nothing fails, whoever knows the address and password of an
    account that is not being deleted and whose second factor is enabled is
    given a login challenge, and with it and a code the factor accepts (an
    unused TOTP, or the demo account's fixed code), presented before the
    challenge expires, while the account is still not being deleted and the
    factor not locked out, a session: the account's only one. *)
Theorem sign_in_succeeds inp u c w :
  db_ok (w_db w) →
  (* an account with this address and password, its factor enabled *)
  users (w_db w) !! User.ID u = Some u →
  User.Email u = normalizeEmail (li_Email inp) →
  Verify (svc_hasher s) (User.PasswordHash u) (li_Password inp) = Ok tt →
  User.is_pending u = false →
  two_factor_credentials (w_db w) !! User.ID u = Some c →
  Totp.IsEnabled c = true →
  challenges_unused w →
  ∃ res w1 ch,
    run (Login s inp) w = (Ok res, w1) ∧
    lr_Status res = LoginStatusOTPRequired ∧
    login_challenges (w_db w1) =
      <[LoginChallenge.ID ch := ch]> (login_challenges (w_db w)) ∧
    (∀ T, T ≠ Challenges → same_table T (w_db w) (w_db w1)) ∧
    (* later, the challenge still as it was, with a fresh code *)
    ∀ w2 u2 c2 code n,
      db_ok (w_db w2) →
      login_challenges (w_db w2) !! LoginChallenge.ID ch = Some ch →
      users (w_db w2) !! User.ID u = Some u2 → User.is_pending u2 = false →
      two_factor_credentials (w_db w2) !! User.ID u = Some c2 →
      (reading 0 w2 + Microsecond ≤ lr_ExpiresAt res)%Z →
      gate_locked (gate_of c2) (reading 1 w2) = false →
      code_step s (User.Email u2) c2 code (reading 2 w2) = Ok (Some n) →
      tokens_unused w2 →
      ∃ sess w3 rt,
        run (LoginVerifyOTP s (lr_ChallengeToken res) code) w2 = (Ok sess, w3) ∧
        single_session s u2 rt sess w3.
Proof.
  intros Hok Hu He Hv Hp Hc Hen Hun.
  destruct (Login_runs inp u c w) as (res & w1 & Hr & Hst & ch & now & Hch &
    Huid & Hhash & Hcons & Hexp & Hres & Ht & _); try done.
  exists res, w1, (challenge_row ch). split_and!; try done.
  intros w2 u2 c2 code n Hok2 Hch2 Hu2 Hp2 Hc2 Htime Hl Hcode Hun2.
  eapply LoginVerifyOTP_runs; try done; simpl; rewrite ?Huid; try done.
  - unfold LoginChallenge.IsConsumed in *. simpl.
    by destruct (LoginChallenge.ConsumedAt ch).
  - apply stored_deadline. by rewrite <-Hres.
Qed.

(** ** The first visit *)

(** No account has the identifier drawn next, and no factor the setup token
    that is drawn after the nonce of the secret. *)
Definition account_unused w : Prop :=
  users (w_db w) !! gen_uuid (n_uuid (w_counters w)) = None ∧
  token_unused 1 Totp.SetupTokenHash (two_factor_credentials (w_db w)) w.

Lemma setup_hash_unused c h i w :
  token_unused i Totp.SetupTokenHash (two_factor_credentials (w_db w)) w →
  drawn_hash i w = Some h → Totp.SetupTokenHash c = Some h →
  setup_hash_taken c (w_db w) = false.
Proof.
  intros Hun Hd Hc. unfold setup_hash_taken. rewrite Hc.
  apply any_row_false. intros k v Hk. apply andb_false_iff. left.
  apply bool_decide_eq_false. intros Hv.
  apply (Hun _ _ Hk); [by rewrite Hv|]. by rewrite Hv, Hd.
Qed.

Lemma run_Encrypt c plaintext w :
  ∃ ct, run (Encrypt c plaintext) w = (Ok ct, tick_rand w).
Proof.
  unfold Encrypt. rewrite run_bindE, run_wrapE, run_perform. cbn [handle].
  destruct (wk_rand _ Hwork (n_rand (w_counters w)) (NonceSize c)) as (b & -> & _).
  by eexists.
Qed.

Lemma run_GenerateSecret account w :
  ∃ key, run (GenerateSecret (TOTPIssuer sec) account) w =
         (Ok key, tick_entropy w).
Proof.
  unfold GenerateSecret. rewrite run_bind, run_perform. cbn [handle fst snd].
  match goal with |- context [otp_Generate ?r ?i ?a] =>
    destruct (wk_otp _ Hwork r i a) as [key ->] end. by eexists.
Qed.

Lemma beginTOTPSetup_new u w :
  is_Some (users (w_db w) !! User.ID u) →
  two_factor_credentials (w_db w) !! User.ID u = None →
  token_unused 1 Totp.SetupTokenHash (two_factor_credentials (w_db w)) w →
  ∃ res w', run (beginTOTPSetup s u) w = (Ok res, w').
Proof.
  intros Hu Hn Hun. unfold beginTOTPSetup.
  destruct (run_GenerateSecret (User.Email u) w) as [key Hk].
  rewrite run_bindE, run_wrapE, Hk.
  destruct (run_Encrypt (svc_cipher s) key.1 (tick_entropy w)) as [ct Hct].
  rewrite run_bindE, run_wrapE, Hct. set (w2 := tick_rand _).
  destruct (run_Generate s Hwork w2) as (b & _ & Hdh & Hgen).
  rewrite run_bindE, run_wrapE, Hgen. cbv zeta.
  rewrite run_bind, (run_CredentialByUser_none Hh) by done. cbn [fst snd].
  rewrite run_bindE. cbn [errors_Is]. rewrite bool_decide_true by done.
  cbn [orb negb]. rewrite run_bind, run_Now. cbn [fst snd].
  rewrite run_bindE, run_wrapE, (run_CreateCredential Hh);
    [by eexists _, _|done| |done|done].
  by apply (setup_hash_unused _ _ 1 w Hun Hdh).
Qed.

Lemma Register_runs inp w :
  db_ok (w_db w) →
  (∀ k v, users (w_db w) !! k = Some v →
          User.Email v ≠ normalizeEmail (ri_Email inp)) →
  hashable (ri_Password inp) →
  account_unused w →
  ∃ res w', run (Register s inp) w = (Ok res, w').
Proof.
  intros Hok He Hpw [Hid Hun]. unfold Register.
  rewrite run_bindE, run_wrapE, run_Hash.
  match goal with |- context [bcrypt_GenerateFromPassword ?r _ _] =>
    destruct (Hpw r) as [h ->] end.
  rewrite run_bind, run_Now. cbn [fst snd].
  rewrite run_bind, run_perform. cbn [handle fst snd].
  set (u := User.New _ _ _ _). set (w1 := tick_uuid _).
  rewrite run_bindE, (run_CreateUser Hh u w1) by done.
  apply beginTOTPSetup_new; simpl.
  - by rewrite lookup_insert_eq.
  - by apply no_user_no_credential.
  - exact Hun.
Qed.

Lemma SetupVerifyOTP_runs setupToken code u c n w :
  db_ok (w_db w) →
  users (w_db w) !! Totp.UserID c = Some u → User.is_pending u = false →
  two_factor_credentials (w_db w) !! Totp.UserID c = Some c →
  Totp.SetupTokenHash c = Some (tokenhash_Hash setupToken) →
  Totp.IsSetupTokenExpired c (reading 0 w) = false →
  gate_locked (gate_of c) (reading 1 w) = false →
  code_step s (User.Email u) c code (reading 2 w) = Ok (Some n) →
  tokens_unused w →
  ∃ sess w' rt c',
    run (SetupVerifyOTP s setupToken code) w = (Ok sess, w') ∧
    single_session s u rt sess w' ∧
    two_factor_credentials (w_db w') !! User.ID u = Some c' ∧
    Totp.IsEnabled c' = true ∧ Totp.SetupTokenHash c' = None.
Proof.
  intros Hok Hu Hp Hc Hhash Hexp Hl Hcode Hun. unfold SetupVerifyOTP.
  rewrite run_bind, (run_CredentialBySetupHash Hh _ c) by done.
  cbn [fst snd]. rewrite run_bind, run_Now. cbn [fst snd].
  change (next_clock (tick_io w)) with (reading 0 w). rewrite Hexp.
  rewrite run_bindE, (run_GetByID Hh _ u) by done. set (w2 := tick_io _).
  destruct (verifyOTP_accept s Hh (Totp.UserID c) (User.Email u) c code w2 n)
    as (c1 & c2 & w3 & H1 & H2 & H3 & _); try done.
  rewrite run_bindE, H1, Hp.
  pose proof (verifyOTP_draws_nothing s (User.Email u) c code w2) as Hd.
  rewrite H1 in Hd. cbn [snd] in Hd.
  apply verifyOTP_Ok in H1 as (_ & m & d & old & _ & -> & _).
  pose proof (ok_users_key _ Hok _ _ Hu) as Hkey. simpl in Hkey.
  destruct (issueSession_runs s Hwork u w3) as (sess & w4 & H4).
  { rewrite H2. simpl. rewrite Hkey. by exists u. }
  { rewrite H2. apply (unused_same _ _ _ w); [exact Hun|exact Hd]. }
  rewrite run_bindE, H4. rewrite run_bind, run_Now. cbn [fst snd].
  apply issueSession_Ok in H4 as [rt Hi].
  assert (Hc4 : two_factor_credentials (w_db w4) !! Totp.UserID c = Some c2).
  { pose proof (iss_tables _ _ _ _ _ _ Hi Credentials ltac:(done)) as Hx.
    simpl in Hx. by rewrite <-Hx, H2; simpl; rewrite lookup_insert_eq. }
  rewrite run_bindE, run_wrapE, (run_WriteCredential Hh (Totp.UserID c) c2)
    by done.
  eexists sess, _, rt, _. split; [done|]. split; [|split].
  - eapply single_session_frame; [by eapply issued_session|done|done].
  - rewrite Hkey. simpl. by rewrite lookup_insert_eq.
  - done.
Qed.

(** The period of a TOTP that [ValidateAt] accepts is fresh for a factor that
    has not been used yet. *)
Lemma code_step_unused email c secret code t n :
  Decrypt (svc_cipher s) (Totp.SecretEncrypted c) = Ok secret →
  Totp.LastUsedCounter c = None → ValidateAt code secret t = (true, n) →
  ∃ n', code_step s email c code t = Ok (Some n').
Proof.
  intros Hs Hl Hv. unfold code_step. rewrite Hs, Hv.
  destruct (_ && _); [by eexists|]. unfold gate_fresh. simpl. rewrite Hl.
  by eexists.
Qed.

(** C11. When nothing fails, a new address with a password bcrypt can hash is
    registered, the account stored active with its second factor being set up,
    and the setup token with a code of the secret the answer shows, presented
    in time, enables the factor and gives a session. *)
Theorem first_visit_succeeds inp w :
  db_ok (w_db w) →
  (* a new address, a password bcrypt can hash *)
  (∀ k v, users (w_db w) !! k = Some v →
          User.Email v ≠ normalizeEmail (ri_Email inp)) →
  hashable (ri_Password inp) →
  account_unused w →
  ∃ res w1 u c,
    run (Register s inp) w = (Ok res, w1) ∧
    User.Email u = normalizeEmail (ri_Email inp) ∧
    Verify (svc_hasher s) (User.PasswordHash u) (ri_Password inp) = Ok tt ∧
    User.is_pending u = false ∧
    users (w_db w1) = <[User.ID u := u]> (users (w_db w)) ∧
    two_factor_credentials (w_db w1) =
      <[User.ID u := c]> (two_factor_credentials (w_db w)) ∧
    Totp.IsEnabled c = false ∧
    (∀ T, T ∈ [RefreshTokens; Challenges; Flows; Jobs; Steps] →
          same_table T (w_db w) (w_db w1)) ∧
    (* later, the account still as it was, with a code of the secret *)
    ∀ w2 code n,
      db_ok (w_db w2) →
      users (w_db w2) !! User.ID u = Some u →
      two_factor_credentials (w_db w2) !! User.ID u = Some c →
      (reading 0 w2 + Microsecond ≤ rr_ExpiresAt res)%Z →
      ValidateAt code (rr_Secret res) (reading 2 w2) = (true, n) →
      tokens_unused w2 →
      ∃ sess w3 rt c3,
        run (SetupVerifyOTP s (rr_SetupToken res) code) w2 = (Ok sess, w3) ∧
        single_session s u rt sess w3 ∧
        two_factor_credentials (w_db w3) !! User.ID u = Some c3 ∧
        Totp.IsEnabled c3 = true ∧ Totp.SetupTokenHash c3 = None.
Proof.
  intros Hok He Hpw Hun.
  destruct (Register_runs inp w) as (res & w1 & Hr); try done.
  pose proof Hr as Hr'. apply Register_success in Hr' as
    (u & c & Hue & _ & _ & Hus & Hp & Hv & Hcs & Hset & Hlast & _ & Ht & _);
    [|exact AL|exact working_rand_full|done].
  destruct Hset as (Huid & Hen & Hsh & Hse & _ & Hlk & Hdec).
  exists res, w1, u, c. split_and!; try done.
  intros w2 code n Hok2 Hu2 Hc2 Htime Hval Hun2. subst.
  destruct (code_step_unused (User.Email u) c _ _ _ _ Hdec Hlast Hval)
    as [n' Hstep].
  eapply SetupVerifyOTP_runs; rewrite ?Huid; try done.
  - unfold Totp.IsSetupTokenExpired. rewrite Hse. by apply stored_deadline.
  - unfold gate_locked. simpl. by rewrite Hlk.
Qed.
(** ** A forgotten password *)



(** The reset token to come is new. *)
Abbreviation resets_unused w :=
  (unused 0 PasswordReset.ResetTokenHash (password_reset_flows (w_db w)) w).






End journeys.

(** ** Witnesses *)

Lemma demo_working : working demo_service.
Proof.
  split.
  - exact demo_healthy.
  - intros i n. exists (demo_bytes i n). split; [done|apply pad_length].
  - intros r issuer account. by eexists.
  - intros claims. by eexists.
Qed.

Lemma demo_hashable : hashable demo_service "correct horse".
Proof. intros salt. by eexists. Qed.

(** Nothing that is stored is drawn again. *)
Ltac unused_demo :=
  split; [vm_compute; reflexivity|refine (every_eval _ _ _); vm_compute; reflexivity].

Definition no_login : LoginResult :=
  mkLoginResult LoginStatusOTPRequired "" "" "" "" 0.
Definition no_register : RegisterResult := mkRegisterResult 0 "" "" "" 0.

(** The period of the code the clock is about to read. *)
Definition demo_period (w : World) : Z :=
  Z.quot (Unix (clock (n_clock (w_counters w)))) 30.

Lemma sign_in_succeeds_witness :
  ∃ sess w3,
    run (LoginVerifyOTP demo_service demo_challenge (demo_code demo_login.2))
      demo_login.2 = (Ok sess, w3).
Proof.
  destruct (sign_in_succeeds demo_service demo_working eq_refl
              (mkLoginInput "bee@example.com" "correct horse") demo_user
              demo_credential demo_world) as (res & w1 & ch & Hr & _ & Hch & _ & H).
  - exact demo_world_ok.
  - vm_compute. reflexivity.
  - vm_compute. reflexivity.
  - vm_compute. reflexivity.
  - vm_compute. reflexivity.
  - vm_compute. reflexivity.
  - vm_compute. reflexivity.
  - unused_demo.
  - assert (E : demo_login = (Ok res, w1)) by exact Hr.
    assert (E1 : res = value no_login demo_login.1) by (rewrite E; reflexivity).
    assert (E2 : lr_ChallengeToken res = demo_challenge)
      by (unfold demo_challenge; rewrite E; reflexivity).
    destruct (H demo_login.2 demo_user demo_credential (demo_code demo_login.2)
                (demo_period demo_login.2)) as (sess & w3 & rt & Hv & _).
    + exact demo_login_ok.
    + rewrite E. cbn [snd]. rewrite Hch. apply lookup_insert_eq.
    + vm_compute. reflexivity.
    + vm_compute. reflexivity.
    + vm_compute. reflexivity.
    + rewrite E1. vm_compute. discriminate.
    + vm_compute. reflexivity.
    + vm_compute. reflexivity.
    + unused_demo.
    + exists sess, w3. rewrite <-E2. exact Hv.
Defined.

Lemma first_visit_succeeds_witness :
  ∃ sess w3,
    run (SetupVerifyOTP demo_service demo_setup_token
           (demo_code demo_registered.2)) demo_registered.2 = (Ok sess, w3).
Proof.
  destruct (first_visit_succeeds demo_service demo_working eq_refl
              (mkRegisterInput "Bee@Example.com " "correct horse") demo_start)
    as (res & w1 & u & c & Hr & _ & _ & _ & Hu & Hc & _ & _ & H).
  - exact db_ok_empty.
  - intros k v Hk. discriminate Hk.
  - exact demo_hashable.
  - split; [vm_compute; reflexivity|].
    refine (every_eval _ _ _). vm_compute. reflexivity.
  - assert (E : demo_registered = (Ok res, w1)) by exact Hr.
    assert (E1 : res = value no_register demo_registered.1)
      by (rewrite E; reflexivity).
    assert (E2 : rr_SetupToken res = demo_setup_token)
      by (unfold demo_setup_token; rewrite E; reflexivity).
    destruct (H demo_registered.2 (demo_code demo_registered.2)
                (demo_period demo_registered.2)) as (sess & w3 & rt & c3 & Hv & _).
    + exact demo_registered_ok.
    + rewrite E. cbn [snd]. rewrite Hu. apply lookup_insert_eq.
    + rewrite E. cbn [snd]. rewrite Hc. apply lookup_insert_eq.
    + rewrite E1. vm_compute. discriminate.
    + rewrite E1. vm_compute. reflexivity.
    + unused_demo.
    + exists sess, w3. rewrite <-E2. exact Hv.
Defined.

