(* ===== verification/RowTypes.v ===== *)
(** * The types of the stored rows

    What the columns of a row may hold together, beyond what the schema's
    constraints say: where a stored secret comes from, the states of a
    second-factor credential and of a password-reset flow. [typed p Q] says
    that, run among any others, [p] keeps every row typed and returns a value
    of [Q]: values read from typed rows are typed, and only typed rows are
    written. *)
From S2P Require Import Prelude Tables GoBase Domain Schema Effects Logic.
From S2P Require Import RelyGuarantee GoStrings Platform Postgres Service.
From S2P Require Import Footprint Integrity DeletionWorker Demo Requests.
#[local] Open Scope go_scope.

Section row_types.
Context `{PT : PgTime, EV : Env, SS : SessionStore, L : Lib, U : Unicode}.
Variable s : AuthService.
#[local] Abbreviation sec := (svc_security s).

(** ** Where secrets come from *)

(** The digest of a token handed out by [tokenhash_Generate]. *)
Definition is_digest (h : string) : Prop :=
  ∃ i b, rand_read i rawTokenBytes = Ok b ∧
         h = tokenhash_Hash (base64_encode b).

(** The output of bcrypt at the configured cost. *)
Definition is_bcrypt (h : string) : Prop :=
  ∃ salt p, bcrypt_GenerateFromPassword salt p (cost (svc_hasher s)) = Ok h.

(** A fresh nonce and the ciphertext of a TOTP secret. *)
Definition is_sealed (c : string) : Prop :=
  ∃ i nonce r email key,
    rand_read i (NonceSize (svc_cipher s)) = Ok nonce ∧
    otp_Generate r (TOTPIssuer sec) email = Ok key ∧
    c = nonce +:+ Seal (svc_cipher s) nonce key.1.

(** ** Row types *)

Record user_ty (u : User.User) : Prop := {
  ty_password : is_bcrypt (User.PasswordHash u);
  ty_email : ∃ raw, User.Email u = normalizeEmail raw
}.

Definition token_ty (t : Token.RefreshToken) : Prop :=
  is_digest (Token.TokenHash t).

Definition challenge_ty (c : LoginChallenge.LoginChallenge) : Prop :=
  is_digest (LoginChallenge.TokenHash c).

(** A credential is being set up, with a setup token and its expiry, or
    enabled, with neither. *)
Inductive cred_state (c : Totp.Credential) : Prop :=
  | CredPending h e :
      Totp.EnabledAt c = None → Totp.SetupTokenHash c = Some h →
      Totp.SetupTokenExpiresAt c = Some e → is_digest h → cred_state c
  | CredEnabled a :
      Totp.EnabledAt c = Some a → Totp.SetupTokenHash c = None →
      Totp.SetupTokenExpiresAt c = None → cred_state c.

Record cred_ty (c : Totp.Credential) : Prop := {
  ty_cred_state : cred_state c;
  ty_cred_secret : is_sealed (Totp.SecretEncrypted c);
  ty_cred_attempts : (0 ≤ Totp.FailedAttempts c)%Z ∧
    (Totp.FailedAttempts c = 0 ∨ Totp.FailedAttempts c < OTPMaxAttempts sec)%Z
}.

(** A flow is open, or verified with a reset token and its expiry; only a
    verified flow is ever consumed. *)
Inductive flow_state (f : PasswordReset.PasswordResetFlow) : Prop :=
  | FlowOpen :
      PasswordReset.OTPVerifiedAt f = None →
      PasswordReset.ResetTokenHash f = None →
      PasswordReset.ResetTokenExpiresAt f = None →
      PasswordReset.ConsumedAt f = None → flow_state f
  | FlowVerified a h e :
      PasswordReset.OTPVerifiedAt f = Some a →
      PasswordReset.ResetTokenHash f = Some h →
      PasswordReset.ResetTokenExpiresAt f = Some e →
      is_digest h → flow_state f.

Record flow_ty (f : PasswordReset.PasswordResetFlow) : Prop := {
  ty_flow_state : flow_state f;
  ty_flow_hash : is_digest (PasswordReset.FlowTokenHash f);
  ty_flow_attempts : (0 ≤ PasswordReset.OTPAttempts f)%Z ∧
    (PasswordReset.OTPAttempts f = 0 ∨
     PasswordReset.OTPAttempts f ≤ ResetFlowMaxOTPAttempts sec)%Z
}.

Record rows_typed (db : Database) : Prop := {
  ty_users : every user_ty (users db);
  ty_tokens : every token_ty (refresh_tokens db);
  ty_creds : every cred_ty (two_factor_credentials db);
  ty_challenges : every challenge_ty (login_challenges db);
  ty_flows : every flow_ty (password_reset_flows db)
}.

Lemma rows_typed_empty : rows_typed empty_db.
Proof. split; apply every_empty. Qed.

(** ** Statements *)

(** What a statement may write. *)
Definition stmt_ty {X} (q : stmt X) : Prop :=
  match q with
  | InsertUser u => user_ty u
  | UpdateUserPassword _ h => is_bcrypt h
  | InsertRefreshToken t => token_ty t
  | InsertCredential c => cred_ty c
  | UpdateCredential c => cred_ty c
  | InsertChallenge c => challenge_ty c
  | InsertFlow f => flow_ty f
  | UpdateFlow f => flow_ty f
  | _ => True
  end.

(** A credential as it is read: the counter fits its column. *)
Definition cred_read (c : Totp.Credential) : Prop :=
  cred_ty c ∧ Int.int4_ok (Totp.FailedAttempts c) = true.
Definition flow_read (f : PasswordReset.PasswordResetFlow) : Prop :=
  flow_ty f ∧ Int.int4_ok (PasswordReset.OTPAttempts f) = true.

(** What a statement answers. *)
Definition ans_ty {X} (q : stmt X) : X → Prop :=
  match q in stmt X return X → Prop with
  | SelectUserByEmail _ => user_ty
  | SelectUserByID _ => user_ty
  | SelectRefreshTokenByHash _ => token_ty
  | SelectCredentialByUser _ => cred_read
  | SelectCredentialBySetupHash _ => cred_read
  | SelectChallengeByHash _ => challenge_ty
  | SelectFlowByFlowHash _ => flow_read
  | SelectFlowByResetHash _ => flow_read
  | _ => λ _, True
  end.

Lemma cred_ty_stored (g : time → time) c c' :
  cred_ty c → Totp.SecretEncrypted c' = Totp.SecretEncrypted c →
  Totp.EnabledAt c' = g <$> Totp.EnabledAt c →
  Totp.SetupTokenHash c' = Totp.SetupTokenHash c →
  Totp.SetupTokenExpiresAt c' = g <$> Totp.SetupTokenExpiresAt c →
  Totp.FailedAttempts c' = Totp.FailedAttempts c → cred_ty c'.
Proof.
  intros [Hst Hs Ha] E1 E2 E3 E4 E5. split; rewrite ?E1, ?E5; try done.
  destruct Hst as [h e H1 H2 H3 Hh|a H1 H2 H3];
    rewrite ?H1, ?H2, ?H3 in *; [by eapply CredPending|by eapply CredEnabled].
Qed.

Lemma flow_ty_stored (g : time → time) f f' :
  flow_ty f →
  is_digest (PasswordReset.FlowTokenHash f') →
  PasswordReset.OTPVerifiedAt f' = g <$> PasswordReset.OTPVerifiedAt f →
  PasswordReset.OTPAttempts f' = PasswordReset.OTPAttempts f →
  PasswordReset.ResetTokenHash f' = PasswordReset.ResetTokenHash f →
  PasswordReset.ResetTokenExpiresAt f' =
    g <$> PasswordReset.ResetTokenExpiresAt f →
  PasswordReset.ConsumedAt f' = g <$> PasswordReset.ConsumedAt f →
  flow_ty f'.
Proof.
  intros [Hst Hs Ha] Hh E1 E2 E3 E4 E5. split; rewrite ?E2; try done.
  destruct Hst as [H1 H2 H3 H4|a h e H1 H2 H3 Hd];
    rewrite ?H1, ?H2, ?H3, ?H4 in *; [by apply FlowOpen|].
  by eapply FlowVerified.
Qed.

(** ** Execution keeps the types *)

Ltac keep_typed := split; simpl; auto with beebase.

Lemma exec_typed {X} (q : stmt X) now db :
  stmt_ty q → rows_typed db → rows_typed (exec q now db).2.
Proof.
  intros Hq []. destruct q; cbn [exec snd]; try (split; assumption);
    cbn [stmt_ty] in Hq.
  - unfold users_insert. case_match; [done|]. keep_typed.
    apply every_insert; [done|]. by destruct Hq.
  - unfold users_update, update_row.
    destruct (users db !! _) as [old|] eqn:Hu; simpl; [|keep_typed].
    keep_typed. apply every_insert; [done|]. by destruct (ty_users0 _ _ Hu).
  - unfold users_update, update_row.
    destruct (users db !! _) as [old|] eqn:Hu; simpl; [|keep_typed].
    keep_typed. apply every_insert; [done|]. by destruct (ty_users0 _ _ Hu).
  - unfold users_delete. case_match; [|done]. keep_typed.
  - unfold users_mark_pending. case_match eqn:Hu; [|done]. case_match; [|done].
    keep_typed. apply every_insert; [done|]. by destruct (ty_users0 _ _ Hu).
  - unfold tokens_insert. case_match; [done|]. case_match; [|done].
    keep_typed.
  - unfold tokens_revoke. case_match eqn:Ht; [|done]. case_match; [done|].
    keep_typed. apply every_insert; [done|]. exact (ty_tokens0 _ _ Ht).
  - keep_typed. apply every_fmap; [|done]. intros t Ht. by case_match.
  - unfold credentials_insert. case_match; [done|]. case_match; [done|].
    case_match; [|done]. keep_typed. apply every_insert; [done|].
    by eapply (cred_ty_stored pg_ts c).
  - unfold credentials_update. case_match; [done|]. case_match; [|done].
    case_match; [done|]. keep_typed. apply every_insert; [done|].
    by eapply (cred_ty_stored pg_ts c).
  - unfold challenges_insert. case_match; [done|]. case_match; [|done].
    keep_typed.
  - unfold challenges_consume. case_match eqn:Hc; [|done].
    case_match; [done|]. keep_typed. apply every_insert; [done|].
    unfold consume_live. case_match; exact (ty_challenges0 _ _ Hc).
  - unfold flows_insert. case_match; [done|]. case_match; [done|].
    case_match; [|done]. keep_typed. apply every_insert; [done|].
    eapply (flow_ty_stored pg_ts f); by destruct Hq.
  - unfold flows_update. case_match; [done|]. case_match eqn:Hf; [|done].
    case_match; [done|]. keep_typed. apply every_insert; [done|].
    eapply (flow_ty_stored pg_ts f); try done. by destruct (ty_flows0 _ _ Hf).
  - unfold jobs_upsert. repeat case_match; keep_typed.
  - unfold steps_insert. repeat case_match; keep_typed.
  - unfold jobs_claim. repeat case_match; keep_typed.
  - unfold steps_update. destruct (update_row _ _ _). keep_typed.
  - case_match; [|keep_typed]. unfold steps_update. destruct (update_row _ _ _). keep_typed.
  - unfold jobs_update. destruct (update_row _ _ _). keep_typed.
  - unfold jobs_update. destruct (update_row _ _ _). keep_typed.
Qed.

Lemma select_one_every {A} (P : A → Prop) f (m : gmap uuid A) a :
  every P m → query_row (select_one f m) = Ok a → P a.
Proof.
  intros HP. destruct (select_one f m) as [b|] eqn:E; [|done].
  intros [= <-]. apply select_one_Some in E as [_ [k Hk]]. by eapply HP.
Qed.

Lemma lookup_every {A} (P : A → Prop) (m : gmap uuid A) k a :
  every P m → query_row (m !! k) = Ok a → P a.
Proof.
  intros HP. destruct (m !! k) as [b|] eqn:E; [|done].
  intros [= <-]. by eapply HP.
Qed.

Lemma creds_read db :
  db_ok db → rows_typed db → every cred_read (two_factor_credentials db).
Proof.
  intros Hok Hty k c Hk. split; [by apply (ty_creds _ Hty k)|].
  by apply (ok_creds_int _ Hok k).
Qed.

Lemma flows_read db :
  db_ok db → rows_typed db → every flow_read (password_reset_flows db).
Proof.
  intros Hok Hty k f Hk. split; [by apply (ty_flows _ Hty k)|].
  by apply (ok_flows_int _ Hok k).
Qed.

Lemma exec_answers {X} (q : stmt X) now db x :
  db_ok db → rows_typed db → (exec q now db).1 = Ok x → ans_ty q x.
Proof.
  intros Hok Hty. destruct q; cbn [exec fst ans_ty]; try done; intros Hx.
  - eapply select_one_every; [apply Hty|exact Hx].
  - eapply lookup_every; [apply Hty|exact Hx].
  - eapply select_one_every; [apply Hty|exact Hx].
  - eapply lookup_every; [by apply creds_read|exact Hx].
  - eapply select_one_every; [by apply creds_read|exact Hx].
  - eapply select_one_every; [apply Hty|exact Hx].
  - eapply select_one_every; [by apply flows_read|exact Hx].
  - eapply select_one_every; [by apply flows_read|exact Hx].
Qed.
End row_types.
