(* ===== verification/Typing.v ===== *)
(** * Every use case keeps the rows typed

    The typing judgement of RowTypes for the programs of the service: one
    rule per construct, one lemma per use case, and the two properties of
    every reachable database they give. *)
From S2P Require Import Prelude Tables GoBase Domain Schema Effects Logic.
From S2P Require Import RelyGuarantee GoStrings Platform Postgres Service.
From S2P Require Import Footprint Integrity DeletionWorker Demo Requests RowTypes.
#[local] Open Scope go_scope.

Create HintDb typed discriminated.

Section typing.
Context `{PT : PgTime, EV : Env, SS : SessionStore, L : Lib, U : Unicode}.
Variable s : AuthService.
#[local] Abbreviation sec := (svc_security s).

Definition world_typed (w : World) : Prop :=
  db_ok (w_db w) ∧ rows_typed s (w_db w).

(** ** The judgement *)

Definition anyone (w w' : World) : Prop := True.

#[local] Abbreviation typed := (returns world_typed anyone).

(** ** Effects *)

Lemma handle_query_typed {X} (q : stmt X) w :
  stmt_ty s q → world_typed w →
  rows_typed s (w_db (handle (Query q) w).2) ∧
  okT (ans_ty s q) (handle (Query q) w).1.
Proof.
  intros Hq [Hok Hty]. simpl. unfold handle_query.
  pose proof (exec_typed s q (db_clock (n_io (w_counters w))) _ Hq Hty) as Hx.
  pose proof (exec_answers s q (db_clock (n_io (w_counters w))) (w_db w))
    as Ha.
  destruct (exec _ _ _) as [r db']. unfold faulty.
  destruct (fault _) as [f|]; simpl.
  - split; [|done]. by destruct (fault_applied f).
  - split; [done|]. destruct r as [x|e]; [|done]. by apply Ha.
Qed.

Definition eff_ty {X} (e : eff X) : Prop :=
  eff_stmts (λ X q, stmt_ty s q) e.

Lemma handle_typed {X} (e : eff X) w :
  eff_ty e → world_typed w → rows_typed s (w_db (handle e w).2).
Proof.
  intros He [_ Hw]. apply (handle_stmts (λ X q, stmt_ty s q)); [|done..].
  intros Y q db. apply exec_typed.
Qed.

Lemma typed_query {X} (q : stmt X) :
  stmt_ty s q → typed (perform (Query q)) (okT (ans_ty s q)).
Proof.
  intros Hq. apply returns_perform. intros w Hw.
  destruct (handle_query_typed q w Hq Hw) as [H1 H2].
  split_and!; [split; [apply handle_ok, Hw|done]|done..].
Qed.

Lemma typed_rand n :
  typed (perform (RandRead n)) (okT (λ b, ∃ i, rand_read i n = Ok b)).
Proof.
  apply returns_perform. intros w Hw. split_and!; [apply Hw|done|]. simpl.
  destruct (rand_read _ _) eqn:E; simpl; eauto.
Qed.

(** An effect that writes typed rows only. *)
Lemma keeps_typed {X} (e : eff X) : eff_ty e → keeps_always world_typed anyone e.
Proof.
  intros He w Hw. split; [|done]. split; [apply handle_ok, Hw|].
  by apply handle_typed.
Qed.

Lemma typed_effects {A} (p : prog A) :
  all_effects (@eff_ty) p → typed p anything.
Proof.
  intros Hp. apply returns_effects. eapply all_effects_mono; [|done].
  intros X e. apply keeps_typed.
Qed.

Lemma typed_any {A} (p : go A) :
  all_effects (@eff_ty) p → typed p (okT anything).
Proof.
  intros Hp. apply returns_any. eapply all_effects_mono; [|done].
  intros X e. apply keeps_typed.
Qed.

(** ** Repositories *)

Lemma typed_scan_one {A} nf msg (q : stmt A) :
  stmt_ty s q → typed (scan_one nf msg q) (okT (ans_ty s q)).
Proof.
  intros Hq. eapply returns_bind; [by apply typed_query|].
  intros [a|e] H; [by apply returns_ret|].
  destruct (errors_Is _ _); by apply returns_ret.
Qed.

Lemma typed_exec_any {A} msg (q : stmt A) :
  stmt_ty s q → typed (exec_any msg q) (okT anything).
Proof. intros Hq. apply typed_any. unfold exec_any. by walk. Qed.

Lemma typed_exec_affecting nf msg (q : stmt nat) :
  stmt_ty s q → typed (exec_affecting nf msg q) (okT anything).
Proof. intros Hq. apply typed_any. unfold exec_affecting. by walk. Qed.

Lemma typed_create_user u :
  user_ty s u → typed (UserRepository.Create u) (okT anything).
Proof. intros Hu. apply typed_any. unfold UserRepository.Create. by walk. Qed.

(** ** Sources of typed values *)

Lemma typed_Generate :
  typed tokenhash_Generate (okT (λ raw, is_digest (tokenhash_Hash raw))).
Proof.
  eapply returns_bindE; [apply returns_wrapE, typed_rand|].
  intros b [i Hb]. apply returns_ret. by exists i, b.
Qed.

Lemma typed_Hash p : typed (Hash (svc_hasher s) p) (okT (is_bcrypt s)).
Proof.
  eapply returns_bind; [by apply typed_effects; walk|]. intros salt _.
  apply returns_ret. destruct (bcrypt_GenerateFromPassword _ _ _) eqn:E; [|done].
  by exists salt, p.
Qed.

Lemma typed_GenerateSecret email :
  typed (GenerateSecret (TOTPIssuer sec) email)
    (okT (λ key, ∃ r, otp_Generate r (TOTPIssuer sec) email = Ok key)).
Proof.
  eapply returns_bind; [by apply typed_effects; walk|]. intros r _.
  destruct (otp_Generate _ _ _) eqn:E; apply returns_ret; [|done].
  by exists r.
Qed.

Lemma typed_Encrypt email key :
  (∃ r, otp_Generate r (TOTPIssuer sec) email = Ok key) →
  typed (Encrypt (svc_cipher s) key.1) (okT (is_sealed s)).
Proof.
  intros [r Hr]. eapply returns_bindE; [apply returns_wrapE, typed_rand|].
  intros nonce [i Hn]. apply returns_ret. by exists i, nonce, r, email, key.
Qed.

(** ** The entities' methods *)

Lemma totp_New_ty u enc h ttl now :
  is_sealed s enc → is_digest h → cred_ty s (Totp.New u enc h ttl now).
Proof.
  intros He Hh. split; [by eapply CredPending|done|]. simpl. lia.
Qed.

Lemma BeginSetup_ty c enc h ttl now :
  is_sealed s enc → is_digest h → cred_ty s (Totp.BeginSetup c enc h ttl now).
Proof.
  intros He Hh. split; [by eapply CredPending|done|]. simpl. lia.
Qed.

Lemma Enable_ty c now : cred_ty s c → cred_ty s (Totp.Enable c now).
Proof. intros [Hs He Ha]. split; [by eapply CredEnabled|done..]. Qed.

Lemma cred_state_same c c' :
  cred_state c → Totp.EnabledAt c' = Totp.EnabledAt c →
  Totp.SetupTokenHash c' = Totp.SetupTokenHash c →
  Totp.SetupTokenExpiresAt c' = Totp.SetupTokenExpiresAt c → cred_state c'.
Proof.
  intros [h e H1 H2 H3 Hh|a H1 H2 H3] E1 E2 E3;
    [eapply CredPending|eapply CredEnabled]; by rewrite ?E1, ?E2, ?E3.
Qed.

Lemma int4_succ z : Int.int4_ok z = true → Int.in_int64 (z + 1).
Proof. intros Hz%bool_decide_eq_true. unfold Int.in_int64. lia. Qed.

(** The counter as read fits 32 bits, so counting one more cannot wrap. *)
Lemma RecordFailure_ty c now1 now2 :
  cred_read s c →
  cred_ty s (Totp.RecordFailure c (OTPMaxAttempts sec)
               (OTPLockoutDuration sec) now1 now2).
Proof.
  intros [[Hs He Ha] Hi]. split; [by eapply cred_state_same|done|].
  unfold Totp.RecordFailure. cbn [Totp.FailedAttempts].
  rewrite Int.wrap64_id by by apply int4_succ.
  case_bool_decide; lia.
Qed.

Lemma MarkCodeUsed_ty c n now :
  cred_ty s c → cred_ty s (Totp.MarkCodeUsed c n now).
Proof. intros [Hs He Ha]. by split; [eapply cred_state_same|..]. Qed.

Lemma RecordSuccess_ty c n now :
  cred_ty s c → cred_ty s (Totp.RecordSuccess c n now).
Proof.
  intros [Hs He Ha]. split; [by eapply cred_state_same|done|]. simpl. lia.
Qed.

Lemma flow_New_ty u h ttl now id :
  is_digest h → flow_ty s (PasswordReset.New u h ttl now id).
Proof. intros Hh. split; [by apply FlowOpen|done|]. simpl. lia. Qed.

Lemma RecordOTPFailure_ty f f' locked :
  PasswordReset.RecordOTPFailure f (ResetFlowMaxOTPAttempts sec) =
    (f', locked) →
  flow_read s f →
  PasswordReset.IsOTPLocked f (ResetFlowMaxOTPAttempts sec) = false →
  flow_ty s f'.
Proof.
  intros [= <- _] [[Hs Hh Ha] Hi] Hl. apply bool_decide_eq_false in Hl.
  split; [|done|].
  - destruct Hs; [by apply FlowOpen|by eapply FlowVerified].
  - simpl. rewrite Int.wrap64_id by by apply int4_succ.
    lia.
Qed.

Lemma IssueResetToken_ty f h ttl now1 now2 :
  flow_ty s f → is_digest h →
  flow_ty s (PasswordReset.IssueResetToken
               (PasswordReset.MarkOTPVerified f now1) h ttl now2).
Proof. intros [Hs Hf Ha] Hh. split; [by eapply FlowVerified|done..]. Qed.

Lemma Consume_ty f now :
  flow_ty s f → PasswordReset.IsOTPVerified f = true →
  flow_ty s (PasswordReset.Consume f now).
Proof.
  intros [Hs Hf Ha] Hv. split; [|done..].
  destruct Hs as [Hn ? ? ?|]; [|by eapply FlowVerified].
  apply bool_decide_eq_true in Hv. rewrite Hn in Hv. by destruct Hv.
Qed.

(** ** The use cases *)

#[local] Hint Resolve typed_Generate typed_Hash typed_GenerateSecret
  typed_Encrypt typed_scan_one typed_exec_any typed_exec_affecting
  typed_create_user totp_New_ty BeginSetup_ty Enable_ty MarkCodeUsed_ty
  RecordFailure_ty RecordSuccess_ty flow_New_ty RecordOTPFailure_ty
  IssueResetToken_ty Consume_ty : typed.
#[local] Hint Extern 1 (stmt_ty _ _) => (exact I) : typed.
#[local] Hint Extern 5 (stmt_ty _ _) => progress (cbn [stmt_ty]) : typed.
#[local] Hint Extern 1 (anything _) => (exact I) : typed.

(** Effects that read, call out or leave the typed columns alone. *)
Ltac writes_nothing :=
  unfold cleanupSessionDevices, Issue, IssueWithGeneration, VerifyOwnership,
    DeleteByIDs, DeleteAllMine, DeleteAllByUser, delete_call;
  walk; done.

Ltac typed_leaf :=
  idtac;
  match goal with
  | |- returns _ _ (returnOk _) (okT _) =>
      solve [apply returns_ret; cbn [okT]; eauto 4 with typed]
  | |- _ => solve [eauto 3 with typed]
  | |- _ => solve [apply typed_scan_one; exact I]
  | |- _ => solve [apply typed_exec_any; eauto 4 with typed]
  | |- _ => solve [apply typed_exec_affecting; eauto 4 with typed]
  | |- returns _ _ _ (okT _) => solve [apply typed_any; writes_nothing]
  | |- _ => solve [apply typed_effects; writes_nothing]
  end.
Ltac texec := repeat returns_step typed_leaf.

Lemma user_New_ty raw h now id :
  is_bcrypt s h → user_ty s (User.New (normalizeEmail raw) h now id).
Proof. intros Hh. split; [done|by exists raw]. Qed.
Lemma cred_read_ty c : cred_read s c → cred_ty s c.
Proof. by intros [H _]. Qed.
Lemma flow_read_ty f : flow_read s f → flow_ty s f.
Proof. by intros [H _]. Qed.
#[local] Hint Resolve user_New_ty cred_read_ty flow_read_ty : typed.

Lemma issueSession_typed u : typed (issueSession s u) (okT anything).
Proof. unfold issueSession. texec. Qed.

Lemma issueLoginChallenge_typed u :
  typed (issueLoginChallenge s u) (okT anything).
Proof. unfold issueLoginChallenge. texec. Qed.

Lemma beginTOTPSetup_typed u : typed (beginTOTPSetup s u) (okT anything).
Proof. unfold beginTOTPSetup. texec. Qed.
#[local] Hint Resolve issueSession_typed issueLoginChallenge_typed
  beginTOTPSetup_typed : typed.

Lemma Register_typed inp : typed (Register s inp) (okT anything).
Proof. unfold Register. texec. Qed.

Lemma Login_typed inp : typed (Login s inp) (okT anything).
Proof. unfold Login. texec. Qed.

Lemma Refresh_typed t : typed (Refresh s t) (okT anything).
Proof. unfold Refresh. texec. Qed.

Lemma validateOTP_typed email c code : typed (validateOTP s email c code) (okT anything).
Proof. unfold validateOTP. texec. Qed.
#[local] Hint Resolve validateOTP_typed : typed.

Lemma verifyOTP_typed email c code :
  cred_read s c → typed (verifyOTP s email c code) (okT (cred_ty s)).
Proof. intros Hc. unfold verifyOTP. texec. Qed.
#[local] Hint Resolve verifyOTP_typed : typed.

Lemma SetupVerifyOTP_typed t c : typed (SetupVerifyOTP s t c) (okT anything).
Proof. unfold SetupVerifyOTP. texec. Qed.

Lemma LoginVerifyOTP_typed t c : typed (LoginVerifyOTP s t c) (okT anything).
Proof. unfold LoginVerifyOTP. texec. Qed.

Lemma ChangePassword_typed u inp : typed (ChangePassword s u inp) (okT anything).
Proof. unfold ChangePassword, end_sessions. texec. Qed.

Lemma RequestDeletion_typed u :
  typed (DeletionStore.RequestDeletion u) (okT anything).
Proof.
  apply typed_any. unfold DeletionStore.RequestDeletion. walk; try done.
  by apply request_tx_all.
Qed.
#[local] Hint Resolve RequestDeletion_typed : typed.

Lemma DeleteAccount_typed u a o : typed (DeleteAccount s u a o) (okT anything).
Proof. unfold DeleteAccount. texec. Qed.

Lemma RequestPasswordReset_typed e : typed (RequestPasswordReset s e) (okT anything).
Proof. unfold RequestPasswordReset. texec. Qed.

Lemma reset_code_valid_typed f code :
  typed (reset_code_valid s f code) (okT anything).
Proof. unfold reset_code_valid. texec. Qed.
#[local] Hint Resolve reset_code_valid_typed : typed.

Lemma VerifyPasswordResetOTP_typed t c : typed (VerifyPasswordResetOTP s t c) (okT anything).
Proof. unfold VerifyPasswordResetOTP. texec. Qed.

Lemma ConfirmPasswordReset_typed t c : typed (ConfirmPasswordReset s t c) (okT anything).
Proof.
  unfold ConfirmPasswordReset, end_sessions. texec.
  apply typed_exec_affecting, Consume_ty; [by destruct H|]. by guards.
Qed.

#[local] Hint Resolve Register_typed Login_typed Refresh_typed
  SetupVerifyOTP_typed LoginVerifyOTP_typed ChangePassword_typed
  DeleteAccount_typed RequestPasswordReset_typed
  VerifyPasswordResetOTP_typed ConfirmPasswordReset_typed : typed.

Lemma forget_typed {A} (p : prog A) Q : typed p Q → typed (forget p) anything.
Proof. intros Hp. eapply returns_bind; [exact Hp|]. intros a _. by apply returns_ret. Qed.

Lemma RunOnce_typed cl : typed (RunOnce cl) anything.
Proof.
  apply typed_effects. unfold RunOnce, DeletionJobStore.ClaimDeletion.
  walk; try done.
  - by apply claim_tx_all.
  - apply run_steps_all; try done. unfold finish_job.
    autounfold with effects. walk; done.
Qed.

Lemma serve_typed r : typed (serve s r) anything.
Proof.
  destruct r; unfold serve; try (eapply forget_typed; solve [eauto 2 with typed]).
  - eapply forget_typed, typed_any. unfold Logout, cleanupSessionDevices.
    autounfold with effects. walk; done.
  - eapply forget_typed, typed_any. unfold UpdateProfile.
    autounfold with effects. writes_nothing.
  - apply typed_effects.
    unfold session_cleanup, DeleteSessionData, internal_delete. walk; done.
  - eapply forget_typed, RunOnce_typed.
Qed.

Lemma pool_typed (rs : list UseCase) w ps' w' :
  world_typed w → rtc pool_step (serve s <$> rs, w) (ps', w') →
  world_typed w'.
Proof.
  intros Hw Hr.
  destruct (returns_pool world_typed anyone (serve s) rs w ps' w') as [H _];
    [|done..].
  apply Forall_true. intros r. apply serve_typed.
Qed.

(** C18. Under any interleaving of requests and ticks and any faults, the
    schema's invariant holds (keys, unique columns, foreign keys, CHECKs,
    integer ranges) and every stored row has its type: password columns hold
    bcrypt hashes, addresses are normalised, tokens are stored only as digests
    of random tokens, a TOTP secret only sealed; a credential is being set up
    or enabled, with the columns of that state, and a reset flow open or
    verified. *)
Theorem stored_rows_typed (rs : list UseCase) w ps' w' :
  world_typed w → rtc pool_step (serve s <$> rs, w) (ps', w') →
  db_ok (w_db w') ∧
  every (user_ty s) (users (w_db w')) ∧
  every (λ t, is_digest (Token.TokenHash t)) (refresh_tokens (w_db w')) ∧
  every (λ c, is_digest (LoginChallenge.TokenHash c))
    (login_challenges (w_db w')) ∧
  every (λ c, cred_state c ∧ is_sealed s (Totp.SecretEncrypted c))
    (two_factor_credentials (w_db w')) ∧
  every (λ f, flow_state f ∧ is_digest (PasswordReset.FlowTokenHash f))
    (password_reset_flows (w_db w')).
Proof.
  intros Hw Hr. destruct (pool_typed _ _ _ _ Hw Hr) as [Hok Hty].
  split; [exact Hok|]. split_and!; [apply Hty..| |].
  - intros k c Hc. by destruct (ty_creds _ _ Hty _ _ Hc).
  - intros k f Hf. by destruct (ty_flows _ _ Hty _ _ Hf).
Qed.

(** C27. Whatever requests race and whatever fails, a stored failure count
    fits its INT column and stays below OTPMaxAttempts (the failure that
    reaches it locks and resets), and the attempts of a reset flow never
    exceed their cap. *)
Theorem attempts_bounded (rs : list UseCase) w ps' w' :
  world_typed w → rtc pool_step (serve s <$> rs, w) (ps', w') →
  every (λ c, 0 ≤ Totp.FailedAttempts c < 2 ^ 31 ∧
              (0 < OTPMaxAttempts sec →
               Totp.FailedAttempts c < OTPMaxAttempts sec))%Z
    (two_factor_credentials (w_db w')) ∧
  every (λ f, 0 ≤ PasswordReset.OTPAttempts f < 2 ^ 31 ∧
              (0 ≤ ResetFlowMaxOTPAttempts sec →
               PasswordReset.OTPAttempts f ≤ ResetFlowMaxOTPAttempts sec))%Z
    (password_reset_flows (w_db w')).
Proof.
  intros Hw Hr. destruct (pool_typed _ _ _ _ Hw Hr) as [Hok Hty]. split.
  - intros k c Hc. destruct (ty_creds _ _ Hty _ _ Hc) as [_ _ Ha].
    pose proof (ok_creds_int _ Hok _ _ Hc) as Hi.
    apply bool_decide_eq_true in Hi. lia.
  - intros k f Hf. destruct (ty_flows _ _ Hty _ _ Hf) as [_ _ Ha].
    pose proof (ok_flows_int _ Hok _ _ Hf) as Hi.
    apply bool_decide_eq_true in Hi. lia.
Qed.
End typing.

(** From the empty database: a registration and its second factor's setup
    take turns with a reset request. *)
Definition demo_first_requests : list UseCase :=
  [UCRegister (mkRegisterInput "Bee@Example.com " "correct horse");
   UCLogin (mkLoginInput "BEE@example.com" "correct horse");
   UCRequestPasswordReset "bee@example.com"].
Definition demo_first_pool : list (prog unit) * World :=
  sched_run (replicate 12 0 ++ concat (replicate 14 [1; 2]))
    (serve demo_service <$> demo_first_requests) demo_start.

Lemma demo_start_typed : world_typed demo_service demo_start.
Proof. split; [apply db_ok_empty|apply rows_typed_empty]. Qed.

Lemma demo_first_pool_reached :
  rtc pool_step (serve demo_service <$> demo_first_requests, demo_start)
    (demo_first_pool.1, demo_first_pool.2).
Proof. rewrite <-surjective_pairing. apply sched_run_reachable. Qed.

Lemma stored_rows_typed_witness :
  every (user_ty demo_service) (users (w_db demo_first_pool.2)) ∧
  length (map_to_list (users (w_db demo_first_pool.2))) = 1.
Proof.
  split; [|vm_compute; reflexivity].
  destruct (stored_rows_typed demo_service demo_first_requests demo_start
    _ _ demo_start_typed demo_first_pool_reached) as (_ & H & _). exact H.
Defined.

Lemma attempts_bounded_witness :
  length (map_to_list (two_factor_credentials (w_db demo_first_pool.2))) = 1 ∧
  length (map_to_list (password_reset_flows (w_db demo_first_pool.2))) = 1 ∧
  every (λ c, Totp.FailedAttempts c < 5)%Z
    (two_factor_credentials (w_db demo_first_pool.2)).
Proof.
  split; [vm_compute; reflexivity|]. split; [vm_compute; reflexivity|].
  destruct (attempts_bounded demo_service demo_first_requests demo_start
    _ _ demo_start_typed demo_first_pool_reached) as [H _].
  intros k c Hc. destruct (H k c Hc) as [_ Hlt]. apply Hlt. reflexivity.
Defined.
