(* ===== verification/Isolation.v ===== *)
(** * What others cannot change of an account

    The part of the database that belongs to one account, since a world [w0]:
    its row, its second factor, its refresh tokens and login challenges, and
    the reset tokens of the flows bound to it. [stmt_kept] says which
    statements leave it alone, [ans_kept] what is known of the rows they
    return. All are relative to [γ], a record of the identifiers that were
    generated since [w0] for a reset flow, with the account each flow is bound
    to: it tells whose flow a program has in hand when it writes it back. *)
From S2P Require Import Prelude Tables GoBase Domain Schema Effects Logic.
From S2P Require Import RelyGuarantee GoStrings Platform Postgres Service.
From S2P Require Import Footprint Integrity DeletionWorker Demo Requests Worker.
#[local] Open Scope go_scope.

(** ** Rows of one owner *)

(** The rows of [m] whose owner is [o] are those of [m']. *)
Definition same_owned {V O} (owner : V → O) (o : O) (m m' : gmap uuid V) :
    Prop :=
  ∀ k v, owner v = o → m !! k = Some v ↔ m' !! k = Some v.

#[export] Instance same_owned_refl {V O} (f : V → O) o :
  Reflexive (same_owned f o).
Proof. intros m k v _. reflexivity. Qed.
#[export] Instance same_owned_trans {V O} (f : V → O) o :
  Transitive (same_owned f o).
Proof.
  intros m1 m2 m3 H1 H2 k v Hv. rewrite (H1 k v Hv). by apply H2.
Qed.

(** Changes of rows of other owners. *)
Lemma same_owned_filter {V O} `{EqDecision O} (owner : V → O) o o' m :
  o' ≠ o → same_owned owner o m (filter (λ kv, owner kv.2 ≠ o') m).
Proof.
  intros Ho k v Hv. rewrite map_lookup_filter_Some. simpl.
  split; [|by intros []]. intros Hk. split; [done|congruence].
Qed.

Lemma same_owned_update {V O} (owner : V → O) o (P : V → bool) f m :
  (∀ v, owner (f v) = owner v) → (∀ v, owner v = o → P v = false) →
  same_owned owner o m (update_where P f m).
Proof.
  intros Hf HP k v Hv. unfold update_where. rewrite lookup_fmap_Some. split.
  - intros Hk. exists v. by rewrite HP.
  - intros (v0 & E & Hk). destruct (P v0) eqn:EP; [|congruence].
    subst v. rewrite Hf in Hv. rewrite HP in EP by done. done.
Qed.

Lemma same_owned_insert {V O} (owner : V → O) o m k v :
  owner v ≠ o → (∀ old, m !! k = Some old → owner old ≠ o) →
  same_owned owner o m (<[k := v]> m).
Proof.
  intros Hv Hold k' v' Ho. destruct (decide (k = k')) as [<-|Hne].
  - rewrite lookup_insert_eq. split; [|congruence]. by intros Hk%Hold.
  - by rewrite lookup_insert_ne.
Qed.

(** A row read from the later map. *)
Lemma same_owned_read {V O} `{EqDecision O} (owner : V → O) o m m' k v :
  same_owned owner o m m' → m' !! k = Some v →
  (owner v = o → m !! k = Some v) ∧
  (owner v ≠ o → ∀ v0, m !! k = Some v0 → owner v0 ≠ o).
Proof.
  intros Hs Hk. split; [intros Ho; by apply Hs|].
  intros Ho v0 Hk0 Ho0. apply Hs in Hk0; [|done]. congruence.
Qed.

Section account.
Context `{PT : PgTime, EV : Env, SS : SessionStore, L : Lib, U : Unicode}.
Variable u : uuid.
Variable w0 : World.
Variable γ : gmap uuid (option uuid).
#[local] Abbreviation db0 := (w_db w0).

(** ** Since [w0] *)

(** The digest of a random token drawn since [w0]. *)
Definition issued_since (h : string) : Prop :=
  ∃ i b, n_rand (w_counters w0) ≤ i ∧ rand_read i rawTokenBytes = Ok b ∧
         h = tokenhash_Hash (base64_encode b).

(** A flow stored under [k]: of [w0], then with the reset token it had if it
    is bound to the account; or new, then bound as recorded, and with no reset
    token if it is bound to the account. *)
Definition flow_since (k : uuid) (f : PasswordReset.PasswordResetFlow) : Prop :=
  match password_reset_flows db0 !! k with
  | Some f0 =>
      PasswordReset.UserID f = PasswordReset.UserID f0 ∧
      PasswordReset.FlowTokenHash f = PasswordReset.FlowTokenHash f0 ∧
      (PasswordReset.UserID f0 = Some u →
       PasswordReset.ResetTokenHash f = PasswordReset.ResetTokenHash f0)
  | None =>
      γ !! k = Some (PasswordReset.UserID f) ∧
      issued_since (PasswordReset.FlowTokenHash f) ∧
      (PasswordReset.UserID f = Some u → PasswordReset.ResetTokenHash f = None)
  end.

Record kept_db (db : Database) : Prop := {
  kp_user : users db !! u = users db0 !! u;
  kp_cred : two_factor_credentials db !! u = two_factor_credentials db0 !! u;
  kp_tokens : same_owned Token.UserID u (refresh_tokens db0) (refresh_tokens db);
  kp_challenges : same_owned LoginChallenge.UserID u (login_challenges db0)
                    (login_challenges db);
  kp_flows : ∀ k f, password_reset_flows db !! k = Some f → flow_since k f;
  kp_jobs : every (λ j, job_user_id j ≠ u) (account_deletion_jobs db)
}.

(** ** Statements *)

(** [k] is not a row of the account. *)
Definition foreign_token (k : uuid) : Prop :=
  ∀ t0, refresh_tokens db0 !! k = Some t0 → Token.UserID t0 ≠ u.
Definition foreign_challenge (k : uuid) : Prop :=
  ∀ c0, login_challenges db0 !! k = Some c0 → LoginChallenge.UserID c0 ≠ u.

Definition stmt_kept {X} (q : stmt X) : Prop :=
  match q with
  | InsertUser usr => User.ID usr ≠ u
  | UpdateUserProfile usr => User.ID usr ≠ u
  | UpdateUserPassword v _ | DeleteUser v | MarkUserDeletionPending v
  | RevokeRefreshTokensOf v | UpsertDeletionJob _ v => v ≠ u
  | InsertRefreshToken t => Token.UserID t ≠ u
  | RevokeRefreshToken k => foreign_token k
  | InsertCredential c => Totp.UserID c ≠ u
  | UpdateCredential c => Totp.UserID c ≠ u
  | InsertChallenge c => LoginChallenge.UserID c ≠ u
  | ConsumeChallenge k => foreign_challenge k
  | InsertFlow f =>
      password_reset_flows db0 !! PasswordReset.ID f = None ∧
      γ !! PasswordReset.ID f = Some (PasswordReset.UserID f) ∧
      PasswordReset.ResetTokenHash f = None ∧
      issued_since (PasswordReset.FlowTokenHash f)
  | UpdateFlow f =>
      match password_reset_flows db0 !! PasswordReset.ID f with
      | Some f0 =>
          PasswordReset.UserID f0 = Some u →
          PasswordReset.ResetTokenHash f = PasswordReset.ResetTokenHash f0
      | None =>
          ∃ owner, γ !! PasswordReset.ID f = Some owner ∧
            (owner = Some u → PasswordReset.ResetTokenHash f = None)
      end
  | _ => True
  end.

Lemma users_delete_kept v db :
  db_ok db → v ≠ u → kept_db db → kept_db (users_delete v db).2.
Proof.
  intros Hok Hv []. unfold users_delete. destruct (users db !! v); [|done].
  split; simpl.
  - by rewrite lookup_delete_ne.
  - rewrite <-kp_cred0. apply option_eq. intros c.
    rewrite map_lookup_filter_Some. simpl.
    split; [by intros [? _]|]. intros Hc. split; [done|].
    pose proof (ok_creds_key _ Hok _ _ Hc) as Hkey. simpl in Hkey. congruence.
  - etrans; [done|]. by apply same_owned_filter.
  - etrans; [done|]. by apply same_owned_filter.
  - intros k f [Hf _]%map_lookup_filter_Some. by apply kp_flows0.
  - done.
Qed.

Lemma users_update_kept v f db :
  v ≠ u → kept_db db → kept_db (users_update v f db).2.
Proof.
  intros Hv []. unfold users_update, update_row.
  destruct (users db !! v); split; try done; simpl.
  by rewrite lookup_insert_ne.
Qed.

Lemma jobs_update_kept k f db :
  (∀ j, job_user_id (f j) = job_user_id j) → kept_db db →
  kept_db (set_jobs (λ _, (update_row k f (account_deletion_jobs db)).2) db).
Proof.
  intros Hf []. unfold update_row.
  destruct (account_deletion_jobs db !! k) as [j|] eqn:Hj; split; try done.
  apply every_insert; [done|]. rewrite Hf. exact (kp_jobs0 _ _ Hj).
Qed.

Lemma jobs_claim_kept now db :
  db_ok db → kept_db db → kept_db (jobs_claim now db).2.
Proof.
  intros Hok Hk. unfold jobs_claim.
  destruct (earliest _) as [j|] eqn:He; [|done].
  destruct (Int.int4_ok _); [|done].
  apply claim_candidate in He as (k & Hj & _). destruct Hk. split; try done. simpl.
  apply every_insert; [done|]. exact (kp_jobs0 _ _ Hj).
Qed.

(** No row is stored under the key of an inserted row. *)
Ltac absent_key :=
  intros ? ?; match goal with H : ¬ is_Some _ |- _ => destruct H end; eexists.

Lemma tokens_insert_kept t db :
  Token.UserID t ≠ u → kept_db db → kept_db (tokens_insert t db).2.
Proof.
  intros Hq []. unfold tokens_insert. case_match; [done|]. case_match; [|done].
  guards. split; try done. simpl. etrans; [done|].
  apply same_owned_insert; [done|]. by absent_key.
Qed.

Lemma tokens_revoke_kept k now db :
  foreign_token k → kept_db db → kept_db (tokens_revoke k now db).2.
Proof.
  intros Hq []. unfold tokens_revoke.
  destruct (refresh_tokens db !! k) as [t|] eqn:Ht; [|done].
  case_match; [done|]. split; try done. simpl. etrans; [done|].
  assert (Hf : Token.UserID t ≠ u).
  { intros E. apply kp_tokens0 in Ht as Ht0; [|done]. by apply (Hq _ Ht0). }
  apply same_owned_insert; [done|]. intros old Hold. congruence.
Qed.

Lemma challenges_insert_kept c db :
  LoginChallenge.UserID c ≠ u → kept_db db → kept_db (challenges_insert c db).2.
Proof.
  intros Hq []. unfold challenges_insert. case_match; [done|].
  case_match; [|done]. guards. split; try done. simpl. etrans; [done|].
  apply same_owned_insert; [done|]. by absent_key.
Qed.

Lemma challenges_consume_kept k now db :
  foreign_challenge k → kept_db db → kept_db (challenges_consume k now db).2.
Proof.
  intros Hq []. unfold challenges_consume.
  destruct (login_challenges db !! k) as [c|] eqn:Hc; [|done].
  case_match eqn:Hcons; [done|]. split; try done. simpl. etrans; [done|].
  assert (Hf : LoginChallenge.UserID c ≠ u).
  { intros E. apply kp_challenges0 in Hc as Hc0; [|done].
    by apply (Hq _ Hc0). }
  apply same_owned_insert; [unfold consume_live; by rewrite Hcons|].
  intros old Hold. congruence.
Qed.

(** Writing one flow. *)
Lemma flows_write_kept k f db :
  flow_since k f → kept_db db → kept_db (set_flows <[k := f]> db).
Proof.
  intros Hf []. split; try done. simpl. intros k' f' Hf'.
  destruct (decide (k = k')) as [<-|Hne].
  - rewrite lookup_insert_eq in Hf'. by injection Hf' as <-.
  - rewrite lookup_insert_ne in Hf' by done. by apply kp_flows0.
Qed.

Lemma flows_insert_kept f db :
  stmt_kept (InsertFlow f) → kept_db db → kept_db (flows_insert f db).2.
Proof.
  intros (Hq1 & Hq2 & Hq3 & Hq4) Hk. unfold flows_insert.
  repeat case_match; try done. apply flows_write_kept; [|done].
  unfold flow_since. by rewrite Hq1.
Qed.

Lemma flows_update_kept f db :
  stmt_kept (UpdateFlow f) → kept_db db → kept_db (flows_update f db).2.
Proof.
  intros Hq Hk. unfold flows_update. case_match; [done|].
  destruct (password_reset_flows db !! _) as [old|] eqn:Hold; [|done].
  case_match; [done|]. apply flows_write_kept; [|done].
  apply (kp_flows _ Hk) in Hold. unfold flow_since in *. revert Hold Hq.
  cbn [stmt_kept].
  destruct (password_reset_flows db0 !! _) as [f0|].
  - intros (E1 & E2 & _) Hq. by split_and!.
  - intros (E1 & E2 & _) (o & Ho & Hn).
    split_and!; [done..|]. simpl. intros E. apply Hn. congruence.
Qed.

Lemma jobs_upsert_kept job v now db :
  v ≠ u → kept_db db → kept_db (jobs_upsert job v now db).2.
Proof.
  intros Hv []. unfold jobs_upsert. destruct (select_one _ _) as [j|] eqn:Hj.
  - apply select_one_Some in Hj as [Hj _]. guards.
    split; try done. simpl. apply every_insert; [done|]. simpl. congruence.
  - case_match; [done|]. split; try done. simpl. by apply every_insert.
Qed.

#[local] Hint Resolve users_update_kept users_delete_kept jobs_claim_kept
  tokens_insert_kept tokens_revoke_kept challenges_insert_kept
  challenges_consume_kept flows_insert_kept flows_update_kept
  jobs_upsert_kept : beebase.

Lemma exec_kept {X} (q : stmt X) now db :
  db_ok db → stmt_kept q → kept_db db → kept_db (exec q now db).2.
Proof.
  intros Hok Hq Hk. destruct q; cbn [exec snd]; try done;
    cbn [stmt_kept] in Hq; auto with beebase.
  - unfold users_insert. case_match; [done|]. destruct Hk. split; try done.
    simpl. by rewrite lookup_insert_ne.
  - unfold users_mark_pending. destruct (users db !! id); [|done].
    case_match; [|done]. destruct Hk. split; try done. simpl.
    by rewrite lookup_insert_ne.
  - destruct Hk. split; try done. simpl. etrans; [done|].
    apply same_owned_update; [done|]. intros t Ht. unfold live_token_of.
    rewrite bool_decide_false; [done|congruence].
  - unfold credentials_insert. repeat case_match; try done. destruct Hk.
    split; try done. simpl. by rewrite lookup_insert_ne.
  - unfold credentials_update. repeat case_match; try done. destruct Hk.
    split; try done. simpl. by rewrite lookup_insert_ne.
  - unfold steps_insert. repeat case_match; try done; by destruct Hk.
  - unfold steps_update. destruct (update_row _ _ _). by destruct Hk.
  - case_match; [|done]. unfold steps_update. destruct (update_row _ _ _).
    by destruct Hk.
  - pose proof (jobs_update_kept job (release_job now) db) as Hc.
    unfold jobs_update. destruct (update_row _ _ _). by apply Hc.
  - pose proof (jobs_update_kept job (complete_job now) db) as Hc.
    unfold jobs_update. destruct (update_row _ _ _). by apply Hc.
Qed.

(** A flow that was read is written back, its reset token as it was if it is
    the account's. *)
Lemma update_flow_kept f f' :
  flow_since (PasswordReset.ID f) f →
  PasswordReset.ID f' = PasswordReset.ID f →
  (PasswordReset.UserID f = Some u →
   PasswordReset.ResetTokenHash f' = PasswordReset.ResetTokenHash f) →
  stmt_kept (UpdateFlow f').
Proof.
  unfold flow_since. intros Hf Hid Hr. cbn [stmt_kept]. rewrite Hid.
  revert Hf. destruct (password_reset_flows db0 !! _) as [f0|].
  - intros (E1 & _ & E3) E. rewrite Hr by congruence. auto.
  - intros (E1 & _ & E3). eexists. split; [done|].
    intros E. rewrite Hr by done. auto.
Qed.

(** ** Answers *)

Definition own_user (usr : User.User) : Prop :=
  User.ID usr = u → users db0 !! u = Some usr.
Definition own_cred (c : Totp.Credential) : Prop :=
  Totp.UserID c = u → two_factor_credentials db0 !! u = Some c.
Definition own_token (t : Token.RefreshToken) : Prop :=
  (Token.UserID t = u → refresh_tokens db0 !! Token.ID t = Some t) ∧
  (Token.UserID t ≠ u → foreign_token (Token.ID t)).
Definition own_challenge (c : LoginChallenge.LoginChallenge) : Prop :=
  (LoginChallenge.UserID c = u →
     login_challenges db0 !! LoginChallenge.ID c = Some c) ∧
  (LoginChallenge.UserID c ≠ u → foreign_challenge (LoginChallenge.ID c)).

(** What a statement answers, [db_ok] given. *)
Definition ans_kept {X} (q : stmt X) : X → Prop :=
  match q in stmt X return X → Prop with
  | SelectUserByEmail e => λ usr, User.Email usr = e ∧ own_user usr
  | SelectUserByID v => λ usr, User.ID usr = v ∧ own_user usr
  | SelectRefreshTokenByHash h => λ t, Token.TokenHash t = h ∧ own_token t
  | SelectCredentialByUser v => λ c, Totp.UserID c = v ∧ own_cred c
  | SelectCredentialBySetupHash h =>
      λ c, Totp.SetupTokenHash c = Some h ∧ own_cred c
  | SelectChallengeByHash h =>
      λ c, LoginChallenge.TokenHash c = h ∧ own_challenge c
  | SelectFlowByFlowHash h =>
      λ f, PasswordReset.FlowTokenHash f = h ∧ flow_since (PasswordReset.ID f) f
  | SelectFlowByResetHash h =>
      λ f, PasswordReset.ResetTokenHash f = Some h ∧
           flow_since (PasswordReset.ID f) f
  | _ => λ _, True
  end.

(** A row found by a column: it has the value, and is stored under its key. *)
Lemma select_row {A} (f : A → bool) key (m : gmap uuid A) a :
  keyed key m → query_row (select_one f m) = Ok a →
  f a = true ∧ m !! key a = Some a.
Proof.
  intros Hkey. destruct (select_one f m) as [b|] eqn:E; [|done].
  intros [= <-]. apply select_one_Some in E as [Hf [k Hk]].
  split; [done|]. by rewrite (Hkey _ _ Hk).
Qed.

Lemma lookup_row {A} (key : A → uuid) (m : gmap uuid A) k a :
  keyed key m → query_row (m !! k) = Ok a → key a = k ∧ m !! k = Some a.
Proof.
  intros Hkey. destruct (m !! k) as [b|] eqn:E; [|done]. intros [= <-].
  split; [by apply Hkey|done].
Qed.

Lemma own_user_read db usr :
  kept_db db → users db !! User.ID usr = Some usr → own_user usr.
Proof. intros Hk Hu E. rewrite <-(kp_user _ Hk). by rewrite <-E. Qed.
Lemma own_cred_read db c :
  kept_db db → two_factor_credentials db !! Totp.UserID c = Some c → own_cred c.
Proof. intros Hk Hc E. rewrite <-(kp_cred _ Hk). by rewrite <-E. Qed.

Lemma exec_answers_kept {X} (q : stmt X) now db x :
  db_ok db → kept_db db → (exec q now db).1 = Ok x → ans_kept q x.
Proof.
  intros Hok Hk. destruct q; cbn [exec fst ans_kept]; try done; intros Hx.
  - apply (select_row _ _ _ _ (ok_users_key _ Hok)) in Hx as [He Hu].
    guards. split; [done|]. by eapply own_user_read.
  - apply (lookup_row _ _ _ _ (ok_users_key _ Hok)) in Hx as [<- Hu].
    split; [done|]. by eapply own_user_read.
  - apply (select_row _ _ _ _ (ok_tokens_key _ Hok)) in Hx as [He Ht].
    guards. split; [done|]. exact (same_owned_read _ _ _ _ _ _ (kp_tokens _ Hk) Ht).
  - apply (lookup_row _ _ _ _ (ok_creds_key _ Hok)) in Hx as [<- Hc].
    split; [done|]. by eapply own_cred_read.
  - apply (select_row _ _ _ _ (ok_creds_key _ Hok)) in Hx as [He Hc].
    guards. split; [done|]. by eapply own_cred_read.
  - apply (select_row _ _ _ _ (ok_challenges_key _ Hok)) in Hx as [He Hc].
    guards. split; [done|].
    exact (same_owned_read _ _ _ _ _ _ (kp_challenges _ Hk) Hc).
  - apply (select_row _ _ _ _ (ok_flows_key _ Hok)) in Hx as [He Hf].
    guards. split; [done|]. by apply (kp_flows _ Hk).
  - apply (select_row _ _ _ _ (ok_flows_key _ Hok)) in Hx as [He Hf].
    guards. split; [done|]. by apply (kp_flows _ Hk).
Qed.
End account.

(** ** More on record *)
Section more.
Context `{PT : PgTime, EV : Env, SS : SessionStore, L : Lib, U : Unicode}.
Variables (u : uuid) (w0 : World) (γ γ' : gmap uuid (option uuid)).
Hypothesis Hle : γ ⊆ γ'.

Lemma flow_since_mono k f : flow_since u w0 γ k f → flow_since u w0 γ' k f.
Proof.
  unfold flow_since. destruct (password_reset_flows (w_db w0) !! k); [done|].
  intros (H1 & H2 & H3). split_and!; [by eapply lookup_weaken|done|done].
Qed.

Lemma kept_db_mono db : kept_db u w0 γ db → kept_db u w0 γ' db.
Proof.
  intros []. split; try done. intros k f Hf. apply flow_since_mono. auto.
Qed.

Lemma stmt_kept_mono {X} (q : stmt X) :
  stmt_kept u w0 γ q → stmt_kept u w0 γ' q.
Proof.
  destruct q; try done; cbn [stmt_kept].
  - intros (H1 & H2 & H3). split_and!; [done|by eapply lookup_weaken|apply H3..].
  - destruct (password_reset_flows (w_db w0) !! _); [done|].
    intros (o & Ho & Hr). exists o. split; [by eapply lookup_weaken|done].
Qed.
End more.
