(* ===== verification/Outsiders.v ===== *)
(** * An account is safe from requests that hold none of its secrets

    Whatever mix of requests others send at the same time, and whatever calls
    fail, an account keeps its row, its second factor, its tokens and
    challenges and its session, as long as no request carries its password,
    one of its tokens or a current code of its second factor, or is
    authenticated as it. Others may request resets of its password and guess
    codes for them. *)
From S2P Require Import Prelude Tables GoBase Domain Schema Effects Logic.
From S2P Require Import RelyGuarantee GoStrings Platform Postgres Service.
From S2P Require Import Footprint Integrity DeletionWorker Demo Requests Worker.
From S2P Require Import Isolation.
#[local] Open Scope go_scope.

Create HintDb outside discriminated.

Section outsiders.
Context `{PT : PgTime, EV : Env, SS : SessionStore, SL : !SessionStoreLaws,
          L : Lib, U : Unicode}.
Variable s : AuthService.
Variable u : uuid.
Variable w0 : World.
#[local] Abbreviation db0 := (w_db w0).

(** The last reading of the clock that counts. *)
Variable hi : nat.

(** What the worlds reached from [w0] keep of the account; on record are
    identifiers generated since. *)
Record untouched (γ : gmap uuid (option uuid)) (w : World) : Prop := {
  un_ok : db_ok (w_db w);
  un_db : kept_db u w0 γ (w_db w);
  un_ids : n_uuid (w_counters w0) ≤ n_uuid (w_counters w);
  un_rand : n_rand (w_counters w0) ≤ n_rand (w_counters w);
  un_clock : n_clock (w_counters w0) ≤ n_clock (w_counters w);
  un_drawn : ∀ id o, γ !! id = Some o →
    ∃ n, n_uuid (w_counters w0) ≤ n < n_uuid (w_counters w) ∧
         id = gen_uuid n;
  un_active : ∀ t, ss_active (w_sessions w) t u = ss_active (w_sessions w0) t u
}.

(** [shut γ p Q]: run with others, [p] leaves the account alone and returns a
    value of [Q]. *)
#[local] Abbreviation more := (subseteq (A := gmap uuid (option uuid))).
#[local] Abbreviation shut γ p Q := (records more untouched γ p (λ _, Q)).

#[local] Abbreviation shut_bind := (records_bind more untouched).
#[local] Abbreviation shut_bindE := (records_bindE more untouched).
#[local] Abbreviation shut_wrapE := (records_wrapE more untouched).
#[local] Abbreviation shut_post := (records_post more untouched).

(** No id generated from [w0] on is the account's, or of a stored flow, or
    generated twice. *)
Definition fresh_ids : Prop :=
  ∀ n, n_uuid (w_counters w0) ≤ n →
    gen_uuid n ≠ u ∧ password_reset_flows db0 !! gen_uuid n = None ∧
    ∀ m, n_uuid (w_counters w0) ≤ m → gen_uuid m = gen_uuid n → m = n.
Hypothesis fresh : fresh_ids.

(** The readings of the clock from [w0] on are those up to the last. *)
Hypothesis bounded : ∀ i, n_clock (w_counters w0) ≤ i →
  ∃ j, n_clock (w_counters w0) ≤ j ≤ hi ∧ clock i = clock j.

(** ** Effects *)

Definition eff_kept γ X (e : eff X) : Prop :=
  eff_stmts (λ X q, stmt_kept u w0 γ q) e ∧
  match e with
  | Activate v _ _ | Deactivate v | DeactivateIfCurrent v _
  | DeactivatePrev v => v ≠ u
  | _ => True
  end.

Lemma handle_kept_db {X} γ (e : eff X) w :
  eff_kept γ X e → db_ok (w_db w) → kept_db u w0 γ (w_db w) →
  kept_db u w0 γ (w_db (handle e w).2).
Proof.
  intros [He _] Hok Hk.
  apply (handle_stmts (λ X q, stmt_kept u w0 γ q)
    (λ db, db_ok db ∧ kept_db u w0 γ db)); [|done|done].
  intros Y q db Hq [Hok' Hk']. split; [by apply exec_ok|by apply exec_kept].
Qed.

Lemma eff_kept_mono γ γ' X (e : eff X) :
  γ ⊆ γ' → eff_kept γ X e → eff_kept γ' X e.
Proof.
  intros Hle [He Hs]. split; [|done].
  destruct e; try done; cbn [eff_stmts] in *.
  - exact (stmt_kept_mono u w0 γ γ' Hle q He).
  - clear Hs. induction body as [r|Y q k IH|k]; [done| |done].
    destruct He as [Hq Hk]. split; [exact (stmt_kept_mono u w0 γ γ' Hle q Hq)|].
    intros a. by apply IH.
Qed.

Lemma counters_mono {X} (e : eff X) w :
  n_uuid (w_counters w) ≤ n_uuid (w_counters (handle e w).2) ∧
  n_rand (w_counters w) ≤ n_rand (w_counters (handle e w).2) ∧
  n_clock (w_counters w) ≤ n_clock (w_counters (handle e w).2).
Proof.
  destruct e; simpl; unfold handle_query, handle_tx, handle_session;
    repeat case_match; simpl; lia.
Qed.

(** A call on another user's session. *)
Lemma handle_session_other {A} (f : time → ss_state → A * ss_state) w t :
  (∀ now st t, ss_active (f now st).2 t u = ss_active st t u) →
  ss_active (w_sessions (handle_session f w).2) t u =
  ss_active (w_sessions w) t u.
Proof.
  intros Hf. unfold handle_session.
  pose proof (Hf (db_clock (n_io (w_counters w))) (w_sessions w)) as Hst.
  destruct (f _ _) as [a st]. unfold faulty.
  destruct (fault _) as [[m []]|]; simpl in *; auto.
Qed.

Lemma handle_active {X} γ (e : eff X) w t :
  eff_kept γ X e →
  ss_active (w_sessions (handle e w).2) t u = ss_active (w_sessions w) t u.
Proof.
  intros [_ He]. destruct e; try done; simpl in He |- *;
    try (apply handle_session_other; intros now st t').
  - unfold handle_query. by repeat case_match.
  - unfold handle_tx. by repeat case_match.
  - by apply ss_activate_other.
  - by apply ss_deactivate_other.
  - by apply ss_if_current_other.
  - by apply ss_prev_other.
Qed.

Lemma handle_untouched {X} γ (e : eff X) w :
  eff_kept γ X e → untouched γ w → untouched γ (handle e w).2.
Proof.
  intros He [Hok Hdb Hi Hr Hc Hd Ha].
  destruct (counters_mono e w) as (Hi' & Hr' & Hc').
  split; [by apply handle_ok|by apply handle_kept_db|lia|lia|lia| |].
  - intros id o Ho. destruct (Hd id o Ho) as (n & Hn & ->). exists n.
    split; [lia|done].
  - intros t. by rewrite (handle_active γ).
Qed.

(** ** The judgement *)

Lemma shut_effects {A} γ (p : prog A) :
  all_effects (eff_kept γ) p → shut γ p anything.
Proof.
  intros Hp. apply (records_effects more untouched eff_kept).
  - intros γ1 X e w. apply handle_untouched.
  - intros γ1 Hle. eapply all_effects_mono; [|done].
    intros X e. by apply eff_kept_mono.
Qed.

Lemma shut_any {A} γ (p : go A) :
  all_effects (eff_kept γ) p → shut γ p (okT anything).
Proof.
  intros Hp. eapply shut_post; [by apply shut_effects|]. by intros ? [a|e].
Qed.

Lemma shut_query {X} γ (q : stmt X) :
  stmt_kept u w0 γ q →
  records more untouched γ (perform (Query q))
    (λ γ', okT (ans_kept u w0 γ' q)).
Proof.
  intros Hq. apply records_perform. intros γ1 w Hle Hw.
  apply (stmt_kept_mono _ _ _ _ Hle) in Hq.
  exists γ1. split_and!; [done|by apply handle_untouched|].
  simpl. unfold handle_query.
  pose proof (exec_answers_kept u w0 γ1 q (db_clock (n_io (w_counters w)))
    (w_db w)) as Ha.
  destruct (exec _ _ _) as [r db']. unfold faulty.
  destruct (fault _) as [f|]; [done|]. simpl. destruct r as [x|e]; [|done].
  apply Ha; [apply Hw..|done].
Qed.

(** A new identifier, put on record for a flow bound to [o]. *)
Lemma shut_NewUUID γ o :
  records more untouched γ (perform NewUUID)
    (λ γ' id, id ≠ u ∧ password_reset_flows db0 !! id = None ∧
              γ' !! id = Some o).
Proof.
  apply records_perform. intros γ1 w Hle Hw.
  set (id := gen_uuid (n_uuid (w_counters w))).
  destruct (fresh (n_uuid (w_counters w))) as (Hu & Hf & Hinj); [apply Hw|].
  assert (Hid : γ1 !! id = None).
  { apply eq_None_not_Some. intros [o' Ho].
    destruct (un_drawn _ _ Hw id o' Ho) as (n & Hn & En).
    enough (n = n_uuid (w_counters w)) by lia. apply Hinj; [lia|done]. }
  assert (Hsub : γ1 ⊆ <[id := o]> γ1) by by apply insert_subseteq.
  exists (<[id := o]> γ1). split_and!; [done| |done|done|].
  2: by rewrite lookup_insert_eq.
  destruct Hw as [Hok Hdb Hi Hr Hc Hd Ha]. split; simpl; try done; [|lia|].
  - by apply (kept_db_mono _ _ γ1).
  - intros id' o'. destruct (decide (id = id')) as [<-|Hne].
    + intros _. eexists. split; [|done]. lia.
    + rewrite lookup_insert_ne by done. intros Ho.
      destruct (Hd id' o' Ho) as (n & Hn & ->). exists n. split; [lia|done].
Qed.

Lemma shut_Generate γ :
  shut γ tokenhash_Generate (okT (λ raw, issued_since w0 (tokenhash_Hash raw))).
Proof.
  unfold tokenhash_Generate.
  apply (shut_bindE _ _ _ (λ _ b, ∃ i, n_rand (w_counters w0) ≤ i ∧
    rand_read i rawTokenBytes = Ok b)).
  - apply shut_wrapE, records_perform. intros γ1 w Hle Hw. exists γ1.
    split_and!; [done|by apply handle_untouched|]. simpl.
    destruct (rand_read _ _) eqn:E; [|done]. eexists. split; [apply Hw|exact E].
  - intros γ1 b _ (i & Hi & Hb). apply records_ret. by exists i, b.
Qed.

(** The time, one of the readings that count. *)
Lemma shut_Now γ :
  shut γ (perform Now)
    (λ t, ∃ j, n_clock (w_counters w0) ≤ j ≤ hi ∧ t = clock j).
Proof.
  apply records_perform. intros γ1 w Hle Hw. exists γ1.
  split_and!; [done|by apply handle_untouched|]. apply bounded, Hw.
Qed.

(** ** Repositories *)

Lemma shut_scan_one {A} γ nf msg (q : stmt A) :
  stmt_kept u w0 γ q →
  records more untouched γ (scan_one nf msg q) (λ γ', okT (ans_kept u w0 γ' q)).
Proof.
  intros Hq. eapply shut_bind; [by apply shut_query|].
  intros γ1 [a|e] _ H; [by apply records_ret|].
  destruct (errors_Is _ _); by apply records_ret.
Qed.

Lemma shut_exec_any {A} γ msg (q : stmt A) :
  stmt_kept u w0 γ q → shut γ (exec_any msg q) (okT anything).
Proof. intros Hq. apply shut_any. unfold exec_any. by walk. Qed.

Lemma shut_exec_affecting γ nf msg (q : stmt nat) :
  stmt_kept u w0 γ q → shut γ (exec_affecting nf msg q) (okT anything).
Proof. intros Hq. apply shut_any. unfold exec_affecting. by walk. Qed.

Lemma shut_create_user γ usr :
  User.ID usr ≠ u → shut γ (UserRepository.Create usr) (okT anything).
Proof. intros Hu. apply shut_any. unfold UserRepository.Create. by walk. Qed.

Lemma shut_RequestDeletion γ v :
  v ≠ u → shut γ (DeletionStore.RequestDeletion v) (okT anything).
Proof.
  intros Hv. apply shut_any. unfold DeletionStore.RequestDeletion.
  walk; split; try done. by apply request_tx_all.
Qed.

(** A claimed job is another account's. *)
Lemma shut_ClaimDeletion γ :
  shut γ DeletionJobStore.ClaimDeletion
    (okT (λ o, ∀ job, o = Some job → Job_UserID job ≠ u)).
Proof.
  unfold DeletionJobStore.ClaimDeletion.
  apply (shut_bindE _ _ _ (λ _, okT (λ o, ∀ job, o = Some job →
    Job_UserID job ≠ u))); [|intros γ1 a _ Ha; by apply records_ret].
  apply records_perform. intros γ1 w Hle Hw. exists γ1.
  split_and!; [done| |].
  { apply handle_untouched; [|done]. split; [by apply claim_tx_all|done]. }
  pose proof (claim_run w) as Hrun.
  unfold DeletionJobStore.ClaimDeletion in Hrun.
  specialize (Hrun _ _ (un_ok _ _ Hw) (surjective_pairing _)).
  rewrite run_bindE, run_perform in Hrun.
  destruct (handle _ w) as [[[o|e]|e] w1]; [|done..]. simpl in Hrun |- *.
  intros job ->. destruct Hrun as [[[_ Hn]|(j & Hj & _ & _ & Hr)] _].
  - by destruct (Hn job).
  - rewrite (Hr job eq_refl). simpl.
    exact (kp_jobs _ _ _ _ (un_db _ _ Hw) _ _ Hj).
Qed.

(** ** The use cases, on behalf of others *)

Lemma shut_some_UUID γ :
  shut γ (perform NewUUID)
    (λ id, id ≠ u ∧ password_reset_flows db0 !! id = None).
Proof.
  eapply shut_post; [apply (shut_NewUUID γ None)|]. by intros ? ? _ (? & ? & _).
Qed.

#[local] Hint Resolve shut_Generate shut_some_UUID shut_create_user
  shut_RequestDeletion : outside.
#[local] Hint Extern 1 (anything _) => (exact I) : outside.
#[local] Hint Extern 2 (_ ≠ _) => congruence : outside.

Ltac sidecond := cbn [stmt_kept]; first [exact I | solve [simpl; auto] | simpl; congruence].

(** Effects that concern no row of the account. *)
Ltac concerns_others :=
  unfold cleanupSessionDevices, Issue, IssueWithGeneration, Hash,
    VerifyOwnership, DeleteByIDs, DeleteAllMine, DeleteAllByUser, delete_call,
    GenerateSecret, Encrypt;
  autounfold with effects; walk; (split; [sidecond|simpl; auto; congruence]).

(** What is known of the rows read so far. *)
Ltac facts :=
  cbv beta in *;
  repeat match goal with
  | H : okT _ (Ok _) |- _ => cbn [okT] in H
  | H : okT _ (Err _) |- _ => clear H
  | H : ans_kept _ _ _ _ _ |- _ => cbn [ans_kept] in H
  | H : _ ∧ _ |- _ =>
      pose proof (proj1 H); pose proof (proj2 H); clear H
  end.

(** [tac] proves the call, whatever form its postcondition has. *)
Ltac call tac :=
  eapply shut_post; [solve [tac]|intros ? ? _ Hpost; exact Hpost].

Ltac outside_leaf :=
  idtac;
  match goal with
  | |- records _ _ _ (returnOk _) _ =>
      solve [apply records_ret; cbn [okT]; eauto]
  | |- _ => call ltac:(eauto 3 with outside)
  | |- _ => call ltac:(apply shut_scan_one; sidecond)
  | |- _ => call ltac:(apply shut_exec_any; sidecond)
  | |- _ => call ltac:(apply shut_exec_affecting; sidecond)
  | |- records _ _ _ _ (λ g, okT (@?Q g)) =>
      call ltac:(apply shut_any; concerns_others)
  | |- _ => call ltac:(apply shut_effects; concerns_others)
  end.
Ltac outside := repeat (records_step outside_leaf; facts).

Lemma issueSession_shut γ usr :
  User.ID usr ≠ u → shut γ (issueSession s usr) (okT anything).
Proof. intros Hu. unfold issueSession. outside. Qed.

Lemma issueLoginChallenge_shut γ usr :
  User.ID usr ≠ u → shut γ (issueLoginChallenge s usr) (okT anything).
Proof. intros Hu. unfold issueLoginChallenge. outside. Qed.

Lemma beginTOTPSetup_shut γ usr :
  User.ID usr ≠ u → shut γ (beginTOTPSetup s usr) (okT anything).
Proof. intros Hu. unfold beginTOTPSetup. outside. Qed.

Lemma verifyOTP_shut γ e c code :
  Totp.UserID c ≠ u →
  shut γ (verifyOTP s e c code) (okT (λ c', Totp.UserID c' = Totp.UserID c)).
Proof. intros Hc. unfold verifyOTP, validateOTP. outside. Qed.

Lemma end_sessions_shut γ v m1 m2 :
  v ≠ u → shut γ (end_sessions s v m1 m2) (okT anything).
Proof. intros Hv. unfold end_sessions. outside. Qed.
#[local] Hint Resolve issueSession_shut issueLoginChallenge_shut
  beginTOTPSetup_shut verifyOTP_shut end_sessions_shut : outside.

Lemma Register_shut γ inp : shut γ (Register s inp) (okT anything).
Proof. unfold Register. outside. Qed.

(** ** Requests without the account's secrets *)

Definition holds_password (email password : string) : Prop :=
  ∃ usr, users db0 !! u = Some usr ∧ User.Email usr = normalizeEmail email ∧
         Verify (svc_hasher s) (User.PasswordHash usr) password = Ok tt.

(** The demo account's fixed code, or a code of the stored secret that is good
    at some reading of the clock that counts. *)
Definition holds_code (code : string) : Prop :=
  ∃ usr c, users db0 !! u = Some usr ∧
    two_factor_credentials db0 !! u = Some c ∧
    (User.Email usr = demoAccountEmail ∧ code = demoOTPCode ∨
     ∃ secret i, n_clock (w_counters w0) ≤ i ≤ hi ∧
       Decrypt (svc_cipher s) (Totp.SecretEncrypted c) = Ok secret ∧
       (ValidateAt code secret (clock i)).1 = true).

(** A code for a reset may be guessed, whoever requested it and whenever; with
    a current code of the account, only for a flow that was there in [w0] and
    is not the account's. *)
Definition outsider (r : UseCase) : Prop :=
  match r with
  | UCRegister _ | UCRequestPasswordReset _ | UCCurrentUser _
  | UCSessionCleanup _ _ _ | UCDeletionTick _ => True
  | UCLogin inp => ¬ holds_password (li_Email inp) (li_Password inp)
  | UCSetupVerifyOTP t _ =>
      ∀ c, two_factor_credentials db0 !! u = Some c →
           Totp.SetupTokenHash c ≠ Some (tokenhash_Hash t)
  | UCLoginVerifyOTP t _ =>
      every (λ c, LoginChallenge.UserID c = u →
                  LoginChallenge.TokenHash c ≠ tokenhash_Hash t)
        (login_challenges db0)
  | UCRefresh t | UCLogout t =>
      every (λ x, Token.UserID x = u → Token.TokenHash x ≠ tokenhash_Hash t)
        (refresh_tokens db0)
  | UCUpdateProfile v _ _ | UCChangePassword v _ | UCDeleteAccount v _ _ =>
      v ≠ u
  | UCVerifyPasswordResetOTP t code =>
      ¬ holds_code code ∨
      ¬ issued_since w0 (tokenhash_Hash t) ∧
      every (λ f, PasswordReset.UserID f = Some u →
                  PasswordReset.FlowTokenHash f ≠ tokenhash_Hash t)
        (password_reset_flows db0)
  | UCConfirmPasswordReset t _ =>
      every (λ f, PasswordReset.UserID f = Some u →
                  PasswordReset.ResetTokenHash f ≠ Some (tokenhash_Hash t))
        (password_reset_flows db0)
  end.

Lemma Login_shut γ inp :
  ¬ holds_password (li_Email inp) (li_Password inp) →
  shut γ (Login s inp) (okT anything).
Proof.
  intros Hno. unfold Login. eapply shut_bind; [by apply shut_scan_one|].
  intros γ1 [usr|e] _ Hu; [|by destruct (errors_Is _ _); apply records_ret].
  facts. destruct (Verify _ _ _) as [[]|] eqn:Hv; [|by apply records_ret].
  assert (Hne : User.ID usr ≠ u) by (intros E; apply Hno; exists usr; auto).
  clear Hno. outside.
Qed.

Lemma token_of_other t rt :
  every (λ x, Token.UserID x = u → Token.TokenHash x ≠ tokenhash_Hash t)
    (refresh_tokens db0) →
  Token.TokenHash rt = tokenhash_Hash t → own_token u w0 rt →
  Token.UserID rt ≠ u ∧ foreign_token u w0 (Token.ID rt).
Proof.
  intros Ho Hh [H1 H2]. assert (Hne : Token.UserID rt ≠ u); [|by auto].
  intros E. by apply (Ho _ _ (H1 E)).
Qed.

Lemma Refresh_shut γ t :
  every (λ x, Token.UserID x = u → Token.TokenHash x ≠ tokenhash_Hash t)
    (refresh_tokens db0) → shut γ (Refresh s t) (okT anything).
Proof.
  intros Ho. unfold Refresh. eapply shut_bind; [by apply shut_scan_one|].
  intros γ1 [rt|e] _ Hr; [|by destruct (errors_Is _ _); apply records_ret].
  facts. destruct (token_of_other t rt) as [Hne Hf]; [done..|]. outside.
Qed.

Lemma Logout_shut γ t :
  every (λ x, Token.UserID x = u → Token.TokenHash x ≠ tokenhash_Hash t)
    (refresh_tokens db0) → shut γ (Logout s t) (okT anything).
Proof.
  intros Ho. unfold Logout. eapply shut_bind; [by apply shut_scan_one|].
  intros γ1 [rt|e] _ Hr; [|by destruct (errors_Is _ _); apply records_ret].
  facts. destruct (token_of_other t rt) as [Hne Hf]; [done..|]. outside.
Qed.

Lemma SetupVerifyOTP_shut γ t code :
  (∀ c, two_factor_credentials db0 !! u = Some c →
        Totp.SetupTokenHash c ≠ Some (tokenhash_Hash t)) →
  shut γ (SetupVerifyOTP s t code) (okT anything).
Proof.
  intros Ho. unfold SetupVerifyOTP.
  eapply shut_bind; [by apply shut_scan_one|].
  intros γ1 [c|e] _ Hc; [|by destruct (errors_Is _ _); apply records_ret].
  facts. assert (Hne : Totp.UserID c ≠ u) by (intros E; by apply (Ho c); auto).
  outside.
Qed.

Lemma LoginVerifyOTP_shut γ t code :
  every (λ c, LoginChallenge.UserID c = u →
              LoginChallenge.TokenHash c ≠ tokenhash_Hash t)
    (login_challenges db0) →
  shut γ (LoginVerifyOTP s t code) (okT anything).
Proof.
  intros Ho. unfold LoginVerifyOTP.
  eapply shut_bind; [by apply shut_scan_one|].
  intros γ1 [ch|e] _ Hc; [|by destruct (errors_Is _ _); apply records_ret].
  facts. destruct H0 as [H1 H2].
  assert (Hne : LoginChallenge.UserID ch ≠ u).
  { intros E. by apply (Ho _ _ (H1 E)). }
  specialize (H2 Hne). outside.
Qed.

Lemma UpdateProfile_shut γ v a inp :
  v ≠ u → shut γ (UpdateProfile s v a inp) (okT anything).
Proof. intros Hv. unfold UpdateProfile. outside. Qed.

Lemma ChangePassword_shut γ v inp :
  v ≠ u → shut γ (ChangePassword s v inp) (okT anything).
Proof. intros Hv. unfold ChangePassword. outside. Qed.

Lemma DeleteAccount_shut γ v a o :
  v ≠ u → shut γ (DeleteAccount s v a o) (okT anything).
Proof. intros Hv. unfold DeleteAccount. outside. Qed.

Lemma RequestPasswordReset_shut γ e :
  shut γ (RequestPasswordReset s e) (okT anything).
Proof.
  unfold RequestPasswordReset.
  eapply shut_bind; [by apply shut_scan_one|]. intros γ1 found _ _.
  eapply (shut_bindE _ _ _ (λ _, anything)); [|intros γ2 owner _ _].
  { outside. }
  eapply shut_bindE; [apply shut_wrapE, shut_Generate|].
  intros γ3 tok _ Htok. eapply shut_bind; [apply shut_Now|].
  intros γ4 now _ _. eapply shut_bind; [apply (shut_NewUUID _ owner)|].
  intros γ5 id _ (_ & Hfree & Hrec). cbv zeta.
  eapply shut_bindE; [apply shut_wrapE, shut_exec_any|].
  - by split_and!.
  - intros γ6 [] _ _. by apply records_ret.
Qed.

(** ** The reset endpoints *)

(** A code that is none of the account's is refused for its factor. *)
Lemma validateOTP_refuses γ usr c code :
  users db0 !! u = Some usr → two_factor_credentials db0 !! u = Some c →
  ¬ holds_code code →
  shut γ (validateOTP s (User.Email usr) c code) (okT (λ v, v.1.1 = false)).
Proof.
  intros Hu Hc Hno. unfold validateOTP.
  destruct (bool_decide (_ = demoAccountEmail) && _) eqn:Hd.
  { guards. destruct Hno. exists usr, c. auto. }
  destruct (Decrypt _ _) as [secret|] eqn:Hs; [|by apply records_ret].
  eapply shut_bind; [apply shut_Now|]. intros γ1 now _ (i & Hi & ->).
  apply records_ret. simpl. apply not_true_iff_false. intros Hv.
  apply Hno. exists usr, c. eauto 8.
Qed.

Lemma reset_code_valid_shut γ f code :
  (PasswordReset.UserID f = Some u → ¬ holds_code code) →
  shut γ (reset_code_valid s f code)
    (okT (λ b, PasswordReset.UserID f = Some u → b = false)).
Proof.
  intros Hno. unfold reset_code_valid.
  destruct (PasswordReset.UserID f) as [v|]; [|by apply records_ret].
  eapply shut_bind; [by apply shut_scan_one|].
  intros γ1 [c|e] _ Hc; [|by destruct (negb _); apply records_ret].
  facts. destruct (negb _); [by apply records_ret|].
  eapply shut_bindE; [by apply shut_scan_one|]. intros γ2 usr _ Hu. facts.
  destruct (decide (v = u)) as [->|Hne].
  - eapply (shut_bindE _ _ _ (λ _ v, v.1.1 = false));
      [apply validateOTP_refuses; auto|].
    intros γ3 [[ok n] demo] _ Hv. simpl in Hv. subst ok. by apply records_ret.
  - eapply (shut_bindE _ _ _ (λ _, anything));
      [by apply shut_any; unfold validateOTP; concerns_others|].
    intros γ3 [[ok n] demo] _ _. outside; apply records_ret; simpl; congruence.
Qed.

(** A flow of the account found by its token is guarded by the code. *)
Lemma flow_needs_code γ t code f :
  outsider (UCVerifyPasswordResetOTP t code) →
  flow_since u w0 γ (PasswordReset.ID f) f →
  PasswordReset.FlowTokenHash f = tokenhash_Hash t →
  PasswordReset.UserID f = Some u → ¬ holds_code code.
Proof.
  unfold flow_since. intros [Ho|[Hi Ho]] Hf Ht E; [done|]. exfalso.
  destruct (password_reset_flows db0 !! _) as [f0|] eqn:Hf0.
  - destruct Hf as (E1 & E2 & _). apply (Ho _ _ Hf0); congruence.
  - destruct Hf as (_ & Hf & _). apply Hi. congruence.
Qed.

Lemma VerifyPasswordResetOTP_shut γ t code :
  outsider (UCVerifyPasswordResetOTP t code) →
  shut γ (VerifyPasswordResetOTP s t code) (okT anything).
Proof.
  intros Ho. unfold VerifyPasswordResetOTP.
  eapply shut_bind; [by apply shut_scan_one|].
  intros γ1 [f|e] _ Hf; [|by destruct (errors_Is _ _); apply records_ret].
  facts. assert (Hno : PasswordReset.UserID f = Some u → ¬ holds_code code)
    by by eapply flow_needs_code.
  eapply shut_bind; [apply shut_Now|]. intros γ2 now Hle2 _.
  destruct (_ || _); [by apply records_ret|].
  destruct (PasswordReset.IsOTPLocked _ _); [by apply records_ret|].
  eapply (shut_bindE _ _ _ (λ _ b, PasswordReset.UserID f = Some u →
    b = false)); [by apply reset_code_valid_shut|].
  intros γ3 valid Hle3 Hv. destruct valid; cbn [negb].
  - assert (Hne : PasswordReset.UserID f ≠ Some u)
      by (intros E; discriminate (Hv E)).
    outside. apply shut_exec_affecting. eapply (update_flow_kept _ _ _ f); [|done|done].
    by repeat (eapply flow_since_mono; [eassumption|]).
  - unfold PasswordReset.RecordOTPFailure. outside.
    apply shut_exec_affecting. eapply (update_flow_kept _ _ _ f); [|done|done].
    by repeat (eapply flow_since_mono; [eassumption|]).
Qed.

Lemma ConfirmPasswordReset_shut γ t p :
  outsider (UCConfirmPasswordReset t p) →
  shut γ (ConfirmPasswordReset s t p) (okT anything).
Proof.
  intros Ho. unfold ConfirmPasswordReset.
  eapply shut_bind; [by apply shut_scan_one|].
  intros γ1 [f|e] _ Hf; [|by destruct (errors_Is _ _); apply records_ret].
  facts.
  assert (Hne : PasswordReset.UserID f ≠ Some u).
  { intros E. revert H0. unfold flow_since.
    destruct (password_reset_flows db0 !! _) as [f0|] eqn:Hf0.
    - intros (E1 & _ & E3). apply (Ho _ _ Hf0); [|rewrite <-E3]; congruence.
    - intros (_ & _ & E3). rewrite E3 in H by done. done. }
  outside. apply shut_exec_affecting. eapply (update_flow_kept _ _ _ f); [|done|done].
  by repeat (eapply flow_since_mono; [eassumption|]).
Qed.

(** ** The worker *)

Lemma RunOnce_shut γ cl : shut γ (RunOnce cl) (okT anything).
Proof.
  unfold RunOnce. eapply shut_bindE; [apply shut_ClaimDeletion|].
  intros γ1 [job|] _ Hj; [|by apply records_ret].
  specialize (Hj job eq_refl). apply shut_any.
  apply run_steps_all; try done. unfold finish_job. concerns_others.
Qed.

(** ** Any pool *)

#[local] Hint Resolve Register_shut Login_shut Refresh_shut Logout_shut
  SetupVerifyOTP_shut LoginVerifyOTP_shut UpdateProfile_shut
  ChangePassword_shut DeleteAccount_shut RequestPasswordReset_shut
  VerifyPasswordResetOTP_shut ConfirmPasswordReset_shut RunOnce_shut : outside.

Lemma forget_shut {A} γ (p : prog A) Q :
  shut γ p Q → shut γ (forget p) anything.
Proof.
  intros Hp. eapply shut_bind; [exact Hp|]. intros γ1 a _ _.
  by apply records_ret.
Qed.

Lemma serve_shut γ r : outsider r → shut γ (serve s r) anything.
Proof.
  destruct r; intros Ho; unfold serve;
    try (eapply forget_shut; solve [eauto 2 with outside]).
  - eapply forget_shut, shut_any. unfold CurrentUser. concerns_others.
  - apply shut_effects.
    unfold session_cleanup, DeleteSessionData, internal_delete.
    concerns_others.
Qed.

Lemma start_untouched : db_ok db0 → every (λ j, job_user_id j ≠ u)
  (account_deletion_jobs db0) → untouched ∅ w0.
Proof.
  intros Hok Hj. split; try done.
  split; try done. intros k f Hf. unfold flow_since. by rewrite Hf.
Qed.
End outsiders.

(** ** The clock of a run

    A run does not tell whether the clock goes on after its last reading. *)
Section until.
Context `{PT : PgTime, EV : Env, SS : SessionStore, L : Lib, U : Unicode}.
Variable hi : nat.

Definition until : Env := {|
  clock i := clock (Nat.min i hi); db_clock := db_clock; gen_uuid := gen_uuid;
  rand_read := rand_read; entropy := entropy; fault := fault;
  http_do := http_do
|}.

Lemma handle_until {X} (e : eff X) w :
  n_clock (w_counters (handle e w).2) ≤ hi →
  handle (EV := until) e w = handle e w.
Proof.
  destruct e; try done. simpl. intros Hle. by rewrite Nat.min_l by lia.
Qed.

Lemma pool_clock {A} (c c' : list (prog A) * World) :
  rtc pool_step c c' →
  n_clock (w_counters c.2) ≤ n_clock (w_counters c'.2).
Proof.
  induction 1 as [|c c1 c2 Hs _ IH]; [done|]. etrans; [|exact IH].
  destruct Hs as [ps i X e k w _]. by apply counters_mono.
Qed.

Lemma pool_until {A} (c c' : list (prog A) * World) :
  rtc pool_step c c' → n_clock (w_counters c'.2) ≤ hi →
  rtc (pool_step (EV := until)) c c'.
Proof.
  induction 1 as [|c c1 c2 Hs Hr IH]; intros Hle; [done|].
  eapply rtc_l; [|by apply IH].
  apply pool_clock in Hr. destruct Hs as [ps i X e k w Hi]. simpl in Hr.
  assert (He : handle (EV := until) e w = handle e w)
    by (apply handle_until; lia).
  rewrite <-He. by apply (PoolStep (EV := until)).
Qed.

Lemma outsider_until s u w r :
  outsider s u w hi r → outsider (EV := until) s u w hi r.
Proof.
  destruct r; try done. cbn [outsider]. intros [Ho|Ho]; [left|by right].
  intros (usr & c & Hu & Hc & Hd). apply Ho. exists usr, c.
  split_and!; [done|done|]. destruct Hd as [Hd|(secret & i & Hi & Hs & Hv)];
    [by left|right].
  exists secret, i. split_and!; [apply Hi..|done|]. simpl in Hv.
  by rewrite Nat.min_l in Hv by lia.
Qed.

Lemma bounded_until w : n_clock (w_counters w) ≤ hi →
  ∀ i, n_clock (w_counters w) ≤ i →
  ∃ j, n_clock (w_counters w) ≤ j ≤ hi ∧
       clock (Env := until) i = clock (Env := until) j.
Proof.
  intros Hle i Hi. exists (Nat.min i hi). simpl.
  rewrite <-Nat.min_assoc, Nat.min_id. split; [lia|done].
Qed.
End until.

(** C5. In any interleaving of any requests of others and worker ticks,
    whatever fails, an account no deletion of which is on file keeps its row,
    its second factor, its refresh tokens, its login challenges and its active
    session, and no reset flow bound to it gains a reset token, if no request
    is authenticated as it or carries its password or one of its tokens (login
    challenge, refresh, setup, password reset). Others may request resets for
    it and guess codes for any flow, with flow tokens handed out before or
    during the run: a code so submitted is none that is valid for the account
    at a reading of the clock during the run, or it goes with a flow token
    from before that is not the account's. Identifiers generated during the
    run are new. *)
Theorem outsiders_leave_account_alone
    `{PT : PgTime, EV : Env, SS : SessionStore, SL : !SessionStoreLaws,
      L : Lib, U : Unicode} (s : AuthService) u (rs : list UseCase) w ps' w' :
  db_ok (w_db w) → fresh_ids u w →
  every (λ j, job_user_id j ≠ u) (account_deletion_jobs (w_db w)) →
  Forall (outsider s u w (n_clock (w_counters w'))) rs →
  rtc pool_step (serve s <$> rs, w) (ps', w') →
  users (w_db w') !! u = users (w_db w) !! u ∧
  two_factor_credentials (w_db w') !! u = two_factor_credentials (w_db w) !! u ∧
  same_owned Token.UserID u (refresh_tokens (w_db w))
    (refresh_tokens (w_db w')) ∧
  same_owned LoginChallenge.UserID u (login_challenges (w_db w))
    (login_challenges (w_db w')) ∧
  (∀ k f h, password_reset_flows (w_db w') !! k = Some f →
     PasswordReset.UserID f = Some u → PasswordReset.ResetTokenHash f = Some h →
     ∃ f0, password_reset_flows (w_db w) !! k = Some f0 ∧
       PasswordReset.UserID f0 = Some u ∧
       PasswordReset.ResetTokenHash f0 = Some h) ∧
  ∀ t, ss_active (w_sessions w') t u = ss_active (w_sessions w) t u.
Proof.
  intros Hok Hids Hj Hrs Hr. set (hi := n_clock (w_counters w')) in *.
  pose proof (pool_clock _ _ Hr) as Hle. cbn [snd] in Hle.
  apply (pool_until hi) in Hr; [|done].
  eapply (records_pool (EV := until hi) subseteq
    (untouched (EV := until hi) u w) _ _ ∅) in Hr
    as (γ & _ & [_ [] _ _ _ _ Ha]); [|by apply start_untouched|].
  2:{ apply Forall_fmap. eapply Forall_impl; [exact Hrs|]. intros r Hout.
      apply (serve_shut (EV := until hi) s u w hi);
        [exact Hids|by apply bounded_until|by apply outsider_until]. }
  split_and!; try done. intros k f h Hf Hu Hh. apply kp_flows in Hf.
  unfold flow_since in Hf.
  destruct (password_reset_flows (w_db w) !! k) as [f0|].
  - destruct Hf as (E1 & E2 & E3). exists f0.
    rewrite <-E3 by congruence. by rewrite <-E1.
  - destruct Hf as (_ & _ & E). rewrite E in Hh by done. discriminate Hh.
Qed.

(** Others, while the account is signed in and its owner has asked for a
    reset: a guessed password, a reset of their own for the account, wrong
    codes for both flows, a guessed token, a registration and a worker's
    tick. *)
Definition demo_stolen_flow : string :=
  base64_encode (demo_bytes (n_rand (w_counters demo_request.2)) rawTokenBytes).
Definition demo_strangers : list UseCase :=
  [UCLogin (mkLoginInput "bee@example.com" "wrong horse");
   UCRequestPasswordReset "bee@example.com";
   UCVerifyPasswordResetOTP demo_flow_token "999999";
   UCVerifyPasswordResetOTP demo_stolen_flow "999999";
   UCRefresh "stolen";
   UCRegister (mkRegisterInput "wasp@example.com" "another horse");
   UCDeletionTick demo_clients].
Definition demo_strangers_run : list (prog unit) * World :=
  sched_run (concat (replicate 12 [0; 1; 2]) ++
             concat (replicate 14 [3; 4; 5; 6]))
    (serve demo_service <$> demo_strangers) demo_request.2.
Definition demo_last_reading : nat := n_clock (w_counters demo_strangers_run.2).

Lemma demo_fresh : fresh_ids 1000%N demo_request.2.
Proof.
  assert (Hc : n_uuid (w_counters demo_request.2) = 3)
    by (vm_compute; reflexivity).
  assert (Hf : map_Forall (λ k _, (k < 1003)%N)
    (password_reset_flows (w_db demo_request.2)))
    by (apply (bool_decide_unpack _); vm_compute; exact I).
  intros n Hn. rewrite Hc in Hn. cbn [gen_uuid demo_env env_with].
  split; [lia|]. split; [|intros m _; lia]. apply eq_None_not_Some.
  intros [f Hk]. specialize (Hf _ _ Hk). simpl in Hf. lia.
Qed.

Lemma demo_request_user usr :
  users (w_db demo_request.2) !! 1000%N = Some usr → usr = demo_user.
Proof.
  assert (E : users (w_db demo_request.2) !! 1000%N = Some demo_user)
    by (vm_compute; reflexivity).
  rewrite E. congruence.
Qed.

(** The code is wrong at every reading of the run. *)
Lemma demo_no_code :
  ¬ holds_code demo_service 1000%N demo_request.2 demo_last_reading "999999".
Proof.
  intros (usr & c & Hu & _ & [[He _]|(secret & i & Hi & _ & Hv)]).
  { apply demo_request_user in Hu as ->. vm_compute in He. discriminate. }
  assert (Hall : forallb (λ j, negb (ValidateAt "999999" secret (clock j)).1)
    (seq (n_clock (w_counters demo_request.2)) (S demo_last_reading)) = true)
    by (vm_compute; reflexivity).
  rewrite forallb_forall in Hall. specialize (Hall i). rewrite Hv in Hall.
  discriminate Hall. apply in_seq. lia.
Qed.

Lemma demo_strangers_outside :
  Forall (outsider demo_service 1000%N demo_request.2 demo_last_reading)
    demo_strangers.
Proof.
  repeat apply Forall_cons_2; try exact I; [| | | |by apply Forall_nil_2].
  - intros (usr & Hu & _ & Hv). apply demo_request_user in Hu as ->.
    vm_compute in Hv. discriminate.
  - left. exact demo_no_code.
  - left. exact demo_no_code.
  - refine (every_eval _ _ _). vm_compute. reflexivity.
Qed.

(** The stolen flow is there, with one attempt counted. *)
Lemma outsiders_leave_account_alone_witness :
  users (w_db demo_strangers_run.2) !! 1000%N =
    users (w_db demo_request.2) !! 1000%N ∧
  same_owned Token.UserID 1000%N (refresh_tokens (w_db demo_request.2))
    (refresh_tokens (w_db demo_strangers_run.2)) ∧
  size (users (w_db demo_strangers_run.2)) = 2 ∧
  PasswordReset.OTPAttempts <$>
    select_one (λ f, bool_decide (PasswordReset.FlowTokenHash f =
                                  tokenhash_Hash demo_stolen_flow))
      (password_reset_flows (w_db demo_strangers_run.2)) = Some 1%Z.
Proof.
  destruct (outsiders_leave_account_alone demo_service 1000%N demo_strangers
    demo_request.2 demo_strangers_run.1 demo_strangers_run.2)
    as (H1 & _ & H3 & _).
  - exact demo_request_ok.
  - exact demo_fresh.
  - refine (every_eval _ _ _). vm_compute. reflexivity.
  - exact demo_strangers_outside.
  - rewrite <-surjective_pairing. apply sched_run_reachable.
  - split; [exact H1|]. split; [exact H3|].
    split; vm_compute; reflexivity.
Defined.
