(* ===== verification/Lifecycle.v ===== *)
(** * The life of an account

    Under any interleaving of any requests and worker ticks, and whatever
    calls fail, an account moves only from active to marked for deletion to
    gone; and it goes only after every service was asked to delete its data
    and answered with success. *)
From S2P Require Import Prelude Tables GoBase Domain Schema Effects Logic.
From S2P Require Import RelyGuarantee GoStrings Platform Postgres Service.
From S2P Require Import Footprint Integrity Repositories DeletionWorker.
From S2P Require Import Demo Requests Deletion Worker.
#[local] Open Scope go_scope.

Inductive AccountState := Active | DeletionPending | Gone.

Definition account_state (u : uuid) (db : Database) : AccountState :=
  match users db !! u with
  | None => Gone
  | Some usr => if User.is_pending usr then DeletionPending else Active
  end.

Inductive lifecycle : AccountState → AccountState → Prop :=
  | LcStay a : lifecycle a a
  | LcRequest : lifecycle Active DeletionPending
  | LcDelete : lifecycle DeletionPending Gone.

Section lifecycle.
Context `{PT : PgTime, EV : Env, SS : SessionStore, L : Lib, U : Unicode}.
Variable s : AuthService.
Variable u : uuid.
(** The client a worker uses for a service. *)
Variable known : string → DeletionClient → Prop.
(** No id generated from the [n0]-th on is the account's. *)
Variable n0 : nat.
Hypothesis fresh_ids : ∀ n, n0 ≤ n → gen_uuid n ≠ u.

Definition erasure_request (client : DeletionClient) : Request :=
  mkRequest "DELETE"
    (dc_baseURL client +:+ "/internal/api/v1/users/" +:+ uuid_String u)
    (bearer (dc_token client)).

(** The service was asked to delete the account's data and confirmed. *)
Definition erased (sv : string) (w : World) : Prop :=
  ∃ client n resp,
    known sv client ∧ erasure_request client ∈ w_requests w ∧
    http_do n (erasure_request client) = Ok resp ∧
    (200 ≤ resp_status resp < 300)%Z.

Definition not_active (w : World) : Prop :=
  account_state u (w_db w) ≠ Active.

(** A job of the account exists only once it is marked, has a step for every
    service, and a completed step was confirmed. *)
Record lc_inv (w : World) : Prop := {
  lc_ok : db_ok (w_db w);
  lc_ids : n0 ≤ n_uuid (w_counters w);
  lc_job : ∀ k j, account_deletion_jobs (w_db w) !! k = Some j →
    job_user_id j = u →
    not_active w ∧
    (∀ sv, sv ∈ deletionServices →
       is_Some (account_deletion_steps (w_db w) !! (k, sv))) ∧
    ∀ sv row, account_deletion_steps (w_db w) !! (k, sv) = Some row →
      step_status row = "completed" → erased sv w
}.

Record lc_step (w w' : World) : Prop := {
  lc_moves : lifecycle (account_state u (w_db w)) (account_state u (w_db w'));
  lc_requests : ∀ r, r ∈ w_requests w → r ∈ w_requests w';
  lc_jobs : ∀ k j, account_deletion_jobs (w_db w) !! k = Some j →
    ∃ j', account_deletion_jobs (w_db w') !! k = Some j' ∧
          job_user_id j' = job_user_id j;
  lc_gone : account_state u (w_db w) ≠ Gone →
    account_state u (w_db w') = Gone →
    ∀ sv, sv ∈ deletionServices → erased sv w
}.

(** ** Changes of the database that leave the account's job alone *)

Record calm (db db' : Database) : Prop := {
  calm_state : account_state u db' = account_state u db ∨
               account_state u db = Active ∧
               account_state u db' = DeletionPending;
  calm_jobs_kept : ∀ k j, account_deletion_jobs db !! k = Some j →
    ∃ j', account_deletion_jobs db' !! k = Some j' ∧
          job_user_id j' = job_user_id j;
  calm_jobs_old : ∀ k j', account_deletion_jobs db' !! k = Some j' →
    job_user_id j' = u →
    ∃ j, account_deletion_jobs db !! k = Some j ∧ job_user_id j = u;
  calm_steps_kept : ∀ key, is_Some (account_deletion_steps db !! key) →
    is_Some (account_deletion_steps db' !! key);
  calm_steps_done : ∀ key row, account_deletion_steps db' !! key = Some row →
    step_status row = "completed" →
    ∃ row0, account_deletion_steps db !! key = Some row0 ∧
            step_status row0 = "completed"
}.

Lemma calm_same db db' :
  account_state u db' = account_state u db ∨
    account_state u db = Active ∧ account_state u db' = DeletionPending →
  account_deletion_jobs db' = account_deletion_jobs db →
  account_deletion_steps db' = account_deletion_steps db →
  calm db db'.
Proof. intros Hs Hj Hp. split; rewrite ?Hj, ?Hp; eauto. Qed.

Lemma calm_refl db : calm db db.
Proof. apply calm_same; auto. Qed.

Lemma account_state_users db db' :
  users db' !! u = users db !! u → account_state u db' = account_state u db.
Proof. intros H. unfold account_state. by rewrite H. Qed.

(** The statements that can be sent at any time. *)
Definition stmt_calm {X} (q : stmt X) : Prop :=
  match q with
  | InsertUser usr => User.ID usr ≠ u
  | DeleteUser v => v ≠ u
  | UpsertDeletionJob _ _ => False
  | CompleteStep _ _ => False
  | _ => True
  end.

Lemma users_update_calm id f db :
  (∀ usr, User.DeletionStatus (f usr) = User.DeletionStatus usr) →
  calm db (users_update id f db).2.
Proof.
  intros Hf. unfold users_update, update_row.
  destruct (users db !! id) as [usr|] eqn:Hu; apply calm_same; try done; left;
    unfold account_state; simpl; [|done].
  destruct (decide (id = u)) as [->|Hne].
  - rewrite lookup_insert_eq, Hu. unfold User.is_pending. by rewrite Hf.
  - by rewrite lookup_insert_ne.
Qed.

Lemma jobs_update_calm k f db :
  (∀ j, job_user_id (f j) = job_user_id j) →
  calm db (set_jobs (λ _, (update_row k f (account_deletion_jobs db)).2) db).
Proof.
  intros Hf. unfold update_row.
  destruct (account_deletion_jobs db !! k) as [j0|] eqn:Hk;
    [|by apply calm_same; auto].
  split; try by eauto.
  - intros k' j Hj. simpl. destruct (decide (k = k')) as [<-|Hne].
    + rewrite lookup_insert_eq. eexists. split; [done|]. rewrite Hf. congruence.
    + rewrite lookup_insert_ne by done. eauto.
  - intros k' j'. simpl. destruct (decide (k = k')) as [<-|Hne].
    + rewrite lookup_insert_eq. intros [= <-]. rewrite Hf. eauto.
    + rewrite lookup_insert_ne by done. eauto.
Qed.

Lemma steps_write_calm k row db :
  step_status row ≠ "completed" →
  calm db (set_steps <[k := row]> db).
Proof.
  intros Hr. split; try by eauto.
  - intros key Hk. simpl. destruct (decide (k = key)) as [<-|Hne].
    + by rewrite lookup_insert_eq.
    + by rewrite lookup_insert_ne.
  - intros key row'. simpl. destruct (decide (k = key)) as [<-|Hne].
    + rewrite lookup_insert_eq. by intros [= <-].
    + rewrite lookup_insert_ne by done. eauto.
Qed.

Lemma users_delete_calm v db : v ≠ u → calm db (users_delete v db).2.
Proof.
  intros Hv. unfold users_delete.
  destruct (users db !! v); [|apply calm_refl].
  apply calm_same; try done. left. apply account_state_users. simpl.
  by rewrite lookup_delete_ne.
Qed.

Lemma users_insert_calm usr db :
  User.ID usr ≠ u → calm db (users_insert usr db).2.
Proof.
  intros Hu. unfold users_insert. case_match; [apply calm_refl|].
  apply calm_same; try done. left. apply account_state_users. simpl.
  by rewrite lookup_insert_ne.
Qed.

Lemma users_mark_pending_calm v now db :
  calm db (users_mark_pending v now db).2.
Proof.
  unfold users_mark_pending.
  destruct (users db !! v) as [usr|] eqn:Hv; [|apply calm_refl].
  destruct (bool_decide _) eqn:Ha; [|apply calm_refl].
  apply bool_decide_eq_true in Ha. apply calm_same; try done.
  destruct (decide (v = u)) as [->|Hne].
  - right. unfold account_state. simpl. rewrite Hv, lookup_insert_eq.
    unfold User.is_pending. by rewrite Ha.
  - left. apply account_state_users. simpl. by rewrite lookup_insert_ne.
Qed.

Lemma steps_update_calm key f db :
  (∀ row, step_status (f row) ≠ "completed") →
  calm db
    (set_steps (λ _, (update_row key f (account_deletion_steps db)).2) db).
Proof.
  intros Hf. unfold update_row.
  destruct (account_deletion_steps db !! key) as [row|].
  - exact (steps_write_calm key (f row) db (Hf row)).
  - by apply calm_same; auto.
Qed.

Lemma jobs_claim_calm now db : db_ok db → calm db (jobs_claim now db).2.
Proof.
  intros Hok. unfold jobs_claim.
  destruct (earliest _) as [j|] eqn:He; [|apply calm_refl].
  destruct (Int.int4_ok _); [|apply calm_refl].
  apply claim_candidate in He as (k & Hk & _).
  pose proof (ok_jobs_key _ Hok _ _ Hk) as Hid. simpl in Hid. subst k.
  pose proof (jobs_update_calm (job_id j) (claim now) db) as Hc.
  unfold update_row in Hc. rewrite Hk in Hc. by apply Hc.
Qed.

Lemma exec_calm {X} (q : stmt X) now db :
  stmt_calm q → db_ok db → calm db (exec q now db).2.
Proof.
  intros Hq Hok. destruct q; cbn [exec snd]; try apply calm_refl; try done.
  - by apply users_insert_calm.
  - by apply users_update_calm.
  - by apply users_update_calm.
  - by apply users_delete_calm.
  - apply users_mark_pending_calm.
  - unfold tokens_insert. repeat case_match; by apply calm_same; auto.
  - unfold tokens_revoke. repeat case_match; by apply calm_same; auto.
  - by apply calm_same; auto.
  - unfold credentials_insert. repeat case_match; by apply calm_same; auto.
  - unfold credentials_update. repeat case_match; by apply calm_same; auto.
  - unfold challenges_insert. repeat case_match; by apply calm_same; auto.
  - unfold challenges_consume. repeat case_match; by apply calm_same; auto.
  - unfold flows_insert. repeat case_match; by apply calm_same; auto.
  - unfold flows_update. repeat case_match; by apply calm_same; auto.
  - unfold steps_insert. case_match; [apply calm_refl|].
    case_match; [|apply calm_refl]. by apply steps_write_calm.
  - by apply jobs_claim_calm.
  - case_match; [|apply calm_refl]. unfold steps_update.
    pose proof (steps_update_calm (job, service) (retry_step attempt minutes msg now)
      db) as Hc. destruct (update_row _ _ _). by apply Hc.
  - pose proof (jobs_update_calm job (release_job now) db) as Hc.
    unfold jobs_update. destruct (update_row _ _ _). by apply Hc.
  - pose proof (jobs_update_calm job (complete_job now) db) as Hc.
    unfold jobs_update. destruct (update_row _ _ _). by apply Hc.
Qed.

(** ** Effects *)

Lemma n_uuid_mono {X} (e : eff X) w :
  n_uuid (w_counters w) ≤ n_uuid (w_counters (handle e w).2).
Proof.
  destruct e; simpl; unfold handle_query, handle_tx, handle_session;
    repeat case_match; simpl; lia.
Qed.

Lemma requests_mono {X} (e : eff X) w r :
  r ∈ w_requests w → r ∈ w_requests (handle e w).2.
Proof.
  intros Hr. destruct e; try done;
    try by rewrite handle_keeps_requests.
  simpl. by apply list_elem_of_further.
Qed.

Lemma erased_mono sv w w' :
  (∀ r, r ∈ w_requests w → r ∈ w_requests w') → erased sv w → erased sv w'.
Proof. intros H (c & n & resp & ? & ? & ?). exists c, n, resp. auto. Qed.

(** A calm change keeps the invariant and is a step of the life cycle. *)
Lemma calm_keeps w w' :
  lc_inv w → db_ok (w_db w') →
  n_uuid (w_counters w) ≤ n_uuid (w_counters w') →
  (∀ r, r ∈ w_requests w → r ∈ w_requests w') →
  calm (w_db w) (w_db w') → lc_inv w' ∧ lc_step w w'.
Proof.
  intros [Hok Hids Hjob] Hok' Hn Hr [Hst Hjk Hjo Hsk Hsd]. split.
  - split; [done|lia|]. intros k j' Hj' Hu.
    destruct (Hjo _ _ Hj' Hu) as (j & Hj & Huj).
    destruct (Hjob _ _ Hj Huj) as (Hna & Hall & Hdone). split_and!.
    + unfold not_active in *. destruct Hst as [-> | [? ->]]; done.
    + intros sv Hsv. by apply Hsk, Hall.
    + intros sv row Hrow Hc. destruct (Hsd _ _ Hrow Hc) as (row0 & H0 & Hc0).
      eapply erased_mono; [done|by eapply Hdone].
  - split; [|done|done|].
    + destruct Hst as [-> | [-> ->]]; constructor.
    + intros Hng Hg. destruct Hst as [E | [? E]]; congruence.
Qed.

Definition keeps (C : World → Prop) {X} (e : eff X) : Prop :=
  ∀ w, lc_inv w → C w → lc_inv (handle e w).2 ∧ lc_step w (handle e w).2.

Lemma handle_query_db {X} (q : stmt X) w :
  w_db (handle (Query q) w).2 = w_db w ∨
  w_db (handle (Query q) w).2 =
    (exec q (db_clock (n_io (w_counters w))) (w_db w)).2.
Proof.
  simpl. unfold handle_query. destruct (exec _ _ _) as [r db']. unfold faulty.
  destruct (fault _) as [f|]; [|by right].
  destruct (fault_applied f); [by right|by left].
Qed.

(** An effect whose change of the database is calm. *)
Lemma keeps_calm {X} C (e : eff X) :
  (∀ w, lc_inv w → C w → calm (w_db w) (w_db (handle e w).2)) → keeps C e.
Proof.
  intros H w Hw HC. apply calm_keeps; [done|by apply handle_ok, Hw| | |by apply H].
  - apply n_uuid_mono.
  - intros r. apply requests_mono.
Qed.

Lemma keeps_query {X} C (q : stmt X) : stmt_calm q → keeps C (Query q).
Proof.
  intros Hq. apply keeps_calm. intros w Hw _.
  destruct (handle_query_db q w) as [-> | ->]; [apply calm_refl|].
  apply exec_calm; [done|apply Hw].
Qed.

Lemma keeps_other {X} C (e : eff X) :
  match e with Query _ | Transaction _ => False | _ => True end → keeps C e.
Proof.
  intros He. apply keeps_calm. intros w _ _.
  rewrite (same_db (w_db w) (w_db (handle e w).2)); [apply calm_refl|].
  intros T. apply handle_keeps. by destruct e.
Qed.

(** ** The deletion request *)

Lemma requested_calm v db db' :
  v ≠ u → deletion_requested v db db' → calm db db'.
Proof.
  intros Hv []. split.
  - left. apply account_state_users. destruct req_user as (? & ? & ? & ? & ->).
    by rewrite lookup_insert_ne.
  - done.
  - intros k j' Hj' Hu. destruct (req_jobs_new _ _ Hj'); [congruence|eauto].
  - done.
  - eauto.
Qed.

Lemma requested_keeps w w' :
  lc_inv w → db_ok (w_db w') →
  n_uuid (w_counters w) ≤ n_uuid (w_counters w') →
  w_requests w' = w_requests w →
  deletion_requested u (w_db w) (w_db w') → lc_inv w' ∧ lc_step w w'.
Proof.
  intros [Hok Hids Hjob] Hok' Hn Hr [].
  destruct req_user as (usr & now & Hu & Ha & Hus).
  assert (Hst' : account_state u (w_db w') = DeletionPending).
  { unfold account_state. by rewrite Hus, lookup_insert_eq. }
  assert (Hst : account_state u (w_db w) = Active).
  { unfold account_state. rewrite Hu. unfold User.is_pending. by rewrite Ha. }
  destruct req_job as (k0 & row0 & Hk0 & Hu0 & Hall0). split.
  - split; [done|lia|]. intros k j Hj Huj. split_and!.
    + unfold not_active. by rewrite Hst'.
    + assert (k = k0) as ->; [|done].
      by eapply (ok_jobs_user _ Hok' k k0 j row0 u);
        [done|done|simpl; f_equal..].
    + intros sv row Hrow Hc. specialize (req_steps_done _ _ Hrow Hc).
      pose proof (ok_steps_key _ Hok _ _ req_steps_done) as Hkey.
      destruct (ok_steps_fk _ Hok _ _ k req_steps_done) as [j0 Hj0].
      { simpl. simpl in Hkey. congruence. }
      destruct (req_jobs_kept _ _ Hj0) as (j1 & Hj1 & Huj1).
      destruct (Hjob k j0 Hj0) as (_ & _ & Hdone); [congruence|].
      eapply erased_mono; [|by eapply Hdone]. by rewrite Hr.
  - split; [rewrite Hst, Hst'; constructor|by rewrite Hr|done|].
    rewrite Hst'. done.
Qed.

Lemma keeps_request C job v :
  keeps C (Transaction (DeletionStore.request_tx job v)).
Proof.
  intros w Hw _.
  assert (Hdb : w_db (handle (Transaction (DeletionStore.request_tx job v)) w).2
      = w_db w ∨
    deletion_requested v (w_db w)
      (w_db (handle (Transaction (DeletionStore.request_tx job v)) w).2)).
  { cbn [handle]. unfold handle_tx. destruct (fault _); [by left|].
    pose proof (request_tx_run job v (db_clock (n_io (w_counters w))) (w_db w)
      (S (n_io (w_counters w))) (lc_ok _ Hw)) as Hr.
    destruct (run_tx _ _ _ _ _ _) as [[r dbf] j].
    destruct Hr as [[-> _]|Hr]; [by left|by right]. }
  assert (Hok' := handle_ok (Transaction (DeletionStore.request_tx job v)) w
    (lc_ok _ Hw)).
  assert (Hn := n_uuid_mono (Transaction (DeletionStore.request_tx job v)) w).
  assert (Hr := handle_keeps_requests
    (Transaction (DeletionStore.request_tx job v)) w I).
  destruct Hdb as [E|Hd]; [|destruct (decide (v = u)) as [->|Hv]].
  - apply calm_keeps; [done..|by rewrite Hr|rewrite E; apply calm_refl].
  - by apply requested_keeps.
  - apply calm_keeps; [done..|by rewrite Hr|by eapply requested_calm].
Qed.

(** ** The worker *)

(** What the worker knows while it goes through the steps of a job. *)
Record ready (job : DeletionJob) (steps : list DeletionStep) (w : World) :
    Prop := {
  rd_job : ∃ j, account_deletion_jobs (w_db w) !! Job_ID job = Some j ∧
                job_user_id j = Job_UserID job;
  rd_user : Job_UserID job = u →
    not_active w ∧
    (∀ sv, sv ∈ deletionServices →
       erased sv w ∨ ∃ st, st ∈ steps ∧ Service st = sv) ∧
    ∀ st, st ∈ steps → Status st = "completed" → erased (Service st) w
}.

Lemma not_active_step w w' : lc_step w w' → not_active w → not_active w'.
Proof.
  intros [Hm _ _ _]. unfold not_active. by destruct Hm.
Qed.

Lemma ready_stable job steps : stable lc_inv lc_step (ready job steps).
Proof.
  intros w w' _ [(j & Hj & Hu) Huser] Hs _. split.
  - destruct (lc_jobs _ _ Hs _ _ Hj) as (j' & Hj' & E). exists j'.
    split; [done|congruence].
  - intros E. destruct (Huser E) as (Hna & Hall & Hdone). split_and!.
    + by eapply not_active_step.
    + intros sv Hsv. destruct (Hall sv Hsv) as [He|?]; [left|by right].
      eapply erased_mono; [apply Hs|done].
    + intros st Hst Hc. eapply erased_mono; [apply Hs|by apply Hdone].
Qed.

Lemma steps_of_row db k sv row :
  db_ok db → account_deletion_steps db !! (k, sv) = Some row →
  row ∈ steps_of k db ∧ step_service row = sv.
Proof.
  intros Hok Hrow. pose proof (ok_steps_key _ Hok _ _ Hrow) as Hkey.
  simpl in Hkey. injection Hkey as Hk Hsv. split; [|done].
  apply elem_of_steps_of. eauto.
Qed.

Lemma claim_ready w :
  lc_inv w →
  match (handle (Transaction DeletionJobStore.claim_tx) w).1 with
  | Ok (Ok (Some job)) =>
      ready job (Job_Steps job)
        (handle (Transaction DeletionJobStore.claim_tx) w).2
  | _ => True
  end ∧
  calm (w_db w) (w_db (handle (Transaction DeletionJobStore.claim_tx) w).2).
Proof.
  intros [Hok Hids Hjob].
  assert (Hrun : run DeletionJobStore.ClaimDeletion w =
    (match (handle (Transaction DeletionJobStore.claim_tx) w).1 with
     | Ok a => a | Err e => Err e end,
     (handle (Transaction DeletionJobStore.claim_tx) w).2)).
  { unfold DeletionJobStore.ClaimDeletion. rewrite run_bindE, run_perform.
    by destruct (handle _ w) as [[a|e] w1]. }
  apply claim_run in Hrun; [|done].
  destruct (handle (Transaction DeletionJobStore.claim_tx) w) as [rr w1].
  cbn [fst snd] in *.
  destruct Hrun as [[[E Hn]|(j & Hj & _ & E & Hr)] Hreq].
  - split; [|rewrite E; apply calm_refl].
    destruct rr as [[[job|]|]|]; try done. by destruct (Hn job).
  - split.
    2:{ rewrite E. pose proof (jobs_update_calm (job_id j) (claim (next_now w))
          (w_db w)) as Hc. unfold update_row in Hc. rewrite Hj in Hc.
        by apply Hc. }
    destruct rr as [[[job|]|]|]; try done. rewrite (Hr job eq_refl).
    split; simpl.
    + rewrite E. simpl. rewrite lookup_insert_eq. by eexists.
    + intros Hu. destruct (Hjob _ _ Hj Hu) as (Hna & Hall & Hdone).
      split_and!.
      * unfold not_active, account_state in *. by rewrite E.
      * intros sv Hsv. right. destruct (Hall sv Hsv) as [row Hrow].
        apply steps_of_row in Hrow as [Hin Hs]; [|done].
        exists (scan_step row). split; [|done]. apply list_elem_of_fmap. eauto.
      * intros st (row & -> & Hin)%list_elem_of_fmap Hc.
        apply elem_of_steps_of in Hin as [Hid [key Hk]].
        pose proof (ok_steps_key _ Hok _ _ Hk) as Hkey. simpl in Hkey.
        rewrite <-Hid in Hdone. rewrite <-Hkey in Hk.
        eapply erased_mono; [|by eapply Hdone]. by rewrite Hreq.
Qed.

#[local] Abbreviation RG := (rg lc_inv lc_step).

Lemma rg_keeps {A} C (p : prog A) :
  stable lc_inv lc_step C → all_effects (λ X e, keeps C e) p →
  RG C p (λ _, C).
Proof.
  intros HC Hp. eapply (rg_effects _ _ (λ X e, keeps C e)); [done| |done].
  intros X e w He. apply He.
Qed.

(** One service confirmed: its step may be recorded as completed. *)
Lemma rg_DeleteUserData C client job sv :
  stable lc_inv lc_step C → known sv client →
  RG C (DeleteUserData client (Job_UserID job))
    (on_Ok (λ _ w, C w ∧ (Job_UserID job = u → erased sv w))).
Proof.
  intros HC Hk. unfold DeleteUserData, internal_delete.
  destruct (NewRequest _ _ _) as [req|] eqn:Hreq; [|apply rg_err].
  apply NewRequest_Ok in Hreq as ->.
  eapply (rg_bindE _ _ _ _ _ (λ resp w, C w ∧
    (Job_UserID job = u → erasure_request client ∈ w_requests w ∧
     ∃ n, http_do n (erasure_request client) = Ok resp))).
  - unfold perform. intros w Hw Hc.
    destruct (keeps_other C (HttpDo (mkRequest "DELETE"
      (dc_baseURL client +:+ "/internal/api/v1/users/" +:+
       uuid_String (Job_UserID job)) (bearer (dc_token client)))) I w Hw Hc)
      as [HI HG].
    split_and!; [done..|].
    match goal with |- context [handle ?e w] => set (w1 := (handle e w).2) in *;
      set (r1 := (handle e w).1) end.
    exists (on_Ok (λ resp w, C w ∧
      (Job_UserID job = u → erasure_request client ∈ w_requests w ∧
       ∃ n, http_do n (erasure_request client) = Ok resp)) r1).
    split; [|split; [|by intros w2 _]].
    + destruct r1 as [resp|e]; [|done]. intros w2 w3 Hw2 [H1 H2] Hs Hw3.
      split; [exact (HC w2 w3 Hw2 H1 Hs Hw3)|]. intros E. destruct (H2 E) as [H3 H4].
      split; [by apply Hs|done].
    + destruct r1 as [resp|e] eqn:E; [|done]. split; [exact (HC w w1 Hw Hc HG HI)|].
      intros Hu. unfold erasure_request. rewrite <-Hu. split.
      * apply list_elem_of_here.
      * exists (n_http (w_counters w)). exact E.
  - intros resp. destruct (bool_decide _) eqn:Hst; [|apply rg_err].
    apply bool_decide_eq_true in Hst. apply rg_ok. intros w _ [Hc Hr].
    split; [done|]. intros Hu. destruct (Hr Hu) as (Hin & n & Hn).
    by exists client, n, resp.
Qed.

Lemma keeps_complete_step job sv :
  keeps (λ w, (∃ j, account_deletion_jobs (w_db w) !! Job_ID job = Some j ∧
                    job_user_id j = Job_UserID job) ∧
              (Job_UserID job = u → erased sv w))
    (Query (CompleteStep (Job_ID job) sv)).
Proof.
  intros w Hw [(j0 & Hj0 & Hu0) Her].
  assert (Hdb := handle_query_db (CompleteStep (Job_ID job) sv) w).
  assert (Hok' := handle_ok (Query (CompleteStep (Job_ID job) sv)) w (lc_ok _ Hw)).
  assert (Hn := n_uuid_mono (Query (CompleteStep (Job_ID job) sv)) w).
  assert (Hr := handle_keeps_requests (Query (CompleteStep (Job_ID job) sv)) w I).
  set (w' := (handle _ w).2) in *.
  destruct Hdb as [E|E].
  { apply calm_keeps; [done..|by rewrite Hr|rewrite E; apply calm_refl]. }
  cbn [exec] in E. unfold steps_update, update_row in E.
  destruct (account_deletion_steps (w_db w) !! (Job_ID job, sv)) as [row0|]
    eqn:Hrow0; cbn [snd] in E.
  2:{ apply calm_keeps; [done..|by rewrite Hr|rewrite E; apply calm_same; auto]. }
  set (now := db_clock _) in E. split.
  - split; [done|pose proof (lc_ids _ Hw); lia|]. intros k j Hj Hu.
    rewrite E in Hj. simpl in Hj.
    destruct (lc_job _ Hw _ _ Hj Hu) as (Hna & Hall & Hdone). split_and!.
    + unfold not_active, account_state in *. by rewrite E.
    + intros sv' Hsv. rewrite E. simpl.
      destruct (decide ((Job_ID job, sv) = (k, sv'))) as [->|Hne];
        [by rewrite lookup_insert_eq|rewrite lookup_insert_ne by done; auto].
    + intros sv' row Hrow Hc. rewrite E in Hrow. simpl in Hrow.
      apply (erased_mono _ w); [by rewrite Hr|].
      destruct (decide ((Job_ID job, sv) = (k, sv'))) as [Heq|Hne].
      * injection Heq as <- <-. apply Her. congruence.
      * rewrite lookup_insert_ne in Hrow by done. by eapply Hdone.
  - split; [|by rewrite Hr|rewrite E; simpl; eauto|].
    + rewrite (account_state_users (w_db w) (w_db w')) by by rewrite E.
      constructor.
    + rewrite (account_state_users (w_db w) (w_db w')) by by rewrite E.
      done.
Qed.

Lemma keeps_delete_user job C :
  (∀ w, C w → Job_UserID job = u →
     not_active w ∧ ∀ sv, sv ∈ deletionServices → erased sv w) →
  keeps C (Query (DeleteUser (Job_UserID job))).
Proof.
  intros HC w Hw Hc.
  destruct (decide (Job_UserID job = u)) as [Hu|Hne].
  2:{ by apply (keeps_query C). }
  destruct (HC w Hc Hu) as [Hna Hall]. rewrite Hu.
  assert (Hdb := handle_query_db (DeleteUser u) w).
  assert (Hok' := handle_ok (Query (DeleteUser u)) w (lc_ok _ Hw)).
  assert (Hn := n_uuid_mono (Query (DeleteUser u)) w).
  assert (Hr := handle_keeps_requests (Query (DeleteUser u)) w I).
  set (w' := (handle _ w).2) in *.
  destruct Hdb as [E|E].
  { apply calm_keeps; [done..|by rewrite Hr|rewrite E; apply calm_refl]. }
  cbn [exec] in E.
  assert (Hgone : account_state u (w_db w') = Gone).
  { unfold account_state. by rewrite E, users_delete_users, lookup_delete_eq. }
  assert (Hjobs : account_deletion_jobs (w_db w') =
    account_deletion_jobs (w_db w) ∧
    account_deletion_steps (w_db w') = account_deletion_steps (w_db w)).
  { rewrite E. unfold users_delete. by destruct (users _ !! u). }
  destruct Hjobs as [Ej Es]. split.
  - split; [done|pose proof (lc_ids _ Hw); lia|]. intros k j Hj Huj.
    rewrite Ej in Hj. destruct (lc_job _ Hw _ _ Hj Huj) as (_ & H1 & H2).
    rewrite Es. split_and!; [unfold not_active; by rewrite Hgone|done|].
    intros sv row Hrow Hc'. apply (erased_mono _ w); [by rewrite Hr|by eapply H2].
  - split; [|by rewrite Hr|rewrite Ej; eauto|done].
    rewrite Hgone. unfold not_active in Hna.
    destruct (account_state u (w_db w)); [done|constructor..].
Qed.

Lemma keeps_mono {X} (C C' : World → Prop) (e : eff X) :
  (∀ w, C w → C' w) → keeps C' e → keeps C e.
Proof. intros HC He w Hw Hc. apply He; auto. Qed.

Lemma erased_stable job sv :
  stable lc_inv lc_step (λ w, Job_UserID job = u → erased sv w).
Proof.
  intros w w' _ H Hs _ E. eapply erased_mono; [apply Hs|by apply H].
Qed.

(** Leaves of a walk: effects that are calm at any time. *)
Ltac keeps_leaf :=
  first [ by apply keeps_query | by apply keeps_other
        | apply keeps_request ].

Lemma rg_calm {A} C (p : prog A) :
  all_effects (λ X e, keeps (λ _, True) e) p → RG C p (λ _ _, True).
Proof.
  intros Hp. eapply rg_pre; [|by apply (rg_keeps (λ _, True))]. done.
Qed.

Lemma rg_retry C job st e : RG C (retry job st e) (λ _ _, True).
Proof.
  apply rg_calm. unfold retry. autounfold with effects. walk; keeps_leaf.
Qed.

Lemma ready_tail job st steps w :
  ready job (st :: steps) w →
  (Job_UserID job = u → erased (Service st) w) → ready job steps w.
Proof.
  intros [Hj Hu] He. split; [done|]. intros E.
  destruct (Hu E) as (Hna & Hall & Hdone). split_and!; [done|..].
  - intros sv Hsv. destruct (Hall sv Hsv) as [?|(st' & Hin & Hs)]; [by left|].
    apply elem_of_cons in Hin as [->|Hin]; [left; rewrite <-Hs; auto|right; eauto].
  - intros st' Hin. apply Hdone. by apply list_elem_of_further.
Qed.

Lemma rg_finish_job job : RG (ready job []) (finish_job job) (λ _ _, True).
Proof.
  eapply rg_post; [|apply rg_keeps; [apply ready_stable|]]; [done|].
  unfold finish_job. autounfold with effects. walk; try keeps_leaf.
  apply keeps_delete_user. intros w [_ Hu] E.
  destruct (Hu E) as (Hna & Hall & _). split; [done|]. intros sv Hsv.
  destruct (Hall sv Hsv) as [?|(st & Hin & _)]; [done|].
  by apply elem_of_nil in Hin.
Qed.

Lemma rg_run_steps cl job steps :
  (∀ sv c, cl !! sv = Some c → known sv c) →
  RG (ready job steps) (run_steps cl job steps (finish_job job))
    (λ _ _, True).
Proof.
  intros Hcl. induction steps as [|st steps IH]; cbn [run_steps].
  { apply rg_finish_job. }
  destruct (bool_decide _) eqn:Hc.
  { apply bool_decide_eq_true in Hc. eapply rg_pre; [|exact IH].
    intros w _ Hr. apply (ready_tail _ st); [done|]. intros E.
    destruct (rd_user _ _ _ Hr E) as (_ & _ & Hdone).
    apply Hdone; [apply list_elem_of_here|done]. }
  destruct (cl !! Service st) as [client|] eqn:Hcli; [|apply rg_retry].
  eapply rg_bind.
  { apply (rg_DeleteUserData _ client job (Service st));
      [apply (ready_stable job (st :: steps))|by apply Hcl]. }
  intros [[]|e]; [|apply rg_retry].
  apply (rg_post _ _ _ _ (on_Ok (λ _ _, True))); [done|].
  apply (rg_bindE _ _ _ _ _ (λ _ w, ready job (st :: steps) w ∧
    (Job_UserID job = u → erased (Service st) w))).
  - eapply rg_post; [|apply rg_keeps].
    + intros r w _ Hr. destruct r; [exact Hr|done].
    + apply stable_and; [apply ready_stable|apply erased_stable].
    + autounfold with effects. walk.
      eapply keeps_mono; [|apply keeps_complete_step].
      intros w [[Hj _] He]. by split.
  - intros _. eapply rg_post; [|eapply rg_pre; [|exact IH]].
    + by intros [?|?].
    + intros w _ [Hr He]. by eapply ready_tail.
Qed.

Lemma rg_RunOnce cl :
  (∀ sv c, cl !! sv = Some c → known sv c) →
  RG (λ _, True) (RunOnce cl) (λ _ _, True).
Proof.
  intros Hcl. unfold RunOnce.
  apply (rg_post _ _ _ _ (on_Ok (λ _ _, True))); [done|].
  set (Q := λ (o : option DeletionJob) w,
    match o with Some job => ready job (Job_Steps job) w | None => True end).
  apply (rg_bindE _ _ _ _ _ Q).
  - unfold DeletionJobStore.ClaimDeletion.
    apply (rg_bindE _ _ _ _ _ (on_Ok Q)).
    + apply rg_perform.
      * intros [[[job|]|]|]; try done. apply ready_stable.
      * intros w Hw _. destruct (claim_ready w Hw) as [Hr Hcalm].
        destruct (calm_keeps w
          (handle (Transaction DeletionJobStore.claim_tx) w).2) as [H1 H2];
          [done|by apply handle_ok, Hw|apply n_uuid_mono|
           intros r; apply requests_mono|done|].
        split_and!; [done..|].
        by destruct (handle _ w).1 as [[[job|]|]|].
    + intros [o|e]; [|by intros w]. by intros w _ H.
  - intros [job|]; [|by intros w].
    eapply rg_post; [|by apply rg_run_steps]. by intros [?|?].
Qed.

(** ** The requests *)

Hypothesis queued : svc_deletion s ≠ NoDeletion.

Lemma rg_Register inp :
  RG (λ _, True) (Register s inp) (λ _ _, True).
Proof.
  unfold Register.
  apply (rg_post _ _ _ _ (on_Ok (λ _ _, True))); [done|].
  apply (rg_bindE _ _ _ _ _ (λ _ _, True)).
  { eapply rg_post; [|apply rg_calm; unfold Hash; walk; keeps_leaf].
    by intros [?|?]. }
  intros hash. apply (rg_bind _ _ _ _ _ (λ _ _, True)).
  { apply rg_calm. walk; keeps_leaf. }
  intros now. apply (rg_bind _ _ _ _ _ (λ id _, id ≠ u)).
  { apply rg_perform; [by intros x w|]. intros w Hw _.
    destruct (keeps_other (λ _, True) NewUUID I w Hw I) as [HI HG].
    split_and!; [done..|]. simpl. apply fresh_ids. apply Hw. }
  intros id. apply (rg_pure _ _ (id ≠ u)). intros Hid.
  eapply rg_post; [|apply rg_calm]; [by intros [?|?]|].
  unfold beginTOTPSetup, tokenhash_Generate, GenerateSecret, Encrypt.
  autounfold with effects. walk; keeps_leaf.
Qed.

Definition knows (r : UseCase) : Prop :=
  match r with
  | UCDeletionTick cl => ∀ sv c, cl !! sv = Some c → known sv c
  | _ => True
  end.

Lemma serve_lifecycle r :
  knows r → RG (λ _, True) (serve s r) (λ _ _, True).
Proof.
  intros Hk. destruct r; unfold serve, forget;
    try (apply (rg_bind _ _ _ _ _ (λ _ _, True)); [|by intros a w]).
  { apply rg_Register. }
  all: try by apply rg_RunOnce.
  all: apply rg_calm.
  all: unfold Login, SetupVerifyOTP, LoginVerifyOTP, Refresh, Logout,
    CurrentUser, UpdateProfile,
    ChangePassword, DeleteAccount, RequestPasswordReset,
    VerifyPasswordResetOTP, ConfirmPasswordReset, session_cleanup,
    beginTOTPSetup, issueLoginChallenge, issueSession, reset_code_valid,
    verifyOTP, Issue, IssueWithGeneration,
    validateOTP, end_sessions, cleanupSessionDevices,
    tokenhash_Generate, GenerateSecret, Encrypt, Hash, VerifyOwnership,
    DeleteByIDs, DeleteAllMine, DeleteAllByUser, delete_call,
    DeleteSessionData, internal_delete.
  all: autounfold with effects; walk; try keeps_leaf.
  all: try congruence.
Qed.

Lemma pool_lifecycle (rs : list UseCase) w ps1 w1 ps2 w2 :
  Forall knows rs → lc_inv w →
  rtc pool_step (serve s <$> rs, w) (ps1, w1) →
  pool_step (ps1, w1) (ps2, w2) →
  lc_inv w2 ∧ lc_step w1 w2.
Proof.
  intros Hrs Hw Hr Hs.
  destruct (pool_rg lc_inv lc_step _ _ Hr) as (HI & Hsafe & _); [done| |].
  - apply Forall_fmap. eapply Forall_impl; [exact Hrs|]. intros r Hk.
    exists (λ _, True). split_and!; [by intros ?|done|].
    by apply serve_lifecycle.
  - destruct (pool_step_rg lc_inv lc_step _ _ _ _ Hs HI Hsafe)
      as (HI2 & HG & _). done.
Qed.
End lifecycle.

Section theorems.
Context `{PT : PgTime, EV : Env, SS : SessionStore, L : Lib, U : Unicode}.
Variable s : AuthService.

(** An account no deletion was requested for, whose id is never generated
    again. *)
Definition unmarked (u : uuid) (w : World) : Prop :=
  (∀ n, n_uuid (w_counters w) ≤ n → gen_uuid n ≠ u) ∧
  ∀ k j, account_deletion_jobs (w_db w) !! k = Some j → job_user_id j ≠ u.

(** The clients of the worker ticks among [rs]. *)
Definition worker_client (rs : list UseCase) (sv : string)
    (client : DeletionClient) : Prop :=
  ∃ cl, UCDeletionTick cl ∈ rs ∧ cl !! sv = Some client.

Lemma unmarked_inv u known w :
  db_ok (w_db w) → unmarked u w →
  lc_inv u known (n_uuid (w_counters w)) w.
Proof.
  intros Hok [_ Hj]. split; [done|done|]. intros k j Hk Hu.
  by destruct (Hj _ _ Hk).
Qed.

Lemma requests_lifecycle u (rs : list UseCase) w ps1 w1 ps2 w2 :
  svc_deletion s ≠ NoDeletion → db_ok (w_db w) → unmarked u w →
  rtc pool_step (serve s <$> rs, w) (ps1, w1) →
  pool_step (ps1, w1) (ps2, w2) →
  db_ok (w_db w2) ∧ lc_step u (worker_client rs) w1 w2.
Proof.
  intros Hdel Hok Hun Hr Hs.
  destruct (pool_lifecycle s u (worker_client rs) (n_uuid (w_counters w))
    (proj1 Hun) Hdel rs w ps1 w1 ps2 w2) as [HI HG];
    [|by apply unmarked_inv|done|done|].
  - apply Forall_forall. intros [] Hin; try done. simpl. intros sv c Hc.
    by exists clients.
  - split; [apply HI|exact HG].
Qed.

(** C6. In any interleaving of any requests and worker ticks, whatever fails,
    every step takes an account only from active to marked for deletion to
    gone; and when it goes, every service of a deletion job had been asked to
    delete its data and had answered with success, and no row of the account
    is left. *)
Theorem account_lifecycle u (rs : list UseCase) w ps1 w1 ps2 w2 :
  svc_deletion s ≠ NoDeletion → db_ok (w_db w) → unmarked u w →
  rtc pool_step (serve s <$> rs, w) (ps1, w1) →
  pool_step (ps1, w1) (ps2, w2) →
  lifecycle (account_state u (w_db w1)) (account_state u (w_db w2)) ∧
  (account_state u (w_db w1) ≠ Gone → account_state u (w_db w2) = Gone →
   (∀ sv, sv ∈ deletionServices → erased u (worker_client rs) sv w1) ∧
   every (λ t, Token.UserID t ≠ u) (refresh_tokens (w_db w2)) ∧
   every (λ c, Totp.UserID c ≠ u) (two_factor_credentials (w_db w2)) ∧
   every (λ c, LoginChallenge.UserID c ≠ u) (login_challenges (w_db w2)) ∧
   every (λ f, PasswordReset.UserID f ≠ Some u)
     (password_reset_flows (w_db w2))).
Proof.
  intros Hdel Hok Hun Hr Hs.
  destruct (requests_lifecycle u rs w ps1 w1 ps2 w2) as [Hok2 [Hm _ _ Hg]];
    [done..|]. split; [done|]. intros H1 H2.
  assert (Hno : ¬ is_Some (users (w_db w2) !! u)).
  { unfold account_state in H2. destruct (users (w_db w2) !! u); [|by intros []].
    by destruct (User.is_pending _). }
  split_and!; [by apply Hg|..]; intros k t Hk E; apply Hno.
  - apply (ok_tokens_fk _ Hok2 _ _ u Hk). by f_equal.
  - apply (ok_creds_fk _ Hok2 _ _ u Hk). by f_equal.
  - apply (ok_challenges_fk _ Hok2 _ _ u Hk). by f_equal.
  - by apply (ok_flows_fk _ Hok2 _ _ u Hk).
Qed.
End theorems.

(** The account's deletion is requested while two workers tick; the second
    one finds the job. *)
Definition demo_erasure : list UseCase :=
  [UCDeleteAccount 1000%N "access" (demo_code demo_world);
   UCDeletionTick demo_clients; UCDeletionTick demo_clients].
(** Up to the turn that deletes the account. *)
Definition demo_erasure_sched : list nat :=
  1 :: replicate 12 0 ++ replicate 15 2.
Definition demo_erasure_run (sched : list nat) : list (prog unit) * World :=
  sched_run sched (serve demo_service <$> demo_erasure) demo_world.

Lemma demo_unmarked : unmarked 1000%N demo_world.
Proof.
  split.
  - intros n Hn. assert (Hc : n_uuid (w_counters demo_world) = 2)
      by (vm_compute; reflexivity).
    rewrite Hc in Hn. cbn [gen_uuid demo_env env_with]. lia.
  - assert (Hj : account_deletion_jobs (w_db demo_world) = ∅)
      by (vm_compute; reflexivity).
    rewrite Hj. intros k j Hk. by rewrite lookup_empty in Hk.
Qed.

Lemma demo_erasure_reaches :
  rtc pool_step (serve demo_service <$> demo_erasure, demo_world)
    ((demo_erasure_run demo_erasure_sched).1,
     (demo_erasure_run demo_erasure_sched).2) ∧
  pool_step ((demo_erasure_run demo_erasure_sched).1,
             (demo_erasure_run demo_erasure_sched).2)
    ((demo_erasure_run (demo_erasure_sched ++ [2])).1,
     (demo_erasure_run (demo_erasure_sched ++ [2])).2).
Proof.
  rewrite <-!surjective_pairing. split; [apply sched_run_reachable|].
  apply sched_run_step. vm_compute. reflexivity.
Qed.

Lemma account_lifecycle_witness :
  lifecycle
    (account_state 1000%N (w_db (demo_erasure_run demo_erasure_sched).2))
    (account_state 1000%N
       (w_db (demo_erasure_run (demo_erasure_sched ++ [2])).2)) ∧
  erased 1000%N (worker_client demo_erasure) "media"
    (demo_erasure_run demo_erasure_sched).2.
Proof.
  destruct demo_erasure_reaches as [H1 H2].
  destruct (account_lifecycle demo_service 1000%N demo_erasure demo_world
    _ _ _ _ ltac:(discriminate) demo_world_ok demo_unmarked H1 H2)
    as [Hm Hg].
  split; [exact Hm|]. destruct Hg as [He _].
  - vm_compute. discriminate.
  - vm_compute. reflexivity.
  - apply He. apply (bool_decide_unpack _). vm_compute. exact I.
Defined.
