(* ===== verification/Lease.v ===== *)
(** * The lease of a deletion job

    A worker that claims a job holds it for two minutes. As long as the
    database's clock has not passed the lease, nobody else works on the job,
    however many workers and requests run at the same time, started before the
    claim or after it, and whatever fails: the job stays as its holder left
    it, no step of it is recorded or put off, and its account is not deleted
    under the holder's hands. Only a worker that is still busy with this very
    job, whose own lease ran out, is not kept away: a claim is counted in the
    job's row, and the theorem asks that none was made since the others
    started. *)
From S2P Require Import Prelude Tables GoBase Domain Schema Effects Logic.
From S2P Require Import GoStrings Platform Postgres Service.
From S2P Require Import Footprint Integrity Repositories DeletionWorker.
From S2P Require Import Demo Requests Worker.
#[local] Open Scope go_scope.

(** All of a job but the instant of its last change, which a repeated request
    moves on. *)
Definition job_core (r : DeletionJobRow) :
    uuid * string * Z * time * option time * option string :=
  (job_user_id r, job_status r, job_attempt_count r, job_next_attempt_at r,
   job_lease_until r, job_last_error r).

Section lease.
Context `{PT : PgTime, EV : Env, SS : SessionStore, L : Lib, U : Unicode}.
Variable s : AuthService.
Hypothesis queued : svc_deletion s ≠ NoDeletion.

(** The job, its lease, the database it was left in, and the round trip up
    to which the lease runs. *)
Variables (j : uuid) (row : DeletionJobRow) (l : time) (db0 : Database).
Variables n0 n1 : nat.
Hypothesis stored : account_deletion_jobs db0 !! j = Some row.
Hypothesis lease : job_lease_until row = Some l.
Hypothesis running : ∀ n, n0 ≤ n < n1 → (db_clock n ≤ l)%Z.
#[local] Abbreviation owner := (job_user_id row).
Implicit Types (w : World).

Record held (db : Database) : Prop := {
  hd_ok : db_ok db;
  hd_job : job_core <$> account_deletion_jobs db !! j = Some (job_core row);
  hd_steps : ∀ sv r, account_deletion_steps db0 !! (j, sv) = Some r →
               account_deletion_steps db !! (j, sv) = Some r;
  hd_user : is_Some (users db0 !! owner) → is_Some (users db !! owner)
}.

Lemma held_row db :
  held db → ∃ r, account_deletion_jobs db !! j = Some r ∧
                 job_core r = job_core row.
Proof.
  intros [_ Hj _ _]. destruct (account_deletion_jobs db !! j) as [r|]; [|done].
  injection Hj as Hj. exists r. split; [done|]. unfold job_core. congruence.
Qed.

(** The statements that do not concern the job. *)
Definition elsewhere {X} (q : stmt X) : Prop :=
  match q with
  | DeleteUser v => v ≠ owner
  | CompleteStep k _ | RetryStep k _ _ _ _ | ReleaseJob k | CompleteJob k =>
      k ≠ j
  | _ => True
  end.

(** ** Statements *)

(** A running lease keeps the job out of reach. *)
Lemma leased_not_claimable now db r :
  (now ≤ l)%Z → held db → account_deletion_jobs db !! j = Some r →
  claimable now r = false.
Proof.
  intros Hn [_ Hj _ _] Hr. rewrite Hr in Hj. injection Hj as _ _ _ _ Hl _.
  unfold claimable. rewrite Hl, lease, andb_false_iff. right.
  apply bool_decide_eq_false. lia.
Qed.

Lemma insert_core k r (m : gmap uuid DeletionJobRow) :
  (k = j → job_core <$> m !! j = Some (job_core r)) →
  job_core <$> m !! j = Some (job_core row) →
  job_core <$> <[k := r]> m !! j = Some (job_core row).
Proof.
  intros Hk Hj. destruct (decide (k = j)) as [->|Hne].
  - rewrite lookup_insert_eq. rewrite <-Hj, Hk by done. done.
  - by rewrite lookup_insert_ne.
Qed.

Lemma jobs_update_elsewhere k f db :
  k ≠ j → held db →
  job_core <$> account_deletion_jobs (jobs_update k f db).2 !! j =
  Some (job_core row).
Proof.
  intros Hne Hd. unfold jobs_update, update_row.
  destruct (account_deletion_jobs db !! k) as [r|]; simpl; [|apply Hd].
  apply insert_core; [by intros ->|apply Hd].
Qed.

Lemma exec_job {X} (q : stmt X) now db :
  elsewhere q → (now ≤ l)%Z → held db →
  job_core <$> account_deletion_jobs (exec q now db).2 !! j =
  Some (job_core row).
Proof.
  intros Hq Hn Hd. destruct (decide (Jobs ∈ writes q)) as [Hin|Hno].
  2:{ pose proof (exec_keeps Jobs q now db Hno) as Hk. simpl in Hk.
      rewrite <-Hk. apply Hd. }
  destruct q; try done;
    try (exfalso; rewrite list_elem_of_In in Hin; simpl in Hin;
         intuition congruence); cbn [exec].
  - unfold jobs_upsert. destruct (select_one _ _) as [r|] eqn:Hs.
    + apply select_one_Some in Hs as [_ [k Hk]].
      pose proof (ok_jobs_key _ (hd_ok _ Hd) _ _ Hk) as Hkey. simpl in Hkey.
      subst k. apply insert_core; [|apply Hd]. intros <-. by rewrite Hk.
    + case_bool_decide as Hfree; [apply Hd|].
      apply insert_core; [|apply Hd]. intros ->. destruct Hfree.
      destruct (held_row _ Hd) as (r & Hr & _). eauto.
  - unfold jobs_claim. destruct (earliest _) as [r|] eqn:He; [|apply Hd].
    case_match; [|apply Hd]. apply insert_core; [|apply Hd].
    apply claim_candidate in He as (k & He & Hc).
    pose proof (ok_jobs_key _ (hd_ok _ Hd) _ _ He) as Hkey. simpl in Hkey.
    intros Hj. rewrite Hj in Hkey. subst k.
    by rewrite (leased_not_claimable now db) in Hc.
  - by apply jobs_update_elsewhere.
  - by apply jobs_update_elsewhere.
Qed.

Lemma steps_update_elsewhere k sv f db sv' r :
  k ≠ j → account_deletion_steps db !! (j, sv') = Some r →
  account_deletion_steps (steps_update k sv f db).2 !! (j, sv') = Some r.
Proof.
  intros Hne Hr. unfold steps_update, update_row.
  destruct (account_deletion_steps db !! (k, sv)); simpl; [|done].
  rewrite lookup_insert_ne; [done|]. by intros [= ->].
Qed.

Lemma exec_steps {X} (q : stmt X) now db sv r :
  elsewhere q → account_deletion_steps db !! (j, sv) = Some r →
  account_deletion_steps (exec q now db).2 !! (j, sv) = Some r.
Proof.
  intros Hq Hr. destruct (decide (Steps ∈ writes q)) as [Hin|Hno].
  2:{ pose proof (exec_keeps Steps q now db Hno) as Hk. simpl in Hk.
      by rewrite <-Hk. }
  destruct q; try done;
    try (exfalso; rewrite list_elem_of_In in Hin; simpl in Hin;
         intuition congruence); cbn [exec].
  - unfold steps_insert. case_bool_decide as Hnew; [done|].
    case_bool_decide; [|done]. simpl. rewrite lookup_insert_ne; [done|].
    intros [= -> ->]. destruct Hnew. eauto.
  - by apply steps_update_elsewhere.
  - case_match; [|done]. by apply steps_update_elsewhere.
Qed.

Lemma exec_user {X} (q : stmt X) now db :
  elsewhere q → is_Some (users db !! owner) →
  is_Some (users (exec q now db).2 !! owner).
Proof.
  intros Hq Hu. destruct (decide (Users ∈ writes q)) as [Hin|Hno].
  2:{ pose proof (exec_keeps Users q now db Hno) as Hk. simpl in Hk.
      by rewrite <-Hk. }
  destruct q; try done;
    try (exfalso; rewrite list_elem_of_In in Hin; simpl in Hin;
         intuition congruence); cbn [exec];
    unfold users_insert, users_update, update_row, users_mark_pending;
    repeat case_match; simplify_eq; simpl; try done; auto with beebase.
  rewrite users_delete_users. by rewrite lookup_delete_ne.
Qed.

Lemma exec_held {X} (q : stmt X) now db :
  elsewhere q → (now ≤ l)%Z → held db → held (exec q now db).2.
Proof.
  intros Hq Hn Hd. split.
  - apply exec_ok, Hd.
  - by apply exec_job.
  - intros sv r Hr. apply exec_steps; [done|by apply Hd].
  - intros Hu. apply exec_user; [done|by apply Hd].
Qed.

(** ** Effects *)

(** The round trip [n1], with which the lease may end, has been made. *)
Definition over w : Prop := n1 < n_io (w_counters w).

Lemma query_or_not {X} (e : eff X) w :
  n_io (w_counters w) < n_io (w_counters (handle e w).2) ∨
  eff_stmts (λ _ _, False) e.
Proof.
  destruct e; try (by right); left; simpl.
  - unfold handle_query. destruct (exec _ _ _) as [r db].
    destruct (faulty _ _ _ _). simpl. lia.
  - unfold handle_tx. destruct (fault _); [simpl; lia|].
    pose proof (run_tx_io body (db_clock (n_io (w_counters w))) false (w_db w)
      (w_db w) (S (n_io (w_counters w)))) as Hi.
    destruct (run_tx _ _ _ _ _ _) as [[r db] i]. simpl in *. lia.
Qed.

Lemma handle_held {X} (e : eff X) w :
  eff_stmts (@elsewhere) e → n0 ≤ n_io (w_counters w) → held (w_db w) →
  held (w_db (handle e w).2) ∨ over (handle e w).2.
Proof.
  intros He Hn Hd.
  destruct (decide (n_io (w_counters w) < n1)) as [Hlt|Hge].
  - left. apply (handle_stmts (@elsewhere)); [|done|done].
    intros Y q db Hq Hdb. apply exec_held; [done| |done]. by apply running.
  - destruct (query_or_not e w) as [Hq|Hq]; [right; unfold over; lia|left].
    by apply (handle_stmts (λ _ _, False)).
Qed.

(** ** Programs that do not hold the job *)

(** How often the job was claimed. *)
Definition attempts (db : Database) : Z :=
  default 0%Z (job_attempt_count <$> account_deletion_jobs db !! j).

(** The owner has no other job. *)
Definition only_job (db : Database) : Prop :=
  ∀ k r, account_deletion_jobs db !! k = Some r → job_user_id r = owner → k = j.

(** As long as nobody claims the job, no statement of the program concerns
    it. *)
Fixpoint clear {A} (p : prog A) : Prop :=
  match p with
  | Ret _ => True
  | Vis e k => eff_stmts (@elsewhere) e ∧
      ∀ w, db_ok (w_db w) → only_job (w_db w) →
           attempts (w_db (handle e w).2) = attempts (w_db w) →
           clear (k (handle e w).1)
  end.

Lemma clear_effects {A} (p : prog A) :
  all_effects (λ X e, eff_stmts (@elsewhere) e) p → clear p.
Proof.
  induction p as [a|X e k IH]; [done|]. intros [He Hk].
  split; [done|]. intros w _ _ _. by apply IH.
Qed.

Lemma clear_bind {A B} (p : prog A) (k : A → prog B) :
  clear p → (∀ a, clear (k a)) → clear (bind p k).
Proof.
  intros Hp Hk. induction p as [a|X e h IH]; [apply Hk|].
  destruct Hp as [He Hh]. split; [done|]. intros w H1 H2 H3.
  by apply IH, Hh.
Qed.

(** What a worker claims while the count stays is another job, of another
    account. *)
Lemma claimed_other w job :
  db_ok (w_db w) → only_job (w_db w) →
  attempts (w_db (run DeletionJobStore.ClaimDeletion w).2) =
    attempts (w_db w) →
  (run DeletionJobStore.ClaimDeletion w).1 = Ok (Some job) →
  Job_ID job ≠ j ∧ Job_UserID job ≠ owner.
Proof.
  intros Hok Hone Hatt Hjob.
  destruct (run DeletionJobStore.ClaimDeletion w) as [res w1] eqn:Hrun.
  cbn [fst snd] in *. subst res.
  apply claim_run in Hrun as [[[_ Hno]|(r & Hr & _ & Hdb & Heq)] _];
    [by destruct (Hno job)| |done].
  rewrite (Heq job eq_refl). cbn [Job_ID Job_UserID].
  assert (Hne : job_id r ≠ j).
  { intros E. unfold attempts in Hatt. rewrite Hdb, <-E, Hr in Hatt.
    simpl in Hatt. rewrite lookup_insert_eq in Hatt. simpl in Hatt. lia. }
  split; [done|]. intros Hu. by apply Hne, (Hone _ r).
Qed.

Lemma RunOnce_clear cl : clear (RunOnce cl).
Proof.
  unfold RunOnce, DeletionJobStore.ClaimDeletion.
  cbn [bindE bind perform clear]. split; [by apply claim_tx_all|].
  intros w Hok Hone Hatt.
  pose proof (claimed_other w) as Hother.
  unfold DeletionJobStore.ClaimDeletion in Hother.
  rewrite run_bindE, run_perform in Hother.
  destruct (handle (Transaction DeletionJobStore.claim_tx) w)
    as [[[[job|]|e]|e] w1]; try done. cbn [fst snd] in Hother, Hatt |- *.
  destruct (Hother job Hok Hone Hatt eq_refl) as [Hj Hu].
  apply clear_effects. cbn [bind].
  apply run_steps_all; try (by intros; simpl in *; tauto).
  unfold finish_job. autounfold with effects. walk; simpl; tauto.
Qed.

Lemma serve_clear r : clear (serve s r).
Proof.
  destruct r; unfold serve, forget;
    try (apply clear_bind; [|by intros a]).
  all: try by apply RunOnce_clear.
  all: apply clear_effects.
  all: unfold Register, Login, SetupVerifyOTP, LoginVerifyOTP, Refresh, Logout,
    CurrentUser, UpdateProfile,
    ChangePassword, DeleteAccount, RequestPasswordReset,
    VerifyPasswordResetOTP, ConfirmPasswordReset, session_cleanup,
    beginTOTPSetup, issueLoginChallenge, issueSession, reset_code_valid,
    verifyOTP, Issue, IssueWithGeneration,
    validateOTP, end_sessions, cleanupSessionDevices,
    tokenhash_Generate, GenerateSecret, Encrypt, Hash, VerifyOwnership,
    DeleteByIDs, DeleteAllMine, DeleteAllByUser, delete_call,
    DeleteSessionData, internal_delete.
  all: autounfold with effects; walk; try done.
  all: try by apply request_tx_all.
  all: congruence.
Qed.

(** One turn of a pool of programs that do not hold the job. *)
Lemma clear_step {A} (ps : list (prog A)) i X (e : eff X) k w :
  Forall clear ps → ps !! i = Some (Vis e k) →
  db_ok (w_db w) → only_job (w_db w) →
  attempts (w_db (handle e w).2) = attempts (w_db w) →
  Forall clear (<[i := k (handle e w).1]> ps).
Proof.
  intros Hps Hi Hok Hone Hatt. apply Forall_insert; [done|].
  rewrite Forall_lookup in Hps. destruct (Hps _ _ Hi) as [_ Hk]. by apply Hk.
Qed.

(** ** Up to the claim *)

(** Jobs are never deleted, keep their owner and count their claims up. *)
Record jobs_go_on (db db' : Database) : Prop := {
  go_user : ∀ k r, account_deletion_jobs db !! k = Some r →
    ∃ r', account_deletion_jobs db' !! k = Some r' ∧
          job_user_id r' = job_user_id r;
  go_attempts : (attempts db ≤ attempts db')%Z
}.

#[local] Instance jobs_go_on_refl : Reflexive jobs_go_on.
Proof. intros db. split; [by eauto|done]. Qed.
#[local] Instance jobs_go_on_trans : Transitive jobs_go_on.
Proof.
  intros d1 d2 d3 [H1 H2] [H3 H4]. split; [|by etrans].
  intros k r Hr. destruct (H1 k r Hr) as (r' & Hr' & E).
  destruct (H3 k r' Hr') as (r2 & Hr2 & E2). exists r2. split; congruence.
Qed.

(** Writing one job, over itself or where there was none. *)
Lemma jobs_insert_go_on f k r db :
  account_deletion_jobs (f db) = <[k := r]> (account_deletion_jobs db) →
  match account_deletion_jobs db !! k with
  | Some old => job_user_id r = job_user_id old ∧
                (job_attempt_count old ≤ job_attempt_count r)%Z
  | None => (0 ≤ job_attempt_count r)%Z
  end → jobs_go_on db (f db).
Proof.
  intros E Hold. split.
  - intros k' r' Hr'. rewrite E. destruct (decide (k = k')) as [<-|Hne].
    + rewrite lookup_insert_eq. rewrite Hr' in Hold. destruct Hold.
      by exists r.
    + rewrite lookup_insert_ne by done. eauto.
  - unfold attempts. rewrite E. destruct (decide (k = j)) as [->|Hne].
    + rewrite lookup_insert_eq. revert Hold.
      destruct (account_deletion_jobs db !! j); simpl; lia.
    + by rewrite lookup_insert_ne.
Qed.

Lemma jobs_update_go_on k f db :
  (∀ r, job_user_id (f r) = job_user_id r ∧
        job_attempt_count (f r) = job_attempt_count r) →
  jobs_go_on db (jobs_update k f db).2.
Proof.
  intros Hf. unfold jobs_update, update_row.
  destruct (account_deletion_jobs db !! k) as [r|] eqn:Hr; cbn [snd].
  - apply (jobs_insert_go_on (set_jobs _) k (f r)); [done|]. rewrite Hr.
    destruct (Hf r) as [-> ->]. split; [done|lia].
  - by destruct db.
Qed.

Lemma exec_jobs_go_on {X} (q : stmt X) now db :
  db_ok db → jobs_go_on db (exec q now db).2.
Proof.
  intros Hok. destruct (decide (Jobs ∈ writes q)) as [Hin|Hno].
  2:{ pose proof (exec_keeps Jobs q now db Hno) as Hk. simpl in Hk.
      split; unfold attempts; rewrite <-Hk; [by eauto|done]. }
  destruct q; try done;
    try (exfalso; rewrite list_elem_of_In in Hin; simpl in Hin;
         intuition congruence); cbn [exec].
  - unfold jobs_upsert. destruct (select_one _ _) as [r|] eqn:Hs.
    + apply select_one_Some in Hs as [_ [k Hk]].
      pose proof (ok_jobs_key _ Hok _ _ Hk) as Hkey. simpl in Hkey. subst k.
      eapply (jobs_insert_go_on (set_jobs _)); [done|]. rewrite Hk. simpl.
      split; [done|lia].
    + case_bool_decide as Hfree; [done|].
      eapply (jobs_insert_go_on (set_jobs _)); [done|].
      apply eq_None_not_Some in Hfree. by rewrite Hfree.
  - unfold jobs_claim. destruct (earliest _) as [r|] eqn:He; [|done].
    case_match; [|done]. apply claim_candidate in He as (k & Hk & _).
    pose proof (ok_jobs_key _ Hok _ _ Hk) as Hkey. simpl in Hkey. subst k.
    eapply (jobs_insert_go_on (set_jobs _)); [done|]. rewrite Hk. simpl.
    split; [done|lia].
  - by apply jobs_update_go_on.
  - by apply jobs_update_go_on.
Qed.

Lemma handle_jobs_go_on {X} (e : eff X) w :
  db_ok (w_db w) → jobs_go_on (w_db w) (w_db (handle e w).2).
Proof.
  intros Hok. apply (handle_stmts (λ _ _, True)
    (λ db, db_ok db ∧ jobs_go_on (w_db w) db)); [|apply eff_stmts_True|done].
  intros Y q db _ [Hok' Hgo]. split; [by apply exec_ok|].
  etrans; [exact Hgo|]. by apply exec_jobs_go_on.
Qed.

Lemma pool_jobs_go_on {A} (c c' : list (prog A) * World) :
  rtc pool_step c c' → db_ok (w_db c.2) →
  db_ok (w_db c'.2) ∧ jobs_go_on (w_db c.2) (w_db c'.2).
Proof.
  induction 1 as [|c c1 c2 Hs _ IH]; intros Hok; [done|].
  destruct Hs as [ps i X e k w Hi]. cbn [snd] in *.
  destruct IH as [Hok2 Hgo]; [by apply handle_ok|]. split; [done|].
  etrans; [|exact Hgo]. by apply handle_jobs_go_on.
Qed.

(** Programs that do not hold the job do not come to hold it while the count
    stays. *)
Lemma pool_clear {A} (c c' : list (prog A) * World) :
  rtc pool_step c c' → db_ok (w_db c.2) → only_job (w_db c'.2) →
  attempts (w_db c'.2) = attempts (w_db c.2) →
  Forall clear c.1 → Forall clear c'.1.
Proof.
  induction 1 as [|c c1 c2 Hs Hr IH]; intros Hok Hone Hatt Hc; [done|].
  assert (Hok1 : db_ok (w_db c1.2))
    by (destruct Hs; by apply handle_ok).
  destruct (pool_jobs_go_on _ _ Hr Hok1) as [_ [Hu2 Ha2]].
  destruct Hs as [ps i X e k w Hi]. cbn [fst snd] in *.
  destruct (handle_jobs_go_on e w Hok) as [Hu1 Ha1].
  apply IH; [done|done|lia|]. apply clear_step; [done..| |lia].
  intros k' r Hr' Hu. destruct (Hu1 k' r Hr') as (r1 & Hr1 & E1).
  destruct (Hu2 k' r1 Hr1) as (r2 & Hr2 & E2). apply (Hone k' r2); congruence.
Qed.

(** ** Under the lease *)

Lemma held_attempts db : held db → attempts db = job_attempt_count row.
Proof.
  intros Hd. destruct (held_row _ Hd) as (r & Hr & Hcore).
  unfold attempts. rewrite Hr. unfold job_core in Hcore. simpl. congruence.
Qed.

Lemma held_only db : held db → only_job db.
Proof.
  intros Hd k r Hr Hu. destruct (held_row _ Hd) as (r' & Hr' & Hcore).
  apply (ok_jobs_user _ (hd_ok _ Hd) _ _ r r' owner Hr Hr').
  - by f_equal.
  - unfold job_core in Hcore. congruence.
Qed.

Lemma pool_held {A} (c c' : list (prog A) * World) :
  rtc pool_step c c' → n0 ≤ n_io (w_counters c.2) →
  (held (w_db c.2) ∧ Forall clear c.1) ∨ over c.2 →
  held (w_db c'.2) ∨ over c'.2.
Proof.
  induction 1 as [c|c c1 c2 Hs Hr IH]; intros Hn Hc; [naive_solver|].
  destruct Hs as [ps i X e k w Hi]. cbn [fst snd] in *.
  pose proof (handle_io e w) as Hio.
  apply IH; [lia|]. destruct Hc as [[Hd Hc]|Ho]; [|right; unfold over in *; lia].
  pose proof Hc as Hc'. rewrite Forall_lookup in Hc'.
  destruct (Hc' _ _ Hi) as [He _].
  destruct (handle_held e w He Hn Hd) as [Hd'|Ho]; [left|by right].
  split; [done|]. apply clear_step; [done..|apply Hd|by apply held_only|].
  by rewrite !held_attempts.
Qed.
End lease.

Section theorem.
Context `{PT : PgTime, EV : Env, SS : SessionStore, L : Lib, U : Unicode}.
Variable s : AuthService.

(** C22. A worker that claims a deletion job has it for itself: until the
    database's clock has passed the two minutes of the lease, however many
    requests and other workers, started before the claim or after it, run at
    the same time and whatever fails, the job stays being processed with its
    lease, attempts and due time, no step of it is completed or put off, and
    its account is not deleted. Assumed is that none of the others has claimed
    this very job since the first of them started: a worker still busy with an
    earlier claim of it is not kept away. *)
Theorem claim_excludes (rs rs' : list UseCase) w0 ps w job w1 ps' w' :
  svc_deletion s ≠ NoDeletion → db_ok (w_db w0) →
  (* requests and workers are under way *)
  rtc pool_step (serve s <$> rs, w0) (ps, w) →
  (* a worker claims a job, which none of them had claimed *)
  run DeletionJobStore.ClaimDeletion w = (Ok (Some job), w1) →
  attempts (Job_ID job) (w_db w) = attempts (Job_ID job) (w_db w0) →
  (* they go on, and others start, while the lease runs *)
  (∀ n, n_io (w_counters w1) ≤ n < n_io (w_counters w') →
        (db_clock n ≤ next_now w + 2 * Minute)%Z) →
  rtc pool_step (ps ++ (serve s <$> rs'), w1) (ps', w') →
  (∃ r r', account_deletion_jobs (w_db w1) !! Job_ID job = Some r ∧
           account_deletion_jobs (w_db w') !! Job_ID job = Some r' ∧
           job_status r = "processing" ∧ job_core r' = job_core r) ∧
  (∀ sv r, account_deletion_steps (w_db w1) !! (Job_ID job, sv) = Some r →
           account_deletion_steps (w_db w') !! (Job_ID job, sv) = Some r) ∧
  (is_Some (users (w_db w1) !! Job_UserID job) →
   is_Some (users (w_db w') !! Job_UserID job)).
Proof.
  intros Hq Hok0 Hr0 Hc Hatt Hn Hr.
  destruct (pool_jobs_go_on (Job_ID job) _ _ Hr0 Hok0) as [Hok _].
  cbn [snd] in Hok.
  pose proof (run_ok DeletionJobStore.ClaimDeletion w Hok) as Hok1.
  rewrite Hc in Hok1.
  destruct (claim_run _ _ _ Hok Hc)
    as [[[_ Hno]|(r & Hrow & _ & Hdb & Hjob)] _].
  { by destruct (Hno job). }
  rewrite (Hjob job eq_refl) in *. cbn [Job_ID Job_UserID] in *.
  set (row := claim (next_now w) r).
  assert (Hst : account_deletion_jobs (w_db w1) !! job_id r = Some row).
  { rewrite Hdb. apply lookup_insert_eq. }
  assert (Hps : Forall (clear (job_id r) row) ps).
  { apply (pool_clear (job_id r) row _ _ Hr0); [done| |done|].
    - intros k r' Hr' Hu. eapply (ok_jobs_user _ Hok); [exact Hr'|exact Hrow|
        |reflexivity]. by f_equal.
    - apply Forall_fmap, Forall_true. intros u. by apply serve_clear. }
  destruct (pool_held (job_id r) row (next_now w + 2 * Minute)%Z (w_db w1)
    (n_io (w_counters w1)) (n_io (w_counters w')) Hst eq_refl Hn _ _ Hr)
    as [Hd|Ho]; [done| | |].
  - left. split; [split; [done|cbn [snd]; by rewrite Hst|done|done]|].
    apply Forall_app. split; [done|]. apply Forall_fmap, Forall_true.
    intros u. by apply serve_clear.
  - split; [|split; apply Hd].
    destruct (held_row _ _ _ _ Hd) as (r' & Hr' & Hcore). eauto 10.
  - unfold over in Ho. simpl in Ho. lia.
Qed.
End theorem.

(** The account asked for its deletion; it is asking again and two workers
    have started when a third one claims the job; a fourth starts then, and
    the requests to the other services are still to come. *)
Definition demo_rivals : list UseCase :=
  [UCDeleteAccount 1000%N "access" (demo_code demo_world);
   UCDeletionTick demo_clients; UCDeletionTick demo_clients].
Definition demo_under_way : list (prog unit) * World :=
  sched_run [0; 0; 0] (serve demo_service <$> demo_rivals) demo_delete.2.
Definition demo_claimed : result (option DeletionJob) * World :=
  run DeletionJobStore.ClaimDeletion demo_under_way.2.
Definition demo_rivals_run : list (prog unit) * World :=
  sched_run (mjoin (replicate 10 [0; 1; 2; 3]))
    (demo_under_way.1 ++ (serve demo_service <$> [UCDeletionTick demo_clients]))
    demo_claimed.2.

Lemma demo_lease_runs n :
  n_io (w_counters demo_claimed.2) ≤ n < n_io (w_counters demo_rivals_run.2) →
  (db_clock n ≤ next_now demo_under_way.2 + 2 * Minute)%Z.
Proof.
  assert (Hi : n_io (w_counters demo_rivals_run.2) = 100)
    by (vm_compute; reflexivity).
  rewrite Hi. intros [_ Hn].
  assert (Ht : (next_now demo_under_way.2 + 2 * Minute)%Z =
               (demo_epoch + 209 * Second)%Z) by (vm_compute; reflexivity).
  rewrite Ht. cbn [db_clock demo_env env_with]. unfold Second. lia.
Qed.

Lemma claim_excludes_witness :
  ∃ r', account_deletion_jobs (w_db demo_rivals_run.2) !! 1002%N = Some r' ∧
        job_status r' = "processing".
Proof.
  assert (Hjob : ∃ job, demo_claimed.1 = Ok (Some job) ∧
                        Job_ID job = 1002%N).
  { eexists. split; vm_compute; reflexivity. }
  destruct Hjob as (job & Hjob & Hid).
  destruct (claim_excludes demo_service demo_rivals
    [UCDeletionTick demo_clients] demo_delete.2 demo_under_way.1
    demo_under_way.2 job demo_claimed.2 demo_rivals_run.1 demo_rivals_run.2)
    as [(r & r' & _ & Hr' & Hs & Hc) _].
  - discriminate.
  - exact demo_delete_ok.
  - rewrite <-surjective_pairing. apply sched_run_reachable.
  - rewrite <-Hjob. apply surjective_pairing.
  - rewrite Hid. vm_compute. reflexivity.
  - exact demo_lease_runs.
  - rewrite <-surjective_pairing. apply sched_run_reachable.
  - exists r'. rewrite <-Hid. split; [exact Hr'|].
    unfold job_core in Hc. congruence.
Defined.
