(* ===== verification/Races.v ===== *)
(** * What concurrency and partial failures allow

    The service reads a row, decides, and writes it in separate statements,
    without a transaction or a condition in the WHERE clause, and keeps the
    session store apart from the database; and the lease of a deletion job
    bounds how long a worker holds it, not how long it works on it. For
    requests served one at a time and without faults that is enough (Sessions,
    OtpGate, Lease); here it is not: executions of two simultaneous requests
    and of two workers, and a logout that fails half way. *)
From S2P Require Import Prelude Tables GoBase Domain Schema Effects Logic.
From S2P Require Import GoStrings Platform Postgres Service Footprint.
From S2P Require Import Integrity Repositories Healthy ServiceFacts Demo.
From S2P Require Import DeletionWorker Requests.
#[local] Open Scope go_scope.

(** Two requests take turns, effect by effect. *)
Definition in_turn : list nat := concat (replicate 40 [0; 1]).

(** The live refresh tokens of a user. *)
Definition live_tokens (u : uuid) (db : Database) : list uuid :=
  (List.filter (λ kv, live_token_of u kv.2)
     (map_to_list (refresh_tokens db))).*1.

Definition refresh_pool : list (prog (result Session)) :=
  [Refresh demo_service demo_refresh_token;
   Refresh demo_service demo_refresh_token].

Definition login_pool : list (prog (result Session)) :=
  [LoginVerifyOTP demo_service demo_challenge (demo_code demo_login.2);
   LoginVerifyOTP demo_service demo_challenge (demo_code demo_login.2)].

(** Both requests of a pool get a session of the account, which ends up with
    two live refresh tokens. *)
Definition both_served (ps : list (prog (result Session))) (w : World) : Prop :=
  ∃ s1 s2 w',
    rtc pool_step (ps, w) ([Ret (Ok s1); Ret (Ok s2)], w') ∧
    s_RefreshToken s1 ≠ s_RefreshToken s2 ∧
    length (live_tokens 1000%N (w_db w')) = 2.

Lemma both_served_in_turn ps w s1 s2 w' :
  sched_run in_turn ps w = ([Ret (Ok s1); Ret (Ok s2)], w') →
  s_RefreshToken s1 ≠ s_RefreshToken s2 →
  length (live_tokens 1000%N (w_db w')) = 2 → both_served ps w.
Proof.
  intros E Hne Hl. exists s1, s2, w'. split; [|split; [exact Hne|exact Hl]].
  rewrite <-E. apply sched_run_reachable.
Qed.

(** C39. There are executions in which the same refresh token, presented twice
    at the same time, is rotated twice, and in which the same login challenge
    and the same one-time code, submitted twice at the same time, are both
    accepted: both requests get a session and the account is left with two
    live refresh tokens. *)
Theorem single_use_lost_to_races :
  both_served refresh_pool demo_world ∧ both_served login_pool demo_login.2.
Proof.
  split; eapply both_served_in_turn;
    [vm_compute; reflexivity|vm_compute; discriminate|vm_compute; reflexivity|
     vm_compute; reflexivity|vm_compute; discriminate|vm_compute; reflexivity].
Qed.

(** ** A logout that fails half way *)

Section logout.
Context `{PT : PgTime, EV : Env, SS : SessionStore, L : Lib, U : Unicode}.
Variable s : AuthService.
Implicit Types (w : World).




End logout.




(** ** A lease that runs out *)




