(* ===== verification/Endpoints.v ===== *)
(** * The HTTP endpoints

    What a request must be for its handler to have any effect, what the
    answers carry, and which they are: the properties of the use cases as a
    client of the service observes them. *)
From Stdlib Require Import Ascii.
From S2P Require Import Prelude Tables GoBase Domain Schema Effects Logic.
From S2P Require Import GoStrings Platform Postgres Service Footprint.
From S2P Require Import Integrity Repositories Healthy ServiceFacts Tokens.
From S2P Require Import Clients Demo Sessions Accounts Transport.
#[local] Open Scope go_scope.

(** ** Well-formed requests *)

(** A one-time code: six ASCII digits. *)
Definition six_digits (code : string) : Prop :=
  String.length code = 6 ∧ Forall (λ b, 48 ≤ b ≤ 57)%Z (to_Zs code).

Definition not_blank (v : string) : Prop := TrimSpace v ≠ "".

(** The password policy: at least eight bytes, a decimal digit of any script,
    one of the listed special characters. *)
Definition strong_password `{U : Unicode} (p : string) : Prop :=
  8 ≤ String.length p ∧ (∃ r, r ∈ runes p ∧ IsDigit r = true) ∧
  (∃ r, r ∈ runes p ∧ r ∈ runes passwordSpecialChars).

Definition valid_name (v : string) : Prop :=
  not_blank v ∧ String.length (TrimSpace v) ≤ 100.

(** The DTO of an endpoint, and what a body must hold to be acted upon. *)
Definition dto_of `{W : Wire, U : Unicode, L : Lib} (e : Endpoint) :
    option DTO :=
  match e with
  | EpRegister => Some RegisterRequest
  | EpLogin => Some LoginRequest
  | EpSetupVerifyOTP => Some SetupVerifyRequest
  | EpLoginVerifyOTP => Some LoginVerifyOTPRequest
  | EpRequestPasswordReset => Some PasswordResetRequestRequest
  | EpVerifyPasswordResetOTP => Some PasswordResetVerifyOTPRequest
  | EpConfirmPasswordReset => Some PasswordResetConfirmRequest
  | EpChangePassword => Some ChangePasswordRequest
  | EpProfileUpdate => Some Profile.UpdateProfileRequest
  | EpProfileDelete => Some Profile.DeleteAccountRequest
  | EpHealth | EpReady | EpJWKS | EpRefresh | EpLogout | EpMe | EpProfileGet =>
      None
  end.

Definition well_formed `{W : Wire, U : Unicode, L : Lib} (e : Endpoint)
    (m : gmap string string) : Prop :=
  let valid_email v := not_blank v ∧ is_Ok (mail_ParseAddress v) = true in
  match e with
  | EpRegister =>
      valid_email (str "email" m) ∧ strong_password (str "password" m)
  | EpLogin => valid_email (str "email" m) ∧ str "password" m ≠ ""
  | EpSetupVerifyOTP =>
      not_blank (str "setupToken" m) ∧ six_digits (str "otp" m)
  | EpLoginVerifyOTP =>
      not_blank (str "challengeToken" m) ∧ six_digits (str "otp" m)
  | EpRequestPasswordReset => valid_email (str "email" m)
  | EpVerifyPasswordResetOTP =>
      not_blank (str "flowToken" m) ∧ six_digits (str "otp" m)
  | EpConfirmPasswordReset =>
      not_blank (str "resetToken" m) ∧
      strong_password (str "newPassword" m) ∧
      str "confirmPassword" m = str "newPassword" m
  | EpChangePassword =>
      str "currentPassword" m ≠ "" ∧
      strong_password (str "newPassword" m) ∧ six_digits (str "otp" m)
  | EpProfileUpdate =>
      valid_name (str "firstName" m) ∧ valid_name (str "lastName" m) ∧
      (∀ a, m !! "avatar" = Some a → a ≠ "" → is_Ok (uuid_Parse a) = true)
  | EpProfileDelete => six_digits (str "otp" m)
  | EpHealth | EpReady | EpJWKS | EpRefresh | EpLogout | EpMe | EpProfileGet =>
      True
  end.

(** ** Validation against its specification *)

Lemma put_empty name code fields :
  put name code fields = ∅ ↔ code = "" ∧ fields = ∅.
Proof.
  unfold put. destruct (decide (code = "")) as [->|Hc].
  - rewrite bool_decide_true by done. split; [by split|by intros [_ ?]].
  - rewrite bool_decide_false by done.
    split; [by intros ?%insert_non_empty|by intros [? _]].
Qed.

Lemma decode_digit l r n :
  decode_rune l = Some (r, n) → (48 ≤ r ≤ 57)%Z →
  n = 1 ∧ ∃ l', l = r :: l'.
Proof.
  destruct l as [|b0 l']; [done|]. unfold decode_rune, cont, RuneError.
  destruct (bool_decide (b0 < 0x80)%Z); [intros [= <- <-]; eauto|].
  intros H Hr. exfalso.
  repeat (case_match; simplify_eq; try lia);
    repeat match goal with
           | E : bool_decide _ = true |- _ => apply bool_decide_eq_true in E
           | E : bool_decide _ = false |- _ => apply bool_decide_eq_false in E
           | E : (_ && _) = true |- _ => apply andb_true_iff in E as [? ?]
           end; lia.
Qed.

(** A string whose runes are all ASCII digits holds nothing else. *)
Lemma runes_fuel_digits n l :
  length l ≤ n → Forall (λ r, 48 ≤ r ≤ 57)%Z (runes_fuel n l) →
  Forall (λ b, 48 ≤ b ≤ 57)%Z l.
Proof.
  revert l. induction n as [|n IH]; intros [|b l] Hl; try done.
  { simpl in Hl. lia. }
  cbn [runes_fuel]. destruct (decode_rune (b :: l)) as [[r k]|] eqn:E.
  - intros [Hr Hf]%Forall_cons. simpl in Hl.
    apply decode_digit in E as [-> (l' & [= <- <-])]; [|done].
    constructor; [done|]. apply IH; [lia|done].
  - unfold decode_rune in E. by repeat case_match.
Qed.

Lemma validateOTP_spec code : validateOTP code = "" → six_digits code.
Proof.
  unfold validateOTP. case_bool_decide; [done|].
  case_bool_decide as Hl; [done|].
  destruct (List.existsb _ _) eqn:E; [done|]. intros _.
  split; [unfold otpLength in Hl; lia|].
  apply (runes_fuel_digits (length (to_Zs code))); [done|].
  apply Forall_forall. intros r Hr. apply list_elem_of_In in Hr.
  destruct (decide (r < 48 ∨ 57 < r)%Z) as [Hbad|]; [|lia].
  rewrite <-not_true_iff_false, List.existsb_exists in E. exfalso. apply E.
  exists r. by rewrite bool_decide_true.
Qed.

Section validation.
Context `{W : Wire, U : Unicode, L : Lib}.

Lemma existsb_runes (P : Z → bool) l :
  List.existsb P l = true → ∃ r, r ∈ l ∧ P r = true.
Proof.
  intros (r & Hin & Hp)%List.existsb_exists. exists r.
  by rewrite list_elem_of_In.
Qed.

Lemma validatePassword_spec p : validatePassword p = "" → strong_password p.
Proof.
  unfold validatePassword, containsDigit, ContainsAny.
  case_bool_decide as Hl; [done|]. unfold minPasswordLength in Hl.
  destruct (List.existsb IsDigit _) eqn:E1; [|done]. simpl.
  destruct (List.existsb _ _) eqn:E2 in |- *; [|done]. intros _.
  apply existsb_runes in E1, E2 as (r & Hr & Hs%bool_decide_eq_true).
  split_and!; [lia|done|by exists r].
Qed.

Lemma required_spec v code : code ≠ "" → required v code = "" → not_blank v.
Proof. unfold required. by case_bool_decide. Qed.

Lemma validateEmail_spec v :
  validateEmail v = "" →
  not_blank v ∧ is_Ok (mail_ParseAddress v) = true.
Proof.
  unfold validateEmail. case_bool_decide; [done|].
  by destruct (mail_ParseAddress v).
Qed.

Lemma validateName_spec v max c1 c2 :
  c1 ≠ "" → c2 ≠ "" → Profile.validateName v max c1 c2 = "" →
  not_blank v ∧ String.length (TrimSpace v) ≤ max.
Proof.
  intros ??. unfold Profile.validateName. case_bool_decide; [done|].
  case_bool_decide; [done|]. intros _. split; [done|lia].
Qed.

(** Every field passed its check. *)
Lemma Validate_well_formed e dto m :
  dto_of e = Some dto → Validate dto m = ∅ → well_formed e m.
Proof.
  destruct e; intros [= <-];
    unfold Validate, RegisterRequest, LoginRequest, SetupVerifyRequest,
      LoginVerifyOTPRequest, ChangePasswordRequest,
      PasswordResetRequestRequest, PasswordResetVerifyOTPRequest,
      PasswordResetConfirmRequest, Profile.UpdateProfileRequest, Profile.DeleteAccountRequest;
    rewrite ?put_empty; intros H; destruct_and?; cbn [well_formed];
    split_and?;
    try (by apply validateEmail_spec); try (by apply validateOTP_spec);
    try (by apply validatePassword_spec);
    try (by eapply required_spec; [|eassumption]);
    try (by eapply validateName_spec; [| |eassumption]);
    repeat match goal with
           | E : (if bool_decide _ then _ else _) = "" |- _ =>
               revert E; case_bool_decide; [done|intros _]
           end; try done.
  intros a Ha Hne. destruct_and?. simplify_option_eq.
  by destruct (uuid_Parse a).
Qed.
End validation.

(** ** What a handler did *)

Section handlers.
Context `{PT : PgTime, EV : Env, SS : SessionStore, SL : !SessionStoreLaws,
          W : Wire, L : Lib, U : Unicode, DB : Pinger}.
Variable s : AuthService.
#[local] Abbreviation sec := (svc_security s).
Implicit Types (w : World).

Lemma run_with_body dto r k w ws w' :
  run (with_body dto r k) w = (ws, w') →
  (∃ m, json_Decode (tags dto) (rq_body r) = Ok m ∧ Validate dto m = ∅ ∧
        run (k m) w = (ws, w')) ∨
  (w' = w ∧ ∃ c msg fields,
     ws = [WriteError 400 c msg] ∨ ws = [WriteValidationError fields]).
Proof.
  unfold with_body, with_decoded, decodeAndValidate.
  destruct (json_Decode _ _) as [m|e].
  - case_bool_decide; [intros ?; left; by exists m|].
    intros [= <- <-]. right. split; [done|]. exists "", "". eauto.
  - intros [= <- <-]. right. split; [done|]. do 2 eexists. exists ∅. eauto.
Qed.

Lemma run_answer {A} onErr (p : go A) onOk w ws w' :
  run (answer onErr p onOk) w = (ws, w') →
  (∃ a, run p w = (Ok a, w') ∧ ws = onOk a) ∨
  (∃ e, run p w = (Err e, w') ∧ ws = [onErr e]).
Proof.
  unfold answer. intros (res & w1 & H1 & H)%run_bind_inv.
  destruct res as [a|e]; injection H as <- <-; eauto.
Qed.

(** C29. Whatever a request's handler does, be it to read the clock, it does
    only for a body that decodes and is well formed: six ASCII digits for a
    code, a password that satisfies the policy, and so on for every endpoint
    with a body. *)
Theorem effects_need_valid_request e dto r w ws w' :
  dto_of e = Some dto →
  run (handler s e r) w = (ws, w') → w' ≠ w →
  ∃ m, json_Decode (tags dto) (rq_body r) = Ok m ∧ well_formed e m.
Proof.
  intros Hdto H Hw.
  assert (Hm : ∃ m, json_Decode (tags dto) (rq_body r) = Ok m ∧
                    Validate dto m = ∅).
  { destruct e; simplify_eq/=;
      unfold handle_Register, handle_Login, handle_SetupVerifyOTP,
        handle_LoginVerifyOTP, handle_RequestPasswordReset,
        handle_VerifyPasswordResetOTP, handle_ConfirmPasswordReset,
        handle_ChangePassword, handle_Update, handle_Delete, requireAuth in H;
      try destruct (rq_user r) as [u|]; try (by injection H as <- <-);
      apply run_with_body in H as [(m & ? & ? & _)|[-> _]]; eauto; done. }
  destruct Hm as (m & Hj & Hv). exists m. split; [done|].
  by eapply Validate_well_formed.
Qed.

(** ** The refresh cookie *)

(** What comes after [issueSession] leaves the session alone. *)
Lemma session_then {A} (p : prog A) u rt sess w r w' :
  all_effects (λ X e, keeps_table RefreshTokens e ∧ keeps_sessions e) p →
  single_session s u rt sess w → run p w = (r, w') →
  single_session s u rt sess w'.
Proof.
  intros Hp Hs Hr. eapply single_session_frame; [exact Hs|..].
  - pose proof (run_keeps RefreshTokens p w) as Hk. rewrite Hr in Hk.
    apply Hk. eapply all_effects_mono; [|exact Hp]. by intros X e [? _].
  - pose proof (run_keeps_sessions p w) as Hk. rewrite Hr in Hk.
    apply Hk. eapply all_effects_mono; [|exact Hp]. by intros X e [_ ?].
Qed.

Lemma issued_once u w sess w' :
  (0 < RefreshTTL sec)%Z → run (issueSession s u) w = (Ok sess, w') →
  ∃ rt, single_session s u rt sess w'.
Proof.
  intros Httl [rt Hi]%issueSession_Ok. exists rt.
  by apply (issued_session s u w sess w' rt).
Qed.

Lemma SetupVerifyOTP_session t c w sess w' :
  (0 < RefreshTTL sec)%Z →
  run (SetupVerifyOTP s t c) w = (Ok sess, w') →
  ∃ u rt, single_session s u rt sess w'.
Proof.
  intros Httl. unfold SetupVerifyOTP. intros (r & w1 & H1 & H)%run_bind_inv.
  destruct r as [cred|e]; [|by destruct (errors_Is _ _)].
  read_clock H. destruct (Totp.IsSetupTokenExpired _ _); [done|].
  step H u w2 H2. step H cred' w3 H3.
  destruct (User.is_pending u); [done|].
  step H sess1 w4 H4. apply issued_once in H4 as [rt Hs]; [|done].
  read_clock H. step H x w5 H5. injection H as <- <-. exists u, rt.
  assert (single_session s u rt sess1 (tick_clock w4)) by by destruct Hs.
  eapply session_then; [|eassumption|exact H5].
  autounfold with effects. walk; split; leaf.
Qed.

Lemma LoginVerifyOTP_session t c w sess w' :
  (0 < RefreshTTL sec)%Z →
  run (LoginVerifyOTP s t c) w = (Ok sess, w') →
  ∃ u rt, single_session s u rt sess w'.
Proof.
  intros Httl. unfold LoginVerifyOTP. intros (r & w1 & H1 & H)%run_bind_inv.
  destruct r as [ch|e]; [|by destruct (errors_Is _ _)].
  read_clock H. destruct (_ || _); [done|].
  apply run_bind_inv in H as (r & w2 & H2 & H).
  destruct r as [cred|e]; [|by destruct (errors_Is _ _)].
  step H u w3 H3. step H cred' w4 H4.
  destruct (User.is_pending u); [done|].
  step H sess1 w5 H5. apply issued_once in H5 as [rt Hs]; [|done].
  step H x w6 H6. injection H as <- <-. exists u, rt.
  eapply session_then; [|exact Hs|exact H6].
  autounfold with effects. walk; split; leaf.
Qed.

Lemma Refresh_session raw w sess w' :
  (0 < RefreshTTL sec)%Z → run (Refresh s raw) w = (Ok sess, w') →
  ∃ u rt, single_session s u rt sess w'.
Proof.
  intros Httl. unfold Refresh. intros (r & w1 & H1 & H)%run_bind_inv.
  destruct r as [rt|e]; [|by destruct (errors_Is _ _)].
  destruct (Token.IsRevoked rt); [by step H x w2 H2|].
  read_clock H. destruct (Token.IsExpired _ _); [done|].
  apply run_bind_inv in H as (r & w2 & H2 & H).
  destruct r as [u|e]; [|done].
  destruct (User.is_pending u).
  { by apply run_bind_inv in H as (? & ? & _ & H). }
  step H x w3 H3. apply issued_once in H as [rt' Hs]; [|done]. eauto.
Qed.

(** The endpoints that hand out a session. *)
Definition gives_session (e : Endpoint) : bool :=
  match e with
  | EpSetupVerifyOTP | EpLoginVerifyOTP | EpRefresh => true
  | _ => false
  end.

Definition sets_cookie (x : Write) : bool :=
  match x with SetCookie _ _ _ _ => true | _ => false end.

(** The answers of a handler: an error, or the use case's own. *)
Lemma error_sets_no_cookie e :
  sets_cookie (auth_writeServiceError e) = false ∧
  sets_cookie (profile_writeServiceError e) = false.
Proof.
  unfold auth_writeServiceError, profile_writeServiceError.
  by repeat case_match.
Qed.

(** Every answer of [p] is without a cookie. *)
Definition quiet (p : prog (list Write)) : Prop :=
  ∀ w, Forall (λ x, sets_cookie x = false) (run p w).1.

Lemma quiet_with_body dto r k : (∀ m, quiet (k m)) → quiet (with_body dto r k).
Proof.
  intros Hk w. unfold with_body, with_decoded, decodeAndValidate.
  destruct (json_Decode _ _) as [m|]; [|by repeat constructor].
  case_bool_decide; [apply Hk|by repeat constructor].
Qed.

Lemma quiet_answer {A} onErr (p : go A) onOk :
  (∀ e, sets_cookie (onErr e) = false) →
  (∀ a, Forall (λ x, sets_cookie x = false) (onOk a)) →
  quiet (answer onErr p onOk).
Proof.
  intros He Ho w. unfold answer. rewrite run_bind.
  destruct (run p w).1; simpl; [apply Ho|]. by constructor.
Qed.

Lemma quiet_missing : quiet (Ret [missing_authentication]).
Proof. intros w. by repeat constructor. Qed.

Lemma other_endpoints_quiet e r :
  gives_session e = false → quiet (handler s e r).
Proof.
  assert (Ha := λ e, proj1 (error_sets_no_cookie e)).
  assert (Hp := λ e, proj2 (error_sets_no_cookie e)).
  destruct e; try done; intros _; simpl;
    unfold HealthHandler, ReadyHandler, handle_Register, handle_Login,
      handle_Logout, handle_Me, handle_RequestPasswordReset, handle_VerifyPasswordResetOTP,
      handle_ConfirmPasswordReset, handle_ChangePassword, handle_Get,
      handle_Update, handle_Delete, requireAuth, refreshTokenFromCookie;
    repeat case_match; simplify_eq; try apply quiet_missing;
    try (intros w; by repeat constructor);
    try (apply quiet_with_body; intros m);
    (apply quiet_answer; [done|]; intros a; repeat case_match;
     by repeat constructor).
Qed.

Lemma session_answer (p : go Session) w ws w' x :
  (∀ sess w1, run p w = (Ok sess, w1) →
              ∃ u rt, single_session s u rt sess w1) →
  run (answer auth_writeServiceError p session_writes) w = (ws, w') →
  x ∈ ws → sets_cookie x = true →
  ∃ sess u rt, ws = session_writes sess ∧ single_session s u rt sess w'.
Proof.
  intros Hp [(sess & H & ->)|(err & H & ->)]%run_answer Hin Hx.
  - apply Hp in H as (u & rt & Hs). by exists sess, u, rt.
  - apply list_elem_of_singleton in Hin as ->.
    by rewrite (proj1 (error_sets_no_cookie err)) in Hx.
Qed.

(** C28. A refresh cookie is set only by the answer that hands out a session,
    and what it holds is the user's one live refresh token. *)
Theorem refresh_cookie_is_session e r w ws w' name v path exp :
  (0 < RefreshTTL sec)%Z →
  run (handler s e r) w = (ws, w') → SetCookie name v path exp ∈ ws →
  name = refreshTokenCookieName ∧ path = refreshTokenCookiePath ∧
  gives_session e = true ∧
  ∃ sess u rt,
    ws = session_writes sess ∧
    v = s_RefreshToken sess ∧ exp = s_RefreshTokenExpiresAt sess ∧
    single_session s u rt sess w'.
Proof.
  intros Httl H Hin. destruct (gives_session e) eqn:He.
  2:{ pose proof (other_endpoints_quiet e r He w) as Hq. rewrite H in Hq.
      simpl in Hq. rewrite Forall_forall in Hq. by specialize (Hq _ Hin). }
  assert (Hs : ∃ sess u rt, ws = session_writes sess ∧
                            single_session s u rt sess w').
  { destruct e; try done; simpl in H; unfold handle_SetupVerifyOTP,
      handle_LoginVerifyOTP, handle_Refresh in H.
    - destruct (refreshTokenFromCookie r) as [a|raw] eqn:Hc.
      + injection H as <- <-. apply list_elem_of_singleton in Hin as <-.
        unfold refreshTokenFromCookie in Hc. by repeat case_match.
      + eapply session_answer; [|exact H|exact Hin|done].
        intros sess w1. by apply Refresh_session.
    - apply run_with_body in H as [(m & _ & _ & H)|(_ & c & msg & f & Hws)].
      2:{ by destruct Hws as [-> | ->]; apply list_elem_of_singleton in Hin. }
      eapply session_answer; [|exact H|exact Hin|done].
      intros sess w1. by apply SetupVerifyOTP_session.
    - apply run_with_body in H as [(m & _ & _ & H)|(_ & c & msg & f & Hws)].
      2:{ by destruct Hws as [-> | ->]; apply list_elem_of_singleton in Hin. }
      eapply session_answer; [|exact H|exact Hin|done].
      intros sess w1. by apply LoginVerifyOTP_session. }
  destruct Hs as (sess & u & rt & -> & Hs).
  apply elem_of_cons in Hin as [[= -> -> -> ->]|Hin].
  - split_and!; [done..|]. by exists sess, u, rt.
  - by apply list_elem_of_singleton in Hin.
Qed.

(** ** Logins that are refused *)

Lemma run_GetByEmail_none email w :
  healthy → (∀ k u, users (w_db w) !! k = Some u → User.Email u ≠ email) →
  run (UserRepository.GetByEmail email) w = (Err User_ErrNotFound, tick_io w).
Proof.
  intros Hh Hno. apply run_scan_none; [done|]. intros now. simpl.
  unfold users_by_email.
  rewrite (proj2 (select_one_None _ _)); [done|].
  intros k v Hk. apply bool_decide_eq_false. by eapply Hno.
Qed.

(** The account [email] could be logged into with [password]. *)
Definition may_log_in (email password : string) (u : User.User) w : Prop :=
  (∃ k, users (w_db w) !! k = Some u) ∧
  User.Email u = normalizeEmail email ∧
  Verify (svc_hasher s) (User.PasswordHash u) password = Ok tt ∧
  User.is_pending u = false.

(** C30. Without faults, a login for an address without an account, with a
    wrong password or for an account being deleted gets one and the same
    answer and has one and the same effect. *)
Theorem refused_logins_alike r m w :
  healthy → db_ok (w_db w) →
  json_Decode (tags LoginRequest) (rq_body r) = Ok m →
  Validate LoginRequest m = ∅ →
  (∀ u, ¬ may_log_in (str "email" m) (str "password" m) u w) →
  run (handler s EpLogin r) w =
  ([WriteError 401 "invalid_credentials" "invalid email or password"],
   tick_io w).
Proof.
  intros Hh Hok Hj Hv Hno. simpl. unfold handle_Login, with_body, with_decoded.
  unfold decodeAndValidate. rewrite Hj, bool_decide_true by done.
  unfold answer. rewrite run_bind. unfold Login. cbn [li_Email li_Password].
  rewrite run_bind.
  set (email := normalizeEmail (str "email" m)).
  destruct (select_one (λ u, bool_decide (User.Email u = email))
              (users (w_db w))) as [u|] eqn:Hs.
  - apply select_one_Some in Hs as [He [k Hk]].
    apply bool_decide_eq_true in He.
    rewrite (run_GetByEmail Hh k u _ w) by done. cbn [fst snd].
    destruct (Verify _ _ _) as [[]|] eqn:Hver; [|done].
    destruct (User.is_pending u) eqn:Hp; [done|].
    exfalso. apply (Hno u). split_and!; [by exists k|done..].
  - rewrite select_one_None in Hs. rewrite run_GetByEmail_none; [done|done|].
    intros k u Hk He. specialize (Hs k u Hk). simpl in Hs.
    by rewrite bool_decide_true in Hs.
Qed.

(** ** Passwords bcrypt does not take *)

(** bcrypt refuses passwords of more than 72 bytes. *)
Definition bcrypt_limit : Prop :=
  ∀ salt p cost, 72 < String.length p →
    bcrypt_GenerateFromPassword salt p cost =
    Err (Errorf "bcrypt: password length exceeds 72 bytes").

(** C37. A registration that satisfies the password policy with a password of
    more than 72 bytes is answered as an internal error, and no account is
    created. *)
Theorem long_password_internal_error r m w :
  bcrypt_limit →
  json_Decode (tags RegisterRequest) (rq_body r) = Ok m →
  Validate RegisterRequest m = ∅ →
  72 < String.length (str "password" m) →
  strong_password (str "password" m) ∧
  ∃ err w', run (handler s EpRegister r) w = ([WriteInternalError err], w') ∧
            w_db w' = w_db w.
Proof.
  intros Hb Hj Hv Hlen. split.
  { by apply (Validate_well_formed EpRegister RegisterRequest m eq_refl). }
  simpl. unfold handle_Register, with_body, with_decoded, decodeAndValidate.
  rewrite Hj, bool_decide_true by done.
  unfold answer. rewrite run_bind. unfold Register. cbn [ri_Password].
  rewrite run_bindE, run_wrapE. unfold Hash.
  rewrite run_bind, run_perform. cbn [handle fst snd run].
  rewrite Hb by done. cbn [fst snd]. by do 2 eexists.
Qed.

(** ** The profile *)

(** What the request's avatar field asks for: absent keeps, empty removes, an
    identifier replaces; a new one must be listed for the caller by the media
    service, and is the caller's if the service is honest. *)
Definition avatar_asked (token : string) (field : option string)
    (current avatar : option uuid) w : Prop :=
  match field with
  | None => avatar = current
  | Some a =>
      if bool_decide (a = "") then avatar = None
      else ∃ id resp item,
        uuid_Parse a = Ok id ∧ avatar = Some id ∧
        http_do (n_http (w_counters w)) (media_list_request s token id) =
          Ok resp ∧
        resp_status resp = StatusOK ∧ resp_items resp = Ok [item] ∧
        ∀ owns, media_honest (svc_mediaURL s) owns → owns token id
  end.

(** The avatar [old] is not the one asked for. *)
Definition avatar_replaced (field : option string) (old : uuid) : Prop :=
  match field with
  | None => False
  | Some a => a = "" ∨ ∃ id, uuid_Parse a = Ok id ∧ id ≠ old
  end.

(** How many calls come before the one that deletes the replaced avatar: the
    one that looks the new one up, if there is a new one. *)
Definition lookups (field : option string) : nat :=
  match field with
  | Some a => if bool_decide (a = "") then 0 else 1
  | None => 0
  end.

Lemma lookups_call m w :
  deletion_call (avatar_change m) w =
  lookups (m !! "avatar") + n_http (w_counters w).
Proof.
  unfold avatar_change, lookups. destruct (m !! "avatar") as [a|]; [|done].
  by case_bool_decide.
Qed.

Lemma planned_removal u m old :
  (∀ a, m !! "avatar" = Some a → a ≠ "" → ∃ id, uuid_Parse a = Ok id) →
  User.AvatarMediaID u = Some old →
  (avatar_plan u (avatar_change m)).2 = Some old ↔
  avatar_replaced (m !! "avatar") old.
Proof.
  unfold avatar_change, avatar_plan, avatar_replaced. intros Ha ->.
  destruct (m !! "avatar") as [a|]; [|done].
  case_bool_decide as Hne; [by intuition|].
  destruct (Ha a eq_refl Hne) as [id ->]. cbn [snd].
  case_bool_decide; naive_solver.
Qed.

(** A profile update that went through. *)
Lemma profile_updated userID token inp m p w u' w' :
  db_ok (w_db w) → well_formed EpProfileUpdate m →
  inp = mkUpdateProfileInput (TrimSpace (str "firstName" m))
          (TrimSpace (str "lastName" m)) (avatar_change m) →
  run (UpdateProfile s userID token inp) w = (Ok u', w') →
  p = newResponse u' →
  ∃ u avatar,
    users (w_db w) !! userID = Some u ∧
    avatar_asked token (m !! "avatar") (User.AvatarMediaID u) avatar w ∧
    let row := User.UpdateProfile u (TrimSpace (str "firstName" m))
                 (TrimSpace (str "lastName" m)) avatar (pg_ts (reading 0 w)) in
    users (w_db w') = <[userID := row]> (users (w_db w)) ∧
    p = newResponse row ∧
    (∀ old, User.AvatarMediaID u = Some old →
       avatar_replaced (m !! "avatar") old →
       media_deleted s token old
         (lookups (m !! "avatar") + n_http (w_counters w)) ∧
       ∃ before, w_requests w' = media_delete_request s token old :: before) ∧
    (∀ T, T ≠ Users → same_table T (w_db w) (w_db w')) ∧
    w_sessions w' = w_sessions w.
Proof.
  intros Hok (Hf & Hl & Ha) -> H ->.
  apply UpdateProfile_Ok in H as (u & Hu & H); [|done].
  cbn [upi_FirstName upi_LastName upi_Avatar] in *.
  destruct (avatar_plan u (avatar_change m)) as [avatar old] eqn:Hplan.
  destruct H as (Hu' & -> & Hdel & Hown & Hreq & Ht & Hs).
  exists u, avatar. split_and!; try done.
  - unfold avatar_asked. unfold avatar_change in Hplan, Hown.
    destruct (m !! "avatar") as [a|]; [|by injection Hplan].
    case_bool_decide as Hne; [by injection Hplan|].
    specialize (Ha a eq_refl Hne).
    destruct (uuid_Parse a) as [id|]; [|done]. injection Hplan as <- _.
    destruct (Hown id eq_refl) as (resp & item & Hr & Hst & Hi).
    exists id, resp, item. split_and!; try done.
    intros owns Hh. by apply (listed_owned owns _ _ _ _ _ item Hh Hr).
  - intros o Ho Hrep. apply (planned_removal u m o) in Hrep; [| |done].
    2:{ intros a Hm Hne. specialize (Ha a Hm Hne).
        destruct (uuid_Parse a); [by eexists|done]. }
    rewrite Hplan in Hrep. simpl in Hrep. subst old.
    rewrite lookups_call in Hdel. split; [by apply Hdel|].
    by eexists.
Qed.

(** C31. An accepted profile update changed the caller's own row only: to the
    trimmed names, neither blank nor longer than 100 bytes, and to the avatar
    asked for, which the media service listed for the caller (so it is the
    caller's, if that service is honest); the answer shows the row. An avatar
    that is replaced was deleted first: its DELETE was the last request this
    update sent and the media service answered it with 204 or 200; and on
    every path of the update, accepted or not, the database changes only if
    that DELETE was so confirmed. *)
Theorem profile_update_exact r ws w w' :
  db_ok (w_db w) →
  run (handler s EpProfileUpdate r) w = (ws, w') →
  let token := TrimPrefix (rq_authorization r) "Bearer " in
  (* an update that is accepted *)
  (∀ p, ws = [WriteJSON 200 (JProfile p)] →
   ∃ userID m u avatar,
     rq_user r = Some userID ∧
     json_Decode (tags Profile.UpdateProfileRequest) (rq_body r) = Ok m ∧
     users (w_db w) !! userID = Some u ∧
     valid_name (str "firstName" m) ∧ valid_name (str "lastName" m) ∧
     avatar_asked token (m !! "avatar") (User.AvatarMediaID u) avatar w ∧
     let row := User.UpdateProfile u (TrimSpace (str "firstName" m))
                  (TrimSpace (str "lastName" m)) avatar
                  (pg_ts (reading 0 w)) in
     users (w_db w') = <[userID := row]> (users (w_db w)) ∧
     p = newResponse row ∧
     (∀ old, User.AvatarMediaID u = Some old →
        avatar_replaced (m !! "avatar") old →
        media_deleted s token old
          (lookups (m !! "avatar") + n_http (w_counters w)) ∧
        ∃ before, w_requests w' = media_delete_request s token old :: before) ∧
     (∀ T, T ≠ Users → same_table T (w_db w) (w_db w')) ∧
     w_sessions w' = w_sessions w) ∧
  (* and on every path the row is written after the deletion *)
  (w_db w' = w_db w ∨
   ∃ userID m u,
     rq_user r = Some userID ∧
     json_Decode (tags Profile.UpdateProfileRequest) (rq_body r) = Ok m ∧
     users (w_db w) !! userID = Some u ∧
     ∀ old, User.AvatarMediaID u = Some old →
       avatar_replaced (m !! "avatar") old →
       media_deleted s token old
         (lookups (m !! "avatar") + n_http (w_counters w))).
Proof.
  intros Hok H token. simpl in H. unfold handle_Update, requireAuth in H.
  destruct (rq_user r) as [userID|].
  2:{ injection H as <- <-. split; [by intros p [=]|by left]. }
  apply run_with_body in H as [(m & Hj & Hv & H)|(-> & ? & ? & ? & Hws)].
  2:{ split; [|by left]. intros p ->. by destruct Hws as [? | ?]. }
  pose proof (Validate_well_formed EpProfileUpdate _ m eq_refl Hv) as Hwf.
  pose proof Hwf as (Hf & Hl & Ha). split.
  - intros p ->. apply run_answer in H as [(u' & H & [= ->])|(e & _ & He)].
    2:{ revert He. unfold profile_writeServiceError. by repeat case_match. }
    destruct (profile_updated userID token _ m _ w u' w' Hok Hwf eq_refl H
      eq_refl) as (u & avatar & Hu & Hasked & Hrest).
    exists userID, m, u, avatar. by split_and!.
  - assert (Hrun : ∃ x, run (UpdateProfile s userID token
      (mkUpdateProfileInput (TrimSpace (str "firstName" m))
         (TrimSpace (str "lastName" m)) (avatar_change m))) w = (x, w')).
    { apply run_answer in H as [(? & H & _)|(? & H & _)]; by eexists. }
    destruct Hrun as [x Hx].
    apply UpdateProfile_deletes_first in Hx as [Hx|(u & Hu & Hx)]; [by left|].
    right. exists userID, m, u. split_and!; try done. intros old Ho Hrep.
    rewrite <-lookups_call. apply Hx. apply planned_removal; [|done..].
    intros a Hm Hne. specialize (Ha a Hm Hne).
    destruct (uuid_Parse a); [by eexists|done].
Qed.
End handlers.

(** ** Witnesses *)

(** A body in the style of a form, decoded field by field. *)
Fixpoint split_at (sep : Ascii.ascii) (acc s : string) : list string :=
  match s with
  | EmptyString => [rev_string acc]
  | String c s =>
      if bool_decide (c = sep) then rev_string acc :: split_at sep "" s
      else split_at sep (String c acc) s
  end.
Definition demo_decode (tags : list string) (body : string) :
    result (gmap string string) :=
  Ok (list_to_map (omap (λ field,
    match split_at "="%char "" field with
    | [tag; v] => if bool_decide (tag ∈ tags) then Some (tag, v) else None
    | _ => None
    end) (split_at "&"%char "" body))).
#[export] Instance demo_pinger : Pinger := {| db_Ping := Ok tt |}.
#[export] Instance demo_wire : Wire := {|
  json_Decode := demo_decode;
  mail_ParseAddress a := Ok a;
  httpx_CodeInvalidBody := "invalid_body";
  httpmw_CodeMissingAuthorization := "missing_authorization"
|}.
Definition demo_request (body : string) : HTTPRequest :=
  mkHTTPRequest body (λ _, Some demo_refresh_token) "Bearer access"
    (Some 1000%N).
Definition demo_answer (e : Endpoint) (body : string) (w : World) :
    list Write * World :=
  run (handler demo_service e (demo_request body)) w.
Definition demo_fields (dto : DTO) (body : string) : gmap string string :=
  value ∅ (demo_decode (tags dto) body).

Definition demo_login_body : string :=
  "email=bee@example.com&password=correct horse".
Lemma effects_need_valid_request_witness :
  ∃ m, demo_decode (tags LoginRequest) demo_login_body = Ok m ∧
       well_formed EpLogin m.
Proof.
  destruct (effects_need_valid_request demo_service EpLogin LoginRequest
              (demo_request demo_login_body) demo_world
              (demo_answer EpLogin demo_login_body demo_world).1
              (demo_answer EpLogin demo_login_body demo_world).2)
    as (m & Hj & Hm).
  - reflexivity.
  - exact (surjective_pairing _).
  - intros E. apply (f_equal (λ w, n_io (w_counters w))) in E.
    vm_compute in E. discriminate E.
  - exists m. split; [exact Hj|exact Hm].
Defined.

Definition demo_refresh_answer : list Write * World :=
  demo_answer EpRefresh "" demo_world.
Definition demo_cookie (ws : list Write) : string :=
  match ws with SetCookie _ v _ _ :: _ => v | _ => "" end.
Definition demo_cookie_expiry (ws : list Write) : time :=
  match ws with SetCookie _ _ _ exp :: _ => exp | _ => 0%Z end.
Lemma refresh_cookie_is_session_witness :
  ∃ sess u rt, demo_cookie demo_refresh_answer.1 = s_RefreshToken sess ∧
               single_session demo_service u rt sess demo_refresh_answer.2.
Proof.
  destruct (refresh_cookie_is_session demo_service EpRefresh (demo_request "")
              demo_world demo_refresh_answer.1 demo_refresh_answer.2
              "refreshToken" (demo_cookie demo_refresh_answer.1)
              "/api/v1/auth" (demo_cookie_expiry demo_refresh_answer.1))
    as (_ & _ & _ & sess & u & rt & _ & Hv & _ & Hs).
  - reflexivity.
  - exact (surjective_pairing _).
  - apply list_elem_of_In. vm_compute. left. reflexivity.
  - exists sess, u, rt. split; [exact Hv|exact Hs].
Defined.

Definition demo_wrong_body : string :=
  "email=bee@example.com&password=wrong horse".
Lemma refused_logins_alike_witness :
  (demo_answer EpLogin demo_wrong_body demo_world).1 =
  [WriteError 401 "invalid_credentials" "invalid email or password"].
Proof.
  unfold demo_answer.
  rewrite (refused_logins_alike demo_service (demo_request demo_wrong_body)
             (demo_fields LoginRequest demo_wrong_body) demo_world).
  - reflexivity.
  - intros i. reflexivity.
  - exact demo_world_ok.
  - reflexivity.
  - vm_compute. reflexivity.
  - intros u ([k Hk] & _ & Hv & _).
    assert (Hall : any_row (λ v, is_Ok (Verify (svc_hasher demo_service)
              (User.PasswordHash v) "wrong horse")) (users (w_db demo_world))
              = false) by (vm_compute; reflexivity).
    rewrite any_row_false in Hall. specialize (Hall k u Hk).
    change (str "password" _) with "wrong horse" in Hv.
    cbv beta in Hall. rewrite Hv in Hall. discriminate Hall.
Defined.

Definition demo_long_body : string :=
  "email=bee@example.com&password=1!aaaaaaaaaaaaaaaaaaaaaaaaaaaaaaaaaaaaaaaaaaaaaaaaaaaaaaaaaaaaaaaaaaaaaaaaaa".
Lemma long_password_internal_error_witness :
  ∃ err w', demo_answer EpRegister demo_long_body demo_start =
            ([WriteInternalError err], w') ∧ w_db w' = w_db demo_start.
Proof.
  destruct (long_password_internal_error demo_service
              (demo_request demo_long_body)
              (demo_fields RegisterRequest demo_long_body) demo_start)
    as (_ & err & w' & H & Hdb).
  - intros salt p cost H. simpl. by rewrite bool_decide_true.
  - reflexivity.
  - vm_compute. reflexivity.
  - vm_compute. lia.
  - exists err, w'. split; [exact H|exact Hdb].
Defined.

(** The avatar is set, then replaced. *)
Definition demo_profile_body (avatar : string) : string :=
  "firstName= Bee &lastName=Keeper&avatar=" +:+ avatar.
Definition demo_profile : list Write * World :=
  demo_answer EpProfileUpdate (demo_profile_body "7") demo_world.
Definition demo_replaced : list Write * World :=
  demo_answer EpProfileUpdate (demo_profile_body "8") demo_profile.2.
Definition demo_shown : ProfileResponse :=
  match demo_replaced.1 with
  | [WriteJSON _ (JProfile p)] => p
  | _ => mkProfileResponse 0 "" "" "" None
  end.
Lemma demo_profile_ok : db_ok (w_db demo_profile.2).
Proof. unfold demo_profile, demo_answer. apply run_ok. exact demo_world_ok. Qed.
Lemma demo_profile_user :
  User.AvatarMediaID <$> users (w_db demo_profile.2) !! 1000%N =
  Some (Some 7%N).
Proof. vm_compute. reflexivity. Qed.

Lemma profile_update_exact_witness :
  demo_shown = mkProfileResponse 1000 "bee@example.com" "Bee" "Keeper"
                 (Some 8%N) ∧
  (∃ u, users (w_db demo_replaced.2) =
          <[1000%N := u]> (users (w_db demo_profile.2)) ∧
        demo_shown = newResponse u) ∧
  media_deleted demo_service "access" 7
    (1 + n_http (w_counters demo_profile.2)).
Proof.
  split; [vm_compute; reflexivity|].
  destruct (profile_update_exact demo_service
              (demo_request (demo_profile_body "8"))
              demo_replaced.1 demo_profile.2 demo_replaced.2) as [H _].
  - exact demo_profile_ok.
  - unfold demo_replaced. apply surjective_pairing.
  - destruct (H demo_shown) as (userID & m & u & avatar & Hid & Hj & Hu & _ &
      _ & _ & Hw & Hp & Hdel & _).
    + vm_compute. reflexivity.
    + injection Hid as <-. split; [eexists; split; [exact Hw|exact Hp]|].
      pose proof demo_profile_user as Ha. rewrite Hu in Ha.
      injection Ha as Ha.
      assert (Hm : m !! "avatar" = Some "8")
        by (injection Hj as <-; vm_compute; reflexivity).
      destruct (Hdel 7%N) as [Hd _]; [exact Ha| |].
      * rewrite Hm. right. exists 8%N. split; [vm_compute; reflexivity|lia].
      * rewrite Hm in Hd. exact Hd.
Defined.

(** The registration the README suggests is refused by the policy. *)
Example readme_password_refused :
  validatePassword "supersecret" = CodePasswordMissingDigit.
Proof. vm_compute. reflexivity. Qed.
