(* ===== verification/Wiring.v ===== *)
(** * What a started server has

    A configuration that loads and wires sets every required variable, and
    gives the deletion worker a client, at its own address and with the
    internal token, for every service a deletion job has a step for. *)
From S2P Require Import Prelude GoBase Domain Schema Effects GoStrings.
From S2P Require Import Platform Postgres Service Demo Config.
#[local] Open Scope go_scope.

Definition required_keys : list string :=
  ["DATABASE_URL"; "REDIS_ADDR"; "JWT_PRIVATE_KEY"; "MEDIA_SERVICE_URL";
   "APIARY_SERVICE_URL"; "HIVE_SERVICE_URL"; "INSPECTION_SERVICE_URL";
   "HARVEST_SERVICE_URL"; "NOTIFICATION_SERVICE_URL";
   "SUBSCRIPTION_SERVICE_URL"; "INTERNAL_SERVICE_TOKEN";
   "TOTP_ENCRYPTION_KEY"].

(** The variable with the address of a service. *)
Definition url_key (service : string) : option string :=
  (list_to_map [("apiary", "APIARY_SERVICE_URL"); ("hive", "HIVE_SERVICE_URL");
    ("inspection", "INSPECTION_SERVICE_URL");
    ("harvest", "HARVEST_SERVICE_URL"); ("media", "MEDIA_SERVICE_URL");
    ("notification", "NOTIFICATION_SERVICE_URL");
    ("subscription", "SUBSCRIPTION_SERVICE_URL")] : gmap string string)
  !! service.

(** Membership in a concrete list. *)
Ltac member := apply (bool_decide_unpack _); vm_compute; exact I.

Section wiring.
Context `{R : Runtime, L : Lib, B : Boot}.
Variable env : string → option string.

Lemma getEnv_set key : getEnv env key "" ≠ "" → env key = Some (getEnv env key "").
Proof.
  unfold getEnv. destruct (env key) as [v|]; [|done].
  by case_bool_decide.
Qed.

Lemma first_missing_None checks :
  first_missing checks = None ↔ Forall (λ c, c.2 ≠ "") checks.
Proof.
  induction checks as [|[name v] checks IH]; simpl; [done|].
  rewrite Forall_cons, <-IH. simpl. case_bool_decide; [by split; [|intros []]|].
  by split; [|intros []].
Qed.

Lemma Load_Ok cfg :
  Load env = Ok cfg →
  cfg = read_config env ∧ Forall (λ key, getEnv env key "" ≠ "") required_keys.
Proof.
  unfold Load. cbv zeta. intros H. destruct (first_missing _) eqn:E; [done|].
  injection H as <-. split; [done|].
  apply first_missing_None in E. rewrite !Forall_app, map_order_perm in E.
  destruct E as (E1 & E2 & E3). unfold read_config, required_keys in *. simpl in *.
  rewrite !Forall_cons in *. simpl in *.
  destruct_and!. by split_and!.
Qed.

(** Every required variable is set, the private key has 64 bytes and the
    encryption key 32, and there is a cleanup client for every service of a
    deletion job and for no other, with that service's address and the
    internal token. *)
Definition complete (srv : Server) : Prop :=
  (∀ key, key ∈ required_keys → ∃ v, env key = Some v ∧ v ≠ "") ∧
  (∀ service,
     match srv_cleanup srv !! service with
     | Some client =>
         service ∈ deletionServices ∧
         ∃ key url token,
           url_key service = Some key ∧ env key = Some url ∧
           env "INTERNAL_SERVICE_TOKEN" = Some token ∧
           client = NewDeletionClient url token
     | None => service ∉ deletionServices
     end) ∧
  svc_deletion (srv_service srv) = DeletionWithCleanup ∧
  String.length (priv (svc_issuer (srv_service srv))) = 64 ∧
  ∃ key, String.length key = 32 ∧
         aes_NewCipher_GCM key = Ok (svc_cipher (srv_service srv)).

Lemma started_server_complete cfg srv :
  Load env = Ok cfg → wire cfg = Ok srv → complete srv.
Proof.
  intros [-> Hset]%Load_Ok Hw. rewrite Forall_forall in Hset.
  assert (Hv := λ key Hk, getEnv_set key (Hset key Hk)).
  split.
  { intros key Hk. eexists. split; [by apply Hv|by apply Hset]. }
  unfold wire, ParsePrivateKey in Hw.
  destruct (StdEncoding_DecodeString _) as [raw|]; [|done].
  case_bool_decide as Hlen; [done|].
  destruct (jwks_NewHandler _ _) as [[]|]; [|done].
  destruct (StdEncoding_DecodeString _) as [totpKey|]; [|done].
  unfold NewCipher in Hw. case_bool_decide as Hkey; [done|].
  destruct (aes_NewCipher_GCM totpKey) as [a|] eqn:Haes; [|done].
  injection Hw as <-. split_and!; [|done| |].
  - intros service. cbn [srv_cleanup].
    destruct (decide (service ∈ deletionServices)) as [Hin|Hout].
    + assert (Htok := Hv "INTERNAL_SERVICE_TOKEN" ltac:(member)).
      unfold deletionServices in Hin. rewrite !elem_of_cons in Hin.
      repeat destruct Hin as [-> | Hin]; [..|by apply elem_of_nil in Hin].
      all: simpl list_to_map; rewrite ?lookup_insert_ne, lookup_insert_eq by done.
      all: split; [member|].
      all: eexists _, _, _; split_and!; [done| |exact Htok|done].
      all: apply Hv; member.
    + simpl list_to_map. rewrite !lookup_insert_ne, lookup_empty;
        [exact Hout|intros <-; apply Hout; member..].
  - exact Hlen.
  - by exists totpKey.
Qed.
End wiring.

(** ** A concrete environment *)

#[export] Instance demo_runtime : Runtime.
Proof.
  refine {| time_ParseDuration _ := Err (Errorf "time: invalid duration");
            map_order l := reverse l |}.
  intros l. apply reverse_Permutation.
Defined.

#[export] Instance demo_boot : Boot := {|
  pgxpool_New _ := Ok tt;
  pool_Ping := Ok tt;
  sessionstore_NewRedisClient _ := Ok tt;
  jwks_NewHandler _ _ := Ok tt;
  server_Run := None;
  server_Shutdown _ := Ok tt
|}.

Definition zeros (n : nat) (padding : string) : string :=
  String.concat "" (replicate n "A") +:+ padding.
Definition demo_environment : gmap string string :=
  list_to_map (((λ key, (key, "http://" +:+ key)) <$> required_keys)).
Definition demo_lookup (key : string) : option string :=
  if bool_decide (key = "JWT_PRIVATE_KEY") then Some (zeros 86 "==")
  else if bool_decide (key = "TOTP_ENCRYPTION_KEY") then Some (zeros 43 "=")
  else demo_environment !! key.
Definition no_config : Config := read_config (λ _, None).
Definition no_server : Server :=
  mkServer demo_service (NewDeletionClient "" "") ∅ 0 "".
