(* ===== verification/Startup.v ===== *)
(** * Starting, stopping, and the tools

    The server releases everything it acquires, on every path, and serves
    only with both connections open; a key printed by keygen is the key the
    server signs with; dbclear touches the database only after its
    confirmation. *)
From Stdlib Require Import Ascii.
From stdpp Require Import pretty.
From S2P Require Import Prelude GoBase Domain Schema Effects GoStrings.
From S2P Require Import Platform Postgres Service Demo Config Wiring Tokens.
From S2P Require Import Process.
#[local] Open Scope proc_scope.

(** ** Orderly commands *)

(** What must be open when an action is taken. *)
Definition needs (a : action) : list resource :=
  match a with
  | StartWorker _ | StartServer _ => [SignalContext; PgPool; RedisClient]
  | ListTables | ExecSQL _ => [PgPool]
  | _ => []
  end.

(** [open] without [r], if it is there. *)
Fixpoint close (r : resource) (open : list resource) :
    option (list resource) :=
  match open with
  | [] => None
  | r' :: open =>
      if decide (r = r') then Some open else cons r' <$> close r open
  end.

(** Run over the actions with the open resources: only what is open is
    released, and what an action needs is open. *)
Fixpoint orderly (open : list resource) (l : list action) :
    option (list resource) :=
  match l with
  | [] => Some open
  | Acquire r :: l => orderly (r :: open) l
  | Release r :: l =>
      match close r open with
      | Some open' => orderly open' l
      | None => None
      end
  | a :: l =>
      if decide (Forall (.∈ open) (needs a)) then orderly open l else None
  end.

Ltac in_trace :=
  rewrite ?list_elem_of_In; cbn [List.In]; intuition (congruence || eauto).

(** Evaluate [orderly] on a trace whose actions are known. *)
Ltac orderly_step :=
  first
    [ rewrite decide_True by done
    | rewrite decide_False by discriminate
    | rewrite decide_True by (repeat constructor; in_trace) ].
Ltac run_orderly :=
  cbn [orderly needs fst snd ret act andThen app close
    fmap option_fmap option_map];
  repeat (orderly_step; cbn [orderly needs close fmap option_fmap option_map]); try done.

(** A path that never reaches the server. *)
Ltac never_served :=
  cbn [fst snd ret act andThen app]; split_and!;
  [ run_orderly | intros addr; in_trace
  | right; split; [done|intros cfg' _ _ addr; in_trace] ].

Section server.
Context `{R : Runtime, L : Lib, B : Boot}.
Variable env : string → option string.

Definition clean_stop (cfg : Config) : Prop :=
  match server_Run with
  | Some r => r = Ok tt
  | None => server_Shutdown (HTTPShutdownTimeout cfg) = Ok tt
  end.

(** C36. On every path cmd/server releases what it acquired and nothing else;
    it serves only with both connections open and a complete configuration
    (every required variable, a 64-byte private key, a 32-byte encryption key,
    a cleanup client for every service of a deletion job and for no other),
    its worker started; it exits with 0 exactly when it served and stopped
    without an error. *)
Theorem server_orderly :
  orderly [] (server_main env).1 = Some [] ∧
  (∀ addr, StartServer addr ∈ (server_main env).1 →
     ∃ cfg srv, Load env = Ok cfg ∧ wire cfg = Ok srv ∧ complete env srv ∧
       addr = ":" +:+ HTTPPort cfg ∧
       StartWorker (srv_worker_interval srv) ∈ (server_main env).1) ∧
  ((server_main env).2 = 0%Z ∧
     (∃ cfg addr, Load env = Ok cfg ∧ clean_stop cfg ∧
        StartServer addr ∈ (server_main env).1) ∨
   (server_main env).2 = 1%Z ∧
     (∀ cfg, Load env = Ok cfg → clean_stop cfg →
        ∀ addr, StartServer addr ∉ (server_main env).1)).
Proof.
  unfold server_main, server_run, serve_until_signal, within, deferring,
    postgres_New, redis_New, clean_stop.
  destruct (Load env) as [cfg|] eqn:El; [|never_served].
  destruct (pgxpool_New _); [|never_served].
  destruct pool_Ping; [|never_served].
  destruct (sessionstore_NewRedisClient _); [|never_served].
  destruct (wire cfg) as [srv|] eqn:Ew; [|never_served].
  destruct server_Run as [[[]|]|]; [| |destruct (server_Shutdown _) as [[]|] eqn:Es].
  all: cbn [fst snd ret act andThen app]; split_and!; [run_orderly| |].
  all: try (intros addr Hin; exists cfg, srv; split; [done|]; split; [done|];
            split; [by apply (started_server_complete env cfg)|]; split;
            [rewrite list_elem_of_In in Hin; cbn [List.In] in Hin;
             intuition congruence|in_trace]).
  all: try (left; split; [done|]; exists cfg, (":" +:+ HTTPPort cfg);
            split_and!; [done..|in_trace]).
  all: right; split; [done|]; intros cfg' [= <-]; congruence.
Qed.
End server.

(** ** dbclear *)

Section dbclear.
Context `{B : Boot, C : Catalog, U : Unicode}.

Lemma application_tables_spec t :
  t ∈ application_tables ↔
  ("public", t) ∈ pg_tables ∧ t ≠ "schema_migrations".
Proof.
  unfold application_tables. rewrite order_by_perm, list_elem_of_fmap. split.
  - intros ([sch t'] & -> & Hin).
    apply list_elem_of_filter in Hin as [[Hs Hne] Hin].
    simpl in *. by subst sch.
  - intros [Hin Hne]. exists ("public", t). split; [done|].
    by apply list_elem_of_filter.
Qed.

(** The actions of ClearAllData: the list of tables, and at most one
    statement, which names them all. *)
Lemma ClearAllData_trace :
  ClearAllData.1 = [ListTables] ∨
  application_tables ≠ [] ∧
  ClearAllData.1 = [ListTables; ExecSQL (truncate_stmt application_tables)].
Proof.
  unfold ClearAllData. cbn [andThen fst snd act app].
  destruct list_error; [by left|].
  destruct (if bool_decide _ then _ else _); [by left|].
  destruct rows_error; [by left|]. case_bool_decide; [by left|]. right.
  split; [done|]. by destruct truncate_error.
Qed.

(** dbclear touches the database only with the flag or the typed
    confirmation, empties exactly the application's tables in one statement,
    never the migrations' own, and closes its connections on every path. *)
Lemma dbclear_confirmed env yes answer :
  let trace := (dbclear_main env yes answer).1 in
  orderly [] trace = Some [] ∧
  (∀ a, a ∈ trace → PgPool ∈ needs a ∨ a = Acquire PgPool →
     yes = true ∨ TrimSpace answer = "yes") ∧
  (∀ sql, ExecSQL sql ∈ trace →
     application_tables ≠ [] ∧ sql = truncate_stmt application_tables) ∧
  (∀ t, t ∈ application_tables ↔
     ("public", t) ∈ pg_tables ∧ t ≠ "schema_migrations").
Proof.
  cbv zeta. split_and!; [..|apply application_tables_spec].
  all: pose proof ClearAllData_trace as Htr;
    unfold dbclear_main, dbclear_run, confirm, postgres_New, deferring;
    destruct ClearAllData as [tr r]; cbn [fst] in Htr.
  all: destruct (bool_decide (default "" (env "DATABASE_URL") = ""));
    [|destruct yes; [|destruct (bool_decide (TrimSpace answer = "yes")) eqn:Ha;
      [apply bool_decide_eq_true in Ha|]];
      try (destruct (pgxpool_New _); [destruct pool_Ping;
        [destruct Htr as [-> |[Hne ->]]; destruct r as [[|]|]|]|])].
  all: cbn [fst snd ret act andThen app negb].
  all: try solve [run_orderly].
  all: try (intros a' _ _; solve [by left|by right]).
  all: intros a'; rewrite list_elem_of_In; cbn [List.In needs]; intros Hin;
    try (split; intuition congruence).
  all: intros [Hp|Hp]; repeat destruct Hin as [<-|Hin]; try done;
    by apply elem_of_nil in Hp.
Qed.
End dbclear.

(** ** keygen *)

Lemma std_value_char z : (0 ≤ z < 64)%Z → std_value (std_char z) = Some z.
Proof.
  intros Hz.
  assert (Hall : Forall (λ z, std_value (std_char z) = Some z) (seqZ 0 64))
    by (apply (bool_decide_unpack _); vm_compute; exact I).
  rewrite Forall_forall in Hall. apply Hall, elem_of_seqZ. lia.
Qed.

(** The alphabet has no padding and no line ends. *)
Lemma std_char_plain z :
  (0 ≤ z < 64)%Z →
  byte_Z (std_char z) ≠ 61%Z ∧ byte_Z (std_char z) ≠ 10%Z ∧
  byte_Z (std_char z) ≠ 13%Z.
Proof.
  intros Hz.
  assert (Hall : Forall (λ z, byte_Z (std_char z) ≠ 61%Z ∧
      byte_Z (std_char z) ≠ 10%Z ∧ byte_Z (std_char z) ≠ 13%Z) (seqZ 0 64))
    by (apply (bool_decide_unpack _); vm_compute; exact I).
  rewrite Forall_forall in Hall. apply Hall, elem_of_seqZ. lia.
Qed.

Ltac split_bytes :=
  repeat match goal with
  | H : Forall _ (_ :: _) |- _ => apply Forall_cons in H as [? H]
  end;
  repeat match goal with
  | H : is_byte ?z |- _ =>
      destruct (byte_digits z 4 64 H) as (? & ? & ?); [lia|lia|];
      destruct (byte_digits z 16 16 H) as (? & ? & ?); [lia|lia|];
      destruct (byte_digits z 64 4 H) as (? & ? & ?); [lia|lia|];
      clear H
  end.

Lemma std_char_pad z :
  (0 ≤ z < 64)%Z → bool_decide (byte_Z (std_char z) = 61%Z) = false.
Proof. intros Hz. apply bool_decide_eq_false. by apply std_char_plain. Qed.

Lemma std_quads_chars n l :
  length l ≤ n → Forall is_byte l → std_quads (std_chars l) = Some l.
Proof.
  revert l. induction n as [|n IH]; intros l Hl Hb.
  { destruct l; [done|simpl in Hl; lia]. }
  destruct l as [|a [|b [|c l]]]; [done| | |]; split_bytes;
    cbn [std_chars std_quads]; rewrite !std_value_char by lia;
    cbn [mbind option_bind]; rewrite ?std_char_pad by lia;
    rewrite ?(bool_decide_true (byte_Z std_pad = 61%Z)) by done.
  - rewrite bool_decide_true by done.
    rewrite <-(Z.add_0_r (a `mod` 4 * 16)), div_digits by lia.
    repeat f_equal. lia.
  - rewrite bool_decide_true by done.
    rewrite <-(Z.add_0_r (b `mod` 16 * 4)).
    rewrite !div_digits, !mod_digits by lia. repeat f_equal; lia.
  - rewrite IH; [|simpl in Hl; lia|done]. cbn [mbind option_bind].
    rewrite !div_digits, !mod_digits by lia. repeat f_equal; lia.
Qed.

(** The encoder writes no line ends. *)
Lemma std_chars_plain n l :
  length l ≤ n → Forall is_byte l →
  Forall (λ c, byte_Z c ≠ 10 ∧ byte_Z c ≠ 13)%Z (std_chars l).
Proof.
  revert l. induction n as [|n IH]; intros l Hl Hb.
  { destruct l; [constructor|simpl in Hl; lia]. }
  destruct l as [|a [|b [|c l]]]; [constructor| | |]; split_bytes;
    cbn [std_chars]; repeat apply Forall_cons_2;
    try (apply std_char_plain; lia); try done.
  apply IH; [simpl in Hl; lia|done].
Qed.

Lemma of_Zs_to_Zs s : of_Zs (to_Zs s) = s.
Proof.
  unfold of_Zs, to_Zs. rewrite <-(bytes_string_bytes s) at 2. f_equal.
  induction (string_bytes s) as [|a l IH]; [done|]. simpl. f_equal; [|exact IH].
  apply Z_byte_Z.
Qed.

Lemma filter_plain l :
  Forall (λ c, byte_Z c ≠ 10 ∧ byte_Z c ≠ 13)%Z l →
  filter (λ c, byte_Z c ≠ 10 ∧ byte_Z c ≠ 13)%Z l = l.
Proof.
  induction 1 as [|c l Hc _ IH]; [done|]. by rewrite filter_cons_True, IH.
Qed.

Lemma StdEncoding_roundtrip s :
  StdEncoding_DecodeString (StdEncoding_EncodeToString s) = Ok s.
Proof.
  unfold StdEncoding_DecodeString, StdEncoding_EncodeToString.
  rewrite string_bytes_string, filter_plain
    by (eapply std_chars_plain; [reflexivity|apply to_Zs_bytes]).
  rewrite (std_quads_chars (length (to_Zs s))); [|done|apply to_Zs_bytes].
  by rewrite of_Zs_to_Zs.
Qed.

(** C34. What keygen prints for a 64-byte key is accepted by the server:
    ParsePrivateKey reads the same key back, and a server configured with it
    signs with that key under the key id keygen printed. *)
Theorem keygen_key_accepted `{L : Lib, B : Boot} pub priv :
  String.length priv = 64 → Public priv = pub →
  ∃ value id,
    (keygen_main (Ok (pub, priv))).1 =
      [Stdout ("JWT_PRIVATE_KEY=" +:+ value); Stdout ("# kid: " +:+ id)] ∧
    ParsePrivateKey value = Ok priv ∧
    ∀ cfg srv, JWTPrivateKey cfg = value → wire cfg = Ok srv →
      svc_issuer (srv_service srv) = mkIssuer priv id (AccessTokenTTL cfg) ∧
      srv_kid srv = id.
Proof.
  intros Hlen Hpub.
  assert (Hparse : ParsePrivateKey (StdEncoding_EncodeToString priv) = Ok priv).
  { unfold ParsePrivateKey. rewrite StdEncoding_roundtrip.
    by rewrite bool_decide_false by (rewrite Hlen; by intros H). }
  exists (StdEncoding_EncodeToString priv), (KeyID pub).
  split; [done|]. split; [done|]. intros cfg srv Hcfg. unfold wire.
  rewrite Hcfg, Hparse, Hpub. destruct (jwks_NewHandler _ _); [|done].
  destruct (StdEncoding_DecodeString _); [|done].
  destruct (NewCipher _); [|done]. by intros [= <-].
Qed.

(** A key whose bytes are the numbers from 0 on, and a server configured
    with what keygen prints for it. *)
Definition demo_key : string := of_Zs (seqZ 0 64).
Definition keygen_lookup (key : string) : option string :=
  if bool_decide (key = "JWT_PRIVATE_KEY")
  then Some (StdEncoding_EncodeToString demo_key) else demo_lookup key.
Definition keygen_config : Config := value no_config (Load keygen_lookup).
Definition keygen_server : Server := value no_server (wire keygen_config).

Lemma keygen_key_accepted_witness :
  (keygen_main (Ok (Public demo_key, demo_key))).1 !! 0 =
    Some (Stdout ("JWT_PRIVATE_KEY=" +:+ JWTPrivateKey keygen_config)) ∧
  ParsePrivateKey (JWTPrivateKey keygen_config) = Ok demo_key ∧
  srv_kid keygen_server = KeyID (Public demo_key).
Proof.
  destruct (keygen_key_accepted (Public demo_key) demo_key)
    as (value & id & Hout & Hparse & Hserve);
    [vm_compute; reflexivity|reflexivity|].
  assert (Hid : id = KeyID (Public demo_key)).
  { vm_compute in Hout. injection Hout as _ Hid.
    rewrite <-Hid. vm_compute. reflexivity. }
  assert (Hval : value = JWTPrivateKey keygen_config).
  { vm_compute in Hout. injection Hout as Hval _.
    rewrite <-Hval. vm_compute. reflexivity. }
  destruct (Hserve keygen_config keygen_server) as [_ Hkid].
  - rewrite Hval. reflexivity.
  - vm_compute. reflexivity.
  - rewrite <-Hval. split_and!; [|exact Hparse|].
    + rewrite Hout. reflexivity.
    + rewrite Hkid. exact Hid.
Defined.
